(** * DelayInput: the typing worker and its control surface

    A shallow embedding of [src/DelayInput.py]: the class [TypingWorker]
    (the background unit that replays a text as keystrokes) and the
    handlers of [MainWindow] that drive it (resume, cancel, hotkey
    commit).  Python integers are [Z], a [str] that is inspected
    character by character is the list of its code points, window titles
    and messages are [string]s, and the float expression that computes
    the progress percentage is evaluated in binary64. *)

From Stdlib Require Import ZArith QArith Qround Qpower Lia Lqa List String Ascii Bool Sorted.
From Stdlib Require Import PrimFloat SpecFloat FloatOps Uint63.
From Stdlib Require Import DecimalString Qabs.
Import ListNotations.
Local Open Scope Z_scope.

(** ** Binary64 arithmetic

    [int(i / length * 100)] is float arithmetic: [i / length] is the
    correctly rounded quotient of the two integers, the product with
    [100] is rounded again, and [int] truncates.  Rounding is to nearest,
    ties to even, on 53 significant bits with exponents down to the
    subnormal [2^-1074].  Only non-negative values below the overflow
    threshold occur in the program (they are at most 100). *)

Module Binary64.

Definition prec : Z := 53.
Definition emin : Z := -1074.

Definition two : Q := 2 # 1.

(** Nearest integer, ties to the even one. *)
Definition round_half_even (x : Q) : Z :=
  let f := Qfloor x in
  match ((x - inject_Z f) ?= (1 # 2))%Q with
  | Lt => f
  | Gt => f + 1
  | Eq => if Z.even f then f else f + 1
  end.

(** Exponent of the unit in the last place of a positive [x]: the [e]
    with [2^(e+52) <= x < 2^(e+53)], but never below [emin]. *)
Definition ulp_exp (x : Q) : Z :=
  let e0 := Z.log2 (Qnum x) - Z.log2 (Zpos (Qden x)) - prec in
  let e := if Qle_bool (two ^ (e0 + prec)) x then e0 + 1 else e0 in
  Z.max e emin.

(** The double nearest to a non-negative rational. *)
Definition round (x : Q) : Q :=
  if Qle_bool x 0 then 0%Q
  else
    let e := ulp_exp x in
    (inject_Z (round_half_even (x / two ^ e)) * two ^ e)%Q.

(** [a / b] on Python ints (true division), for [0 <= a] and [0 < b]. *)
Definition int_truediv (a b : Z) : Q := round (inject_Z a / inject_Z b).

(** [x * y] on floats. *)
Definition mul (x y : Q) : Q := round (x * y).

(** [int(x)] for a non-negative float. *)
Definition to_int (x : Q) : Z := Qfloor x.

End Binary64.

(** [int(i / length * 100)], as [run] computes it. *)
Definition percent_of (i length : nat) : Z :=
  Binary64.to_int
    (Binary64.mul (Binary64.int_truediv (Z.of_nat i) (Z.of_nat length))
                  (inject_Z 100)).


(** The same expression on the primitive floats of Rocq, which are the
    binary64 numbers of the machine, for operands below [2^53] (they
    convert to floats exactly), and the exact value of a float. *)
Definition percent_float (i length : Z) : float :=
  (PrimFloat.of_uint63 (Uint63.of_Z i) / PrimFloat.of_uint63 (Uint63.of_Z length)
   * PrimFloat.of_uint63 (Uint63.of_Z 100))%float.

Definition float_value (f : float) : option Q :=
  match Prim2SF f with
  | S754_zero _ => Some 0%Q
  | S754_finite false m e => Some (inject_Z (Zpos m) * Binary64.two ^ e)%Q
  | _ => None
  end.

(** Whether [Binary64] and the primitive floats agree on [i / length * 100]. *)
Definition agrees_with_float (i length : Z) : bool :=
  match float_value (percent_float i length) with
  | Some q =>
      Qeq_bool q (Binary64.mul (Binary64.int_truediv i length) (inject_Z 100))
  | None => false
  end.

(** ** The world around the worker

    The worker thread talks to four things it does not control: the
    control surface (which calls [stop], [pause], [resume] and
    [set_target_window] on it from the GUI thread), the foreground-window
    query, the two keystroke libraries, and the random generator.  A
    [World] fixes what each of them answers at every step of the worker's
    clock; a theorem quantified over all worlds covers every way the
    calls of the control surface can fall between the worker's reads of
    the shared flags, and every failure pattern of the libraries. *)

(** What a library call does: it returns, or it raises [Exception(msg)]. *)
Inductive outcome (A : Type) : Type :=
| Returns (a : A)
| Raises (msg : string).
Arguments Returns {A} a.
Arguments Raises {A} msg.

(** A method call made by the control surface on the worker object. *)
Inductive Call : Type :=
| call_stop
| call_pause
| call_resume
| call_set_target_window (title : option string).

Record World : Type := {
  (** calls that land on the worker object, handed over before each read
      of the shared flags and once more before the final signal *)
  inbox : nat -> list Call;
  (** [pyautogui.getActiveWindowTitle()]: a title, [None], or an exception *)
  getActiveWindowTitle : nat -> outcome (option string);
  (** [keyboard.write(...)] *)
  keyboard_write : nat -> outcome unit;
  (** [pyautogui.write(...)] and [pyautogui.press(...)] *)
  pyautogui_call : nat -> outcome unit;
  (** the bits [random.randint] draws from *)
  random_bits : nat -> Z
}.

(** Everything the worker does that is visible from outside: the library
    calls it makes, with their outcomes, and the signals it emits.  The
    two call sites of [time.sleep] are kept apart. *)
Inductive Event : Type :=
| ev_keyboard_write (s : list N) (r : outcome unit)
| ev_pyautogui_write (s : list N) (r : outcome unit)
| ev_pyautogui_press (key : string) (r : outcome unit)
| ev_getActiveWindowTitle (r : outcome (option string))
| ev_randint (a b : Z) (r : outcome Z)
| ev_sleep_poll                       (* time.sleep(0.05) *)
| ev_sleep_delay (delay_ms : Z)       (* time.sleep(delay_ms / 1000.0) *)
| progress_changed (percent : Z)
| finished
| stopped
| error (msg : string)
| focus_paused.

(** Python truth value of a title ([None] and the empty string are false). *)
Definition truthy (t : option string) : bool :=
  match t with
  | Some s => negb (String.eqb s EmptyString)
  | None => false
  end.

(** [a == b] on titles. *)
Definition title_eqb (a b : option string) : bool :=
  match a, b with
  | Some x, Some y => String.eqb x y
  | None, None => true
  | _, _ => false
  end.

(** ** class TypingWorker *)

Module TypingWorker.

Record t : Type := mk {
  text : list N;
  base_delay_ms : Z;
  use_random : bool;
  rand_min_ms : Z;
  rand_max_ms : Z;
  _stop_flag : bool;
  _pause_flag : bool;
  target_window_title : option string
}.

Definition __init__ (text : list N) (base_delay_ms : Z) (use_random : bool)
    (rand_min_ms rand_max_ms : Z) (target_window_title : option string) : t :=
  let '(rand_min_ms, rand_max_ms) :=
    if rand_max_ms <? rand_min_ms then (rand_max_ms, rand_min_ms)
    else (rand_min_ms, rand_max_ms) in
  mk text base_delay_ms use_random rand_min_ms rand_max_ms false false
     target_window_title.

Definition set_stop_flag (b : bool) (w : t) : t :=
  mk (text w) (base_delay_ms w) (use_random w) (rand_min_ms w) (rand_max_ms w)
     b (_pause_flag w) (target_window_title w).

Definition set_pause_flag (b : bool) (w : t) : t :=
  mk (text w) (base_delay_ms w) (use_random w) (rand_min_ms w) (rand_max_ms w)
     (_stop_flag w) b (target_window_title w).

Definition stop : t -> t := set_stop_flag true.
Definition pause : t -> t := set_pause_flag true.
Definition resume : t -> t := set_pause_flag false.

Definition set_target_window (title : option string) (w : t) : t :=
  mk (text w) (base_delay_ms w) (use_random w) (rand_min_ms w) (rand_max_ms w)
     (_stop_flag w) (_pause_flag w) title.

Definition apply_call (w : t) (c : Call) : t :=
  match c with
  | call_stop => stop w
  | call_pause => pause w
  | call_resume => resume w
  | call_set_target_window title => set_target_window title w
  end.

Definition _is_fast_char (ch : N) : bool :=
  if (ch =? 10)%N || (ch =? 9)%N then false
  else (32 <=? ch)%N.

Definition max_chunk : nat := 40.

(** The inner [while] of the fast path: it appends [text[i]] to
    [chunk_chars] while [i < length], the chunk is shorter than
    [max_chunk] and the character is a fast one.  [room] is
    [max_chunk - len(chunk_chars)]. *)
Fixpoint collect_chunk (room : nat) (text : list N) (i : nat)
    (chunk_chars : list N) : nat * list N :=
  match room with
  | O => (i, chunk_chars)
  | S room' =>
      match nth_error text i with
      | Some ch =>
          if _is_fast_char ch
          then collect_chunk room' text (S i) (chunk_chars ++ [ch])
          else (i, chunk_chars)
      | None => (i, chunk_chars)
      end
  end.

(** *** The worker's thread of control *)

Record St : Type := mkSt {
  self : t;
  clock : nat;
  trace : list Event
}.

(** A step either returns a value, raises [Exception(msg)], or is still
    idling in the pause loop when the poll budget of the model runs
    out. *)
Inductive result (A : Type) : Type :=
| Ret (a : A)
| Exn (msg : string)
| Idling.
Arguments Ret {A} a.
Arguments Exn {A} msg.
Arguments Idling {A}.

Definition M (A : Type) : Type := St -> result A * St.

Definition ret {A} (a : A) : M A := fun st => (Ret a, st).

Definition bind {A B} (m : M A) (k : A -> M B) : M B :=
  fun st =>
    match m st with
    | (Ret a, st') => k a st'
    | (Exn msg, st') => (Exn msg, st')
    | (Idling, st') => (Idling, st')
    end.

Definition raise {A} (msg : string) : M A := fun st => (Exn msg, st).

(** [try: m except Exception as e: h(str(e))] *)
Definition try_except {A} (m : M A) (h : string -> M A) : M A :=
  fun st =>
    match m st with
    | (Exn msg, st') => h msg st'
    | r => r
    end.

Declare Scope worker_scope.
Delimit Scope worker_scope with worker.
Notation "x <- m ;; k" := (bind m (fun x => k))
  (at level 61, m at next level, right associativity) : worker_scope.
Notation "m ;; k" := (bind m (fun _ => k))
  (at level 61, right associativity) : worker_scope.
Local Open Scope worker_scope.

Definition get_self : M t := fun st => (Ret (self st), st).

Definition modify_self (f : t -> t) : M unit :=
  fun st => (Ret tt, mkSt (f (self st)) (clock st) (trace st)).

Definition tick : M nat :=
  fun st => (Ret (clock st), mkSt (self st) (S (clock st)) (trace st)).

Definition emit (e : Event) : M unit :=
  fun st => (Ret tt, mkSt (self st) (clock st) (trace st ++ [e])).

Definition of_outcome {A} (r : outcome A) : M A :=
  match r with
  | Returns a => ret a
  | Raises msg => raise msg
  end.

(** [random.randint(a, b)]: an integer of [a..b], both ends included;
    [ValueError] on an empty range. *)
Definition randint_value (a b bits : Z) : outcome Z :=
  if a <=? b then Returns (a + bits mod (b - a + 1))
  else Raises "empty range for randrange()".

Section WithWorld.

Variable env : World.

(** Calls of the control surface take effect on the shared object before
    the worker reads it. *)
Definition deliver : M unit :=
  now <- tick ;;
  modify_self (fun w => fold_left apply_call (inbox env now) w).

Definition call_keyboard_write (s : list N) : M unit :=
  now <- tick ;;
  emit (ev_keyboard_write s (keyboard_write env now)) ;;
  of_outcome (keyboard_write env now).

Definition call_pyautogui_write (s : list N) : M unit :=
  now <- tick ;;
  emit (ev_pyautogui_write s (pyautogui_call env now)) ;;
  of_outcome (pyautogui_call env now).

Definition call_pyautogui_press (key : string) : M unit :=
  now <- tick ;;
  emit (ev_pyautogui_press key (pyautogui_call env now)) ;;
  of_outcome (pyautogui_call env now).

Definition call_getActiveWindowTitle : M (option string) :=
  now <- tick ;;
  emit (ev_getActiveWindowTitle (getActiveWindowTitle env now)) ;;
  of_outcome (getActiveWindowTitle env now).

Definition call_randint (a b : Z) : M Z :=
  now <- tick ;;
  emit (ev_randint a b (randint_value a b (random_bits env now))) ;;
  of_outcome (randint_value a b (random_bits env now)).

Definition _safe_write (text : list N) : M unit :=
  try_except (call_keyboard_write text)
             (fun _ => call_pyautogui_write text).

Definition _fast_type_chunk (chunk : list N) : M unit :=
  match chunk with
  | [] => ret tt
  | _ :: _ => _safe_write chunk
  end.

Definition _check_focus : M unit :=
  deliver ;;
  w <- get_self ;;
  if negb (truthy (target_window_title w)) || _stop_flag w || _pause_flag w
  then ret tt
  else
    queried <- try_except
                 (current_title <- call_getActiveWindowTitle ;;
                  ret (Some current_title))
                 (fun _ => ret None) ;;
    match queried with
    | None => ret tt                            (* except Exception: return *)
    | Some current_title =>
        if negb (truthy current_title)
           || negb (title_eqb current_title (target_window_title w))
        then modify_self pause ;; emit focus_paused
        else ret tt
    end.

Definition _type_char (ch : N) : M unit :=
  if (ch =? 10)%N then
    try_except (call_keyboard_write [10%N])
               (fun _ => call_pyautogui_press "enter")
  else if (ch =? 9)%N then
    try_except (call_keyboard_write [9%N])
               (fun _ => call_pyautogui_press "tab")
  else if (ch <? 32)%N then
    if (ch =? 8)%N then call_pyautogui_press "backspace"
    else if (ch =? 27)%N then call_pyautogui_press "esc"
    else ret tt
  else _safe_write [ch].

(** [while self._pause_flag and not self._stop_flag: time.sleep(0.05)] *)
Fixpoint pause_idle (polls : nat) : M unit :=
  deliver ;;
  w <- get_self ;;
  if _pause_flag w && negb (_stop_flag w) then
    match polls with
    | O => fun st => (Idling, st)
    | S polls' => emit ev_sleep_poll ;; pause_idle polls'
    end
  else ret tt.

(** The pacing at the end of a unit of the paced path. *)
Definition pace : M unit :=
  w <- get_self ;;
  delay_ms <-
    (if use_random w
     then r <- call_randint (rand_min_ms w) (rand_max_ms w) ;;
          ret (base_delay_ms w + r)
     else ret (base_delay_ms w)) ;;
  if 0 <? delay_ms then emit (ev_sleep_delay delay_ms) else ret tt.

(** The unit at [i]: a batch in the fast path, one character otherwise.
    Returns the new [i]. *)
Definition type_unit (fast_mode : bool) (i : nat) : M nat :=
  w <- get_self ;;
  match nth_error (text w) i with
  | None => raise "string index out of range"
  | Some ch =>
      if fast_mode && _is_fast_char ch then
        let '(i', chunk_chars) := collect_chunk max_chunk (text w) i [] in
        _fast_type_chunk chunk_chars ;;
        ret i'
      else
        _type_char ch ;;
        ret (S i)
  end.

(** The end of a turn: the unit at [i] is typed, the progress reported,
    and the paced path sleeps.  Returns the new [i]. *)
Definition type_and_report (length : nat) (fast_mode : bool) (i : nat)
    : M (option nat) :=
  i' <- type_unit fast_mode i ;;
  emit (progress_changed (percent_of i' length)) ;;
  (if negb fast_mode then pace else ret tt) ;;
  ret (Some i').

(** One turn of [while i < length: ...]: the new [i], or [None] when the
    turn leaves [run] by [return]. *)
Definition turn (polls length : nat) (fast_mode : bool) (i : nat)
    : M (option nat) :=
  deliver ;;
  w <- get_self ;;
  if _stop_flag w then emit stopped ;; ret None
  else
    _check_focus ;;
    pause_idle polls ;;
    deliver ;;
    w <- get_self ;;
    if _stop_flag w then emit stopped ;; ret None
    else type_and_report length fast_mode i.

(** The [while] loop followed by [self.finished.emit()].  Every turn
    moves [i] forward, so [steps = length - i] turns are enough. *)
Fixpoint loop (polls steps length : nat) (fast_mode : bool) (i : nat)
    : M unit :=
  if (i <? length)%nat then
    match steps with
    | O => fun st => (Idling, st)
    | S steps' =>
        next <- turn polls length fast_mode i ;;
        match next with
        | Some i' => loop polls steps' length fast_mode i'
        | None => ret tt
        end
    end
  else
    deliver ;;
    emit finished.

Definition run (polls : nat) : M unit :=
  try_except
    (w <- get_self ;;
     let length := List.length (text w) in
     if (length =? 0)%nat then emit finished
     else
       let fast_mode := (base_delay_ms w =? 0) && negb (use_random w) in
       loop polls length length fast_mode 0)
    (fun msg => emit (error msg)).

End WithWorld.

Definition start (w : t) : St := mkSt w 0 [].

End TypingWorker.

(** ** Strings of the hotkey editor

    A hotkey sequence is split, stripped and lower-cased, and the length
    of its last token is taken in characters, so it is a list of code
    points.  White space, case conversion and [isdigit] are those of
    ASCII, which is what the editor produces for modifiers, letters,
    digits and function keys; other code points are left alone, are not
    white space and are not digits. *)

Module Str.

Definition of_string (s : string) : list N :=
  map N_of_ascii (list_ascii_of_string s).

Definition eqb (a b : list N) : bool :=
  if list_eq_dec N.eq_dec a b then true else false.

Definition is_space (c : N) : bool :=
  ((9 <=? c) && (c <=? 13) || (28 <=? c) && (c <=? 32))%N.

Fixpoint lstrip (s : list N) : list N :=
  match s with
  | c :: s' => if is_space c then lstrip s' else s
  | [] => []
  end.

Definition strip (s : list N) : list N := rev (lstrip (rev (lstrip s))).

(** [s.split(sep)] for a one-character separator *)
Fixpoint split (sep : N) (s : list N) : list (list N) :=
  match s with
  | [] => [[]]
  | c :: s' =>
      if (c =? sep)%N then [] :: split sep s'
      else match split sep s' with
           | tok :: toks => (c :: tok) :: toks
           | [] => [[c]]
           end
  end.

Fixpoint join (sep : list N) (parts : list (list N)) : list N :=
  match parts with
  | [] => []
  | [p] => p
  | p :: ps => p ++ sep ++ join sep ps
  end.

Definition lower_char (c : N) : N :=
  if ((65 <=? c) && (c <=? 90))%N then (c + 32)%N else c.

Definition upper_char (c : N) : N :=
  if ((97 <=? c) && (c <=? 122))%N then (c - 32)%N else c.

Definition lower (s : list N) : list N := map lower_char s.
Definition upper (s : list N) : list N := map upper_char s.

Definition capitalize (s : list N) : list N :=
  match s with
  | [] => []
  | c :: s' => upper_char c :: lower s'
  end.

Definition is_digit_char (c : N) : bool := ((48 <=? c) && (c <=? 57))%N.

(** [s.isdigit()]: false on the empty string *)
Definition isdigit (s : list N) : bool :=
  match s with
  | [] => false
  | _ => forallb is_digit_char s
  end.

Definition startswith (pre s : list N) : bool :=
  eqb (firstn (List.length pre) s) pre.

Definition mem (s : list N) (l : list string) : bool :=
  existsb (fun x => eqb s (of_string x)) l.

End Str.

(** ** class MainWindow

    The worker object is shared with its thread, so a handler of the
    window does not hold a copy of it: [typing_worker] records whether
    the window has a worker, and a handler returns the method calls it
    makes on that worker, which reach the thread through the world's
    [inbox]. *)

Module MainWindow.

Local Open Scope string_scope.

Inductive State : Type :=
| STATE_IDLE
| STATE_COUNTDOWN
| STATE_TYPING
| STATE_PAUSED.

Definition State_eqb (a b : State) : bool :=
  match a, b with
  | STATE_IDLE, STATE_IDLE
  | STATE_COUNTDOWN, STATE_COUNTDOWN
  | STATE_TYPING, STATE_TYPING
  | STATE_PAUSED, STATE_PAUSED => true
  | _, _ => false
  end.

Record t : Type := mk {
  windowTitle : string;
  state : State;
  current_countdown_ms : Z;
  current_resume_ms : Z;
  typing_worker : bool;                  (* self.typing_worker is not None *)
  hotkey_str : list N;
  hotkey_handle : option nat;
  hotkey_occupied : bool;
  (* widgets *)
  status_label : string;                 (* the text after "当前状态：" *)
  status_is_error : bool;
  progress_bar : Z;
  btn_pause : string;
  btn_start_enabled : bool;
  countdown_timer_active : bool;
  resume_timer_active : bool;
  hotkey_edit_text : list N;
  hotkey_edit_occupied : bool
}.

Definition _reset_timers (mw : t) : t :=
  mk (windowTitle mw) (state mw) (current_countdown_ms mw)
     (current_resume_ms mw) (typing_worker mw) (hotkey_str mw)
     (hotkey_handle mw) (hotkey_occupied mw) (status_label mw)
     (status_is_error mw) (progress_bar mw) (btn_pause mw)
     (btn_start_enabled mw) false false
     (hotkey_edit_text mw) (hotkey_edit_occupied mw).

Definition resume_timer_stop (mw : t) : t :=
  mk (windowTitle mw) (state mw) (current_countdown_ms mw)
     (current_resume_ms mw) (typing_worker mw) (hotkey_str mw)
     (hotkey_handle mw) (hotkey_occupied mw) (status_label mw)
     (status_is_error mw) (progress_bar mw) (btn_pause mw)
     (btn_start_enabled mw) (countdown_timer_active mw) false
     (hotkey_edit_text mw) (hotkey_edit_occupied mw).

Definition _update_status (text : string) (progress : option Z)
    (is_error : bool) (mw : t) : t :=
  let progress := match progress with
                  | None => progress_bar mw
                  | Some p => p
                  end in
  mk (windowTitle mw) (state mw) (current_countdown_ms mw)
     (current_resume_ms mw) (typing_worker mw) (hotkey_str mw)
     (hotkey_handle mw) (hotkey_occupied mw) text is_error progress
     (btn_pause mw) (btn_start_enabled mw) (countdown_timer_active mw)
     (resume_timer_active mw) (hotkey_edit_text mw) (hotkey_edit_occupied mw).

(** [self.state = s; self.btn_pause.setText(label)] *)
Definition set_state (s : State) (label : string) (mw : t) : t :=
  mk (windowTitle mw) s (current_countdown_ms mw)
     (current_resume_ms mw) (typing_worker mw) (hotkey_str mw)
     (hotkey_handle mw) (hotkey_occupied mw) (status_label mw)
     (status_is_error mw) (progress_bar mw) label
     (btn_start_enabled mw) (countdown_timer_active mw)
     (resume_timer_active mw) (hotkey_edit_text mw) (hotkey_edit_occupied mw).

Definition btn_start_setEnabled (b : bool) (mw : t) : t :=
  mk (windowTitle mw) (state mw) (current_countdown_ms mw)
     (current_resume_ms mw) (typing_worker mw) (hotkey_str mw)
     (hotkey_handle mw) (hotkey_occupied mw) (status_label mw)
     (status_is_error mw) (progress_bar mw) (btn_pause mw)
     b (countdown_timer_active mw)
     (resume_timer_active mw) (hotkey_edit_text mw) (hotkey_edit_occupied mw).

Definition _set_idle (text : string) (progress : option Z) (is_error : bool)
    (mw : t) : t :=
  _update_status text progress is_error
    (btn_start_setEnabled true
       (set_state STATE_IDLE "暂停" (_reset_timers mw))).

(** *** Pause, resume, cancel *)

Definition _resume_typing (active : outcome (option string))
    (from_hotkey : bool) (mw : t) : t * list Call :=
  if negb (typing_worker mw && State_eqb (state mw) STATE_PAUSED)
  then (mw, [])
  else
    let current_win := match active with
                       | Returns title => title
                       | Raises _ => None
                       end in
    if negb (truthy current_win) then
      (resume_timer_stop
         (_update_status "无法获取输入焦点(无窗口) - 恢复失败"
            (Some (progress_bar mw)) true mw), [])
    else if title_eqb current_win (Some (windowTitle mw)) then
      (resume_timer_stop
         (_update_status "输入焦点不能是本工具 - 继续暂停中"
            (Some (progress_bar mw)) true mw), [])
    else
      let tip := if from_hotkey then "输入中（快捷键继续）"%string
                 else "输入中"%string in
      (_update_status tip (Some (progress_bar mw)) false
         (set_state STATE_TYPING "暂停" mw),
       [call_set_target_window current_win; call_resume]).

Definition _cancel_typing (mw : t) : t * list Call :=
  match state mw with
  | STATE_IDLE => (mw, [])
  | STATE_COUNTDOWN =>
      (_set_idle "已取消" (Some (progress_bar mw)) false mw, [])
  | STATE_TYPING | STATE_PAUSED =>
      (_set_idle "已中止" (Some (progress_bar mw)) false mw,
       if typing_worker mw then [call_stop] else [])
  end.

Definition _on_typing_finished (mw : t) : t :=
  _set_idle "输入完成" (Some 100) false mw.

Definition _on_typing_stopped (mw : t) : t :=
  _set_idle "已中止" (Some (progress_bar mw)) false mw.

(** *** The hotkey *)

Definition _to_readable_hotkey (hotkey_str : list N) : list N :=
  Str.join (Str.of_string "+")
    (flat_map
       (fun raw =>
          let raw := Str.strip raw in
          match raw with
          | [] => []
          | _ =>
              let low := Str.lower raw in
              if Str.mem low ["ctrl"; "control"]%string
              then [Str.of_string "Ctrl"]
              else if Str.mem low ["shift"]%string
              then [Str.of_string "Shift"]
              else if Str.mem low ["alt"; "menu"]%string
              then [Str.of_string "Alt"]
              else if Str.mem low ["win"; "windows"; "meta"; "super"]%string
              then [Str.of_string "Win"]
              else [if (List.length raw =? 1)%nat then Str.upper raw
                    else Str.capitalize raw]
          end)
       (Str.split 43 hotkey_str)).

(** The code points of the prefix ["[被占用]"]. *)
Definition occupied_mark : list N := [91; 34987; 21344; 29992; 93]%N.

Definition _display_hotkey_text (hotkey_str : list N) (occupied : bool)
    : list N :=
  let base := _to_readable_hotkey hotkey_str in
  if occupied then occupied_mark ++ base else base.

Definition _set_hotkey_display (occupied : bool) (mw : t) : t :=
  mk (windowTitle mw) (state mw) (current_countdown_ms mw)
     (current_resume_ms mw) (typing_worker mw) (hotkey_str mw)
     (hotkey_handle mw) occupied (status_label mw)
     (status_is_error mw) (progress_bar mw) (btn_pause mw)
     (btn_start_enabled mw) (countdown_timer_active mw)
     (resume_timer_active mw)
     (_display_hotkey_text (hotkey_str mw) occupied) occupied.

Definition _canonicalize_sequence (seq_str : list N) : list N :=
  Str.join (Str.of_string "+")
    (flat_map
       (fun p =>
          let p := Str.strip p in
          match p with
          | [] => []
          | _ =>
              let low := Str.lower p in
              if Str.mem low ["ctrl"; "control"]%string
              then [Str.of_string "ctrl"]
              else if Str.mem low ["shift"]%string
              then [Str.of_string "shift"]
              else if Str.mem low ["alt"; "menu"]%string
              then [Str.of_string "alt"]
              else if Str.mem low ["win"; "windows"; "meta"; "super"]%string
              then [Str.of_string "windows"]
              else [low]
          end)
       (Str.split 43 seq_str)).

Definition set_hotkey (hotkey_str : list N) (handle : option nat) (mw : t)
    : t :=
  mk (windowTitle mw) (state mw) (current_countdown_ms mw)
     (current_resume_ms mw) (typing_worker mw) hotkey_str
     handle (hotkey_occupied mw) (status_label mw)
     (status_is_error mw) (progress_bar mw) (btn_pause mw)
     (btn_start_enabled mw) (countdown_timer_active mw)
     (resume_timer_active mw) (hotkey_edit_text mw) (hotkey_edit_occupied mw).

Section WithKeyboard.

(** [keyboard.add_hotkey(combo, callback)]: a handle, or an exception
    when the combination cannot be registered. *)
Variable add_hotkey : list N -> outcome nat.

Definition _register_hotkey (mw : t) : t :=
  (* the old binding is removed first, whatever remove_hotkey does *)
  let mw := set_hotkey (hotkey_str mw) None mw in
  match add_hotkey (hotkey_str mw) with
  | Returns handle =>
      _set_hotkey_display false (set_hotkey (hotkey_str mw) (Some handle) mw)
  | Raises _ => _set_hotkey_display true mw
  end.

Definition _on_hotkey_committed (seq_str : list N) (has_main_key : bool)
    (mw : t) : t :=
  let seq_str := Str.strip seq_str in
  let keep := _set_hotkey_display (hotkey_occupied mw) mw in
  match seq_str with
  | [] => keep
  | _ =>
  if negb has_main_key then keep
  else
    let parts :=
      filter (fun p => match p with [] => false | _ => true end)
             (map Str.strip (Str.split 43 seq_str)) in
    if (List.length parts <? 2)%nat then keep
    else
      let first := Str.lower (hd [] parts) in
      if negb (Str.mem first ["ctrl"; "control"; "shift"; "alt"]%string)
      then keep
      else
        let main_display := last parts [] in
        let main_low := Str.lower main_display in
        let allowed :=
          if (List.length main_display =? 1)%nat then true
          else if Str.startswith (Str.of_string "f") main_low
                  && Str.isdigit (tl main_low)
          then true
          else false in
        if negb allowed then keep
        else
          let new_hotkey := _canonicalize_sequence seq_str in
          if Str.eqb new_hotkey (hotkey_str mw) then keep
          else _register_hotkey (set_hotkey new_hotkey (hotkey_handle mw) mw)
  end.

End WithKeyboard.

End MainWindow.

(** ** Units of the text

    What the loop of [run] types in one turn, as pure functions of the
    text: the index after the unit at [i], and the string handed to the
    literal-write primitive for it. *)

Module Units.
Import TypingWorker.

Definition next_index (fast_mode : bool) (text : list N) (i : nat) : nat :=
  match nth_error text i with
  | Some ch =>
      if fast_mode && _is_fast_char ch
      then fst (collect_chunk max_chunk text i [])
      else S i
  | None => S i
  end.

Definition unit_text (fast_mode : bool) (text : list N) (i : nat) : list N :=
  match nth_error text i with
  | Some ch =>
      if fast_mode && _is_fast_char ch
      then snd (collect_chunk max_chunk text i [])
      else [ch]
  | None => []
  end.

(** The indices at which the successive units start, from [i] on.  A unit
    moves the index forward, so [steps = length - i] turns reach the end. *)
Fixpoint unit_starts (steps : nat) (fast_mode : bool) (text : list N) (i : nat)
    : list nat :=
  match steps with
  | O => []
  | S steps' =>
      if (i <? List.length text)%nat
      then i :: unit_starts steps' fast_mode text (next_index fast_mode text i)
      else []
  end.

(** The indices at which they end. *)
Definition unit_ends (fast_mode : bool) (text : list N) : list nat :=
  map (next_index fast_mode text)
      (unit_starts (List.length text) fast_mode text 0).

Definition fast_mode_of (w : t) : bool :=
  (base_delay_ms w =? 0) && negb (use_random w).

Definition progress_values (tr : list Event) : list Z :=
  flat_map (fun e => match e with progress_changed p => [p] | _ => [] end) tr.

(** The strings passed to [keyboard.write], in order. *)
Definition keyboard_attempts (tr : list Event) : list (list N) :=
  flat_map (fun e => match e with ev_keyboard_write s _ => [s] | _ => [] end) tr.

Definition is_terminal (e : Event) : bool :=
  match e with
  | finished | stopped | error _ => true
  | _ => false
  end.

(** [int(i / length * 100)] evaluated in exact arithmetic instead. *)
Definition exact_percent (i length : nat) : Z :=
  Qfloor (inject_Z (Z.of_nat i) / inject_Z (Z.of_nat length) * inject_Z 100).

End Units.

(** ** Traces of a run

    The vocabulary in which the properties of [run] are stated: which
    events belong to which part of a turn of the loop, and the shape of
    the trace the loop adds. *)

Module Traces.
Import TypingWorker Units.

Definition same_config (w w' : t) : Prop :=
  text w' = text w /\ base_delay_ms w' = base_delay_ms w /\
  use_random w' = use_random w /\ rand_min_ms w' = rand_min_ms w /\
  rand_max_ms w' = rand_max_ms w.

(** Events of the focus check and of the pause loop. *)
Definition quiet (e : Event) : Prop :=
  match e with
  | ev_getActiveWindowTitle _ | focus_paused | ev_sleep_poll => True
  | _ => False
  end.

(** The message of the exception a library call ended with. *)
Definition raised (e : Event) : option string :=
  match e with
  | ev_keyboard_write _ (Raises m) | ev_pyautogui_write _ (Raises m)
  | ev_pyautogui_press _ (Raises m) | ev_getActiveWindowTitle (Raises m)
  | ev_randint _ _ (Raises m) => Some m
  | _ => None
  end.

(** Keystroke events of a unit whose literal text is [s]. *)
Definition keystroke_for (s : list N) (e : Event) : Prop :=
  match e with
  | ev_keyboard_write s' _ | ev_pyautogui_write s' _ => s' = s
  | ev_pyautogui_press _ _ => True
  | _ => False
  end.

(** What the unit at [i] passes to [keyboard.write]. *)
Definition unit_attempts (fast_mode : bool) (text : list N) (i : nat)
    : list (list N) :=
  match nth_error text i with
  | Some ch =>
      if fast_mode && _is_fast_char ch then [unit_text fast_mode text i]
      else if (ch =? 10)%N || (ch =? 9)%N || (32 <=? ch)%N then [[ch]]
      else []
  | None => []
  end.

(** Events of the pacing after a unit. *)
Definition pacing (w : t) (e : Event) : Prop :=
  fast_mode_of w = false /\
  match e with
  | ev_randint a b r =>
      use_random w = true /\ a = rand_min_ms w /\ b = rand_max_ms w /\
      match r with
      | Returns v => a <= v <= b
      | Raises _ => b < a
      end
  | ev_sleep_delay delay_ms =>
      0 < delay_ms /\
      if use_random w
      then base_delay_ms w + rand_min_ms w <= delay_ms
           /\ delay_ms <= base_delay_ms w + rand_max_ms w
      else delay_ms = base_delay_ms w
  | _ => False
  end.

(** A literal write of [s] through [keyboard.write] and, when that
    raises, the call that replaces it. *)
Definition write_or (s : list N) (fallback : outcome unit -> Event)
    (kb pag : outcome unit) : list Event :=
  match kb with
  | Returns _ => [ev_keyboard_write s kb]
  | Raises _ => [ev_keyboard_write s kb; fallback pag]
  end.

Definition result_of (r : outcome unit) : result unit :=
  match r with
  | Returns _ => Ret tt
  | Raises msg => Exn msg
  end.

Definition write_or_result (kb pag : outcome unit) : result unit :=
  match kb with
  | Returns _ => Ret tt
  | Raises _ => result_of pag
  end.

(** The exception of a library call that no handler around the call
    catches: [pyautogui.write] and [pyautogui.press] are the last resort
    of a keystroke, and [random.randint] is called outside any [try] but
    that of [run]. *)
Definition uncaught (e : Event) : option string :=
  match e with
  | ev_pyautogui_write _ (Raises m) | ev_pyautogui_press _ (Raises m)
  | ev_randint _ _ (Raises m) => Some m
  | _ => None
  end.

(** The keystroke events of a character typed by [_type_char], whatever
    the two libraries answer, and how the call ends. *)
Definition char_strokes (ch : N) (u : list Event) (r : result unit) : Prop :=
  if (ch =? 10)%N then
    exists kb pag, u = write_or [10%N] (ev_pyautogui_press "enter"%string) kb pag
                   /\ r = write_or_result kb pag
  else if (ch =? 9)%N then
    exists kb pag, u = write_or [9%N] (ev_pyautogui_press "tab"%string) kb pag
                   /\ r = write_or_result kb pag
  else if (ch =? 8)%N then
    exists pag, u = [ev_pyautogui_press "backspace"%string pag] /\ r = result_of pag
  else if (ch =? 27)%N then
    exists pag, u = [ev_pyautogui_press "esc"%string pag] /\ r = result_of pag
  else if (ch <? 32)%N then u = [] /\ r = Ret tt
  else
    exists kb pag, u = write_or [ch] (ev_pyautogui_write [ch]) kb pag
                   /\ r = write_or_result kb pag.

(** The keystroke events of the unit at [i]: a batch of the fast path is
    one literal write of the whole batch, any other unit is its
    character typed by [_type_char]. *)
Definition unit_strokes (fast_mode : bool) (text : list N) (i : nat)
    (u : list Event) (r : result unit) : Prop :=
  match nth_error text i with
  | Some ch =>
      if fast_mode && _is_fast_char ch then
        let s := unit_text fast_mode text i in
        exists kb pag, u = write_or s (ev_pyautogui_write s) kb pag
                       /\ r = write_or_result kb pag
      else char_strokes ch u r
  | None => False
  end.

(** Events that raise nothing out of the loop. *)
Definition harmless (evs : list Event) : Prop :=
  Forall (fun e => uncaught e = None) evs.

(** The traces one turn at index [i] can add, with the result of the turn. *)
Inductive turn_shape (w : t) (i : nat)
    : list Event -> result (option nat) -> Prop :=
| turn_stopped q :
    Forall quiet q ->
    turn_shape w i (q ++ [stopped]) (Ret None)
| turn_idling q :
    Forall quiet q ->
    turn_shape w i q Idling
| turn_unit_raises q u e msg :
    Forall quiet q ->
    Forall (keystroke_for (unit_text (fast_mode_of w) (text w) i)) (u ++ [e]) ->
    keyboard_attempts (u ++ [e]) = unit_attempts (fast_mode_of w) (text w) i ->
    raised e = Some msg ->
    unit_strokes (fast_mode_of w) (text w) i (u ++ [e]) (Exn msg) ->
    turn_shape w i (q ++ u ++ [e]) (Exn msg)
| turn_pace_raises q u p e msg :
    Forall quiet q ->
    Forall (keystroke_for (unit_text (fast_mode_of w) (text w) i)) u ->
    keyboard_attempts u = unit_attempts (fast_mode_of w) (text w) i ->
    Forall (pacing w) (p ++ [e]) ->
    raised e = Some msg ->
    unit_strokes (fast_mode_of w) (text w) i u (Ret tt) ->
    harmless p /\ uncaught e = Some msg ->
    turn_shape w i
      (q ++ u
         ++ progress_changed
              (percent_of (next_index (fast_mode_of w) (text w) i)
                          (List.length (text w)))
         :: p ++ [e])
      (Exn msg)
| turn_typed q u p :
    Forall quiet q ->
    Forall (keystroke_for (unit_text (fast_mode_of w) (text w) i)) u ->
    keyboard_attempts u = unit_attempts (fast_mode_of w) (text w) i ->
    Forall (pacing w) p ->
    unit_strokes (fast_mode_of w) (text w) i u (Ret tt) ->
    harmless p ->
    turn_shape w i
      (q ++ u
         ++ progress_changed
              (percent_of (next_index (fast_mode_of w) (text w) i)
                          (List.length (text w)))
         :: p)
      (Ret (Some (next_index (fast_mode_of w) (text w) i))).

(** The traces [loop] can add from index [i], with the result of the loop. *)
Inductive shape (w : t) : nat -> list Event -> result unit -> Prop :=
| shape_finished i :
    (List.length (text w) <= i)%nat ->
    shape w i [finished] (Ret tt)
| shape_stopped i q :
    (i < List.length (text w))%nat -> Forall quiet q ->
    shape w i (q ++ [stopped]) (Ret tt)
| shape_idling i q :
    (i < List.length (text w))%nat -> Forall quiet q ->
    shape w i q Idling
| shape_unit_raises i q u e msg :
    (i < List.length (text w))%nat -> Forall quiet q ->
    Forall (keystroke_for (unit_text (fast_mode_of w) (text w) i)) (u ++ [e]) ->
    keyboard_attempts (u ++ [e]) = unit_attempts (fast_mode_of w) (text w) i ->
    raised e = Some msg ->
    unit_strokes (fast_mode_of w) (text w) i (u ++ [e]) (Exn msg) ->
    shape w i (q ++ u ++ [e]) (Exn msg)
| shape_pace_raises i q u p e msg :
    (i < List.length (text w))%nat -> Forall quiet q ->
    Forall (keystroke_for (unit_text (fast_mode_of w) (text w) i)) u ->
    keyboard_attempts u = unit_attempts (fast_mode_of w) (text w) i ->
    Forall (pacing w) (p ++ [e]) ->
    raised e = Some msg ->
    unit_strokes (fast_mode_of w) (text w) i u (Ret tt) ->
    harmless p /\ uncaught e = Some msg ->
    shape w i
      (q ++ u
         ++ progress_changed
              (percent_of (next_index (fast_mode_of w) (text w) i)
                          (List.length (text w)))
         :: p ++ [e])
      (Exn msg)
| shape_step i q u p rest r :
    (i < List.length (text w))%nat -> Forall quiet q ->
    Forall (keystroke_for (unit_text (fast_mode_of w) (text w) i)) u ->
    keyboard_attempts u = unit_attempts (fast_mode_of w) (text w) i ->
    Forall (pacing w) p ->
    unit_strokes (fast_mode_of w) (text w) i u (Ret tt) ->
    harmless p ->
    shape w (next_index (fast_mode_of w) (text w) i) rest r ->
    shape w i
      (q ++ u
         ++ progress_changed
              (percent_of (next_index (fast_mode_of w) (text w) i)
                          (List.length (text w)))
         :: p ++ rest)
      r.

(** The strings handed to a literal-write primitive, in order. *)
Definition written (tr : list Event) : list (list N) :=
  flat_map (fun e => match e with
                     | ev_keyboard_write s _ | ev_pyautogui_write s _ => [s]
                     | _ => []
                     end) tr.

(** The calls of the two keystroke libraries, in order. *)
Definition is_keystroke (e : Event) : bool :=
  match e with
  | ev_keyboard_write _ _ | ev_pyautogui_write _ _ | ev_pyautogui_press _ _ =>
      true
  | _ => false
  end.

Definition keystrokes (tr : list Event) : list Event := filter is_keystroke tr.

(** A trace cut at its progress reports: for each report, the events
    since the report before it and the value reported. *)
Fixpoint reports_from (seg tr : list Event) : list (list Event * Z) :=
  match tr with
  | [] => []
  | progress_changed p :: tr' => (seg, p) :: reports_from [] tr'
  | e :: tr' => reports_from (seg ++ [e]) tr'
  end.

Definition reports (tr : list Event) : list (list Event * Z) :=
  reports_from [] tr.

(** The events after the last report. *)
Fixpoint unreported_from (seg tr : list Event) : list Event :=
  match tr with
  | [] => seg
  | progress_changed _ :: tr' => unreported_from [] tr'
  | e :: tr' => unreported_from (seg ++ [e]) tr'
  end.

Definition unreported (tr : list Event) : list Event := unreported_from [] tr.

(** A character of code point 32 or more other than newline and tab. *)
Definition plain (ch : N) : Prop := (32 <= ch)%N /\ ch <> 10%N /\ ch <> 9%N.

(** What an event of the loop started at [i] can be. *)
Definition event_ok (w : t) (i : nat) (e : Event) : Prop :=
  quiet e
  \/ (exists j,
        In j (unit_starts (List.length (text w)) (fast_mode_of w) (text w) i)
        /\ keystroke_for (unit_text (fast_mode_of w) (text w) j) e)
  \/ pacing w e
  \/ (exists j, e = progress_changed (percent_of j (List.length (text w))))
  \/ e = finished \/ e = stopped.
(** A batch [s] of the fast path that starts at [i] and ends before [j]. *)
Definition batch_at (text : list N) (i j : nat) (s : list N) : Prop :=
  s = firstn (j - i) (skipn i text) /\ Forall plain s /\
  (1 <= List.length s <= 40)%nat /\ j = (i + List.length s)%nat /\
  (List.length s = 40%nat \/
   match nth_error text j with
   | Some c => ~ plain c
   | None => True
   end).

(** Events of the pacing: the jitter draw and the sleep between units. *)
Definition is_pacing (e : Event) : bool :=
  match e with
  | ev_randint _ _ _ | ev_sleep_delay _ => true
  | _ => false
  end.

(** The state in which the worker finds itself after a [deliver]. *)
Definition delivered (env : World) (st : St) : St :=
  mkSt (fold_left apply_call (inbox env (clock st)) (self st))
       (S (clock st)) (trace st).

(** The part of a turn that follows the pause loop. *)
Definition after_pause (env : World) (length : nat) (fast_mode : bool)
    (i : nat) : M (option nat) :=
  (deliver env ;;
   w <- get_self ;;
   if _stop_flag w then emit stopped ;; ret None
   else type_and_report env length fast_mode i)%worker.


Definition no_terminal (evs : list Event) : Prop :=
  Forall (fun e => is_terminal e = false) evs.
(** What a step leaves alone: the configuration, a raised stop flag, and
    the trace so far. *)
Definition grows (st st' : St) (evs : list Event) : Prop :=
  same_config (self st) (self st') /\
  (_stop_flag (self st) = true -> _stop_flag (self st') = true) /\
  trace st' = trace st ++ evs.

(** A step that does not idle, and whose exception, if any, is the one the
    last library call raised. *)
Definition ends_well {A} (r : result A) (u : list Event) : Prop :=
  match r with
  | Ret _ => True
  | Exn msg => exists u' e, u = u' ++ [e] /\ raised e = Some msg
  | Idling => False
  end.

(** The traces of [run], with its result. *)
Definition run_shape (w : t) (evs : list Event) (r : result unit) : Prop :=
  match text w with
  | [] => evs = [finished] /\ r = Ret tt
  | _ :: _ =>
      exists evs0 r0,
        shape w 0 evs0 r0 /\
        match r0 with
        | Exn msg => evs = evs0 ++ [error msg] /\ r = Ret tt
        | _ => evs = evs0 /\ r = r0
        end
  end.
(** The trace of the run of a worker in a world, on a fresh thread. *)
Definition trace_of (env : World) (polls : nat) (w : t) : list Event :=
  trace (snd (run env polls (start w))).

End Traces.

(** ** Sample worlds and workers *)

Module Samples.
Import TypingWorker.
Local Open Scope string_scope.

(** A world in which nothing goes wrong: the control surface stays
    quiet, the target window keeps the focus and every call returns. *)
Definition calm : World := {|
  inbox := fun _ => [];
  getActiveWindowTitle := fun _ => Returns (Some "Notepad");
  keyboard_write := fun _ => Returns tt;
  pyautogui_call := fun _ => Returns tt;
  random_bits := fun t => Z.of_nat t
|}.

(** The same world with a [keyboard] library that always raises. *)
Definition no_keyboard : World := {|
  inbox := fun _ => [];
  getActiveWindowTitle := fun _ => Returns (Some "Notepad");
  keyboard_write := fun _ => Raises "keyboard: no backend";
  pyautogui_call := fun _ => Returns tt;
  random_bits := fun t => Z.of_nat t
|}.

(** ["ab\nc"] at full speed, and a paced worker built with its jitter
    bounds the wrong way round. *)
Definition fast_abc : t :=
  __init__ [97; 98; 10; 99]%N 0 false 5 10 (Some "Notepad").

Definition paced_abc : t :=
  __init__ [97; 98; 10; 99]%N 3 true 10 5 (Some "Notepad").

(** A hundred times the letter [a], one character every millisecond. *)
Definition paced_hundred : t :=
  __init__ (repeat 97%N 100) 1 false 0 0 (Some "Notepad").
(** The letter [a] at full speed. *)
Definition fast_a : t := __init__ [97%N] 0 false 5 10 (Some "Notepad").

(** A calm world in which the control surface calls [stop] while the last
    unit is being typed, after the last check of the flag. *)
Definition late_stop : World := {|
  inbox := fun t => if (t =? 6)%nat then [call_stop] else [];
  getActiveWindowTitle := fun _ => Returns (Some "Notepad");
  keyboard_write := fun _ => Returns tt;
  pyautogui_call := fun _ => Returns tt;
  random_bits := fun t => Z.of_nat t
|}.

(** The user has moved to another window and resumes there after a few
    polls, as [_resume_typing] does it. *)
Definition refocus : World := {|
  inbox := fun t => if (t =? 9)%nat
                    then [call_set_target_window (Some "Editor"); call_resume]
                    else [];
  getActiveWindowTitle := fun _ => Returns (Some "Editor");
  keyboard_write := fun _ => Returns tt;
  pyautogui_call := fun _ => Returns tt;
  random_bits := fun t => Z.of_nat t
|}.

(** The foreground-window query raises. *)
Definition query_fails : World := {|
  inbox := fun _ => [];
  getActiveWindowTitle := fun _ => Raises "no display";
  keyboard_write := fun _ => Returns tt;
  pyautogui_call := fun _ => Returns tt;
  random_bits := fun t => Z.of_nat t
|}.

(** There is no foreground window, and nobody comes back to resume. *)
Definition no_window : World := {|
  inbox := fun _ => [];
  getActiveWindowTitle := fun _ => Returns None;
  keyboard_write := fun _ => Returns tt;
  pyautogui_call := fun _ => Returns tt;
  random_bits := fun t => Z.of_nat t
|}.

(** A window in the middle of a session. *)
Definition typing_window : MainWindow.t :=
  MainWindow.mk "延迟输入工具" MainWindow.STATE_TYPING 0 0 true
    (Str.of_string "ctrl+shift+t") (Some 1%nat) false
    "输入中" false 40 "暂停" false false false
    (Str.of_string "Ctrl+Shift+T") false.

(** The same window, paused. *)
Definition paused_window : MainWindow.t :=
  MainWindow.mk "延迟输入工具" MainWindow.STATE_PAUSED 0 0 true
    (Str.of_string "ctrl+shift+t") (Some 1%nat) false
    "已暂停" false 40 "继续" false false false
    (Str.of_string "Ctrl+Shift+T") false.
End Samples.

(** ** What reaches the target window

    The characters a run has put into the target window, read off the
    calls that returned: a literal write delivers its string, a key press
    the character of its key. *)

Module Delivery.
Import TypingWorker.
Local Open Scope string_scope.

Definition char_of_key (key : string) : list N :=
  if String.eqb key "enter" then [10%N]
  else if String.eqb key "tab" then [9%N]
  else if String.eqb key "backspace" then [8%N]
  else if String.eqb key "esc" then [27%N]
  else [].

Definition delivered_by (e : Event) : list N :=
  match e with
  | ev_keyboard_write s (Returns _) | ev_pyautogui_write s (Returns _) => s
  | ev_pyautogui_press key (Returns _) => char_of_key key
  | _ => []
  end.

Definition delivered_text (tr : list Event) : list N :=
  flat_map delivered_by tr.

(** The characters [_type_char] and the fast path do something with:
    code points from 32 on, newline, tab, backspace and escape. *)
Definition is_typed (ch : N) : bool :=
  ((32 <=? ch) || (ch =? 10) || (ch =? 9) || (ch =? 8) || (ch =? 27))%N.

(** The durations handed to [time.sleep] between units, in milliseconds. *)
Definition sleep_delays (tr : list Event) : list Z :=
  flat_map (fun e => match e with ev_sleep_delay d => [d] | _ => [] end) tr.

Definition total (l : list Z) : Z := fold_right Z.add 0 l.

(** The part of [text] from index [i] up to index [j]. *)
Definition segment (text : list N) (i j : nat) : list N :=
  firstn (j - i) (skipn i text).

(** The shortest and the longest sleep between two units. *)
Definition shortest_delay (w : t) : Z :=
  base_delay_ms w + (if use_random w then rand_min_ms w else 0).

Definition longest_delay (w : t) : Z :=
  base_delay_ms w + (if use_random w then rand_max_ms w else 0).

(** A sleep between two units that is within the bounds of [w]. *)
Definition delay_ok (w : t) (d : Z) : Prop :=
  0 < d /\ shortest_delay w <= d <= longest_delay w.

(** What a turn, or a loop, that went from index [i] to index [j] has
    added to the trace: the typed characters of that part of the text,
    and sleeps within the bounds, none at all in the fast path. *)
Definition accounted (w : t) (i j : nat) (evs : list Event) : Prop :=
  (i <= j)%nat
  /\ delivered_text evs = filter is_typed (segment (text w) i j)
  /\ ~ In finished evs
  /\ Forall (delay_ok w) (sleep_delays evs)
  /\ (Units.fast_mode_of w = true -> sleep_delays evs = []).

(** A world in which the control surface makes no call on the worker. *)
Definition undisturbed (env : World) : Prop := forall now, inbox env now = [].

(** A text cut into pieces of [n] characters, the last one shorter when
    the length is not a multiple of [n]. *)
Fixpoint pieces_from (fuel n : nat) (s : list N) : list (list N) :=
  match fuel, s with
  | S fuel, _ :: _ => firstn n s :: pieces_from fuel n (skipn n s)
  | _, _ => []
  end.

Definition pieces (n : nat) (s : list N) : list (list N) :=
  pieces_from (List.length s) n s.

(** A world in which the foreground window is [title] at every query. *)
Definition focused_on (title : string) (env : World) : Prop :=
  forall now, getActiveWindowTitle env now = Returns (Some title).

(** A world in which [pyautogui] always returns, so that a keystroke
    gets through even when [keyboard] raises. *)
Definition keys_work (env : World) : Prop :=
  forall now, pyautogui_call env now = Returns tt.

(** A worker that has not been stopped or paused, with its jitter bounds
    in order, as [__init__] leaves it. *)
Definition fresh (w : t) : Prop :=
  _stop_flag w = false /\ _pause_flag w = false
  /\ rand_min_ms w <= rand_max_ms w.

End Delivery.

(** ** Numbers as Python prints them *)

Module Fmt.
Local Open Scope string_scope.

(** [str(n)] *)
Definition int_str (n : Z) : string := NilZero.string_of_int (Z.to_int n).

(** The last [d] decimal digits of [n], leading zeros included. *)
Definition digits (d : nat) (n : Z) : string :=
  let scale := 10 ^ Z.of_nat d in
  match NilEmpty.string_of_uint (N.to_uint (Z.to_N (scale + n mod scale))) with
  | String _ s => s
  | EmptyString => EmptyString
  end.

Definition Qlt_bool (x y : Q) : bool := negb (Qle_bool y x).

(** The number [x] in hundredths, thousandths, ... ([d] places), rounded
    to the nearest one, ties to even. *)
Definition scaled (d : nat) (x : Q) : Z :=
  Binary64.round_half_even (Qabs x * inject_Z (10 ^ Z.of_nat d)).

(** [f"{x:.<d>f}"] for a float of value [x] and [1 <= d]: the decimal
    with [d] places nearest to [x], ties to even. *)
Definition fixed (d : nat) (x : Q) : string :=
  (if Qlt_bool x 0 then "-" else EmptyString)
  ++ int_str (scaled d x / 10 ^ Z.of_nat d) ++ "." ++ digits d (scaled d x).

End Fmt.

(** ** Floats of either sign *)

Module Float.

(** The double nearest to a rational. *)
Definition round (x : Q) : Q :=
  if Qle_bool 0 x then Binary64.round x else (- Binary64.round (- x))%Q.

(** [float(n)]: [OverflowError] when the nearest double is not finite. *)
Definition of_int (n : Z) : outcome Q :=
  let x := round (inject_Z n) in
  if Qle_bool (inject_Z (2 ^ 1024)) (Qabs x)
  then Raises "int too large to convert to float"
  else Returns x.

(** [x / y] on floats, [y] not zero. *)
Definition div (x y : Q) : Q := round (x / y).

(** [int(x)]: towards zero. *)
Definition to_int (x : Q) : Z := Z.quot (Qnum x) (Zpos (Qden x)).

(** [ms / 1000.0] for an int that converts without overflow. *)
Definition seconds (ms : Z) : Q := div (round (inject_Z ms)) (inject_Z 1000).

End Float.

(** ** class DroppableTextEdit *)

Module DroppableTextEdit.
Local Open Scope string_scope.

(** The [for] loop of [_format_size] over the units that are left. *)
Fixpoint format_units (units : list string) (size : Q) : string :=
  match units with
  | unit :: units' =>
      if Fmt.Qlt_bool size (inject_Z 1024) then
        if String.eqb unit "B"
        then Fmt.int_str (Float.to_int size) ++ unit
        else Fmt.fixed 2 size ++ unit
      else format_units units' (Float.div size (inject_Z 1024))
  | [] => Fmt.fixed 2 size ++ "PB"
  end.

Definition _format_size (num_bytes : Z) : outcome string :=
  match Float.of_int num_bytes with
  | Returns size => Returns (format_units ["B"; "KB"; "MB"; "GB"; "TB"] size)
  | Raises msg => Raises msg
  end.

(** The same label without floats: the size over the largest power of
    1024 not above it (the fifth at most) with two decimal places, and
    the size itself below 1024. *)
Definition unit_index (num_bytes : Z) : nat :=
  if (num_bytes <? 2 ^ 10)%Z then 0
  else if (num_bytes <? 2 ^ 20)%Z then 1
  else if (num_bytes <? 2 ^ 30)%Z then 2
  else if (num_bytes <? 2 ^ 40)%Z then 3
  else if (num_bytes <? 2 ^ 50)%Z then 4
  else 5.

Definition exact_size (num_bytes : Z) : string :=
  match unit_index num_bytes with
  | O => Fmt.int_str num_bytes ++ "B"
  | k =>
      Fmt.fixed 2 (inject_Z num_bytes / inject_Z (2 ^ (10 * Z.of_nat k)))
      ++ nth k ["B"; "KB"; "MB"; "GB"; "TB"; "PB"] EmptyString
  end.

(** What [_load_file] finds at [path], and what the user answers. *)
Record Disk : Type := {
  getsize : outcome Z;              (* os.path.getsize(path) *)
  answer_yes : bool;                (* the reply to QMessageBox.question is Yes *)
  read : outcome (list N)           (* open(path, "rb") and f.read(): the bytes *)
}.

(** What [_load_file] does that is visible from outside. *)
Inductive Action : Type :=
| question (text : string)
| read_file
| critical (text : string).

Definition newline : string := String (ascii_of_nat 10) EmptyString.

Definition unreadable (e : string) : Action :=
  critical ("无法读取文件：" ++ newline ++ e).

Section WithCodec.

(** [data.decode("utf-8")], or [None] when it raises [UnicodeDecodeError],
    and [data.decode("utf-8", errors="ignore")]. *)
Variable decode : list N -> option (list N).
Variable decode_ignore : list N -> list N.

(** The new content of the text box ([plainText] when [setPlainText] is
    not reached) and what was done on the way. *)
Definition _load_file (disk : Disk) (plainText : list N)
    : list N * list Action :=
  match getsize disk with
  | Raises e => (plainText, [unreadable e])
  | Returns size_bytes =>
      match _format_size size_bytes with
      | Raises e => (plainText, [unreadable e])
      | Returns size_str =>
          let asked :=
            if (1000 <? size_bytes)%Z
            then [question ("该文件超过了1000字（文件大小：" ++ size_str
                            ++ "），你确定要继续吗？")]
            else [] in
          if (1000 <? size_bytes)%Z && negb (answer_yes disk)
          then (plainText, asked)
          else
            match read disk with
            | Raises e => (plainText, (asked ++ [read_file; unreadable e])%list)
            | Returns data =>
                let text := match decode data with
                            | Some text => text
                            | None => decode_ignore data
                            end in
                (text, (asked ++ [read_file])%list)
            end
      end
  end.

End WithCodec.

End DroppableTextEdit.

(** ** class HotkeyEdit

    The line edit that captures a key combination.  Its text and its
    palette are the fields [hotkey_edit_text] and [hotkey_edit_occupied]
    of the window; its signal [sequenceCommitted] is connected to
    [MainWindow._on_hotkey_committed], so emitting it runs that slot. *)

Module HotkeyEdit.

Inductive Key : Type :=
| Key_Return
| Key_Enter
| Key_Escape
| Key_Control
| Key_Shift
| Key_Alt
| Key_Meta
| Key_other (toString : list N).   (* with its QKeySequence(key).toString() *)

Record QKeyEvent : Type := {
  key : Key;
  ControlModifier : bool;
  ShiftModifier : bool;
  AltModifier : bool;
  MetaModifier : bool
}.

Record t : Type := mk {
  _capturing : bool;
  _current_sequence : list N;
  _has_main_key : bool;
  _original_text : list N;
  hasFocus : bool
}.

Definition __init__ : t := mk false [] false [] false.

Definition setText (text : list N) (mw : MainWindow.t) : MainWindow.t :=
  MainWindow.mk (MainWindow.windowTitle mw) (MainWindow.state mw)
    (MainWindow.current_countdown_ms mw) (MainWindow.current_resume_ms mw)
    (MainWindow.typing_worker mw) (MainWindow.hotkey_str mw)
    (MainWindow.hotkey_handle mw) (MainWindow.hotkey_occupied mw)
    (MainWindow.status_label mw) (MainWindow.status_is_error mw)
    (MainWindow.progress_bar mw) (MainWindow.btn_pause mw)
    (MainWindow.btn_start_enabled mw) (MainWindow.countdown_timer_active mw)
    (MainWindow.resume_timer_active mw) text
    (MainWindow.hotkey_edit_occupied mw).

(** The names of the modifiers that are held, in the order of the tests. *)
Definition modifiers_of (event : QKeyEvent) : list (list N) :=
  (if ControlModifier event then [Str.of_string "Ctrl"] else [])
  ++ (if ShiftModifier event then [Str.of_string "Shift"] else [])
  ++ (if AltModifier event then [Str.of_string "Alt"] else [])
  ++ (if MetaModifier event then [Str.of_string "Win"] else []).

Section WithKeyboard.

Variable add_hotkey : list N -> outcome nat.

Definition focusInEvent (s : t * MainWindow.t) : t * MainWindow.t :=
  let '(_, mw) := s in
  (mk true [] false (MainWindow.hotkey_edit_text mw) true, mw).

Definition focusOutEvent (s : t * MainWindow.t) : t * MainWindow.t :=
  let '(he, mw) := s in
  let was_capturing := _capturing he in
  let he := mk false (_current_sequence he) (_has_main_key he)
               (_original_text he) false in
  if was_capturing
  then (he, MainWindow._on_hotkey_committed add_hotkey
              (_current_sequence he) (_has_main_key he) mw)
  else (he, mw).

(** [self.clearFocus()]: the widget that has the focus loses it and
    receives the focus-out event. *)
Definition clearFocus (s : t * MainWindow.t) : t * MainWindow.t :=
  if hasFocus (fst s) then focusOutEvent s else s.

Definition keyPressEvent (event : QKeyEvent) (s : t * MainWindow.t)
    : t * MainWindow.t :=
  let '(he, mw) := s in
  if negb (_capturing he) then s
  else
    match key event with
    | Key_Return | Key_Enter => clearFocus s
    | Key_Escape =>
        clearFocus (mk (_capturing he) [] false (_original_text he) (hasFocus he),
                    setText (_original_text he) mw)
    | k =>
        let modifiers := modifiers_of event in
        let '(main_key, has_main_key) :=
          match k with
          | Key_Control | Key_Shift | Key_Alt | Key_Meta =>
              ([], _has_main_key he)
          | Key_other main_key =>
              (if (List.length main_key =? 1)%nat then Str.upper main_key
               else main_key, true)
          | _ => ([], _has_main_key he)
          end in
        let parts := match main_key with
                     | [] => modifiers
                     | _ => modifiers ++ [main_key]
                     end in
        let display := Str.join (Str.of_string "+") parts in
        (mk (_capturing he) display has_main_key (_original_text he)
            (hasFocus he),
         setText display mw)
    end.

(** [MainWindow.eventFilter] on a mouse press: a press outside the
    editor takes the focus away from it. *)
Definition eventFilter_MouseButtonPress (on_hotkey_edit : bool)
    (s : t * MainWindow.t) : t * MainWindow.t :=
  if hasFocus (fst s) && negb on_hotkey_edit then clearFocus s else s.

End WithKeyboard.

End HotkeyEdit.

(** ** Which sequences the commit slot takes

    The tests of [_on_hotkey_committed] in one place: the sequence is
    not blank, a main key was pressed, there are at least two tokens,
    the first is Ctrl, Shift or Alt, and the last is one character or
    an F followed by digits. *)

Module Hotkeys.

Definition tokens (seq_str : list N) : list (list N) :=
  filter (fun p => match p with [] => false | _ => true end)
         (map Str.strip (Str.split 43 (Str.strip seq_str))).

Definition accepted (seq_str : list N) (has_main_key : bool) : bool :=
  match Str.strip seq_str with
  | [] => false
  | _ =>
      has_main_key
      && negb (List.length (tokens seq_str) <? 2)%nat
      && Str.mem (Str.lower (hd [] (tokens seq_str)))
           ["ctrl"; "control"; "shift"; "alt"]%string
      && ((List.length (last (tokens seq_str) []) =? 1)%nat
          || Str.startswith (Str.of_string "f")
               (Str.lower (last (tokens seq_str) []))
             && Str.isdigit (tl (Str.lower (last (tokens seq_str) []))))
  end.

(** The binding a key press asks for: the modifiers that are held, in
    the order Ctrl, Shift, Alt, Win and in the spelling of the
    [keyboard] library, then the key in lower case. *)
Definition binding_of (event : HotkeyEdit.QKeyEvent) (c : N) : list N :=
  Str.join (Str.of_string "+")
    ((if HotkeyEdit.ControlModifier event then [Str.of_string "ctrl"] else [])
     ++ (if HotkeyEdit.ShiftModifier event then [Str.of_string "shift"] else [])
     ++ (if HotkeyEdit.AltModifier event then [Str.of_string "alt"] else [])
     ++ (if HotkeyEdit.MetaModifier event then [Str.of_string "windows"] else [])
     ++ [[Str.lower_char c]]).

(** The printable characters of ASCII, space excluded. *)
Definition printable : list N := map N.of_nat (seq 33 94).

(** The modifiers of an event, on their own. *)
Definition modifier_flags (event : HotkeyEdit.QKeyEvent) : HotkeyEdit.QKeyEvent :=
  HotkeyEdit.Build_QKeyEvent HotkeyEdit.Key_Control
    (HotkeyEdit.ControlModifier event) (HotkeyEdit.ShiftModifier event)
    (HotkeyEdit.AltModifier event) (HotkeyEdit.MetaModifier event).

(** The sixteen of them. *)
Definition modifier_states : list HotkeyEdit.QKeyEvent :=
  flat_map (fun c => flat_map (fun s => flat_map (fun a => map (fun m =>
    HotkeyEdit.Build_QKeyEvent HotkeyEdit.Key_Control c s a m)
    [false; true]) [false; true]) [false; true]) [false; true].

(** A string of ASCII characters. *)
Definition ascii_only (s : list N) : Prop := Forall (fun c => (c < 128)%N) s.

(** A string with no white space at either end. *)
Definition trimmed_ends (s : list N) : Prop :=
  match s with [] => True | c :: _ => Str.is_space c = false end
  /\ match rev s with [] => True | c :: _ => Str.is_space c = false end.

(** What [_canonicalize_sequence] and [_to_readable_hotkey] make of one
    token of the sequence. *)
Definition canonical_token (p : list N) : list (list N) :=
  let p := Str.strip p in
  match p with
  | [] => []
  | _ =>
      let low := Str.lower p in
      if Str.mem low ["ctrl"; "control"]%string
      then [Str.of_string "ctrl"]
      else if Str.mem low ["shift"]%string
      then [Str.of_string "shift"]
      else if Str.mem low ["alt"; "menu"]%string
      then [Str.of_string "alt"]
      else if Str.mem low ["win"; "windows"; "meta"; "super"]%string
      then [Str.of_string "windows"]
      else [low]
  end.

(** A token in canonical form: free of the separator, and one that
    [canonical_token] leaves alone. *)
Definition settled (t : list N) : Prop :=
  ~ In 43%N t /\ canonical_token t = [t].

Definition readable_token (raw : list N) : list (list N) :=
  let raw := Str.strip raw in
  match raw with
  | [] => []
  | _ =>
      let low := Str.lower raw in
      if Str.mem low ["ctrl"; "control"]%string
      then [Str.of_string "Ctrl"]
      else if Str.mem low ["shift"]%string
      then [Str.of_string "Shift"]
      else if Str.mem low ["alt"; "menu"]%string
      then [Str.of_string "Alt"]
      else if Str.mem low ["win"; "windows"; "meta"; "super"]%string
      then [Str.of_string "Win"]
      else [if (List.length raw =? 1)%nat then Str.upper raw
            else Str.capitalize raw]
  end.

End Hotkeys.

(** ** The other slots of MainWindow *)

Module Slots.
Import MainWindow.
Local Open Scope string_scope.

(** The values of the widgets the user fills in. *)
Record Form : Type := {
  toPlainText : list N;          (* self.text_edit *)
  speed_spin : Z;                (* 0..2000 *)
  random_checkbox : bool;
  rand_min_spin : Z;             (* 0..2000 *)
  rand_max_spin : Z;             (* 0..2000 *)
  start_delay_spin : Z           (* 0..60000 *)
}.

(** What a slot finds around the window when it runs. *)
Record Desk : Type := {
  form : Form;
  active : outcome (option string);   (* pyautogui.getActiveWindowTitle() *)
  isActiveWindow : bool               (* self.isActiveWindow() *)
}.

(** What a slot does outside the window. *)
Inductive Effect : Type :=
| on_worker (c : Call)               (* a method call on self.typing_worker *)
| thread_start (w : TypingWorker.t)  (* a new worker, and its thread started *)
| message_box (text : string).       (* QMessageBox.critical *)

Definition set_current_countdown_ms (ms : Z) (mw : t) : t :=
  mk (windowTitle mw) (state mw) ms
     (current_resume_ms mw) (typing_worker mw) (hotkey_str mw)
     (hotkey_handle mw) (hotkey_occupied mw) (status_label mw)
     (status_is_error mw) (progress_bar mw) (btn_pause mw)
     (btn_start_enabled mw) (countdown_timer_active mw)
     (resume_timer_active mw) (hotkey_edit_text mw) (hotkey_edit_occupied mw).

Definition set_current_resume_ms (ms : Z) (mw : t) : t :=
  mk (windowTitle mw) (state mw) (current_countdown_ms mw)
     ms (typing_worker mw) (hotkey_str mw)
     (hotkey_handle mw) (hotkey_occupied mw) (status_label mw)
     (status_is_error mw) (progress_bar mw) (btn_pause mw)
     (btn_start_enabled mw) (countdown_timer_active mw)
     (resume_timer_active mw) (hotkey_edit_text mw) (hotkey_edit_occupied mw).

(** [self.countdown_timer.start(100)] and [.stop()] *)
Definition countdown_timer_set (active : bool) (mw : t) : t :=
  mk (windowTitle mw) (state mw) (current_countdown_ms mw)
     (current_resume_ms mw) (typing_worker mw) (hotkey_str mw)
     (hotkey_handle mw) (hotkey_occupied mw) (status_label mw)
     (status_is_error mw) (progress_bar mw) (btn_pause mw)
     (btn_start_enabled mw) active
     (resume_timer_active mw) (hotkey_edit_text mw) (hotkey_edit_occupied mw).

(** [self.resume_timer.start(100)] *)
Definition resume_timer_start (mw : t) : t :=
  mk (windowTitle mw) (state mw) (current_countdown_ms mw)
     (current_resume_ms mw) (typing_worker mw) (hotkey_str mw)
     (hotkey_handle mw) (hotkey_occupied mw) (status_label mw)
     (status_is_error mw) (progress_bar mw) (btn_pause mw)
     (btn_start_enabled mw) (countdown_timer_active mw)
     true (hotkey_edit_text mw) (hotkey_edit_occupied mw).

(** [self.typing_worker = TypingWorker(...)] *)
Definition set_typing_worker (mw : t) : t :=
  mk (windowTitle mw) (state mw) (current_countdown_ms mw)
     (current_resume_ms mw) true (hotkey_str mw)
     (hotkey_handle mw) (hotkey_occupied mw) (status_label mw)
     (status_is_error mw) (progress_bar mw) (btn_pause mw)
     (btn_start_enabled mw) (countdown_timer_active mw)
     (resume_timer_active mw) (hotkey_edit_text mw) (hotkey_edit_occupied mw).

(** The countdown messages, with the seconds to one decimal place. *)
Definition countdown_text (ms : Z) : string :=
  "倒计时中：" ++ Fmt.fixed 1 (Float.seconds ms) ++ " 秒后开始输入".

Definition resume_text (ms : Z) : string :=
  Fmt.fixed 1 (Float.seconds ms) ++ " 秒后继续输入...".

(** [m] tenths of a second, as a decimal with one place. *)
Definition tenths (m : Z) : string :=
  Fmt.int_str (m / 10) ++ "." ++ Fmt.int_str (m mod 10).

Definition on_worker_calls (r : t * list Call) : t * list Effect :=
  (fst r, map on_worker (snd r)).

Section WithKeyboard.

Variable add_hotkey : list N -> outcome nat.

Definition __init__ : t :=
  let mw := mk "延迟输入工具" STATE_IDLE 0 0 false
               (Str.of_string "ctrl+shift+t") None false
               "等待操作" false 0 "暂停" true false false [] false in
  (* _apply_md3_style *)
  let mw := _set_hotkey_display (hotkey_occupied mw) mw in
  let mw := _register_hotkey add_hotkey mw in
  _set_idle "等待操作" (Some 0) false mw.

End WithKeyboard.

(** The title a slot works with: [None] when the query raises. *)
Definition focus_of (desk : Desk) : option string :=
  match active desk with
  | Returns title => title
  | Raises _ => None
  end.

(** The worker built from the form and the foreground window of [desk]. *)
Definition worker_of (desk : Desk) : TypingWorker.t :=
  TypingWorker.__init__ (toPlainText (form desk)) (speed_spin (form desk))
    (random_checkbox (form desk)) (rand_min_spin (form desk))
    (rand_max_spin (form desk)) (focus_of desk).

Definition _begin_typing (desk : Desk) (mw : t) : t * list Effect :=
  let target_window_title := match active desk with
                             | Returns title => title
                             | Raises _ => None
                             end in
  if negb (truthy target_window_title) then
    (_set_idle "输入焦点不正确（无窗口焦点）- 启动失败" (Some 0) true mw, [])
  else if isActiveWindow desk then
    (_set_idle "输入焦点不正确 - 请先切换到目标窗口" (Some 0) true mw, [])
  else
    let mw := set_state STATE_TYPING "暂停" mw in
    let mw := resume_timer_stop mw in
    let mw := _update_status "输入中" (Some (progress_bar mw)) false mw in
    let mw := btn_start_setEnabled false mw in
    let f := form desk in
    let worker :=
      TypingWorker.__init__ (toPlainText f) (speed_spin f) (random_checkbox f)
        (rand_min_spin f) (rand_max_spin f) target_window_title in
    (set_typing_worker mw, [thread_start worker]).

Definition _start_typing (skip_countdown : bool) (desk : Desk) (mw : t)
    : t * list Effect :=
  match toPlainText (form desk) with
  | [] =>
      (_update_status "没有要输入的文本" (Some (progress_bar mw)) true mw, [])
  | _ :: _ =>
      let mw := _update_status "准备开始输入" (Some (progress_bar mw)) false mw in
      if skip_countdown then _begin_typing desk mw
      else
        let delay_ms := start_delay_spin (form desk) in
        if (delay_ms <=? 0)%Z then _begin_typing desk mw
        else
          let mw := set_state STATE_COUNTDOWN (btn_pause mw) mw in
          let mw := set_current_countdown_ms delay_ms mw in
          let mw := _update_status (countdown_text (current_countdown_ms mw))
                      (Some (progress_bar mw)) false mw in
          let mw := countdown_timer_set true mw in
          (btn_start_setEnabled false mw, [])
  end.

Definition _on_countdown_tick (desk : Desk) (mw : t) : t * list Effect :=
  if negb (State_eqb (state mw) STATE_COUNTDOWN) then
    (btn_start_setEnabled true (countdown_timer_set false mw), [])
  else
    let mw := set_current_countdown_ms (current_countdown_ms mw - 100)%Z mw in
    if (current_countdown_ms mw <=? 0)%Z then
      _begin_typing desk (countdown_timer_set false mw)
    else
      (_update_status (countdown_text (current_countdown_ms mw))
         (Some (progress_bar mw)) false mw, []).

Definition _on_start_clicked (desk : Desk) (mw : t) : t * list Effect :=
  match state mw with
  | STATE_TYPING | STATE_COUNTDOWN => on_worker_calls (_cancel_typing mw)
  | STATE_PAUSED =>
      let '(mw, calls) := _cancel_typing mw in
      let '(mw, effects) := _start_typing false desk mw in
      (mw, (map on_worker calls ++ effects)%list)
  | STATE_IDLE => _start_typing false desk mw
  end.

Definition _on_pause_clicked (desk : Desk) (mw : t) : t * list Effect :=
  if State_eqb (state mw) STATE_TYPING && typing_worker mw then
    let mw := resume_timer_stop mw in
    let mw := set_state STATE_PAUSED "继续" mw in
    (_update_status "已暂停" (Some (progress_bar mw)) false mw,
     [on_worker call_pause])
  else if State_eqb (state mw) STATE_PAUSED && typing_worker mw then
    if resume_timer_active mw then
      let mw := resume_timer_stop mw in
      (_update_status "已暂停" (Some (progress_bar mw)) false mw, [])
    else
      let delay_ms := start_delay_spin (form desk) in
      if (delay_ms <=? 0)%Z then
        on_worker_calls (_resume_typing (active desk) false mw)
      else
        let mw := set_current_resume_ms delay_ms mw in
        let mw := resume_timer_start mw in
        (_update_status (resume_text (current_resume_ms mw))
           (Some (progress_bar mw)) false mw, [])
  else (mw, []).

Definition _on_stop_clicked (mw : t) : t * list Effect :=
  on_worker_calls (_cancel_typing mw).

Definition _on_resume_tick (desk : Desk) (mw : t) : t * list Effect :=
  let mw := set_current_resume_ms (current_resume_ms mw - 100)%Z mw in
  if (current_resume_ms mw <=? 0)%Z then
    on_worker_calls (_resume_typing (active desk) false (resume_timer_stop mw))
  else
    (_update_status (resume_text (current_resume_ms mw))
       (Some (progress_bar mw)) false mw, []).

Definition _start_typing_immediately_from_hotkey (desk : Desk) (mw : t)
    : t * list Effect :=
  if State_eqb (state mw) STATE_PAUSED && typing_worker mw then
    on_worker_calls (_resume_typing (active desk) true mw)
  else
    match state mw with
    | STATE_TYPING | STATE_COUNTDOWN => on_worker_calls (_cancel_typing mw)
    | _ => _start_typing true desk mw
    end.

Definition _on_hotkey_trigger_gui (he : HotkeyEdit.t) (desk : Desk) (mw : t)
    : t * list Effect :=
  if HotkeyEdit.hasFocus he || HotkeyEdit._capturing he then (mw, [])
  else _start_typing_immediately_from_hotkey desk mw.

Definition _on_typing_progress (percent : Z) (mw : t) : t :=
  _update_status ("输入中（" ++ Fmt.int_str percent ++ "%）") (Some percent)
    false mw.

Definition _on_typing_error (msg : string) (mw : t) : t * list Effect :=
  (_set_idle ("[错误] " ++ msg) (Some (progress_bar mw)) true mw,
   [message_box ("输入过程中出现错误：" ++ msg)]).

Definition _on_focus_paused (desk : Desk) (mw : t) : t :=
  match state mw with
  | STATE_IDLE | STATE_COUNTDOWN => mw
  | STATE_TYPING | STATE_PAUSED =>
      let mw := resume_timer_stop mw in
      let mw := set_state STATE_PAUSED "继续" mw in
      let current_win := match active desk with
                         | Returns title => title
                         | Raises _ => None
                         end in
      if negb (truthy current_win) then
        _update_status "输入焦点不正确（无窗口焦点）- 已暂停"
          (Some (progress_bar mw)) true mw
      else if title_eqb current_win (Some (windowTitle mw)) then
        _update_status "输入焦点不能是本工具 - 继续暂停中"
          (Some (progress_bar mw)) true mw
      else
        _update_status "窗口焦点变化，已临时暂停"
          (Some (progress_bar mw)) false mw
  end.

End Slots.

(** ** The window as a whole

    Everything that can happen to the window between two returns to the
    event loop: a click, a timer tick, the global hotkey, a signal of a
    worker, an event of the hotkey editor.  A timer fires only while it
    is active, and a worker reports percentages from 0 to 100. *)

Module App.
Import MainWindow.

Inductive Input : Type :=
| start_clicked
| pause_clicked
| stop_clicked
| countdown_tick
| resume_tick
| hotkey_trigger
| typing_progress (percent : Z)
| typing_finished
| typing_stopped
| typing_error (msg : string)
| worker_focus_paused
| edit_focus_in
| edit_focus_out
| edit_key_press (event : HotkeyEdit.QKeyEvent)
| mouse_press (on_hotkey_edit : bool).

Record t : Type := mk {
  window : MainWindow.t;
  hotkey_edit : HotkeyEdit.t
}.

Definition of_window (he : HotkeyEdit.t) (r : MainWindow.t * list Slots.Effect)
    : t * list Slots.Effect :=
  (mk (fst r) he, snd r).

Definition of_edit (r : HotkeyEdit.t * MainWindow.t) : t * list Slots.Effect :=
  (mk (snd r) (fst r), []).

Section WithKeyboard.

Variable add_hotkey : list N -> outcome nat.

Definition init : t := mk (Slots.__init__ add_hotkey) HotkeyEdit.__init__.

Definition handle (desk : Slots.Desk) (i : Input) (app : t)
    : t * list Slots.Effect :=
  let mw := window app in
  let he := hotkey_edit app in
  match i with
  | start_clicked => of_window he (Slots._on_start_clicked desk mw)
  | pause_clicked => of_window he (Slots._on_pause_clicked desk mw)
  | stop_clicked => of_window he (Slots._on_stop_clicked mw)
  | countdown_tick => of_window he (Slots._on_countdown_tick desk mw)
  | resume_tick => of_window he (Slots._on_resume_tick desk mw)
  | hotkey_trigger => of_window he (Slots._on_hotkey_trigger_gui he desk mw)
  | typing_progress percent =>
      of_window he (Slots._on_typing_progress percent mw, [])
  | typing_finished => of_window he (_on_typing_finished mw, [])
  | typing_stopped => of_window he (_on_typing_stopped mw, [])
  | typing_error msg => of_window he (Slots._on_typing_error msg mw)
  | worker_focus_paused => of_window he (Slots._on_focus_paused desk mw, [])
  | edit_focus_in => of_edit (HotkeyEdit.focusInEvent (he, mw))
  | edit_focus_out => of_edit (HotkeyEdit.focusOutEvent add_hotkey (he, mw))
  | edit_key_press event =>
      of_edit (HotkeyEdit.keyPressEvent add_hotkey event (he, mw))
  | mouse_press on_hotkey_edit =>
      of_edit (HotkeyEdit.eventFilter_MouseButtonPress add_hotkey
                 on_hotkey_edit (he, mw))
  end.

(** Whether the event loop can deliver [i] in the state [app]. *)
Definition enabled (i : Input) (app : t) : Prop :=
  match i with
  | countdown_tick => countdown_timer_active (window app) = true
  | resume_tick => resume_timer_active (window app) = true
  | typing_progress percent => 0 <= percent <= 100
  | edit_focus_in => HotkeyEdit.hasFocus (hotkey_edit app) = false
  | edit_focus_out => HotkeyEdit.hasFocus (hotkey_edit app) = true
  | edit_key_press _ => HotkeyEdit.hasFocus (hotkey_edit app) = true
  | _ => True
  end.

(** The states the window can be in, from its construction on. *)
Inductive reachable : t -> Prop :=
| reachable_init : reachable init
| reachable_step desk i app :
    reachable app -> enabled i app ->
    reachable (fst (handle desk i app)).

(** What the label of the pause button says in each state. *)
Definition pause_label (s : State) : string :=
  if State_eqb s STATE_PAUSED then "继续"%string else "暂停"%string.

(** What holds of the window between any two inputs. *)
Record consistent (app : t) : Prop := {
  has_worker :
    state (window app) = STATE_TYPING \/ state (window app) = STATE_PAUSED ->
    typing_worker (window app) = true;
  countdown_timer_follows :
    countdown_timer_active (window app) = true
    <-> state (window app) = STATE_COUNTDOWN;
  resume_timer_follows :
    resume_timer_active (window app) = true ->
    state (window app) = STATE_PAUSED \/ state (window app) = STATE_TYPING;
  btn_start_follows :
    btn_start_enabled (window app) = true <-> state (window app) = STATE_IDLE;
  btn_pause_follows :
    btn_pause (window app) = pause_label (state (window app));
  progress_in_range : 0 <= progress_bar (window app) <= 100;
  occupied_follows :
    hotkey_occupied (window app) = true <-> hotkey_handle (window app) = None;
  palette_follows :
    hotkey_edit_occupied (window app) = hotkey_occupied (window app);
  capturing_follows :
    HotkeyEdit._capturing (hotkey_edit app) = HotkeyEdit.hasFocus (hotkey_edit app);
  editor_shows_binding :
    HotkeyEdit.hasFocus (hotkey_edit app) = false ->
    hotkey_edit_text (window app)
    = _display_hotkey_text (hotkey_str (window app)) (hotkey_occupied (window app))
}.

(** The inputs that end a capture of the hotkey editor: the loss of the
    focus, Return or Enter, and a mouse press outside the editor. *)
Definition commits (i : Input) : Prop :=
  match i with
  | edit_focus_out | mouse_press false => True
  | edit_key_press event =>
      HotkeyEdit.key event = HotkeyEdit.Key_Return
      \/ HotkeyEdit.key event = HotkeyEdit.Key_Enter
  | _ => False
  end.

(** The editor showing [text], everything else as it was. *)
Definition showing (text : list N) (app : t) : t :=
  mk (HotkeyEdit.setText text (window app)) (hotkey_edit app).

(** [n] ticks of a timer, each with the desk it finds. *)
Definition ticks (tick : Input) (desks : list Slots.Desk)
    : list (Slots.Desk * Input) :=
  map (fun desk => (desk, tick)) desks.

(** The window after a sequence of inputs, each with its desk. *)
Definition run (inputs : list (Slots.Desk * Input)) (app : t) : t :=
  fold_left (fun app di => fst (handle (fst di) (snd di) app)) inputs app.

(** Everything done outside the window during such a sequence. *)
Fixpoint effects (inputs : list (Slots.Desk * Input)) (app : t)
    : list Slots.Effect :=
  match inputs with
  | [] => []
  | (desk, i) :: rest =>
      snd (handle desk i app) ++ effects rest (fst (handle desk i app))
  end.

End WithKeyboard.

End App.

(** ** Sample windows and desks *)

Module Scenes.
Import Slots App.
Local Open Scope string_scope.

(** A [keyboard] library that registers every hotkey. *)
Definition registers : list N -> outcome nat := fun _ => Returns 1%nat.

(** ["ab\nc"] at full speed, with a start delay of a quarter of a second. *)
Definition form_abc : Form := {|
  toPlainText := [97; 98; 10; 99]%N;
  speed_spin := 0;
  random_checkbox := false;
  rand_min_spin := 5;
  rand_max_spin := 10;
  start_delay_spin := 250
|}.

(** The editor "Notepad" is in front of the tool. *)
Definition notepad : Desk := {|
  form := form_abc;
  active := Returns (Some "Notepad");
  isActiveWindow := false
|}.

(** The same with the delay box at three seconds, its value when the
    tool opens. *)
Definition notepad_3s : Desk := {|
  form := {| toPlainText := [97; 98; 10; 99]%N;
             speed_spin := 0;
             random_checkbox := false;
             rand_min_spin := 5;
             rand_max_spin := 10;
             start_delay_spin := 3000 |};
  active := Returns (Some "Notepad");
  isActiveWindow := false
|}.

(** Ninety times the letter [a] at full speed. *)
Definition fast_ninety : TypingWorker.t :=
  TypingWorker.__init__ (repeat 97%N 90) 0 false 5 10 (Some "Notepad").

(** Another editor is in front. *)
Definition editor : Desk := {|
  form := form_abc;
  active := Returns (Some "Editor");
  isActiveWindow := false
|}.

(** The tool itself is in front. *)
Definition tool_in_front : Desk := {|
  form := form_abc;
  active := Returns (Some "延迟输入工具");
  isActiveWindow := true
|}.

(** The window as it opens, after the hotkey has started a worker, and
    after a click on the pause button. *)
Definition opened : App.t := init registers.

Definition typing : App.t :=
  fst (handle registers notepad hotkey_trigger opened).

Definition paused : App.t :=
  fst (handle registers notepad pause_clicked typing).

(** The window with the hotkey editor capturing. *)
Definition capturing : App.t :=
  fst (handle registers notepad edit_focus_in opened).

(** Key presses: Escape, Shift on its own, and Ctrl+T. *)
Definition press_escape : HotkeyEdit.QKeyEvent :=
  HotkeyEdit.Build_QKeyEvent HotkeyEdit.Key_Escape false false false false.

Definition press_shift : HotkeyEdit.QKeyEvent :=
  HotkeyEdit.Build_QKeyEvent HotkeyEdit.Key_Shift false true false false.

Definition press_ctrl_t : HotkeyEdit.QKeyEvent :=
  HotkeyEdit.Build_QKeyEvent (HotkeyEdit.Key_other [84%N]) true false false false.

(** A file of two kilobytes that is not valid UTF-8, and a user who
    answers Yes. *)
Definition two_kilobytes : DroppableTextEdit.Disk := {|
  DroppableTextEdit.getsize := Returns 2048;
  DroppableTextEdit.answer_yes := true;
  DroppableTextEdit.read := Returns [104; 105; 255]%N
|}.

End Scenes.

(** * Properties *)

Local Open Scope Z_scope.

(** ** Binary64 rounding *)

Module Binary64Facts.
Import Binary64.
Local Open Scope Q_scope.

Lemma two_pos_pow (e : Z) : 0 < two ^ e.
Proof. apply Qpower_0_lt. reflexivity. Qed.

Lemma two_pow_le (a b : Z) : (a <= b)%Z -> two ^ a <= two ^ b.
Proof. intros H. apply Qpower_le_compat_l; [exact H | discriminate]. Qed.

Lemma two_pow_Z (k : Z) : (0 <= k)%Z -> two ^ k == inject_Z (2 ^ k).
Proof. intros H. symmetry. apply (Zpower_Qpower 2 k H). Qed.

Lemma two_pow_succ (e : Z) : two ^ (e + 1) == 2 * two ^ e.
Proof.
  rewrite Qpower_plus by discriminate.
  change (two ^ 1) with two. unfold two. ring.
Qed.

(** *** Rounding to the nearest integer *)

Lemma round_half_even_cases (x : Q) :
  let f := Qfloor x in
  (round_half_even x = f /\ x - inject_Z f <= 1 # 2) \/
  (round_half_even x = (f + 1)%Z /\ 1 # 2 <= x - inject_Z f).
Proof.
  intros f. unfold round_half_even. fold f.
  destruct (Qcompare_spec (x - inject_Z f) (1 # 2)) as [E | L | G].
  - destruct (Z.even f); [left | right]; split; try reflexivity;
      rewrite E; apply Qle_refl.
  - left. split; [reflexivity | apply Qlt_le_weak; exact L].
  - right. split; [reflexivity | apply Qlt_le_weak; exact G].
Qed.

Lemma round_half_even_mono (x y : Q) :
  x <= y -> (round_half_even x <= round_half_even y)%Z.
Proof.
  intros Hxy.
  pose proof (Qfloor_resp_le x y Hxy) as Hf.
  destruct (Z.eq_dec (Qfloor x) (Qfloor y)) as [E | NE].
  - unfold round_half_even. rewrite <- E.
    destruct (Qcompare_spec (x - inject_Z (Qfloor x)) (1 # 2)) as [Ex | Lx | Gx];
    destruct (Qcompare_spec (y - inject_Z (Qfloor x)) (1 # 2)) as [Ey | Ly | Gy];
      try destruct (Z.even (Qfloor x)); try lia; exfalso; lra.
  - destruct (round_half_even_cases x) as [[-> _] | [-> _]];
    destruct (round_half_even_cases y) as [[-> _] | [-> _]]; lia.
Qed.

Lemma round_half_even_Z (k : Z) : round_half_even (inject_Z k) = k.
Proof.
  unfold round_half_even. rewrite Qfloor_Z.
  destruct (Qcompare_spec (inject_Z k - inject_Z k) (1 # 2)) as [E | L | G];
    try reflexivity; exfalso; lra.
Qed.

Lemma round_half_even_error (x : Q) :
  inject_Z (round_half_even x) - (1 # 2) <= x /\
  x <= inject_Z (round_half_even x) + (1 # 2).
Proof.
  pose proof (Qfloor_le x) as Hlo. pose proof (Qlt_floor x) as Hhi.
  rewrite inject_Z_plus in Hhi.
  destruct (round_half_even_cases x) as [[-> H] | [-> H]];
    rewrite ?inject_Z_plus; change (inject_Z 1) with 1 in *; split; lra.
Qed.

(** *** The exponent *)

Lemma log2_bracket (x : Q) :
  0 < x ->
  let k := (Z.log2 (Qnum x) - Z.log2 (Zpos (Qden x)))%Z in
  two ^ (k - 1) < x /\ x < two ^ (k + 1).
Proof.
  intros Hx k.
  destruct x as [n d]. cbn [Qnum Qden] in k.
  assert (Hn : (0 < n)%Z) by (unfold Qlt in Hx; cbn in Hx; lia).
  set (a := Z.log2 n) in *. set (b := Z.log2 (Zpos d)) in *.
  assert (Ha : (0 <= a)%Z) by apply Z.log2_nonneg.
  assert (Hb : (0 <= b)%Z) by apply Z.log2_nonneg.
  destruct (Z.log2_spec n Hn) as [Hn1 Hn2]. fold a in Hn1, Hn2.
  destruct (Z.log2_spec (Zpos d) (Pos2Z.is_pos d)) as [Hd1 Hd2].
  fold b in Hd1, Hd2.
  assert (Hpa : (0 < 2 ^ a)%Z) by (apply Z.pow_pos_nonneg; lia).
  assert (Hpb : (0 < 2 ^ b)%Z) by (apply Z.pow_pos_nonneg; lia).
  rewrite Z.pow_succ_r in Hn2, Hd2 by assumption.
  assert (Ek1 : two ^ (k - 1) == inject_Z (2 ^ a) / inject_Z (2 * 2 ^ b)).
  { unfold k. replace (a - b - 1)%Z with (a - (b + 1))%Z by lia.
    rewrite Qpower_minus by discriminate.
    rewrite (two_pow_Z a Ha), (two_pow_Z (b + 1)) by lia.
    rewrite Z.pow_add_r, Z.pow_1_r, (Z.mul_comm _ 2) by lia. reflexivity. }
  assert (Ek2 : two ^ (k + 1) == inject_Z (2 * 2 ^ a) / inject_Z (2 ^ b)).
  { unfold k. replace (a - b + 1)%Z with (a + 1 - b)%Z by lia.
    rewrite Qpower_minus by discriminate.
    rewrite (two_pow_Z (a + 1)), (two_pow_Z b Hb) by lia.
    rewrite Z.pow_add_r, Z.pow_1_r, (Z.mul_comm _ 2) by lia. reflexivity. }
  rewrite Ek1, Ek2, (Qmake_Qdiv n d).
  split.
  - apply Qlt_shift_div_l; [rewrite <- (Zlt_Qlt 0); lia |].
    unfold Qdiv. rewrite <- Qmult_assoc, (Qmult_comm (/ _)), Qmult_assoc.
    apply Qlt_shift_div_r; [rewrite <- (Zlt_Qlt 0); lia |].
    rewrite <- !inject_Z_mult, <- Zlt_Qlt. nia.
  - apply Qlt_shift_div_r; [rewrite <- (Zlt_Qlt 0); lia |].
    unfold Qdiv. rewrite <- Qmult_assoc, (Qmult_comm (/ _)), Qmult_assoc.
    apply Qlt_shift_div_l; [rewrite <- (Zlt_Qlt 0); lia |].
    rewrite <- !inject_Z_mult, <- Zlt_Qlt. nia.
Qed.

Lemma ulp_exp_upper (x : Q) : 0 < x -> x < two ^ (ulp_exp x + prec).
Proof.
  intros Hx. destruct (log2_bracket x Hx) as [_ Hhi].
  unfold ulp_exp.
  set (k := (Z.log2 (Qnum x) - Z.log2 (Zpos (Qden x)))%Z) in *.
  replace (k - prec + prec)%Z with k by lia.
  destruct (Qle_bool (two ^ k) x) eqn:T.
  - eapply Qlt_le_trans; [exact Hhi | apply two_pow_le; unfold prec; lia].
  - assert (Hlt : x < two ^ k).
    { apply Qnot_le_lt. intros C. apply Qle_bool_iff in C. congruence. }
    eapply Qlt_le_trans; [exact Hlt | apply two_pow_le; unfold prec; lia].
Qed.

Lemma ulp_exp_lower (x : Q) :
  0 < x -> (emin < ulp_exp x)%Z -> two ^ (ulp_exp x + prec - 1) <= x.
Proof.
  intros Hx. destruct (log2_bracket x Hx) as [Hlo _].
  unfold ulp_exp.
  set (k := (Z.log2 (Qnum x) - Z.log2 (Zpos (Qden x)))%Z) in *.
  replace (k - prec + prec)%Z with k by lia.
  destruct (Qle_bool (two ^ k) x) eqn:T; intros He.
  - apply Qle_bool_iff in T.
    rewrite Z.max_l by lia.
    replace (k - prec + 1 + prec - 1)%Z with k by lia. exact T.
  - rewrite Z.max_l by lia.
    replace (k - prec + prec - 1)%Z with (k - 1)%Z by lia.
    apply Qlt_le_weak. exact Hlo.
Qed.

(** *** Rounding to a double *)

Lemma round_pos_eq (x : Q) :
  0 < x ->
  round x = inject_Z (round_half_even (x / two ^ ulp_exp x)) * two ^ ulp_exp x.
Proof.
  intros Hx. unfold round.
  destruct (Qle_bool x 0) eqn:T; [| reflexivity].
  apply Qle_bool_iff in T. exfalso. lra.
Qed.

Lemma round_nonpos_eq (x : Q) : x <= 0 -> round x = 0.
Proof.
  intros Hx. unfold round.
  destruct (Qle_bool x 0) eqn:T; [reflexivity |].
  apply Qle_bool_iff in Hx. congruence.
Qed.

(** The significand of a positive [x] is at most [2^53] ... *)
Lemma significand_upper (x : Q) :
  0 < x -> (round_half_even (x / two ^ ulp_exp x) <= 2 ^ prec)%Z.
Proof.
  intros Hx.
  rewrite <- (round_half_even_Z (2 ^ prec)).
  apply round_half_even_mono.
  apply Qle_shift_div_r; [apply two_pos_pow |].
  rewrite <- two_pow_Z by (unfold prec; lia).
  rewrite <- Qpower_plus by discriminate.
  rewrite Z.add_comm. apply Qlt_le_weak, ulp_exp_upper, Hx.
Qed.

(** ... and at least [2^52] unless [x] is subnormal. *)
Lemma significand_lower (x : Q) :
  0 < x -> (emin < ulp_exp x)%Z ->
  (2 ^ (prec - 1) <= round_half_even (x / two ^ ulp_exp x))%Z.
Proof.
  intros Hx He.
  rewrite <- (round_half_even_Z (2 ^ (prec - 1))).
  apply round_half_even_mono.
  apply Qle_shift_div_l; [apply two_pos_pow |].
  rewrite <- two_pow_Z by (unfold prec; lia).
  rewrite <- Qpower_plus by discriminate.
  replace (prec - 1 + ulp_exp x)%Z with (ulp_exp x + prec - 1)%Z by lia.
  apply ulp_exp_lower; assumption.
Qed.

Lemma round_nonneg (x : Q) : 0 <= round x.
Proof.
  destruct (Qlt_le_dec 0 x) as [Hx | Hx].
  - rewrite (round_pos_eq x Hx).
    apply Qmult_le_0_compat; [| apply Qlt_le_weak, two_pos_pow].
    change 0 with (inject_Z 0). rewrite <- Zle_Qle.
    apply Z.le_trans with (round_half_even (inject_Z 0)).
    + rewrite round_half_even_Z. apply Z.le_refl.
    + apply round_half_even_mono.
      apply Qle_shift_div_l; [apply two_pos_pow |]. change (inject_Z 0) with 0. lra.
  - rewrite (round_nonpos_eq x Hx). apply Qle_refl.
Qed.

Lemma ulp_exp_mono (x y : Q) : 0 < x -> x <= y -> (ulp_exp x <= ulp_exp y)%Z.
Proof.
  intros Hx Hxy.
  destruct (Z_le_gt_dec (ulp_exp x) (ulp_exp y)) as [H | H]; [exact H | exfalso].
  assert (He : (emin < ulp_exp x)%Z).
  { assert (emin <= ulp_exp y)%Z by (unfold ulp_exp; lia). lia. }
  pose proof (ulp_exp_lower x Hx He) as Hlo.
  assert (Hy : 0 < y) by lra.
  pose proof (ulp_exp_upper y Hy) as Hhi.
  assert (Hle : two ^ (ulp_exp y + prec) <= two ^ (ulp_exp x + prec - 1))
    by (apply two_pow_le; lia).
  lra.
Qed.

(** Rounding is monotone. *)
Lemma round_mono (x y : Q) : x <= y -> round x <= round y.
Proof.
  intros Hxy.
  destruct (Qlt_le_dec 0 x) as [Hx | Hx].
  2:{ rewrite (round_nonpos_eq x Hx). apply round_nonneg. }
  assert (Hy : 0 < y) by lra.
  rewrite (round_pos_eq x Hx), (round_pos_eq y Hy).
  pose proof (ulp_exp_mono x y Hx Hxy) as He.
  destruct (Z.eq_dec (ulp_exp x) (ulp_exp y)) as [E | NE].
  - rewrite <- E.
    apply Qmult_le_compat_r; [| apply Qlt_le_weak, two_pos_pow].
    rewrite <- Zle_Qle. apply round_half_even_mono.
    apply Qmult_le_compat_r; [exact Hxy |].
    apply Qlt_le_weak, Qinv_lt_0_compat, two_pos_pow.
  - assert (Hey : (emin < ulp_exp y)%Z).
    { assert (emin <= ulp_exp x)%Z by (unfold ulp_exp; lia). lia. }
    pose proof (significand_upper x Hx) as Hmx.
    pose proof (significand_lower y Hy Hey) as Hmy.
    apply Qle_trans with (two ^ (ulp_exp x + prec)).
    + rewrite Z.add_comm, Qpower_plus by discriminate.
      apply Qmult_le_compat_r; [| apply Qlt_le_weak, two_pos_pow].
      rewrite (two_pow_Z prec) by (unfold prec; lia).
      rewrite <- Zle_Qle. exact Hmx.
    + apply Qle_trans with (two ^ (ulp_exp y + prec - 1)).
      * apply two_pow_le. lia.
      * replace (ulp_exp y + prec - 1)%Z with (prec - 1 + ulp_exp y)%Z by lia.
        rewrite Qpower_plus by discriminate.
        apply Qmult_le_compat_r; [| apply Qlt_le_weak, two_pos_pow].
        rewrite (two_pow_Z (prec - 1)) by (unfold prec; lia).
        rewrite <- Zle_Qle. exact Hmy.
Qed.

Lemma round_compat (x y : Q) : x == y -> round x == round y.
Proof.
  intros E. apply Qle_antisym; apply round_mono; rewrite E; apply Qle_refl.
Qed.

End Binary64Facts.

(** ** The progress percentage *)

Section Percent.
Import Binary64 Binary64Facts.
Local Open Scope Q_scope.

(** The rounding of [Binary64] is that of the machine: on every position
    of every text of up to 64 characters, and on a few long ones. *)
Example binary64_agrees_with_the_machine :
  forallb (fun l => forallb (fun i => agrees_with_float (Z.of_nat i) (Z.of_nat l))
                            (seq 1 l))
          (seq 1 64) = true
  /\ agrees_with_float 29 100 = true
  /\ agrees_with_float 123456789 987654321987 = true
  /\ agrees_with_float 9007199254740991 9007199254740992 = true.
Proof. repeat split; vm_compute; reflexivity. Qed.

Example percent_of_samples :
  percent_of 2 4 = 50%Z /\ percent_of 3 4 = 75%Z /\ percent_of 29 100 = 28%Z.
Proof. repeat split; vm_compute; reflexivity. Qed.

Lemma round_one : round 1 == 1.
Proof. vm_compute. reflexivity. Qed.

Lemma round_hundred : round (inject_Z 100) == inject_Z 100.
Proof. vm_compute. reflexivity. Qed.

Lemma percent_of_mono (i j length : nat) :
  (i <= j)%nat -> (percent_of i length <= percent_of j length)%Z.
Proof.
  intros Hij. unfold percent_of, to_int, mul, int_truediv.
  apply Qfloor_resp_le, round_mono.
  apply Qmult_le_compat_r; [| discriminate].
  apply round_mono.
  apply Qmult_le_compat_r.
  - rewrite <- Zle_Qle. lia.
  - apply Qinv_le_0_compat. change 0 with (inject_Z 0). rewrite <- Zle_Qle. lia.
Qed.

Lemma percent_of_full (length : nat) :
  (0 < length)%nat -> percent_of length length = 100%Z.
Proof.
  intros Hlen. unfold percent_of, to_int, mul, int_truediv.
  assert (E1 : inject_Z (Z.of_nat length) / inject_Z (Z.of_nat length) == 1).
  { apply Qmult_inv_r. intros C.
    unfold Qeq in C. cbn in C. lia. }
  assert (E2 : round (inject_Z (Z.of_nat length) / inject_Z (Z.of_nat length))
               * inject_Z 100 == inject_Z 100).
  { rewrite (round_compat _ _ E1), round_one. ring. }
  rewrite (Qfloor_comp _ _ (round_compat _ _ E2)).
  rewrite (Qfloor_comp _ _ round_hundred). apply Qfloor_Z.
Qed.

Lemma percent_of_zero (length : nat) : percent_of 0 length = 0%Z.
Proof.
  unfold percent_of, to_int, mul, int_truediv.
  assert (E : inject_Z (Z.of_nat 0) / inject_Z (Z.of_nat length) == 0).
  { change (inject_Z (Z.of_nat 0)) with 0. unfold Qdiv. ring. }
  assert (H0 : round (inject_Z (Z.of_nat 0) / inject_Z (Z.of_nat length)) == 0).
  { rewrite (round_compat _ _ E). reflexivity. }
  assert (H1 : round (inject_Z (Z.of_nat 0) / inject_Z (Z.of_nat length))
               * inject_Z 100 == 0) by (rewrite H0; ring).
  rewrite (Qfloor_comp _ _ (round_compat _ _ H1)). reflexivity.
Qed.

End Percent.

Section PercentError.
Import Binary64 Binary64Facts Units.
Local Open Scope Q_scope.

Lemma round_error (x : Q) :
  0 < x ->
  round x - x <= two ^ ulp_exp x * (1 # 2) /\
  x - round x <= two ^ ulp_exp x * (1 # 2).
Proof.
  intros Hx. rewrite (round_pos_eq x Hx).
  pose proof (two_pos_pow (ulp_exp x)) as Hp.
  destruct (round_half_even_error (x / two ^ ulp_exp x)) as [Hlo Hhi].
  set (m := inject_Z (round_half_even (x / two ^ ulp_exp x))) in *.
  assert (Ex : x / two ^ ulp_exp x * two ^ ulp_exp x == x).
  { field. intros C. rewrite C in Hp. discriminate. }
  apply (Qmult_le_compat_r _ _ (two ^ ulp_exp x)) in Hlo; [| lra].
  apply (Qmult_le_compat_r _ _ (two ^ ulp_exp x)) in Hhi; [| lra].
  rewrite Ex in Hlo, Hhi. split; lra.
Qed.

Lemma ulp_exp_below (x : Q) (k : Z) :
  0 < x -> x < two ^ k -> (emin <= k - prec)%Z -> (ulp_exp x <= k - prec)%Z.
Proof.
  intros Hx Hk Hm.
  destruct (Z_le_gt_dec (ulp_exp x) (k - prec)) as [H | H]; [exact H | exfalso].
  pose proof (ulp_exp_lower x Hx ltac:(lia)) as Hlo.
  assert (Hle : two ^ k <= two ^ (ulp_exp x + prec - 1)) by (apply two_pow_le; lia).
  lra.
Qed.

(** Below [2^k], rounding moves a value by at most half a unit in the
    last place of [2^k]. *)
Lemma round_error_below (x : Q) (k : Z) :
  0 <= x -> x < two ^ k -> (emin <= k - prec)%Z ->
  round x - x <= two ^ (k - prec) * (1 # 2) /\
  x - round x <= two ^ (k - prec) * (1 # 2).
Proof.
  intros Hx Hk Hm.
  pose proof (two_pos_pow (k - prec)) as Hp.
  destruct (Qlt_le_dec 0 x) as [Hpos | Hzero].
  - destruct (round_error x Hpos) as [H1 H2].
    pose proof (two_pow_le _ _ (ulp_exp_below x k Hpos Hk Hm)) as Hle.
    split; lra.
  - rewrite (round_nonpos_eq x Hzero). split; lra.
Qed.

Lemma percent_of_near_exact (i length : nat) :
  (i <= length)%nat -> (0 < length)%nat ->
  (exact_percent i length - 1 <= percent_of i length <= exact_percent i length + 1)%Z.
Proof.
  intros Hi Hlen. unfold percent_of, exact_percent, to_int, mul, int_truediv.
  change (inject_Z 100) with 100.
  set (x := inject_Z (Z.of_nat i) / inject_Z (Z.of_nat length)).
  assert (Hden : 0 < inject_Z (Z.of_nat length)).
  { change 0 with (inject_Z 0). rewrite <- Zlt_Qlt. lia. }
  assert (Hx0 : 0 <= x).
  { unfold x. apply Qle_shift_div_l; [exact Hden |].
    rewrite Qmult_0_l. change 0 with (inject_Z 0). rewrite <- Zle_Qle. lia. }
  assert (Hx1 : x <= 1).
  { unfold x. apply Qle_shift_div_r; [exact Hden |].
    rewrite Qmult_1_l. rewrite <- Zle_Qle. lia. }
  assert (P1 : two ^ 1 == 2) by reflexivity.
  destruct (round_error_below x 1) as [A1 A2];
    [exact Hx0 | rewrite P1; lra | unfold emin, prec; lia |].
  assert (Hq1 : round x <= 1).
  { rewrite <- round_one. apply round_mono. exact Hx1. }
  pose proof (round_nonneg x) as Hq0.
  set (q := round x) in *.
  assert (P7 : two ^ 7 == 128) by reflexivity.
  destruct (round_error_below (q * 100) 7) as [B1 B2];
    [lra | rewrite P7; lra | unfold emin, prec; lia |].
  set (p := round (q * 100)) in *.
  set (t := x * 100).
  assert (E52 : two ^ (1 - prec) * (1 # 2) == 1 # 9007199254740992)
    by (vm_compute; reflexivity).
  assert (E46 : two ^ (7 - prec) * (1 # 2) == 1 # 140737488355328)
    by (vm_compute; reflexivity).
  rewrite E52 in A1, A2. rewrite E46 in B1, B2.
  assert (Hpt : p - t <= 1 # 2 /\ t - p <= 1 # 2).
  { unfold t. split; lra. }
  pose proof (Qfloor_le p) as Fp1. pose proof (Qlt_floor p) as Fp2.
  pose proof (Qfloor_le t) as Ft1. pose proof (Qlt_floor t) as Ft2.
  rewrite inject_Z_plus in Fp2, Ft2. change (inject_Z 1) with 1 in Fp2, Ft2.
  assert (H1 : (Qfloor t < Qfloor p + 2)%Z).
  { rewrite Zlt_Qlt, inject_Z_plus. change (inject_Z 2) with 2. lra. }
  assert (H2 : (Qfloor p < Qfloor t + 2)%Z).
  { rewrite Zlt_Qlt, inject_Z_plus. change (inject_Z 2) with 2. lra. }
  lia.
Qed.

End PercentError.



(** ** The worker, step by step *)

Module WorkerFacts.
Import TypingWorker Units Traces.
Local Open Scope worker_scope.

Lemma same_config_refl w : same_config w w.
Proof. repeat split. Qed.

Lemma same_config_trans w1 w2 w3 :
  same_config w1 w2 -> same_config w2 w3 -> same_config w1 w3.
Proof. unfold same_config. intuition congruence. Qed.

Lemma apply_call_config w c : same_config w (apply_call w c).
Proof. destruct c; repeat split. Qed.

Lemma apply_calls_config cs : forall w, same_config w (fold_left apply_call cs w).
Proof.
  induction cs as [| c cs IH]; intros w; cbn.
  - apply same_config_refl.
  - eapply same_config_trans; [apply apply_call_config | apply IH].
Qed.

Lemma apply_call_stop w c :
  _stop_flag w = true -> _stop_flag (apply_call w c) = true.
Proof. destruct c; cbn; auto. Qed.

Lemma apply_calls_stop cs :
  forall w, _stop_flag w = true -> _stop_flag (fold_left apply_call cs w) = true.
Proof.
  induction cs as [| c cs IH]; intros w H; cbn; [exact H |].
  apply IH, apply_call_stop, H.
Qed.

Lemma apply_calls_stop_in cs :
  forall w, In call_stop cs -> _stop_flag (fold_left apply_call cs w) = true.
Proof.
  induction cs as [| c cs IH]; intros w H; cbn; [destruct H |].
  destruct H as [-> | H].
  - apply apply_calls_stop. reflexivity.
  - apply IH, H.
Qed.

Lemma same_config_fast w w' : same_config w w' -> fast_mode_of w' = fast_mode_of w.
Proof. unfold same_config, fast_mode_of. intros (_ & -> & -> & _). reflexivity. Qed.

Ltac grows_from G :=
  let C := fresh "C" in let S := fresh "S" in let T := fresh "T" in
  destruct G as (C & S & T);
  split; [exact C | split; [exact S |]];
  cbn; rewrite <- ?app_assoc, ?app_nil_r; reflexivity.

Ltac step_calls :=
  unfold try_except, call_keyboard_write, call_pyautogui_write,
    call_pyautogui_press, bind, tick, emit, of_outcome;
  cbn [self clock trace ret raise].

Ltac close_unit :=
  split; [reflexivity |];
  split; [reflexivity |];
  split; [cbn; rewrite <- ?app_assoc; reflexivity |];
  split; [repeat constructor |];
  split; [reflexivity |];
  cbn; auto.

Section WithWorld.
Variable env : World.

Lemma deliver_eq st :
  deliver env st =
  (Ret tt, mkSt (fold_left apply_call (inbox env (clock st)) (self st))
                (S (clock st)) (trace st)).
Proof. reflexivity. Qed.

Lemma bind_Ret {A B} (m : M A) (k : A -> M B) st a st' :
  m st = (Ret a, st') -> bind m k st = k a st'.
Proof. unfold bind. intros ->. reflexivity. Qed.

Lemma bind_Exn {A B} (m : M A) (k : A -> M B) st msg st' :
  m st = (Exn msg, st') -> bind m k st = (Exn msg, st').
Proof. unfold bind. intros ->. reflexivity. Qed.

Lemma bind_Idling {A B} (m : M A) (k : A -> M B) st st' :
  m st = (Idling, st') -> bind m k st = (Idling, st').
Proof. unfold bind. intros ->. reflexivity. Qed.

Lemma bind_get_self {B} (k : t -> M B) st : bind get_self k st = k (self st) st.
Proof. reflexivity. Qed.

Lemma bind_emit {B} e (k : unit -> M B) st :
  bind (emit e) k st = k tt (mkSt (self st) (clock st) (trace st ++ [e])).
Proof. reflexivity. Qed.

Lemma bind_deliver {B} (k : unit -> M B) st :
  bind (deliver env) k st =
  k tt (mkSt (fold_left apply_call (inbox env (clock st)) (self st))
             (S (clock st)) (trace st)).
Proof. reflexivity. Qed.

Lemma grows_refl st : grows st st [].
Proof.
  split; [apply same_config_refl | split; [auto | symmetry; apply app_nil_r]].
Qed.

Lemma grows_trans st1 st2 st3 a b :
  grows st1 st2 a -> grows st2 st3 b -> grows st1 st3 (a ++ b).
Proof.
  intros (C1 & S1 & T1) (C2 & S2 & T2). split; [| split].
  - eapply same_config_trans; eassumption.
  - auto.
  - rewrite T2, T1, app_assoc. reflexivity.
Qed.

Lemma deliver_grows st : grows st (snd (deliver env st)) [].
Proof.
  rewrite deliver_eq. cbn. split; [| split].
  - apply apply_calls_config.
  - apply apply_calls_stop.
  - symmetry. apply app_nil_r.
Qed.

Lemma check_focus_spec st :
  exists st' q, _check_focus env st = (Ret tt, st') /\
                grows st st' q /\ Forall quiet q.
Proof.
  unfold _check_focus, bind. rewrite deliver_eq.
  pose proof (deliver_grows st) as G. rewrite deliver_eq in G. cbn [snd] in G.
  cbn [get_self self].
  destruct (negb (truthy (target_window_title _)) || _stop_flag _ || _pause_flag _).
  { eexists _, []. split; [reflexivity |]. split; [exact G | constructor]. }
  unfold try_except, call_getActiveWindowTitle, bind, tick, emit, of_outcome.
  cbn [self clock trace].
  destruct (getActiveWindowTitle env _) as [cur | msg] eqn:Q; cbn [ret raise].
  - destruct (negb (truthy cur) || negb (title_eqb cur _)).
    + eexists _, [_; _]. split; [reflexivity |].
      split; [grows_from G | repeat constructor].
    + eexists _, [_]. split; [reflexivity |].
      split; [grows_from G | repeat constructor].
  - eexists _, [_]. split; [reflexivity |].
    split; [grows_from G | repeat constructor].
Qed.

Lemma pause_idle_spec polls :
  forall st, exists r st' q,
    pause_idle env polls st = (r, st') /\ grows st st' q /\ Forall quiet q /\
    (r = Ret tt \/ r = Idling /\ _stop_flag (self st') = false).
Proof.
  induction polls as [| polls IH]; intros st; cbn [pause_idle];
    unfold bind; rewrite deliver_eq;
    pose proof (deliver_grows st) as G; rewrite deliver_eq in G; cbn [snd] in G;
    cbn [get_self self].
  - destruct (_pause_flag _ && negb (_stop_flag _)) eqn:Cond.
    + eexists Idling, _, []. split; [reflexivity |].
      split; [exact G |]. split; [constructor |]. right. split; [reflexivity |].
      cbn [self]. apply andb_prop in Cond. destruct Cond as [_ Cond].
      apply negb_true_iff in Cond. exact Cond.
    + eexists (Ret tt), _, []. split; [reflexivity |]. auto using Forall_nil.
  - destruct (_pause_flag _ && negb (_stop_flag _)).
    + unfold emit. cbn [self clock trace].
      match goal with |- context [pause_idle env polls ?s] =>
        destruct (IH s) as (r & st' & q & E & G' & Q & R) end.
      exists r, st', (ev_sleep_poll :: q). split; [exact E |]. split; [| split].
      * destruct G as (C & S & T), G' as (C' & S' & T'). cbn in *.
        split; [| split].
        -- eapply same_config_trans; eassumption.
        -- auto.
        -- rewrite T', <- app_assoc. reflexivity.
      * constructor; [exact I | exact Q].
      * exact R.
    + eexists (Ret tt), _, []. split; [reflexivity |]. auto using Forall_nil.
Qed.

(** *** Typing one unit *)

Lemma safe_write_spec s st :
  exists r st' u,
    _safe_write env s st = (r, st') /\ self st' = self st /\
    trace st' = trace st ++ u /\ Forall (keystroke_for s) u /\
    keyboard_attempts u = [s] /\ ends_well r u.
Proof.
  unfold _safe_write. step_calls.
  destruct (keyboard_write env (clock st)) as [[] | m1]; cbn [self clock trace ret raise].
  - eexists _, _, [_]. close_unit.
  - destruct (pyautogui_call env (S (clock st))) as [[] | m2]; cbn [self clock trace ret raise].
    + eexists _, _, [_; _]. close_unit.
    + eexists _, _, [_; _]. close_unit.
      exists [ev_keyboard_write s (Raises m1)], (ev_pyautogui_write s (Raises m2)).
      split; reflexivity.
Qed.

Lemma type_char_spec ch st :
  exists r st' u,
    _type_char env ch st = (r, st') /\ self st' = self st /\
    trace st' = trace st ++ u /\ Forall (keystroke_for [ch]) u /\
    keyboard_attempts u =
      (if (ch =? 10)%N || (ch =? 9)%N || (32 <=? ch)%N then [[ch]] else []) /\
    ends_well r u.
Proof.
  unfold _type_char.
  destruct (N.eqb_spec ch 10) as [-> | N10].
  { step_calls.
    destruct (keyboard_write env (clock st)) as [[] | m1]; cbn [self clock trace ret raise].
    - eexists _, _, [_]. close_unit.
    - destruct (pyautogui_call env (S (clock st))) as [[] | m2]; cbn [self clock trace ret raise].
      + eexists _, _, [_; _]. close_unit.
      + eexists _, _, [_; _]. close_unit.
        eexists [_], _. split; reflexivity. }
  destruct (N.eqb_spec ch 9) as [-> | N9].
  { step_calls.
    destruct (keyboard_write env (clock st)) as [[] | m1]; cbn [self clock trace ret raise].
    - eexists _, _, [_]. close_unit.
    - destruct (pyautogui_call env (S (clock st))) as [[] | m2]; cbn [self clock trace ret raise].
      + eexists _, _, [_; _]. close_unit.
      + eexists _, _, [_; _]. close_unit.
        eexists [_], _. split; reflexivity. }
  cbn [orb].
  destruct (N.ltb_spec ch 32) as [L | L].
  - assert (E32 : (32 <=? ch)%N = false) by (apply N.leb_gt; exact L).
    rewrite E32.
    destruct (N.eqb_spec ch 8) as [-> | N8];
      [| destruct (N.eqb_spec ch 27) as [-> | N27]].
    + step_calls.
      destruct (pyautogui_call env (clock st)) as [[] | m2]; cbn [self clock trace ret raise].
      * eexists _, _, [_]. close_unit.
      * eexists _, _, [_]. close_unit. eexists [], _. split; reflexivity.
    + step_calls.
      destruct (pyautogui_call env (clock st)) as [[] | m2]; cbn [self clock trace ret raise].
      * eexists _, _, [_]. close_unit.
      * eexists _, _, [_]. close_unit. eexists [], _. split; reflexivity.
    + eexists _, _, []. split; [reflexivity |]. split; [reflexivity |].
      split; [symmetry; apply app_nil_r |]. cbn. auto.
  - assert (E32 : (32 <=? ch)%N = true) by (apply N.leb_le; exact L).
    rewrite E32. apply safe_write_spec.
Qed.

(** The same two steps, event by event. *)
Lemma safe_write_strokes s st :
  trace (snd (_safe_write env s st))
  = trace st ++ write_or s (ev_pyautogui_write s) (keyboard_write env (clock st))
                         (pyautogui_call env (S (clock st)))
  /\ fst (_safe_write env s st)
     = write_or_result (keyboard_write env (clock st))
                       (pyautogui_call env (S (clock st))).
Proof.
  unfold _safe_write. step_calls.
  destruct (keyboard_write env (clock st)) as [[] | m1];
    cbn [self clock trace ret raise fst snd write_or write_or_result].
  - auto.
  - destruct (pyautogui_call env (S (clock st))) as [[] | m2];
      cbn [self clock trace ret raise fst snd result_of];
      rewrite <- app_assoc; auto.
Qed.

Lemma type_char_strokes ch st :
  exists u r,
    trace (snd (_type_char env ch st)) = trace st ++ u
    /\ fst (_type_char env ch st) = r
    /\ char_strokes ch u r.
Proof.
  unfold _type_char, char_strokes.
  destruct (N.eqb_spec ch 10) as [-> | N10].
  { exists (write_or [10%N] (ev_pyautogui_press "enter")
              (keyboard_write env (clock st))
              (pyautogui_call env (S (clock st)))),
           (write_or_result (keyboard_write env (clock st))
              (pyautogui_call env (S (clock st)))).
    split; [| split; [| eauto]]; step_calls;
      destruct (keyboard_write env (clock st)) as [[] | m1];
      cbn [self clock trace ret raise fst snd write_or write_or_result];
      try reflexivity;
      destruct (pyautogui_call env (S (clock st))) as [[] | m2];
      cbn [self clock trace ret raise fst snd result_of];
      rewrite <- ?app_assoc; reflexivity. }
  destruct (N.eqb_spec ch 9) as [-> | N9].
  { exists (write_or [9%N] (ev_pyautogui_press "tab")
              (keyboard_write env (clock st))
              (pyautogui_call env (S (clock st)))),
           (write_or_result (keyboard_write env (clock st))
              (pyautogui_call env (S (clock st)))).
    split; [| split; [| eauto]]; step_calls;
      destruct (keyboard_write env (clock st)) as [[] | m1];
      cbn [self clock trace ret raise fst snd write_or write_or_result];
      try reflexivity;
      destruct (pyautogui_call env (S (clock st))) as [[] | m2];
      cbn [self clock trace ret raise fst snd result_of];
      rewrite <- ?app_assoc; reflexivity. }
  destruct (N.eqb_spec ch 8) as [-> | N8].
  { exists [ev_pyautogui_press "backspace" (pyautogui_call env (clock st))],
           (result_of (pyautogui_call env (clock st))).
    split; [| split; [| eauto]]; cbn; step_calls;
      destruct (pyautogui_call env (clock st)) as [[] | m2]; reflexivity. }
  destruct (N.eqb_spec ch 27) as [-> | N27].
  { exists [ev_pyautogui_press "esc" (pyautogui_call env (clock st))],
           (result_of (pyautogui_call env (clock st))).
    split; [| split; [| eauto]]; cbn; step_calls;
      destruct (pyautogui_call env (clock st)) as [[] | m2]; reflexivity. }
  destruct (N.ltb_spec ch 32) as [L | L].
  - exists [], (Ret tt). cbn. rewrite app_nil_r. auto.
  - destruct (safe_write_strokes [ch] st) as [T R].
    eexists _, _. split; [exact T |]. split; [exact R |]. eauto.
Qed.

End WithWorld.

(** *** The batch of the fast path *)

Lemma skipn_nth_error {A} (l : list A) :
  forall i x, nth_error l i = Some x -> skipn i l = x :: skipn (S i) l.
Proof.
  induction l as [| y l IH]; intros [| i] x H; cbn in H; try discriminate.
  - injection H as ->. reflexivity.
  - cbn [skipn]. apply IH, H.
Qed.

Lemma collect_chunk_spec room text :
  forall i acc j chunk,
    collect_chunk room text i acc = (j, chunk) ->
    exists seg,
      chunk = acc ++ seg /\ seg = firstn (j - i) (skipn i text) /\
      (j = i + List.length seg)%nat /\ (List.length seg <= room)%nat /\
      Forall (fun ch => _is_fast_char ch = true) seg /\
      (j <= Nat.max i (List.length text))%nat /\
      (List.length seg = room \/
       match nth_error text j with
       | Some ch => _is_fast_char ch = false
       | None => True
       end).
Proof.
  induction room as [| room IH]; intros i acc j chunk E; cbn in E.
  - injection E as <- <-. exists []. rewrite Nat.sub_diag, app_nil_r. cbn.
    repeat split; auto; lia.
  - destruct (nth_error text i) as [ch |] eqn:Hi.
    + destruct (_is_fast_char ch) eqn:F.
      * apply IH in E. destruct E as (seg & -> & Es & Ej & Hl & Hf & Hj & Hm).
        exists (ch :: seg). rewrite <- app_assoc. cbn [app List.length].
        assert (Hlt : (i < List.length text)%nat)
          by (apply nth_error_Some; congruence).
        repeat split; try lia.
        -- replace (j - i)%nat with (S (j - S i)) by lia.
           rewrite (skipn_nth_error text i ch Hi). cbn [firstn].
           rewrite <- Es. reflexivity.
        -- constructor; assumption.
        -- destruct Hm as [Hm | Hm]; [left; lia | right; exact Hm].
      * injection E as <- <-. exists []. rewrite Nat.sub_diag, app_nil_r. cbn.
        repeat split; auto; try lia. right. rewrite Hi. exact F.
    + injection E as <- <-. exists []. rewrite Nat.sub_diag, app_nil_r. cbn.
      repeat split; auto; try lia. right. rewrite Hi. exact I.
Qed.

Lemma collect_chunk_step room text i acc ch :
  nth_error text i = Some ch -> _is_fast_char ch = true ->
  collect_chunk (S room) text i acc = collect_chunk room text (S i) (acc ++ [ch]).
Proof. intros Hi F. cbn [collect_chunk]. rewrite Hi, F. reflexivity. Qed.

Lemma collect_chunk_first text i ch :
  nth_error text i = Some ch -> _is_fast_char ch = true ->
  exists seg, snd (collect_chunk max_chunk text i []) = ch :: seg.
Proof.
  intros Hi F. unfold max_chunk.
  rewrite (collect_chunk_step 39 text i [] ch Hi F). cbn [app].
  destruct (collect_chunk 39 text (S i) [ch]) as [j chunk] eqn:E.
  apply collect_chunk_spec in E. destruct E as (seg & -> & _).
  exists seg. reflexivity.
Qed.

Lemma next_index_bounds fast text i :
  (i < List.length text)%nat ->
  (i < next_index fast text i <= List.length text)%nat.
Proof.
  intros Hlt. unfold next_index.
  destruct (nth_error text i) as [ch |] eqn:Hi; [| lia].
  destruct (fast && _is_fast_char ch) eqn:F; [| lia].
  apply andb_prop in F. destruct F as [_ F].
  destruct (collect_chunk_first text i ch Hi F) as (seg0 & E0).
  destruct (collect_chunk max_chunk text i []) as [j chunk] eqn:E.
  cbn [fst snd] in *. apply collect_chunk_spec in E.
  destruct E as (seg & Ec & _ & Ej & _ & _ & Hj & _).
  cbn [app] in Ec. subst chunk seg. cbn [List.length] in Ej. lia.
Qed.

Section WithWorld2.
Variable env : World.

Lemma type_unit_spec fast i st :
  (i < List.length (text (self st)))%nat ->
  exists r st' u,
    type_unit env fast i st = (r, st') /\ self st' = self st /\
    trace st' = trace st ++ u /\
    Forall (keystroke_for (unit_text fast (text (self st)) i)) u /\
    keyboard_attempts u = unit_attempts fast (text (self st)) i /\
    ends_well r u /\
    (forall i', r = Ret i' -> i' = next_index fast (text (self st)) i).
Proof.
  intros Hlt. unfold type_unit, bind, get_self, unit_text, unit_attempts,
    next_index, unit_text.
  destruct (nth_error (text (self st)) i) as [ch |] eqn:Hi.
  2:{ apply nth_error_None in Hi. lia. }
  destruct (fast && _is_fast_char ch) eqn:F.
  - apply andb_prop in F. destruct F as [_ F].
    destruct (collect_chunk_first _ i ch Hi F) as (seg0 & E0).
    destruct (collect_chunk max_chunk (text (self st)) i []) as [j chunk].
    cbn [fst snd] in *. subst chunk. cbn [_fast_type_chunk].
    destruct (safe_write_spec env (ch :: seg0) st)
      as (r & st' & u & E & Hs & Ht & Hk & Ha & Hr).
    rewrite E. destruct r as [[] | msg |]; cbn in Hr; try contradiction.
    + eexists _, _, u. split; [reflexivity |]. repeat split; auto.
      intros i' [= <-]. reflexivity.
    + eexists _, _, u. split; [reflexivity |]. repeat split; auto.
      intros i' [=].
  - destruct (type_char_spec env ch st)
      as (r & st' & u & E & Hs & Ht & Hk & Ha & Hr).
    rewrite E. destruct r as [[] | msg |]; cbn in Hr; try contradiction.
    + eexists _, _, u. split; [reflexivity |]. repeat split; auto.
      intros i' [= <-]. reflexivity.
    + eexists _, _, u. split; [reflexivity |]. repeat split; auto.
      intros i' [=].
Qed.

Lemma randint_value_spec a b bits :
  match randint_value a b bits with
  | Returns v => a <= v <= b
  | Raises _ => b < a
  end.
Proof.
  unfold randint_value. destruct (Z.leb_spec a b) as [H | H]; [| exact H].
  pose proof (Z.mod_pos_bound bits (b - a + 1)). lia.
Qed.

Lemma pace_spec st :
  fast_mode_of (self st) = false ->
  exists r st' p,
    pace env st = (r, st') /\ self st' = self st /\
    trace st' = trace st ++ p /\ Forall (pacing (self st)) p /\ ends_well r p.
Proof.
  intros NF. unfold pace, bind, get_self.
  destruct (use_random (self st)) eqn:U.
  - unfold call_randint, bind, tick, emit, of_outcome.
    cbn [self clock trace ret raise].
    pose proof (randint_value_spec (rand_min_ms (self st)) (rand_max_ms (self st))
                  (random_bits env (clock st))) as R.
    destruct (randint_value _ _ _) as [v | msg] eqn:Ev;
      cbn [self clock trace ret raise].
    + destruct (Z.ltb_spec 0 (base_delay_ms (self st) + v)) as [D | D].
      * eexists _, _, [_; _]. split; [reflexivity |]. split; [reflexivity |].
        split; [cbn; rewrite <- app_assoc; reflexivity |]. split; [| exact I].
        constructor; [| constructor; [| constructor]].
        -- split; [exact NF |]. cbn. auto.
        -- split; [exact NF |]. cbn. rewrite U. lia.
      * eexists _, _, [_]. split; [reflexivity |]. split; [reflexivity |].
        split; [reflexivity |]. split; [| exact I].
        constructor; [| constructor].
        split; [exact NF |]. cbn. auto.
    + eexists _, _, [_]. split; [reflexivity |]. split; [reflexivity |].
      split; [reflexivity |]. split.
      * constructor; [| constructor].
        split; [exact NF |]. cbn. auto.
      * eexists [], _. split; reflexivity.
  - cbn [ret].
    destruct (Z.ltb_spec 0 (base_delay_ms (self st))) as [D | D].
    + eexists _, _, [_]. split; [reflexivity |]. split; [reflexivity |].
      split; [reflexivity |]. split; [| exact I].
      constructor; [| constructor].
      split; [exact NF |]. cbn. rewrite U. auto.
    + eexists _, _, []. split; [reflexivity |]. split; [reflexivity |].
      split; [symmetry; apply app_nil_r |]. split; [constructor | exact I].
Qed.

(** The keystrokes of a unit, event by event. *)
Lemma type_unit_strokes fast i st :
  (i < List.length (text (self st)))%nat ->
  exists u r,
    trace (snd (type_unit env fast i st)) = trace st ++ u
    /\ fst (type_unit env fast i st)
       = match r with
         | Ret _ => Ret (next_index fast (text (self st)) i)
         | Exn msg => Exn msg
         | Idling => Idling
         end
    /\ unit_strokes fast (text (self st)) i u r.
Proof.
  intros Hlt. unfold type_unit, bind, get_self, unit_strokes, next_index,
    unit_text.
  destruct (nth_error (text (self st)) i) as [ch |] eqn:Hi.
  2:{ apply nth_error_None in Hi. lia. }
  destruct (fast && _is_fast_char ch) eqn:F.
  - apply andb_prop in F. destruct F as [_ F].
    destruct (collect_chunk_first _ i ch Hi F) as (seg0 & E0).
    destruct (collect_chunk max_chunk (text (self st)) i []) as [j chunk].
    cbn [fst snd] in *. subst chunk. cbn [_fast_type_chunk].
    destruct (safe_write_strokes env (ch :: seg0) st) as [T R].
    exists (write_or (ch :: seg0) (ev_pyautogui_write (ch :: seg0))
              (keyboard_write env (clock st))
              (pyautogui_call env (S (clock st)))),
           (write_or_result (keyboard_write env (clock st))
              (pyautogui_call env (S (clock st)))).
    rewrite <- R.
    destruct (_safe_write env (ch :: seg0) st) as [[[] | msg |] st'];
      cbn [fst snd] in *; (split; [exact T | split; [reflexivity | eauto]]).
  - destruct (type_char_strokes env ch st) as (u & r & T & R & K).
    exists u, r. rewrite <- R in *.
    destruct (_type_char env ch st) as [[[] | msg |] st'];
      cbn [fst snd] in *; (split; [exact T | split; [reflexivity | exact K]]).
Qed.

(** The pacing raises nothing unless [random.randint] does. *)
Lemma pace_harmless st :
  exists p,
    trace (snd (pace env st)) = trace st ++ p
    /\ match fst (pace env st) with
       | Ret _ => harmless p
       | Exn msg => exists p' e, p = p' ++ [e] /\ harmless p'
                                 /\ uncaught e = Some msg
       | Idling => False
       end.
Proof.
  unfold pace, call_randint, bind, get_self, tick, emit, of_outcome, harmless.
  cbn [self clock trace].
  destruct (use_random (self st)); cbn [ret].
  - destruct (randint_value (rand_min_ms (self st)) (rand_max_ms (self st))
                (random_bits env (clock st))) as [v | msg];
      cbn [ret raise self clock trace fst snd].
    + destruct (0 <? base_delay_ms (self st) + v); cbn [fst snd trace].
      * eexists [_; _]. rewrite <- app_assoc. split; [reflexivity |].
        repeat constructor.
      * eexists [_]. split; [reflexivity |]. repeat constructor.
    + eexists [_]. split; [reflexivity |].
      exists [], (ev_randint (rand_min_ms (self st)) (rand_max_ms (self st))
                    (Raises msg)).
      repeat split. constructor.
  - destruct (0 <? base_delay_ms (self st)); cbn [fst snd trace].
    + eexists [_]. split; [reflexivity |]. repeat constructor.
    + exists []. rewrite app_nil_r. split; [reflexivity | constructor].
Qed.

End WithWorld2.

(** *** The loop *)

Lemma pacing_config w w' e : same_config w w' -> pacing w' e -> pacing w e.
Proof.
  intros C. pose proof (same_config_fast w w' C) as F.
  destruct C as (_ & Eb & Eu & Emin & Emax).
  unfold pacing. rewrite F, Eb, Eu, Emin, Emax. auto.
Qed.

Section WithWorld3.
Variable env : World.

Lemma turn_spec polls w i st :
  same_config w (self st) ->
  (i < List.length (text w))%nat ->
  exists r st' evs,
    turn env polls (List.length (text w)) (fast_mode_of w) i st = (r, st')
    /\ grows st st' evs /\ turn_shape w i evs r
    /\ (_stop_flag (self st') = true -> r = Ret None).
Proof.
  intros C Hlt. unfold turn, type_and_report.
  rewrite bind_deliver.
  pose proof (deliver_grows env st) as G1. rewrite deliver_eq in G1.
  cbn [snd] in G1. set (st1 := mkSt _ _ _) in *. clearbody st1.
  rewrite bind_get_self.
  destruct (_stop_flag (self st1)) eqn:Stop1.
  { rewrite bind_emit. eexists _, _, ([] ++ [stopped]).
    split; [reflexivity |]. split; [| split; [| reflexivity]].
    - destruct G1 as (C1 & S1 & T1). split; [exact C1 | split; [auto |]].
      cbn. rewrite T1, app_nil_r. reflexivity.
    - constructor. constructor. }
  destruct (check_focus_spec env st1) as (st2 & q1 & E2 & G2 & Q1).
  rewrite (bind_Ret _ _ _ _ _ E2).
  destruct (pause_idle_spec env polls st2) as (r3 & st3 & q2 & E3 & G3 & Q2 & R3).
  pose proof (grows_trans _ _ _ _ _ (grows_trans _ _ _ _ _ G1 G2) G3) as G13.
  cbn [app] in G13.
  assert (Q12 : Forall quiet (q1 ++ q2)) by (apply Forall_app; auto).
  destruct R3 as [-> | [-> Stop3]].
  2:{ rewrite (bind_Idling _ _ _ _ E3).
      eexists _, _, (q1 ++ q2). split; [reflexivity |]. split; [exact G13 |].
      split; [constructor; assumption |]. congruence. }
  rewrite (bind_Ret _ _ _ _ _ E3).
  rewrite bind_deliver.
  pose proof (deliver_grows env st3) as G4. rewrite deliver_eq in G4.
  cbn [snd] in G4.
  set (st4 := mkSt (fold_left apply_call (inbox env (clock st3)) (self st3)) _ _) in *.
  clearbody st4.
  pose proof (grows_trans _ _ _ _ _ G13 G4) as G14. rewrite app_nil_r in G14.
  rewrite bind_get_self.
  destruct (_stop_flag (self st4)) eqn:Stop4.
  { rewrite bind_emit. eexists _, _, ((q1 ++ q2) ++ [stopped]).
    split; [reflexivity |]. split; [| split; [| reflexivity]].
    - destruct G14 as (C4 & S4 & T4). split; [exact C4 | split; [auto |]].
      cbn. rewrite T4, <- !app_assoc. reflexivity.
    - constructor; assumption. }
  assert (C4 : same_config w (self st4)).
  { eapply same_config_trans; [exact C | apply G14]. }
  assert (Etext : text (self st4) = text w) by apply C4.
  destruct (type_unit_spec env (fast_mode_of w) i st4)
    as (r5 & st5 & u & E5 & S5 & T5 & K5 & A5 & W5 & N5).
  { rewrite Etext. exact Hlt. }
  rewrite Etext in K5, A5, N5.
  destruct (type_unit_strokes env (fast_mode_of w) i st4)
    as (u2 & r2 & T2 & R2 & K2).
  { rewrite Etext. exact Hlt. }
  rewrite Etext in R2, K2. rewrite E5 in T2, R2. cbn [fst snd] in T2, R2.
  rewrite T5 in T2. apply app_inv_head in T2. subst u2.
  destruct r5 as [i' | msg |]; [| | contradiction].
  2:{ rewrite (bind_Exn _ _ _ _ _ E5).
      destruct r2 as [[] | msg2 |]; try discriminate.
      injection R2 as <-.
      destruct W5 as (u' & e & -> & Re).
      eexists _, _, ((q1 ++ q2) ++ u' ++ [e]). split; [reflexivity |].
      split; [| split].
      - destruct G14 as (C' & S' & T'). split; [| split].
        + rewrite S5. exact C'.
        + rewrite S5. exact S'.
        + rewrite T5, T', <- !app_assoc. reflexivity.
      - econstructor; eassumption.
      - rewrite S5. congruence. }
  rewrite (bind_Ret _ _ _ _ _ E5).
  destruct r2 as [[] | msg2 |]; try discriminate. clear R2.
  specialize (N5 i' eq_refl). subst i'.
  set (i' := next_index (fast_mode_of w) (text w) i) in *.
  rewrite bind_emit.
  set (st6 := mkSt (self st5) _ _).
  assert (Stop6 : _stop_flag (self st6) = false) by (cbn; rewrite S5; exact Stop4).
  assert (G6 : grows st st6
                 ((q1 ++ q2) ++ u
                    ++ [progress_changed (percent_of i' (List.length (text w)))])).
  { destruct G14 as (C' & S' & T'). split; [| split]; cbn.
    - rewrite S5. exact C'.
    - rewrite S5. exact S'.
    - rewrite T5, T', <- !app_assoc. reflexivity. }
  clearbody st6.
  assert (C6 : same_config w (self st6)).
  { eapply same_config_trans; [exact C | apply G6]. }
  assert (paced : exists r7 st7 p,
             (if negb (fast_mode_of w) then pace env else ret tt) st6 = (r7, st7)
             /\ self st7 = self st6 /\ trace st7 = trace st6 ++ p
             /\ Forall (pacing w) p /\ ends_well r7 p
             /\ match r7 with
                | Ret _ => harmless p
                | Exn msg => exists p' e, p = p' ++ [e] /\ harmless p'
                                          /\ uncaught e = Some msg
                | Idling => False
                end).
  { destruct (fast_mode_of w) eqn:F; cbn [negb].
    - eexists _, _, []. split; [reflexivity |]. split; [reflexivity |].
      split; [symmetry; apply app_nil_r |]. split; [constructor |].
      split; [exact I | constructor].
    - destruct (pace_spec env st6) as (r7 & st7 & p & E7 & S7 & T7 & P7 & W7).
      { rewrite (same_config_fast _ _ C6). exact F. }
      exists r7, st7, p.
      split; [exact E7 |]. split; [exact S7 |]. split; [exact T7 |].
      split; [| split; [exact W7 |]].
      + eapply Forall_impl; [| exact P7].
        intros e. apply pacing_config. exact C6.
      + destruct (pace_harmless env st6) as (p2 & Tp & Hp).
        rewrite E7 in Tp, Hp. cbn [fst snd] in Tp, Hp.
        rewrite T7 in Tp. apply app_inv_head in Tp. subst p2. exact Hp. }
  destruct paced as (r7 & st7 & p & E7 & S7 & T7 & P7 & W7 & H7).
  destruct r7 as [[] | msg |]; [| | contradiction].
  2:{ rewrite (bind_Exn _ _ _ _ _ E7).
      destruct W7 as (p' & e & -> & Re).
      assert (H7' : harmless p' /\ uncaught e = Some msg).
      { destruct H7 as (p'' & e' & Ep & Hp & Ue).
        apply app_inj_tail in Ep. destruct Ep as [-> ->]. auto. }
      eexists _, _, ((q1 ++ q2) ++ u ++ progress_changed _ :: p' ++ [e]).
      split; [reflexivity |]. split; [| split].
      - destruct G6 as (C' & S' & T'). split; [| split].
        + rewrite S7. exact C'.
        + rewrite S7. exact S'.
        + rewrite T7, T', <- !app_assoc. reflexivity.
      - eapply turn_pace_raises; eassumption.
      - rewrite S7. congruence. }
  rewrite (bind_Ret _ _ _ _ _ E7).
  eexists _, st7, ((q1 ++ q2) ++ u ++ progress_changed _ :: p).
  split; [reflexivity |]. split; [| split].
  - destruct G6 as (C' & S' & T'). split; [| split].
    + rewrite S7. exact C'.
    + rewrite S7. exact S'.
    + rewrite T7, T', <- !app_assoc. reflexivity.
  - eapply turn_typed; eassumption.
  - rewrite S7. congruence.
Qed.

Lemma finish_grows st :
  exists st', (deliver env ;; emit finished)%worker st = (Ret tt, st')
              /\ grows st st' [finished].
Proof.
  rewrite bind_deliver. unfold emit. cbn [self clock trace].
  eexists. split; [reflexivity |].
  pose proof (deliver_grows env st) as G. rewrite deliver_eq in G.
  destruct G as (C1 & S1 & _). split; [exact C1 | split; [exact S1 |]].
  reflexivity.
Qed.

Lemma loop_shape polls w :
  forall steps i st,
    same_config w (self st) ->
    (List.length (text w) - i <= steps)%nat ->
    exists r st' evs,
      loop env polls steps (List.length (text w)) (fast_mode_of w) i st = (r, st')
      /\ grows st st' evs /\ shape w i evs r.
Proof.
  induction steps as [| steps IH]; intros i st C Hs; cbn [loop];
    destruct (Nat.ltb_spec i (List.length (text w))) as [Hlt | Hge]; try lia.
  - destruct (finish_grows st) as (st' & E & G). rewrite E.
    eexists _, _, _. split; [reflexivity |]. split; [exact G |].
    constructor. exact Hge.
  - destruct (turn_spec polls w i st C Hlt) as (r & st1 & evs & E & G & Sh & _).
    destruct Sh as [q Q | q Q | q u e msg Q K A R Us
                    | q u p e msg Q K A P R Us Hh | q u p Q K A P Us Hh].
    + rewrite (bind_Ret _ _ _ _ _ E). eexists _, _, _.
      split; [reflexivity |]. split; [exact G |]. constructor; assumption.
    + rewrite (bind_Idling _ _ _ _ E). eexists _, _, _.
      split; [reflexivity |]. split; [exact G |]. constructor; assumption.
    + rewrite (bind_Exn _ _ _ _ _ E). eexists _, _, _.
      split; [reflexivity |]. split; [exact G |]. econstructor; eassumption.
    + rewrite (bind_Exn _ _ _ _ _ E). eexists _, _, _.
      split; [reflexivity |]. split; [exact G |].
      eapply shape_pace_raises; eassumption.
    + rewrite (bind_Ret _ _ _ _ _ E).
      pose proof (next_index_bounds (fast_mode_of w) (text w) i Hlt) as Hn.
      destruct (IH (next_index (fast_mode_of w) (text w) i) st1)
        as (r & st' & rest & E8 & G8 & Sh8).
      { eapply same_config_trans; [exact C | apply G]. }
      { lia. }
      rewrite E8.
      eexists r, st', (q ++ u ++ progress_changed _ :: p ++ rest).
      split; [reflexivity |]. split.
      * pose proof (grows_trans _ _ _ _ _ G G8) as G'.
        rewrite <- !app_assoc in G'. cbn [app] in G'. exact G'.
      * eapply shape_step; eassumption.
  - destruct (finish_grows st) as (st' & E & G). rewrite E.
    eexists _, _, _. split; [reflexivity |]. split; [exact G |].
    constructor. exact Hge.
Qed.

End WithWorld3.

End WorkerFacts.

(** ** Runs *)

Module RunFacts.
Import TypingWorker Units Traces WorkerFacts.

Lemma run_spec env polls st :
  exists r st' evs,
    run env polls st = (r, st') /\ trace st' = trace st ++ evs /\
    run_shape (self st) evs r /\ same_config (self st) (self st').
Proof.
  unfold run, try_except, run_shape. rewrite bind_get_self.
  destruct (text (self st)) as [| c txt] eqn:Et.
  - cbn. eexists _, _, _. repeat split.
  - cbn [List.length Nat.eqb].
    destruct (loop_shape env polls (self st) (List.length (text (self st))) 0 st)
      as (r & st' & evs & E & G & Sh).
    { apply same_config_refl. } { lia. }
    rewrite Et in E. cbn [List.length] in E. unfold fast_mode_of in E. rewrite E.
    destruct G as (Cf & _ & T).
    destruct r as [[] | msg |].
    + eexists _, _, evs. split; [reflexivity |]. split; [exact T |].
      split; [| exact Cf]. exists evs, (Ret tt). auto.
    + eexists _, _, (evs ++ [error msg]). split; [reflexivity |].
      split; [| split; [| exact Cf]].
      * cbn. rewrite T, app_assoc. reflexivity.
      * exists evs, (Exn msg). auto.
    + eexists _, _, evs. split; [reflexivity |]. split; [exact T |].
      split; [| exact Cf]. exists evs, Idling. auto.
Qed.

(** *** Reading a trace *)

Lemma flat_map_nil_on {A B} (P : A -> Prop) (f : A -> list B) l :
  (forall a, P a -> f a = []) -> Forall P l -> flat_map f l = [].
Proof.
  intros H F. induction F as [| a l Pa _ IH]; cbn; [reflexivity |].
  rewrite (H a Pa), IH. reflexivity.
Qed.

Lemma progress_values_app a b :
  progress_values (a ++ b) = progress_values a ++ progress_values b.
Proof. apply flat_map_app. Qed.

Lemma progress_values_quiet q : Forall quiet q -> progress_values q = [].
Proof. apply flat_map_nil_on. intros [] H; try reflexivity; destruct H. Qed.

Lemma progress_values_keystroke s u :
  Forall (keystroke_for s) u -> progress_values u = [].
Proof. apply flat_map_nil_on. intros [] H; try reflexivity; destruct H. Qed.

Lemma progress_values_pacing w p : Forall (pacing w) p -> progress_values p = [].
Proof.
  apply flat_map_nil_on. intros [] [_ H]; try reflexivity; destruct H.
Qed.

Lemma unit_starts_fuel fast text :
  forall s1 s2 i,
    (List.length text - i <= s1)%nat -> (List.length text - i <= s2)%nat ->
    unit_starts s1 fast text i = unit_starts s2 fast text i.
Proof.
  induction s1 as [| s1 IH]; intros [| s2] i H1 H2; cbn [unit_starts];
    destruct (Nat.ltb_spec i (List.length text)) as [Hlt | Hge];
    try reflexivity; try lia.
  pose proof (next_index_bounds fast text i Hlt).
  f_equal. apply IH; lia.
Qed.

Lemma unit_starts_unfold fast text steps i :
  (i < List.length text)%nat -> (List.length text - i <= steps)%nat ->
  unit_starts steps fast text i =
  i :: unit_starts steps fast text (next_index fast text i).
Proof.
  intros Hlt Hs. destruct steps as [| steps]; [lia |].
  pose proof (next_index_bounds fast text i Hlt).
  rewrite (unit_starts_fuel fast text (S steps) steps (next_index fast text i))
    by lia.
  cbn [unit_starts]. destruct (Nat.ltb_spec i (List.length text)); [| lia].
  reflexivity.
Qed.

Lemma unit_starts_done fast text steps i :
  (List.length text <= i)%nat -> unit_starts steps fast text i = [].
Proof.
  intros H. destruct steps; cbn [unit_starts]; [reflexivity |].
  destruct (Nat.ltb_spec i (List.length text)); [lia | reflexivity].
Qed.

Lemma keyboard_attempts_app a b :
  keyboard_attempts (a ++ b) = keyboard_attempts a ++ keyboard_attempts b.
Proof. apply flat_map_app. Qed.

Lemma keyboard_attempts_quiet q : Forall quiet q -> keyboard_attempts q = [].
Proof. apply flat_map_nil_on. intros [] H; try reflexivity; destruct H. Qed.

Lemma keyboard_attempts_pacing w p :
  Forall (pacing w) p -> keyboard_attempts p = [].
Proof.
  apply flat_map_nil_on. intros [] [_ H]; try reflexivity; destruct H.
Qed.

Ltac read_turn Q K A :=
  rewrite progress_values_app, keyboard_attempts_app,
    (progress_values_quiet _ Q), (keyboard_attempts_quiet _ Q);
  first [ rewrite (progress_values_keystroke _ _ K), A
        | rewrite progress_values_app, keyboard_attempts_app,
            (progress_values_keystroke _ _ K), A ];
  cbn [app];
  repeat change (progress_values (?x :: ?l)) with
    (match x with progress_changed p => [p] | _ => [] end ++ progress_values l);
  repeat change (keyboard_attempts (?x :: ?l)) with
    (match x with ev_keyboard_write s _ => [s] | _ => [] end
       ++ keyboard_attempts l).

(** The loop reports the percentage at the end of each unit it typed: the
    progress values are those of the first [k] units, and the strings
    handed to [keyboard.write] are those of the same units, and of one
    more when that unit raised. *)
Lemma shape_units w i evs r :
  shape w i evs r ->
  let len := List.length (text w) in
  let starts := unit_starts len (fast_mode_of w) (text w) i in
  exists k,
    progress_values evs =
      map (fun j => percent_of j len)
          (firstn k (map (next_index (fast_mode_of w) (text w)) starts)) /\
    (In finished evs -> (List.length starts <= k)%nat) /\
    (keyboard_attempts evs =
       flat_map (unit_attempts (fast_mode_of w) (text w)) (firstn k starts)
     \/ (exists msg, r = Exn msg) /\
        keyboard_attempts evs =
          flat_map (unit_attempts (fast_mode_of w) (text w))
                   (firstn (S k) starts)).
Proof.
  intros Sh. induction Sh as
    [i Hge | i q Hlt Q | i q Hlt Q | i q u e msg Hlt Q K A R Us
     | i q u p e msg Hlt Q K A P R Us Hh
     | i q u p rest r Hlt Q K A P Us Hh Sh IH]; cbn zeta.
  - exists 0%nat. rewrite unit_starts_done by exact Hge. cbn. auto.
  - exists 0%nat.
    rewrite progress_values_app, keyboard_attempts_app,
      (progress_values_quiet _ Q), (keyboard_attempts_quiet _ Q). cbn.
    split; [reflexivity |]. split; [| auto]. intros H. apply in_app_or in H.
    destruct H as [H | [H | []]]; [| discriminate].
    exfalso. rewrite Forall_forall in Q. apply (Q _ H).
  - exists 0%nat.
    rewrite (progress_values_quiet _ Q), (keyboard_attempts_quiet _ Q). cbn.
    split; [reflexivity |]. split; [| auto]. intros H.
    exfalso. rewrite Forall_forall in Q. apply (Q _ H).
  - exists 0%nat. read_turn Q K A.
    rewrite (unit_starts_unfold _ _ _ i Hlt) by lia.
    cbn [firstn flat_map app map]. rewrite app_nil_r.
    split; [reflexivity |]. split; [| right; eauto].
    intros H. apply in_app_or in H. rewrite Forall_forall in Q, K.
    destruct H as [H | H]; exfalso; [apply (Q _ H) | apply (K _ H)].
  - exists 1%nat. read_turn Q K A.
    rewrite (unit_starts_unfold _ _ _ i Hlt) by lia.
    rewrite (progress_values_pacing w _ P), (keyboard_attempts_pacing w _ P).
    cbn [app List.length firstn flat_map map]. rewrite !app_nil_r.
    split; [reflexivity |]. split; [| left; reflexivity].
    intros H. rewrite Forall_forall in Q, K, P.
    apply in_app_or in H. destruct H as [H | H]; [exfalso; apply (Q _ H) |].
    apply in_app_or in H. destruct H as [H | H]; [exfalso; apply (K _ H) |].
    destruct H as [H | H]; [discriminate |].
    exfalso. destruct (P _ H) as [_ []].
  - destruct IH as (k & Ek & Fin & Ea). cbn zeta in Ek, Fin, Ea.
    exists (S k). read_turn Q K A.
    rewrite (unit_starts_unfold _ _ _ i Hlt) by lia.
    rewrite progress_values_app, keyboard_attempts_app,
      (progress_values_pacing w _ P), (keyboard_attempts_pacing w _ P), Ek.
    cbn [app List.length firstn flat_map map].
    split; [reflexivity |]. split.
    + intros H. rewrite Forall_forall in Q, K, P.
      apply in_app_or in H. destruct H as [H | H]; [exfalso; apply (Q _ H) |].
      apply in_app_or in H. destruct H as [H | H]; [exfalso; apply (K _ H) |].
      destruct H as [H | H]; [discriminate |].
      apply in_app_or in H. destruct H as [H | H].
      * exfalso. destruct (P _ H) as [_ []].
      * specialize (Fin H). lia.
    + destruct Ea as [Ea | [Ex Ea]]; [left | right; split; [exact Ex |]];
        rewrite Ea; reflexivity.
Qed.

(** *** The ends of the units *)

Lemma unit_ends_above fast text steps :
  forall i,
    Forall (fun e => (i < e <= List.length text)%nat)
           (map (next_index fast text) (unit_starts steps fast text i)).
Proof.
  induction steps as [| steps IH]; intros i; cbn [unit_starts map];
    [constructor |].
  destruct (Nat.ltb_spec i (List.length text)) as [Hlt | Hge]; [| constructor].
  pose proof (next_index_bounds fast text i Hlt) as Hn.
  cbn [map]. constructor; [exact Hn |].
  eapply Forall_impl; [| apply IH]. cbn. intros e He. lia.
Qed.

Lemma unit_ends_sorted fast text steps :
  forall i,
    StronglySorted le (map (next_index fast text) (unit_starts steps fast text i)).
Proof.
  induction steps as [| steps IH]; intros i; cbn [unit_starts map];
    [constructor |].
  destruct (Nat.ltb_spec i (List.length text)) as [Hlt | Hge]; [| constructor].
  cbn [map]. constructor; [apply IH |].
  eapply Forall_impl; [| apply unit_ends_above]. cbn. intros e He. lia.
Qed.

Lemma unit_ends_last fast text steps :
  forall i,
    (i < List.length text)%nat -> (List.length text - i <= steps)%nat ->
    last (map (next_index fast text) (unit_starts steps fast text i)) 0%nat
    = List.length text.
Proof.
  induction steps as [| steps IH]; intros i Hlt Hs; [lia |].
  cbn [unit_starts]. destruct (Nat.ltb_spec i (List.length text)); [| lia].
  pose proof (next_index_bounds fast text i Hlt) as Hn.
  cbn [map].
  destruct (Nat.ltb_spec (next_index fast text i) (List.length text)) as [L | G].
  - specialize (IH _ L ltac:(lia)).
    destruct (map _ (unit_starts steps fast text (next_index fast text i)))
      as [| e es] eqn:E.
    + destruct steps; [lia |]. cbn [unit_starts] in E.
      destruct (Nat.ltb_spec (next_index fast text i) (List.length text));
        [discriminate | lia].
    + exact IH.
  - rewrite unit_starts_done by exact G. cbn. lia.
Qed.

Lemma In_firstn {A} (x : A) k l : In x (firstn k l) -> In x l.
Proof.
  intros H. rewrite <- (firstn_skipn k l). apply in_or_app. left. exact H.
Qed.

Lemma StronglySorted_firstn {A} (R : A -> A -> Prop) l :
  StronglySorted R l -> forall k, StronglySorted R (firstn k l).
Proof.
  induction 1 as [| a l S IH F]; intros [| k]; cbn; try constructor.
  - apply IH.
  - rewrite Forall_forall in *. intros x Hx. apply F.
    eapply In_firstn. exact Hx.
Qed.
Lemma StronglySorted_map_mono {A B} (R : A -> A -> Prop) (S : B -> B -> Prop)
    (f : A -> B) l :
  (forall a b, R a b -> S (f a) (f b)) ->
  StronglySorted R l -> StronglySorted S (map f l).
Proof.
  intros Hf. induction 1 as [| a l Hs IH F]; cbn; constructor; [exact IH |].
  rewrite Forall_forall in *. intros y Hy. apply in_map_iff in Hy.
  destruct Hy as (x & <- & Hx). apply Hf, F, Hx.
Qed.

Lemma last_map {A B} (f : A -> B) l d d' :
  l <> [] -> last (map f l) d' = f (last l d).
Proof.
  induction l as [| a l IH]; intros H; [contradiction |].
  destruct l as [| b l]; [reflexivity |].
  change (last (map f (b :: l)) d' = f (last (b :: l) d)).
  apply IH. discriminate.
Qed.

Lemma trace_of_shape env polls w :
  exists r, fst (run env polls (start w)) = r /\
            run_shape w (trace_of env polls w) r.
Proof.
  destruct (run_spec env polls (start w)) as (r & st' & evs & E & T & Sh & _).
  exists r. unfold trace_of. rewrite E. cbn in *. rewrite T. auto.
Qed.

End RunFacts.


(** ** Events and units *)

Module EventFacts.
Import TypingWorker Units Traces WorkerFacts RunFacts.

Lemma is_fast_char_plain ch : _is_fast_char ch = true <-> plain ch.
Proof.
  unfold _is_fast_char, plain.
  destruct (N.eqb_spec ch 10) as [-> | H10]; cbn [orb].
  { split; [discriminate | intros (_ & H & _); contradiction]. }
  destruct (N.eqb_spec ch 9) as [-> | H9]; cbn [orb].
  { split; [discriminate | intros (_ & _ & H); contradiction]. }
  rewrite N.leb_le. tauto.
Qed.

Lemma shape_events w i evs r : shape w i evs r -> Forall (event_ok w i) evs.
Proof.
  assert (Hq : forall j q, Forall quiet q -> Forall (event_ok w j) q).
  { intros j q Q. eapply Forall_impl; [| exact Q]. intros x Hx. left. exact Hx. }
  assert (Hp : forall j p, Forall (pacing w) p -> Forall (event_ok w j) p).
  { intros j p P. eapply Forall_impl; [| exact P]. intros x Hx.
    right. right. left. exact Hx. }
  assert (Hk : forall j u,
             (j < List.length (text w))%nat ->
             Forall (keystroke_for (unit_text (fast_mode_of w) (text w) j)) u ->
             Forall (event_ok w j) u).
  { intros j u Hlt K. eapply Forall_impl; [| exact K]. intros x Hx. right. left.
    exists j. split; [| exact Hx].
    rewrite (unit_starts_unfold _ _ _ j Hlt) by lia. left. reflexivity. }
  assert (Hprog : forall j k, event_ok w j
                    (progress_changed (percent_of k (List.length (text w))))).
  { intros j k. right. right. right. left. eauto. }
  intros Sh. induction Sh as
    [i Hge | i q Hlt Q | i q Hlt Q | i q u e msg Hlt Q K A R Us
     | i q u p e msg Hlt Q K A P R Us Hh
     | i q u p rest r Hlt Q K A P Us Hh Sh IH].
  - constructor; [| constructor]. do 4 right. left. reflexivity.
  - apply Forall_app. split; [auto |].
    constructor; [| constructor]. do 5 right. reflexivity.
  - auto.
  - apply Forall_app. split; auto.
  - apply Forall_app. split; [auto |].
    apply Forall_app. split; [auto |]. constructor; auto.
  - apply Forall_app. split; [auto |].
    apply Forall_app. split; [auto |]. constructor; [auto |].
    apply Forall_app. split; [auto |].
    eapply Forall_impl; [| exact IH].
    intros x [H | [(j & Hj & H) | H]]; [left; exact H | | right; right; exact H].
    right. left. exists j. split; [| exact H].
    rewrite (unit_starts_unfold _ _ _ i Hlt) by lia. right. exact Hj.
Qed.

(** Every event of a run is one of the loop started at 0, or the final
    [error]. *)
Lemma trace_of_events env polls w :
  Forall (fun e => event_ok w 0 e \/ exists msg, e = error msg)
         (trace_of env polls w).
Proof.
  destruct (trace_of_shape env polls w) as (r & _ & Sh).
  unfold run_shape in Sh. destruct (text w) as [| c txt] eqn:Et.
  - destruct Sh as [-> _]. constructor; [| constructor]. left. do 4 right. left. reflexivity.
  - destruct Sh as (evs0 & r0 & Sh & Er).
    pose proof (shape_events _ _ _ _ Sh) as F.
    assert (F' : Forall (fun e => event_ok w 0 e \/ exists msg, e = error msg) evs0).
    { eapply Forall_impl; [| exact F]. intros x Hx. left. exact Hx. }
    destruct r0 as [[] | msg |]; destruct Er as [-> _]; try exact F'.
    apply Forall_app. split; [exact F' |]. constructor; [| constructor]. eauto.
Qed.

Lemma unit_starts_lt fast text steps :
  forall i j, In j (unit_starts steps fast text i) ->
              (i <= j < List.length text)%nat.
Proof.
  induction steps as [| steps IH]; intros i j H; cbn [unit_starts] in H;
    [destruct H |].
  destruct (Nat.ltb_spec i (List.length text)) as [Hlt | Hge]; [| destruct H].
  destruct H as [<- | H]; [lia |].
  apply IH in H. pose proof (next_index_bounds fast text i Hlt). lia.
Qed.

(** A unit outside the fast path is one character. *)
Lemma slow_unit text i ch :
  nth_error text i = Some ch ->
  unit_text false text i = [ch] /\ next_index false text i = S i.
Proof. intros H. unfold unit_text, next_index. rewrite H. auto. Qed.

(** A unit of the fast path: a run of plain characters that stops at 40
    characters, at the end of the text or before a character that is
    not plain; any other character alone. *)
Lemma fast_unit text i ch :
  nth_error text i = Some ch ->
  let s := unit_text true text i in
  let j := next_index true text i in
  (plain ch ->
     s = firstn (j - i) (skipn i text) /\ Forall plain s /\
     (1 <= List.length s <= 40)%nat /\ j = (i + List.length s)%nat /\
     (List.length s = 40%nat \/
      match nth_error text j with
      | Some c => ~ plain c
      | None => True
      end)) /\
  (~ plain ch -> s = [ch] /\ j = S i).
Proof.
  intros Hi. cbn zeta. unfold unit_text, next_index. rewrite Hi. cbn [andb].
  split.
  - intros Hp. apply is_fast_char_plain in Hp. rewrite Hp.
    destruct (collect_chunk_first text i ch Hi Hp) as (seg0 & E0).
    destruct (collect_chunk max_chunk text i []) as [j chunk] eqn:E.
    cbn [fst snd] in *. apply collect_chunk_spec in E.
    destruct E as (seg & Ec & Es & Ej & Hl & Hf & _ & Hm).
    cbn [app] in Ec. subst chunk. rewrite <- Es.
    assert (Hpos : (1 <= List.length seg)%nat) by (rewrite E0; cbn; lia).
    unfold max_chunk in *.
    repeat split; try lia.
    + eapply Forall_impl; [| exact Hf]. intros c. apply is_fast_char_plain.
    + destruct Hm as [Hm | Hm]; [left; exact Hm | right].
      destruct (nth_error text j) as [c |]; [| exact I].
      intros Hc. apply is_fast_char_plain in Hc. congruence.
  - intros Hp. destruct (_is_fast_char ch) eqn:F; [| auto].
    apply is_fast_char_plain in F. contradiction.
Qed.

End EventFacts.

(** ** How a run ends *)

Module EndFacts.
Import TypingWorker Units Traces WorkerFacts RunFacts EventFacts.
Local Open Scope worker_scope.

Lemma turn_unfold env polls length fast i st :
  turn env polls length fast i st =
  let st1 := delivered env st in
  if _stop_flag (self st1)
  then (Ret None, mkSt (self st1) (clock st1) (trace st1 ++ [stopped]))
  else
    match pause_idle env polls (snd (_check_focus env st1)) with
    | (Ret _, st3) => after_pause env length fast i st3
    | (Exn msg, st3) => (Exn msg, st3)
    | (Idling, st3) => (Idling, st3)
    end.
Proof.
  unfold turn. rewrite bind_deliver, bind_get_self. fold (delivered env st).
  cbn zeta. destruct (_stop_flag (self (delivered env st))); [reflexivity |].
  destruct (check_focus_spec env (delivered env st)) as (st2 & q & E & _).
  rewrite (bind_Ret _ _ _ _ _ E), E. cbn [snd].
  unfold bind at 1. destruct (pause_idle env polls st2) as [[[] | msg |] st3];
    reflexivity.
Qed.

(** *** Terminal signals *)

Lemma no_terminal_quiet q : Forall quiet q -> no_terminal q.
Proof.
  intros Q. eapply Forall_impl; [| exact Q]. intros [] H; try reflexivity; destruct H.
Qed.

Lemma no_terminal_keystroke s u : Forall (keystroke_for s) u -> no_terminal u.
Proof.
  intros K. eapply Forall_impl; [| exact K]. intros [] H; try reflexivity; destruct H.
Qed.

Lemma no_terminal_pacing w p : Forall (pacing w) p -> no_terminal p.
Proof.
  intros P. eapply Forall_impl; [| exact P].
  intros [] [_ H]; try reflexivity; destruct H.
Qed.

(** A loop that returns has emitted [finished] or [stopped], once and as
    its last event; a loop that raises or idles has emitted neither. *)
Lemma shape_terminals w i evs r :
  shape w i evs r ->
  match r with
  | Ret _ => exists pre t, evs = pre ++ [t] /\ (t = finished \/ t = stopped)
                           /\ no_terminal pre
  | Exn msg => no_terminal evs
                /\ exists pre e, evs = pre ++ [e] /\ raised e = Some msg
  | Idling => no_terminal evs
  end.
Proof.
  intros Sh. induction Sh as
    [i Hge | i q Hlt Q | i q Hlt Q | i q u e msg Hlt Q K A R Us
     | i q u p e msg Hlt Q K A P R Us Hh
     | i q u p rest r Hlt Q K A P Us Hh Sh IH].
  - exists [], finished. repeat split; auto. constructor.
  - exists q, stopped. repeat split; auto. apply no_terminal_quiet, Q.
  - apply no_terminal_quiet, Q.
  - split.
    + apply Forall_app. split; [apply no_terminal_quiet, Q |].
      eapply no_terminal_keystroke, K.
    + exists (q ++ u), e. rewrite <- app_assoc. auto.
  - split.
    + apply Forall_app. split; [apply no_terminal_quiet, Q |].
      apply Forall_app. split; [eapply no_terminal_keystroke, K |].
      constructor; [reflexivity |]. eapply no_terminal_pacing, P.
    + exists (q ++ u ++ progress_changed
                (percent_of (next_index (fast_mode_of w) (text w) i)
                            (List.length (text w))) :: p), e.
      rewrite <- !app_assoc. cbn [app]. auto.
  - assert (Hturn : no_terminal
              (q ++ u ++ progress_changed
                 (percent_of (next_index (fast_mode_of w) (text w) i)
                             (List.length (text w))) :: p)).
    { apply Forall_app. split; [apply no_terminal_quiet, Q |].
      apply Forall_app. split; [eapply no_terminal_keystroke, K |].
      constructor; [reflexivity |]. eapply no_terminal_pacing, P. }
    assert (E : q ++ u ++ progress_changed
                  (percent_of (next_index (fast_mode_of w) (text w) i)
                              (List.length (text w))) :: p ++ rest
                = (q ++ u ++ progress_changed
                     (percent_of (next_index (fast_mode_of w) (text w) i)
                                 (List.length (text w))) :: p) ++ rest).
    { rewrite <- !app_assoc. cbn [app]. reflexivity. }
    rewrite E.
    set (turn_evs := q ++ u ++ progress_changed
                       (percent_of (next_index (fast_mode_of w) (text w) i)
                                   (List.length (text w))) :: p) in *.
    destruct r as [[] | msg |].
    + destruct IH as (pre & t & -> & Ht & Hpre).
      exists (turn_evs ++ pre), t. split; [apply app_assoc |].
      split; [exact Ht |]. apply Forall_app. split; assumption.
    + destruct IH as (Hn & pre & e & -> & Re). split.
      * apply Forall_app. split; assumption.
      * exists (turn_evs ++ pre), e. split; [apply app_assoc | exact Re].
    + apply Forall_app. split; assumption.
Qed.

(** *** The pause loop *)

Lemma pause_idle_unfold env polls st :
  pause_idle env polls st =
  let st1 := delivered env st in
  if _pause_flag (self st1) && negb (_stop_flag (self st1)) then
    match polls with
    | O => (Idling, st1)
    | S polls' =>
        pause_idle env polls'
          (mkSt (self st1) (clock st1) (trace st1 ++ [ev_sleep_poll]))
    end
  else (Ret tt, st1).
Proof.
  destruct polls; cbn [pause_idle]; rewrite bind_deliver, bind_get_self;
    fold (delivered env st); cbn zeta;
    destruct (_pause_flag _ && negb (_stop_flag _)); reflexivity.
Qed.


(** A stop that is set, or that arrives with the next delivery, ends the
    pause loop at once. *)
Lemma pause_idle_stop env polls st :
  _stop_flag (self st) = true \/ In call_stop (inbox env (clock st)) ->
  pause_idle env polls st = (Ret tt, delivered env st)
  /\ _stop_flag (self (delivered env st)) = true.
Proof.
  intros H.
  assert (S1 : _stop_flag (self (delivered env st)) = true).
  { cbn. destruct H as [H | H];
      [apply apply_calls_stop, H | apply apply_calls_stop_in, H]. }
  split; [| exact S1].
  rewrite pause_idle_unfold. cbn zeta. rewrite S1, andb_false_r. reflexivity.
Qed.




(** *** Runs that return *)



Lemma pace_not_idling env st : fst (pace env st) <> Idling.
Proof.
  unfold pace, call_randint, bind, get_self, tick, emit, of_outcome.
  cbn [self clock trace].
  destruct (use_random (self st)); cbn [ret].
  - match goal with |- context [randint_value ?a ?b ?c] =>
      destruct (randint_value a b c) as [v | msg] end; cbn [ret raise];
      [| discriminate].
    match goal with |- context [if ?c then _ else _] => destruct c end;
      discriminate.
  - match goal with |- context [if ?c then _ else _] => destruct c end;
      discriminate.
Qed.

Lemma type_unit_not_idling env fast i st :
  fst (type_unit env fast i st) <> Idling.
Proof.
  unfold type_unit, bind, get_self.
  destruct (nth_error _ _) as [ch |]; [| discriminate].
  destruct (fast && _is_fast_char ch).
  - destruct (collect_chunk _ _ _ _) as [j chunk].
    destruct chunk as [| c chunk]; [discriminate |]. cbn [_fast_type_chunk].
    destruct (safe_write_spec env (c :: chunk) st)
      as (r & s' & u & -> & _ & _ & _ & _ & W).
    destruct r; try discriminate. destruct W.
  - destruct (type_char_spec env ch st)
      as (r & s' & u & -> & _ & _ & _ & _ & W).
    destruct r; try discriminate. destruct W.
Qed.

Lemma type_and_report_not_idling env length fast i st :
  fst (type_and_report env length fast i st) <> Idling.
Proof.
  unfold type_and_report.
  pose proof (type_unit_not_idling env fast i st) as T.
  unfold bind at 1.
  destruct (type_unit env fast i st) as [[i' | msg |] s5]; cbn [fst] in *;
    [| discriminate | contradiction].
  rewrite bind_emit.
  match goal with |- context [bind ?m ?k ?s] =>
    assert (P : fst (m s) <> Idling);
      [| unfold bind; destruct (m s) as [[[] | msg |] s7]; cbn [fst] in *;
         [discriminate | discriminate | contradiction]]
  end.
  destruct (negb fast); [apply pace_not_idling | discriminate].
Qed.

Lemma after_pause_not_idling env length fast i st :
  fst (after_pause env length fast i st) <> Idling.
Proof.
  unfold after_pause. rewrite bind_deliver, bind_get_self.
  match goal with |- context [_stop_flag (self ?s)] =>
    destruct (_stop_flag (self s)) end.
  - discriminate.
  - apply type_and_report_not_idling.
Qed.

End EndFacts.

(** ** Titles *)

Lemma title_eqb_eq a b : title_eqb a b = true <-> a = b.
Proof.
  destruct a as [x |], b as [y |]; cbn; try (split; congruence).
  rewrite String.eqb_eq. split; congruence.
Qed.

(** ** Deliveries, turn by turn *)

Module DeliveryFacts.
Import TypingWorker Units Traces Delivery WorkerFacts RunFacts EventFacts EndFacts.
Local Open Scope worker_scope.

Lemma delivered_text_app a b :
  delivered_text (a ++ b) = delivered_text a ++ delivered_text b.
Proof. apply flat_map_app. Qed.

Lemma sleep_delays_app a b : sleep_delays (a ++ b) = sleep_delays a ++ sleep_delays b.
Proof. apply flat_map_app. Qed.

Lemma quiet_delivers_nothing q :
  Forall quiet q -> delivered_text q = [] /\ sleep_delays q = []
                    /\ ~ In finished q.
Proof.
  induction 1 as [| e q He _ IH]; [cbn; auto |].
  destruct IH as (D & S & F).
  destruct e; try contradiction; cbn; rewrite ?D, ?S;
    repeat split; auto; intros [C | C]; try discriminate; auto.
Qed.

Lemma segment_nil text i : segment text i i = [].
Proof. unfold segment. rewrite Nat.sub_diag. reflexivity. Qed.

Lemma firstn_plus {A} (a b : nat) : forall l : list A,
  firstn (a + b) l = firstn a l ++ firstn b (skipn a l).
Proof.
  induction a as [| a IH]; intros l; [reflexivity |].
  destruct l as [| x l]; cbn.
  - rewrite firstn_nil. reflexivity.
  - rewrite IH. reflexivity.
Qed.

Lemma segment_app text i j k :
  (i <= j <= k)%nat -> segment text i j ++ segment text j k = segment text i k.
Proof.
  intros H. unfold segment.
  replace (k - i)%nat with ((j - i) + (k - j))%nat by lia.
  rewrite firstn_plus, skipn_skipn.
  replace (j - i + i)%nat with j by lia. reflexivity.
Qed.

Lemma segment_all text : segment text 0 (List.length text) = text.
Proof. unfold segment. rewrite Nat.sub_0_r. cbn. apply firstn_all. Qed.

Lemma segment_from_0 text j : segment text 0 j = firstn j text.
Proof. unfold segment. rewrite Nat.sub_0_r. reflexivity. Qed.

(** The text of a unit is the part of the text it covers. *)
Lemma unit_text_segment fast text i :
  (i < List.length text)%nat ->
  unit_text fast text i = segment text i (next_index fast text i).
Proof.
  intros Hlt. unfold unit_text, next_index, segment.
  destruct (nth_error text i) as [ch |] eqn:Hi.
  2:{ apply nth_error_None in Hi. lia. }
  destruct (fast && _is_fast_char ch) eqn:F.
  - destruct (collect_chunk max_chunk text i []) as [j chunk] eqn:E.
    apply collect_chunk_spec in E. destruct E as (seg & -> & -> & _).
    reflexivity.
  - replace (S i - i)%nat with 1%nat by lia.
    rewrite (skipn_nth_error text i ch Hi). reflexivity.
Qed.

Lemma fast_chars_typed s :
  Forall (fun ch => _is_fast_char ch = true) s -> filter is_typed s = s.
Proof.
  induction 1 as [| ch s H _ IH]; [reflexivity |]. cbn [filter].
  assert (T : is_typed ch = true).
  { unfold _is_fast_char in H. unfold is_typed.
    destruct ((ch =? 10)%N || (ch =? 9)%N); [discriminate |].
    rewrite H. reflexivity. }
  rewrite T, IH. reflexivity.
Qed.

Section WithWorld.
Variable env : World.

(** A literal write delivers its string when it returns and nothing when
    it raises. *)
Lemma safe_write_delivers s st :
  exists u,
    trace (snd (_safe_write env s st)) = trace st ++ u
    /\ delivered_text u
       = match fst (_safe_write env s st) with
         | Ret _ => s
         | _ => []
         end.
Proof.
  unfold _safe_write. step_calls.
  destruct (keyboard_write env (clock st)) as [[] | m1];
    cbn [self clock trace ret raise fst snd].
  - eexists [_]. split; [reflexivity |]. cbn. apply app_nil_r.
  - destruct (pyautogui_call env (S (clock st))) as [[] | m2];
      cbn [self clock trace ret raise fst snd].
    + eexists [_; _]. split; [rewrite <- app_assoc; reflexivity |].
      cbn. apply app_nil_r.
    + eexists [_; _]. split; [rewrite <- app_assoc; reflexivity |]. reflexivity.
Qed.

Lemma type_char_delivers ch st :
  exists u,
    trace (snd (_type_char env ch st)) = trace st ++ u
    /\ delivered_text u
       = match fst (_type_char env ch st) with
         | Ret _ => filter is_typed [ch]
         | _ => []
         end.
Proof.
  unfold _type_char.
  destruct (N.eqb_spec ch 10) as [-> | N10].
  { step_calls.
    destruct (keyboard_write env (clock st)) as [[] | m1];
      cbn [self clock trace ret raise fst snd].
    - eexists [_]. split; reflexivity.
    - destruct (pyautogui_call env (S (clock st))) as [[] | m2];
        cbn [self clock trace ret raise fst snd].
      + eexists [_; _]. split; [rewrite <- app_assoc; reflexivity | reflexivity].
      + eexists [_; _]. split; [rewrite <- app_assoc; reflexivity | reflexivity]. }
  destruct (N.eqb_spec ch 9) as [-> | N9].
  { step_calls.
    destruct (keyboard_write env (clock st)) as [[] | m1];
      cbn [self clock trace ret raise fst snd].
    - eexists [_]. split; reflexivity.
    - destruct (pyautogui_call env (S (clock st))) as [[] | m2];
        cbn [self clock trace ret raise fst snd].
      + eexists [_; _]. split; [rewrite <- app_assoc; reflexivity | reflexivity].
      + eexists [_; _]. split; [rewrite <- app_assoc; reflexivity | reflexivity]. }
  destruct (N.ltb_spec ch 32) as [L | L].
  - assert (E32 : (32 <=? ch)%N = false) by (apply N.leb_gt; exact L).
    destruct (N.eqb_spec ch 8) as [-> | N8];
      [| destruct (N.eqb_spec ch 27) as [-> | N27]].
    + step_calls.
      destruct (pyautogui_call env (clock st)) as [[] | m2];
        cbn [self clock trace ret raise fst snd];
        eexists [_]; split; reflexivity.
    + step_calls.
      destruct (pyautogui_call env (clock st)) as [[] | m2];
        cbn [self clock trace ret raise fst snd];
        eexists [_]; split; reflexivity.
    + exists []. cbn [ret fst snd]. split; [symmetry; apply app_nil_r |].
      cbn [filter]. unfold is_typed. rewrite E32.
      apply N.eqb_neq in N10, N9, N8, N27. rewrite N10, N9, N8, N27. reflexivity.
  - assert (E32 : (32 <=? ch)%N = true) by (apply N.leb_le; exact L).
    destruct (safe_write_delivers [ch] st) as (u & T & D).
    exists u. split; [exact T |]. rewrite D.
    destruct (fst (_safe_write env [ch] st)); try reflexivity.
    cbn [filter]. unfold is_typed. rewrite E32. reflexivity.
Qed.

(** A unit delivers the typed characters of its part of the text, or
    nothing when a keystroke call raises. *)
Lemma type_unit_delivers fast i st :
  (i < List.length (text (self st)))%nat ->
  exists u,
    trace (snd (type_unit env fast i st)) = trace st ++ u
    /\ delivered_text u
       = match fst (type_unit env fast i st) with
         | Ret _ => filter is_typed
                      (segment (text (self st)) i
                         (next_index fast (text (self st)) i))
         | _ => []
         end.
Proof.
  intros Hlt. rewrite <- (unit_text_segment fast _ _ Hlt).
  unfold type_unit, bind, get_self, unit_text.
  destruct (nth_error (text (self st)) i) as [ch |] eqn:Hi.
  2:{ apply nth_error_None in Hi. lia. }
  destruct (fast && _is_fast_char ch) eqn:F.
  - apply andb_prop in F. destruct F as [_ F].
    destruct (collect_chunk_first _ i ch Hi F) as (seg0 & E0).
    destruct (collect_chunk max_chunk (text (self st)) i []) as [j chunk] eqn:E.
    cbn [fst snd] in *. subst chunk. cbn [_fast_type_chunk].
    apply collect_chunk_spec in E. destruct E as (seg & Ec & _ & _ & _ & Ff & _).
    cbn [app] in Ec. rewrite <- Ec in Ff.
    destruct (safe_write_delivers (ch :: seg0) st) as (u & T & D).
    exists u.
    destruct (_safe_write env (ch :: seg0) st) as [[[] | msg |] st'];
      cbn [fst snd] in *; (split; [exact T |]); rewrite D; try reflexivity.
    symmetry. apply fast_chars_typed, Ff.
  - destruct (type_char_delivers ch st) as (u & T & D).
    exists u.
    destruct (_type_char env ch st) as [[[] | msg |] st'];
      cbn [fst snd] in *; (split; [exact T |]); rewrite D; reflexivity.
Qed.

Lemma pace_account st :
  fast_mode_of (self st) = false ->
  exists p,
    trace (snd (pace env st)) = trace st ++ p
    /\ self (snd (pace env st)) = self st
    /\ delivered_text p = [] /\ ~ In finished p
    /\ Forall (delay_ok (self st)) (sleep_delays p)
    /\ match fst (pace env st) with
       | Ret _ => 0 < shortest_delay (self st) ->
                  List.length (sleep_delays p) = 1%nat
       | Exn _ => True
       | Idling => False
       end.
Proof.
  intros NF. unfold pace, call_randint, bind, get_self, tick, emit, of_outcome,
    delay_ok, shortest_delay, longest_delay.
  cbn [self clock trace].
  destruct (use_random (self st)) eqn:U; cbn [ret].
  - pose proof (randint_value_spec (rand_min_ms (self st)) (rand_max_ms (self st))
                  (random_bits env (clock st))) as R.
    destruct (randint_value _ _ _) as [v | msg]; cbn [self clock trace ret raise].
    + destruct (Z.ltb_spec 0 (base_delay_ms (self st) + v)) as [D | D];
        cbn [self clock trace ret raise fst snd].
      * eexists [_; _]. split; [rewrite <- app_assoc; reflexivity |].
        split; [reflexivity |]. split; [reflexivity |]. split.
        { cbn. intuition discriminate. }
        split; [| reflexivity]. cbn. constructor; [lia | constructor].
      * eexists [_]. split; [reflexivity |].
        split; [reflexivity |]. split; [reflexivity |]. split.
        { cbn. intuition discriminate. }
        split; [constructor |]. intros. lia.
    + eexists [_]. cbn [fst snd]. split; [reflexivity |].
      split; [reflexivity |]. split; [reflexivity |]. split.
      { cbn. intuition discriminate. }
      split; [constructor | exact I].
  - destruct (Z.ltb_spec 0 (base_delay_ms (self st))) as [D | D];
      cbn [self clock trace ret raise fst snd].
    + eexists [_]. split; [reflexivity |].
      split; [reflexivity |]. split; [reflexivity |]. split.
      { cbn. intuition discriminate. }
      split; [| reflexivity]. cbn. constructor; [lia | constructor].
    + exists []. split; [symmetry; apply app_nil_r |].
      split; [reflexivity |]. split; [reflexivity |]. split; [intros [] |].
      split; [constructor |]. intros. lia.
Qed.

End WithWorld.

Lemma accounted_nothing w i evs :
  delivered_text evs = [] -> sleep_delays evs = [] -> ~ In finished evs ->
  accounted w i i evs.
Proof.
  intros D S F. unfold accounted. rewrite segment_nil, D, S. cbn.
  repeat split; auto.
Qed.

Lemma accounted_app w i j k a b :
  (j <= k)%nat ->
  accounted w i j a -> accounted w j k b -> accounted w i k (a ++ b).
Proof.
  intros Hjk (Hij & Da & Fa & Sa & Za) (_ & Db & Fb & Sb & Zb).
  unfold accounted. rewrite delivered_text_app, sleep_delays_app, Da, Db.
  rewrite <- filter_app, segment_app by lia.
  repeat split; try lia.
  - intros H. apply in_app_or in H. tauto.
  - apply Forall_app. auto.
  - intros F. rewrite Za, Zb by exact F. reflexivity.
Qed.

Lemma accounted_config w w' i j evs :
  same_config w w' -> accounted w' i j evs -> accounted w i j evs.
Proof.
  intros C. pose proof (same_config_fast w w' C) as F.
  destruct C as (Et & Eb & Eu & Emin & Emax).
  unfold accounted, delay_ok, shortest_delay, longest_delay.
  rewrite F, Et, Eb, Eu, Emin, Emax. auto.
Qed.

Section WithWorld2.
Variable env : World.

Lemma after_pause_account w i st :
  same_config w (self st) ->
  (i < List.length (text w))%nat ->
  let r := after_pause env (List.length (text w)) (fast_mode_of w) i st in
  let next := next_index (fast_mode_of w) (text w) i in
  exists evs j,
    trace (snd r) = trace st ++ evs
    /\ same_config w (self (snd r))
    /\ (j <= next)%nat /\ accounted w i j evs
    /\ match fst r with
       | Ret (Some i') =>
           i' = next /\ j = next
           /\ (fast_mode_of w = false -> 0 < shortest_delay w ->
               List.length (sleep_delays evs) = 1%nat)
       | Ret None => j = i /\ sleep_delays evs = []
       | Exn _ => True
       | Idling => False
       end.
Proof.
  intros C Hlt. cbn zeta. unfold after_pause.
  rewrite bind_deliver, bind_get_self.
  pose proof (deliver_grows env st) as G1. rewrite deliver_eq in G1.
  cbn [snd] in G1. destruct G1 as (C1 & _ & T1).
  set (st1 := mkSt _ _ _) in *. clearbody st1. rewrite app_nil_r in T1.
  assert (Cw : same_config w (self st1))
    by (eapply same_config_trans; eassumption).
  pose proof (next_index_bounds (fast_mode_of w) (text w) i Hlt) as Hn.
  destruct (_stop_flag (self st1)).
  { rewrite bind_emit. cbn [ret fst snd trace self].
    exists [stopped], i. rewrite T1. split; [reflexivity |].
    split; [exact Cw |]. split; [lia |]. split; [| auto].
    apply accounted_nothing; cbn; intuition discriminate. }
  unfold type_and_report.
  assert (Etext : text (self st1) = text w) by apply Cw.
  destruct (type_unit_delivers env (fast_mode_of w) i st1) as (u & Tu & Du).
  { rewrite Etext. exact Hlt. }
  destruct (type_unit_spec env (fast_mode_of w) i st1)
    as (r5 & st5 & u' & E5 & S5 & T5 & K5 & _ & W5 & N5).
  { rewrite Etext. exact Hlt. }
  rewrite E5 in Tu, Du. cbn [fst snd] in Tu, Du.
  rewrite T5 in Tu. apply app_inv_head in Tu. subst u'.
  rewrite Etext in Du, N5, K5.
  assert (Su : sleep_delays u = [] /\ ~ In finished u).
  { clear - K5. induction K5 as [| e u He _ IH]; [cbn; auto |].
    destruct IH as [IH1 IH2].
    destruct e; try contradiction; cbn; split; auto;
      intros [X | X]; try discriminate; auto. }
  destruct Su as [Su Fu].
  destruct r5 as [i' | msg |]; [| | contradiction].
  2:{ rewrite (bind_Exn _ _ _ _ _ E5). cbn [fst snd].
      exists u, i. rewrite T5, T1. split; [reflexivity |].
      split; [rewrite S5; exact Cw |]. split; [lia |]. split; [| exact I].
      apply accounted_nothing; assumption. }
  rewrite (bind_Ret _ _ _ _ _ E5). specialize (N5 i' eq_refl). subst i'.
  set (next := next_index (fast_mode_of w) (text w) i) in *.
  rewrite bind_emit.
  set (st6 := mkSt (self st5) _ _).
  assert (Au : accounted w i next
                 (u ++ [progress_changed (percent_of next (List.length (text w)))])).
  { unfold accounted. rewrite delivered_text_app, sleep_delays_app, Du, Su.
    cbn. rewrite app_nil_r. repeat split; auto; try lia.
    intros H. apply in_app_or in H. destruct H as [H | [H | []]];
      [auto | discriminate]. }
  destruct (fast_mode_of w) eqn:F; cbn [negb].
  - unfold bind, ret. cbn [fst snd trace self st6].
    eexists _, next. rewrite T5, T1, <- app_assoc.
    split; [reflexivity |]. split; [rewrite S5; exact Cw |].
    split; [lia |]. split; [exact Au |].
    repeat split; auto. intros; discriminate.
  - assert (C6 : same_config w (self st6)) by (cbn; rewrite S5; exact Cw).
    destruct (pace_account env st6) as (p & Tp & Sp & Dp & Fp & Bp & Rp).
    { rewrite (same_config_fast _ _ C6). exact F. }
    assert (Ap : accounted w next next p).
    { apply (accounted_config w (self st6)); [exact C6 |].
      unfold accounted. rewrite segment_nil, Dp.
      split; [lia |]. split; [reflexivity |]. split; [exact Fp |].
      split; [exact Bp |]. intros X.
      rewrite (same_config_fast w (self st6) C6) in X. congruence. }
    assert (Sh : shortest_delay (self st6) = shortest_delay w).
    { destruct C6 as (_ & Eb & Eu & Emin & _).
      unfold shortest_delay. rewrite Eb, Eu, Emin. reflexivity. }
    destruct (pace env st6) as [[[] | msg |] st7] eqn:Ep; cbn [fst snd] in *;
      [| | contradiction].
    + rewrite (bind_Ret _ _ _ _ _ Ep). cbn [ret fst snd].
      exists ((u ++ [progress_changed (percent_of next (List.length (text w)))])
                ++ p), next.
      rewrite Tp. cbn [trace st6]. rewrite T5, T1, <- !app_assoc.
      split; [reflexivity |]. split; [rewrite Sp; exact C6 |].
      split; [lia |]. split.
      { rewrite app_assoc. eapply accounted_app; [| exact Au | exact Ap]. lia. }
      split; [reflexivity |]. split; [reflexivity |]. intros _ Pos.
      rewrite !sleep_delays_app, Su. cbn. apply Rp. rewrite Sh. exact Pos.
    + rewrite (bind_Exn _ _ _ _ _ Ep). cbn [fst snd].
      exists ((u ++ [progress_changed (percent_of next (List.length (text w)))])
                ++ p), next.
      rewrite Tp. cbn [trace st6]. rewrite T5, T1, <- !app_assoc.
      split; [reflexivity |]. split; [rewrite Sp; exact C6 |].
      split; [lia |]. split; [| exact I].
      rewrite app_assoc. eapply accounted_app; [| exact Au | exact Ap]. lia.
Qed.

Lemma turn_account polls w i st :
  same_config w (self st) ->
  (i < List.length (text w))%nat ->
  let r := turn env polls (List.length (text w)) (fast_mode_of w) i st in
  let next := next_index (fast_mode_of w) (text w) i in
  exists evs j,
    trace (snd r) = trace st ++ evs
    /\ same_config w (self (snd r))
    /\ (j <= next)%nat /\ accounted w i j evs
    /\ match fst r with
       | Ret (Some i') =>
           i' = next /\ j = next
           /\ (fast_mode_of w = false -> 0 < shortest_delay w ->
               List.length (sleep_delays evs) = 1%nat)
       | Exn _ => True
       | _ => j = i /\ sleep_delays evs = []
       end.
Proof.
  intros C Hlt. cbn zeta. rewrite turn_unfold. cbn zeta.
  pose proof (next_index_bounds (fast_mode_of w) (text w) i Hlt) as Hn.
  pose proof (deliver_grows env st) as G1. rewrite deliver_eq in G1.
  cbn [snd] in G1. fold (delivered env st) in G1.
  set (st1 := delivered env st) in *. clearbody st1.
  destruct (_stop_flag (self st1)).
  { cbn [fst snd trace self]. exists [stopped], i.
    destruct G1 as (C1 & _ & T1). rewrite T1, app_nil_r.
    split; [reflexivity |].
    split; [eapply same_config_trans; eassumption |]. split; [lia |].
    split; [| auto].
    apply accounted_nothing; cbn; intuition discriminate. }
  destruct (check_focus_spec env st1) as (st2 & q1 & E2 & G2 & Q1).
  rewrite E2. cbn [snd].
  destruct (pause_idle_spec env polls st2) as (r3 & st3 & q2 & E3 & G3 & Q2 & R3).
  rewrite E3.
  pose proof (grows_trans _ _ _ _ _ (grows_trans _ _ _ _ _ G1 G2) G3) as G13.
  cbn [app] in G13. destruct G13 as (C13 & _ & T13).
  assert (Q12 : Forall quiet (q1 ++ q2)) by (apply Forall_app; auto).
  destruct (quiet_delivers_nothing _ Q12) as (Dq & Sq & Fq).
  assert (C3 : same_config w (self st3))
    by (eapply same_config_trans; eassumption).
  destruct R3 as [-> | [-> _]].
  2:{ cbn [fst snd]. exists (q1 ++ q2), i. split; [exact T13 |].
      split; [exact C3 |]. split; [lia |]. split; [| auto].
      apply accounted_nothing; assumption. }
  destruct (after_pause_account w i st3 C3 Hlt)
    as (evs & j & T & C' & Hj & A & R).
  cbn zeta in *.
  exists ((q1 ++ q2) ++ evs), j. rewrite T, T13, <- !app_assoc.
  split; [reflexivity |]. split; [exact C' |]. split; [exact Hj |].
  assert (A' : accounted w i j ((q1 ++ q2) ++ evs)).
  { eapply accounted_app; [| apply accounted_nothing; eassumption | exact A].
    apply A. }
  rewrite <- app_assoc in A'. split; [exact A' |].
  destruct (fst (after_pause env _ _ i st3)) as [[i' |] | msg |].
  - destruct R as (-> & -> & L). repeat split. intros F P.
    rewrite app_assoc, sleep_delays_app, Sq. apply L; assumption.
  - destruct R as (-> & S0). split; [reflexivity |].
    rewrite app_assoc, sleep_delays_app, Sq, S0. reflexivity.
  - exact I.
  - contradiction.
Qed.

Lemma loop_account polls w :
  forall steps i st,
    same_config w (self st) ->
    (List.length (text w) - i <= steps)%nat ->
    (i <= List.length (text w))%nat ->
    let r := loop env polls steps (List.length (text w)) (fast_mode_of w) i st in
    exists evs j,
      trace (snd r) = trace st ++ evs
      /\ (i <= j <= List.length (text w))%nat
      /\ delivered_text evs = filter is_typed (segment (text w) i j)
      /\ Forall (delay_ok w) (sleep_delays evs)
      /\ (fast_mode_of w = true -> sleep_delays evs = [])
      /\ (In finished evs ->
          j = List.length (text w)
          /\ (fast_mode_of w = false -> 0 < shortest_delay w ->
              List.length (sleep_delays evs) = (List.length (text w) - i)%nat)).
Proof.
  assert (Fin : forall i st,
    (List.length (text w) <= i)%nat -> (i <= List.length (text w))%nat ->
    let r := (deliver env ;; emit finished) st in
    exists evs j,
      trace (snd r) = trace st ++ evs
      /\ (i <= j <= List.length (text w))%nat
      /\ delivered_text evs = filter is_typed (segment (text w) i j)
      /\ Forall (delay_ok w) (sleep_delays evs)
      /\ (fast_mode_of w = true -> sleep_delays evs = [])
      /\ (In finished evs ->
          j = List.length (text w)
          /\ (fast_mode_of w = false -> 0 < shortest_delay w ->
              List.length (sleep_delays evs) = (List.length (text w) - i)%nat))).
  { intros i st Hge Hle. cbn zeta. rewrite bind_deliver. unfold emit.
    cbn [self clock trace fst snd]. exists [finished], i.
    rewrite segment_nil. repeat split; auto; try lia.
    cbn. replace (List.length (text w) - i)%nat with 0%nat by lia. reflexivity. }
  induction steps as [| steps IH]; intros i st C Hs Hi; cbn [loop];
    destruct (Nat.ltb_spec i (List.length (text w))) as [Hlt | Hge]; try lia.
  - apply Fin; assumption.
  - cbn zeta.
    pose proof (next_index_bounds (fast_mode_of w) (text w) i Hlt) as Hn.
    destruct (turn_account polls w i st C Hlt)
      as (evs & j & T & C' & Hj & A & R). cbn zeta in *.
    destruct (turn env polls (List.length (text w)) (fast_mode_of w) i st)
      as [[[i' |] | msg |] st1] eqn:E; cbn [fst snd] in *.
    + rewrite (bind_Ret _ _ _ _ _ E). destruct R as (-> & -> & L).
      set (next := next_index (fast_mode_of w) (text w) i) in *.
      destruct (IH next st1 C' ltac:(lia) ltac:(lia))
        as (evs2 & k & T2 & Hk & D2 & B2 & Z2 & F2). cbn zeta in *.
      exists (evs ++ evs2), k. rewrite T2, T, <- app_assoc.
      split; [reflexivity |]. split; [lia |].
      destruct A as (_ & Da & Fa & Ba & Za).
      rewrite delivered_text_app, sleep_delays_app, Da, D2,
        <- filter_app, segment_app by lia.
      split; [reflexivity |]. split; [apply Forall_app; auto |].
      split; [intros F; rewrite Za, Z2 by exact F; reflexivity |].
      intros H. apply in_app_or in H. destruct H as [H | H]; [contradiction |].
      destruct (F2 H) as (-> & L2). split; [reflexivity |]. intros F P.
      rewrite length_app, (L F P), (L2 F P).
      assert (Nx : next = S i).
      { subst next. unfold next_index, fast_mode_of in *.
        rewrite F. cbn [andb]. destruct (nth_error (text w) i); reflexivity. }
      lia.
    + rewrite (bind_Ret _ _ _ _ _ E). cbn [ret fst snd].
      destruct R as (-> & S0). exists evs, i. split; [exact T |].
      destruct A as (_ & Da & Fa & Ba & Za).
      repeat split; auto; try lia; contradiction.
    + rewrite (bind_Exn _ _ _ _ _ E). cbn [fst snd].
      exists evs, j. split; [exact T |].
      destruct A as (Hij & Da & Fa & Ba & Za).
      repeat split; auto; try lia; contradiction.
    + rewrite (bind_Idling _ _ _ _ E). cbn [fst snd].
      destruct R as (-> & S0). exists evs, i. split; [exact T |].
      destruct A as (_ & Da & Fa & Ba & Za).
      repeat split; auto; try lia; contradiction.
  - apply Fin; assumption.
Qed.

(** The account of a whole run. *)
Lemma run_account polls w :
  exists j,
    (j <= List.length (text w))%nat
    /\ delivered_text (trace_of env polls w) = filter is_typed (firstn j (text w))
    /\ Forall (delay_ok w) (sleep_delays (trace_of env polls w))
    /\ (fast_mode_of w = true -> sleep_delays (trace_of env polls w) = [])
    /\ (In finished (trace_of env polls w) ->
        j = List.length (text w)
        /\ (fast_mode_of w = false -> 0 < shortest_delay w ->
            List.length (sleep_delays (trace_of env polls w))
            = List.length (text w))).
Proof.
  unfold trace_of, run, try_except. rewrite bind_get_self. cbn [self start].
  destruct (text w) as [| c txt] eqn:Et.
  - cbn. exists 0%nat. repeat split; auto.
  - rewrite <- Et. cbn [Nat.eqb].
    assert (Ne : (List.length (text w) =? 0)%nat = false)
      by (rewrite Et; reflexivity).
    rewrite Ne.
    destruct (loop_account polls w (List.length (text w)) 0 (start w))
      as (evs & j & T & Hj & D & B & Z & F).
    { apply same_config_refl. } { lia. } { lia. }
    cbn zeta in *. fold (fast_mode_of w).
    rewrite segment_from_0 in D. rewrite Nat.sub_0_r in F.
    destruct (loop env polls (List.length (text w)) (List.length (text w))
                (fast_mode_of w) 0 (start w)) as [[[] | msg |] st'];
      cbn [fst snd start trace app] in *; subst.
    + exists j. split; [lia |]. auto.
    + unfold emit. cbn [fst snd trace].
      exists j. rewrite delivered_text_app, sleep_delays_app. cbn.
      rewrite !app_nil_r. split; [lia |]. split; [exact D |].
      split; [exact B |]. split; [exact Z |].
      intros Hf. apply in_app_or in Hf.
      destruct Hf as [Hf | [Hf | []]]; [auto | discriminate].
    + exists j. split; [lia |]. auto.
Qed.

End WithWorld2.

(** *** A run that nothing disturbs *)

Section Calm.
Variable env : World.
Variable title : string.
Hypothesis quiet_surface : undisturbed env.
Hypothesis in_front : focused_on title env.
Hypothesis keys : keys_work env.

Lemma calm_deliver st : delivered env st = mkSt (self st) (S (clock st)) (trace st).
Proof. unfold delivered. rewrite quiet_surface. reflexivity. Qed.

Lemma calm_check_focus st :
  target_window_title (self st) = Some title ->
  fst (_check_focus env st) = Ret tt
  /\ self (snd (_check_focus env st)) = self st.
Proof.
  intros Tg. unfold _check_focus. rewrite bind_deliver, bind_get_self.
  rewrite quiet_surface. cbn [fold_left self]. rewrite Tg.
  destruct (truthy (Some title)) eqn:Tr; cbn [negb orb]; [| split; reflexivity].
  destruct (_stop_flag (self st) || _pause_flag (self st));
    [split; reflexivity |].
  unfold try_except, call_getActiveWindowTitle, bind, tick, emit, of_outcome.
  cbn [self clock trace]. rewrite in_front. cbn [ret]. rewrite Tr.
  assert (E : title_eqb (Some title) (Some title) = true)
    by (apply title_eqb_eq; reflexivity).
  rewrite E. cbn [negb orb]. split; reflexivity.
Qed.

Lemma safe_write_works s st :
  fst (_safe_write env s st) = Ret tt.
Proof.
  unfold _safe_write. step_calls.
  destruct (keyboard_write env (clock st)) as [[] | m1];
    cbn [self clock trace ret raise fst]; [reflexivity |].
  rewrite keys. reflexivity.
Qed.

Lemma type_char_works ch st :
  fst (_type_char env ch st) = Ret tt.
Proof.
  unfold _type_char.
  destruct (ch =? 10)%N.
  { step_calls.
    destruct (keyboard_write env (clock st)) as [[] | m1];
      cbn [self clock trace ret raise fst]; [reflexivity |].
    rewrite keys. reflexivity. }
  destruct (ch =? 9)%N.
  { step_calls.
    destruct (keyboard_write env (clock st)) as [[] | m1];
      cbn [self clock trace ret raise fst]; [reflexivity |].
    rewrite keys. reflexivity. }
  destruct (ch <? 32)%N; [| apply safe_write_works].
  destruct (ch =? 8)%N; [step_calls; rewrite keys; reflexivity |].
  destruct (ch =? 27)%N; [step_calls; rewrite keys; reflexivity |].
  reflexivity.
Qed.

Lemma type_unit_works fast i st :
  (i < List.length (text (self st)))%nat ->
  exists i', fst (type_unit env fast i st) = Ret i'.
Proof.
  intros Hlt. unfold type_unit, bind, get_self.
  destruct (nth_error (text (self st)) i) as [ch |] eqn:Hi.
  2:{ apply nth_error_None in Hi. lia. }
  destruct (fast && _is_fast_char ch) eqn:F.
  - apply andb_prop in F. destruct F as [_ F].
    destruct (collect_chunk_first _ i ch Hi F) as (seg0 & E0).
    destruct (collect_chunk max_chunk (text (self st)) i []) as [j chunk].
    cbn [fst snd] in *. subst chunk. cbn [_fast_type_chunk].
    pose proof (safe_write_works (ch :: seg0) st) as W.
    destruct (_safe_write env (ch :: seg0) st) as [r s']. cbn [fst] in W.
    subst r. eexists. reflexivity.
  - pose proof (type_char_works ch st) as W.
    destruct (_type_char env ch st) as [r s']. cbn [fst] in W.
    subst r. eexists. reflexivity.
Qed.

Lemma pace_works st :
  rand_min_ms (self st) <= rand_max_ms (self st) ->
  fst (pace env st) = Ret tt.
Proof.
  intros B. unfold pace, call_randint, bind, get_self, tick, emit, of_outcome,
    randint_value.
  cbn [self clock trace].
  destruct (use_random (self st)); cbn [ret].
  - destruct (Z.leb_spec (rand_min_ms (self st)) (rand_max_ms (self st)));
      [| lia].
    cbn [ret self clock trace].
    match goal with |- context [if ?c then _ else _] => destruct c end;
      reflexivity.
  - match goal with |- context [if ?c then _ else _] => destruct c end;
      reflexivity.
Qed.

(** Every turn types its unit and leaves the worker as it was. *)
Lemma calm_turn polls w i st :
  self st = w -> fresh w -> target_window_title w = Some title ->
  (i < List.length (text w))%nat ->
  exists st',
    turn env polls (List.length (text w)) (fast_mode_of w) i st
    = (Ret (Some (next_index (fast_mode_of w) (text w) i)), st')
    /\ self st' = w.
Proof.
  intros Sw (Stop & Pause & Bounds) Tg Hlt. rewrite turn_unfold. cbn zeta.
  rewrite calm_deliver. cbn [self]. rewrite Sw, Stop.
  set (st1 := mkSt w _ _).
  destruct (calm_check_focus st1 Tg) as [R2 S2].
  destruct (_check_focus env st1) as [r2 st2]. cbn [fst snd] in *. subst r2.
  cbn [self st1] in S2.
  rewrite pause_idle_unfold. cbn zeta. rewrite calm_deliver. cbn [self].
  rewrite S2, Pause. cbn [andb].
  unfold after_pause. rewrite bind_deliver, bind_get_self.
  rewrite quiet_surface. cbn [fold_left self clock trace]. rewrite Stop.
  set (st4 := mkSt w _ _).
  unfold type_and_report.
  destruct (type_unit_works (fast_mode_of w) i st4 Hlt) as (i' & W5).
  destruct (type_unit_spec env (fast_mode_of w) i st4 Hlt)
    as (r5 & st5 & u & E5 & S5 & _ & _ & _ & _ & N5).
  rewrite E5 in W5. cbn [fst] in W5. subst r5.
  specialize (N5 i' eq_refl). subst i'. cbn [self st4] in *.
  rewrite (bind_Ret _ _ _ _ _ E5), bind_emit.
  set (st6 := mkSt (self st5) _ _).
  destruct (fast_mode_of w) eqn:F; cbn [negb].
  - unfold bind, ret. eexists. split; [reflexivity |]. exact S5.
  - pose proof (pace_works st6) as W7.
    destruct (pace_spec env st6) as (r7 & st7 & p & E7 & S7 & _).
    { cbn [self st6]. rewrite S5. exact F. }
    rewrite E7 in W7. cbn [fst self st6] in W7. rewrite S5 in W7.
    specialize (W7 Bounds). subst r7.
    rewrite (bind_Ret _ _ _ _ _ E7). cbn [ret].
    eexists. split; [reflexivity |]. rewrite S7. exact S5.
Qed.

Lemma calm_loop polls w :
  fresh w -> target_window_title w = Some title ->
  forall steps i st,
    self st = w ->
    (List.length (text w) - i <= steps)%nat ->
    exists st',
      loop env polls steps (List.length (text w)) (fast_mode_of w) i st
      = (Ret tt, st')
      /\ In finished (trace st').
Proof.
  intros Fr Tg.
  assert (Fin : forall st,
            exists st', (deliver env ;; emit finished) st = (Ret tt, st')
                        /\ In finished (trace st')).
  { intros st. rewrite bind_deliver. unfold emit. cbn [self clock trace].
    eexists. split; [reflexivity |]. cbn. apply in_or_app. right. left.
    reflexivity. }
  induction steps as [| steps IH]; intros i st Sw Hs; cbn [loop];
    destruct (Nat.ltb_spec i (List.length (text w))) as [Hlt | Hge]; try lia;
    try apply Fin.
  destruct (calm_turn polls w i st Sw Fr Tg Hlt) as (st1 & E & S1).
  rewrite (bind_Ret _ _ _ _ _ E).
  pose proof (next_index_bounds (fast_mode_of w) (text w) i Hlt) as Hn.
  apply IH; [exact S1 | lia].
Qed.

(** A fresh worker whose target window keeps the focus, whom nobody
    stops or pauses, and whose keystrokes get through, finishes. *)
Lemma calm_run polls w :
  fresh w -> target_window_title w = Some title ->
  fst (run env polls (start w)) = Ret tt
  /\ In finished (trace_of env polls w).
Proof.
  intros Fr Tg. unfold trace_of, run, try_except.
  rewrite bind_get_self. cbn [self start].
  destruct (text w) as [| c txt] eqn:Et.
  - cbn. auto.
  - rewrite <- Et.
    assert (Ne : (List.length (text w) =? 0)%nat = false)
      by (rewrite Et; reflexivity).
    rewrite Ne.
    destruct (calm_loop polls w Fr Tg (List.length (text w)) 0 (start w))
      as (st' & E & F).
    { reflexivity. } { lia. }
    unfold fast_mode_of in E. rewrite E. auto.
Qed.

End Calm.

End DeliveryFacts.

(** ** Reports and keystrokes *)

Module ReportFacts.
Import TypingWorker Units Traces Delivery WorkerFacts RunFacts EventFacts
  EndFacts DeliveryFacts.

(** *** Keystrokes of a trace *)

Lemma keystrokes_app a b : keystrokes (a ++ b) = keystrokes a ++ keystrokes b.
Proof. apply filter_app. Qed.

Lemma keystrokes_none (P : Event -> Prop) l :
  (forall e, P e -> is_keystroke e = false) -> Forall P l -> keystrokes l = [].
Proof.
  intros H F. induction F as [| e l Pe _ IH]; [reflexivity |].
  cbn. rewrite (H e Pe). exact IH.
Qed.

Lemma keystrokes_quiet q : Forall quiet q -> keystrokes q = [].
Proof.
  apply keystrokes_none. intros [] H; try reflexivity; destruct H.
Qed.

Lemma keystrokes_pacing w p : Forall (pacing w) p -> keystrokes p = [].
Proof.
  apply keystrokes_none. intros [] [_ H]; try reflexivity; destruct H.
Qed.

Lemma keystrokes_all s u : Forall (keystroke_for s) u -> keystrokes u = u.
Proof.
  unfold keystrokes. induction 1 as [| e u He _ IH]; [reflexivity |].
  cbn [filter]. destruct e; try contradiction; cbn [is_keystroke];
    rewrite IH; reflexivity.
Qed.

Lemma keystrokes_idem tr : keystrokes (keystrokes tr) = keystrokes tr.
Proof.
  unfold keystrokes. induction tr as [| e tr IH]; [reflexivity |].
  cbn [filter]. destruct (is_keystroke e) eqn:K; [| exact IH].
  cbn [filter]. rewrite K, IH. reflexivity.
Qed.

(** What is delivered and what is handed to [keyboard.write] are read
    off the keystrokes alone. *)
Lemma delivered_keystrokes tr : delivered_text (keystrokes tr) = delivered_text tr.
Proof.
  unfold keystrokes, delivered_text.
  induction tr as [| e tr IH]; [reflexivity |].
  destruct e; cbn [filter is_keystroke flat_map delivered_by app];
    rewrite ?IH; reflexivity.
Qed.

Lemma attempts_keystrokes tr :
  keyboard_attempts (keystrokes tr) = keyboard_attempts tr.
Proof.
  unfold keystrokes, keyboard_attempts.
  induction tr as [| e tr IH]; [reflexivity |].
  destruct e; cbn [filter is_keystroke flat_map app];
    rewrite ?IH; reflexivity.
Qed.

(** *** Cutting a trace at its reports *)

Lemma reports_from_app a : forall seg b,
  reports_from seg (a ++ b)
  = reports_from seg a ++ reports_from (unreported_from seg a) b.
Proof.
  induction a as [| e a IH]; intros seg b; [reflexivity |].
  destruct e; cbn [app reports_from unreported_from]; rewrite IH; reflexivity.
Qed.

Lemma unreported_from_app a : forall seg b,
  unreported_from seg (a ++ b) = unreported_from (unreported_from seg a) b.
Proof.
  induction a as [| e a IH]; intros seg b; [reflexivity |].
  destruct e; cbn [app unreported_from]; rewrite IH; reflexivity.
Qed.

Lemma no_report a : forall seg,
  progress_values a = [] ->
  reports_from seg a = [] /\ unreported_from seg a = seg ++ a.
Proof.
  induction a as [| e a IH]; intros seg H.
  - cbn. rewrite app_nil_r. auto.
  - destruct e; cbn in H; try discriminate;
      cbn [reports_from unreported_from];
      match goal with
      | |- reports_from ?s a = [] /\ _ =>
          destruct (IH s H) as [-> ->]; rewrite <- app_assoc; auto
      end.
Qed.

(** A turn that typed its unit adds one report. *)
Lemma reports_turn seg a p rest :
  progress_values a = [] ->
  reports_from seg (a ++ progress_changed p :: rest)
  = (seg ++ a, p) :: reports_from [] rest
  /\ unreported_from seg (a ++ progress_changed p :: rest)
     = unreported_from [] rest.
Proof.
  intros H. destruct (no_report a seg H) as [R U].
  rewrite reports_from_app, unreported_from_app, R, U. auto.
Qed.

(** *** The keystrokes of a unit *)

Lemma write_or_cases s fallback kb pag r :
  r = write_or_result kb pag ->
  match r with
  | Ret _ =>
      write_or s fallback kb pag = [ev_keyboard_write s (Returns tt)]
      \/ exists m, write_or s fallback kb pag
                   = [ev_keyboard_write s (Raises m); fallback (Returns tt)]
  | Exn msg =>
      exists m, write_or s fallback kb pag
                = [ev_keyboard_write s (Raises m); fallback (Raises msg)]
  | Idling => False
  end.
Proof.
  intros ->. destruct kb as [[] | m]; cbn; [auto |].
  destruct pag as [[] | m2]; cbn; eauto.
Qed.

Lemma result_of_cases pag r :
  r = result_of pag ->
  match r with
  | Ret _ => pag = Returns tt
  | Exn msg => pag = Raises msg
  | Idling => False
  end.
Proof. intros ->. destruct pag as [[] | m]; reflexivity. Qed.

(** A unit that was typed has delivered its typed characters, and a unit
    that raised has delivered nothing. *)
Lemma strokes_delivered fast text i u r :
  (i < List.length text)%nat ->
  unit_strokes fast text i u r ->
  delivered_text u
  = match r with
    | Ret _ => filter is_typed (unit_text fast text i)
    | _ => []
    end.
Proof.
  intros Hlt. unfold unit_strokes, unit_text.
  destruct (nth_error text i) as [ch |] eqn:Hi; [| contradiction].
  destruct (fast && _is_fast_char ch) eqn:F.
  - intros (kb & pag & -> & ->).
    apply andb_prop in F. destruct F as [_ F].
    assert (T : filter is_typed (snd (collect_chunk max_chunk text i []))
                = snd (collect_chunk max_chunk text i [])).
    { apply fast_chars_typed.
      destruct (collect_chunk max_chunk text i []) as [j chunk] eqn:E.
      apply collect_chunk_spec in E.
      destruct E as (seg & -> & _ & _ & _ & Hf & _). exact Hf. }
    destruct kb as [[] | m]; cbn; [rewrite app_nil_r; symmetry; exact T |].
    destruct pag as [[] | m2]; cbn; [rewrite app_nil_r; symmetry; exact T |].
    reflexivity.
  - clear F. unfold char_strokes.
    destruct (N.eqb_spec ch 10) as [-> | N10].
    { intros (kb & pag & -> & ->).
      destruct kb as [[] | m]; cbn; [reflexivity |].
      destruct pag as [[] | m2]; reflexivity. }
    destruct (N.eqb_spec ch 9) as [-> | N9].
    { intros (kb & pag & -> & ->).
      destruct kb as [[] | m]; cbn; [reflexivity |].
      destruct pag as [[] | m2]; reflexivity. }
    destruct (N.eqb_spec ch 8) as [-> | N8].
    { intros (pag & -> & ->). destruct pag as [[] | m2]; reflexivity. }
    destruct (N.eqb_spec ch 27) as [-> | N27].
    { intros (pag & -> & ->). destruct pag as [[] | m2]; reflexivity. }
    destruct (N.ltb_spec ch 32) as [L | L].
    + intros [-> ->]. cbn. unfold is_typed.
      assert (E32 : (32 <=? ch)%N = false) by (apply N.leb_gt; exact L).
      rewrite E32.
      repeat match goal with
             | H : ?a <> ?b |- context [(?a =? ?b)%N] =>
                 rewrite (proj2 (N.eqb_neq a b) H)
             end.
      reflexivity.
    + intros (kb & pag & -> & ->).
      assert (T : is_typed ch = true).
      { unfold is_typed. apply N.leb_le in L. rewrite L. reflexivity. }
      destruct kb as [[] | m]; cbn; rewrite ?T; [reflexivity |].
      destruct pag as [[] | m2]; cbn; rewrite ?T; reflexivity.
Qed.


(** *** The reports of a loop *)

Lemma Forall2_firstn_length {A B} (P : A -> B -> Prop) k l l' :
  Forall2 P (firstn k l) l' -> firstn k l = firstn (List.length l') l.
Proof.
  intros F. apply Forall2_length in F. rewrite <- F, length_firstn.
  destruct (Nat.le_ge_cases k (List.length l)) as [H | H].
  - rewrite Nat.min_l by exact H. reflexivity.
  - rewrite Nat.min_r by exact H. rewrite !firstn_all2; auto.
Qed.

(** Every report of the loop closes the turn of one unit: the keystrokes
    since the report before it are those of that unit, typed, and the
    value is the percentage at its end.  The keystrokes after the last
    report, if any, are those of the next unit, which raised. *)
Lemma shape_reports w i evs r :
  shape w i evs r ->
  forall seg, keystrokes seg = [] ->
  let len := List.length (text w) in
  let fast := fast_mode_of w in
  let starts := unit_starts len fast (text w) i in
  exists k,
    Forall2 (fun j report =>
               snd report = percent_of (next_index fast (text w) j) len
               /\ unit_strokes fast (text w) j (keystrokes (fst report)) (Ret tt))
            (firstn k starts) (reports_from seg evs)
    /\ (In finished evs -> (List.length starts <= k)%nat)
    /\ (keystrokes (unreported_from seg evs) = []
        /\ (forall msg, r = Exn msg -> fast = false)
        \/ exists j msg,
             r = Exn msg /\ nth_error starts k = Some j
             /\ unit_strokes fast (text w) j
                  (keystrokes (unreported_from seg evs)) (Exn msg)).
Proof.
  intros Sh. induction Sh as
    [i Hge | i q Hlt Q | i q Hlt Q | i q u e msg Hlt Q K A R Us
     | i q u p e msg Hlt Q K A P R Us Hh
     | i q u p rest r Hlt Q K A P Us Hh Sh IH]; intros seg Hseg; cbn zeta.
  - exists 0%nat. rewrite unit_starts_done by exact Hge. cbn.
    split; [constructor |]. split; [lia |]. left.
    rewrite keystrokes_app, Hseg. split; [reflexivity | discriminate].
  - exists 0%nat.
    assert (N : progress_values (q ++ [stopped]) = []).
    { rewrite progress_values_app, (progress_values_quiet _ Q). reflexivity. }
    destruct (no_report _ seg N) as [-> ->]. cbn [firstn].
    split; [constructor |]. split.
    + intros H. apply in_app_or in H.
      destruct H as [H | [H | []]]; [| discriminate].
      exfalso. rewrite Forall_forall in Q. apply (Q _ H).
    + left. rewrite !keystrokes_app, Hseg, (keystrokes_quiet _ Q).
      split; [reflexivity | discriminate].
  - exists 0%nat.
    destruct (no_report _ seg (progress_values_quiet _ Q)) as [-> ->].
    cbn [firstn]. split; [constructor |]. split.
    + intros H. exfalso. rewrite Forall_forall in Q. apply (Q _ H).
    + left. rewrite keystrokes_app, Hseg, (keystrokes_quiet _ Q).
      split; [reflexivity | discriminate].
  - exists 0%nat.
    assert (N : progress_values (q ++ u ++ [e]) = []).
    { rewrite progress_values_app, (progress_values_quiet _ Q),
        (progress_values_keystroke _ _ K). reflexivity. }
    destruct (no_report _ seg N) as [-> ->]. cbn [firstn].
    split; [constructor |]. split.
    + intros H. apply in_app_or in H. rewrite Forall_forall in Q, K.
      destruct H as [H | H]; exfalso; [apply (Q _ H) | apply (K _ H)].
    + right. exists i, msg. split; [reflexivity |].
      rewrite (unit_starts_unfold _ _ _ i Hlt) by lia.
      split; [reflexivity |].
      rewrite !keystrokes_app, Hseg, (keystrokes_quiet _ Q),
        <- keystrokes_app, (keystrokes_all _ _ K).
      exact Us.
  - exists 1%nat.
    assert (N : progress_values (q ++ u) = []).
    { rewrite progress_values_app, (progress_values_quiet _ Q),
        (progress_values_keystroke _ _ K). reflexivity. }
    rewrite app_assoc.
    destruct (reports_turn seg (q ++ u)
                (percent_of (next_index (fast_mode_of w) (text w) i)
                   (List.length (text w))) (p ++ [e]) N) as [-> ->].
    destruct (no_report (p ++ [e]) [] (progress_values_pacing w _ P)) as [-> ->].
    rewrite (unit_starts_unfold _ _ _ i Hlt) by lia. cbn [firstn app].
    split; [| split].
    + constructor; [| constructor]. cbn [fst snd]. split; [reflexivity |].
      rewrite !keystrokes_app, Hseg, (keystrokes_quiet _ Q),
        (keystrokes_all _ _ K).
      exact Us.
    + intros H. rewrite Forall_forall in Q, K, P.
      apply in_app_or in H. destruct H as [H | H].
      * apply in_app_or in H.
        destruct H as [H | H]; exfalso; [apply (Q _ H) | apply (K _ H)].
      * destruct H as [H | H]; [discriminate |].
        exfalso. destruct (P _ H) as [_ []].
    + left. split; [apply (keystrokes_pacing w), P |].
      intros _ _. apply Forall_app in P. destruct P as [_ P].
      apply Forall_cons_iff in P. destruct P as [[NF _] _]. exact NF.
  - assert (N : progress_values (q ++ u) = []).
    { rewrite progress_values_app, (progress_values_quiet _ Q),
        (progress_values_keystroke _ _ K). reflexivity. }
    rewrite app_assoc.
    destruct (reports_turn seg (q ++ u)
                (percent_of (next_index (fast_mode_of w) (text w) i)
                   (List.length (text w))) (p ++ rest) N) as [-> ->].
    rewrite reports_from_app, unreported_from_app.
    destruct (no_report p [] (progress_values_pacing w _ P)) as [-> ->].
    cbn [app].
    destruct (IH p (keystrokes_pacing w _ P)) as (k & F & Fin & Tl).
    cbn zeta in F, Fin, Tl.
    exists (S k). rewrite (unit_starts_unfold _ _ _ i Hlt) by lia.
    cbn [firstn List.length nth_error]. split; [| split].
    + constructor; [| exact F]. cbn [fst snd]. split; [reflexivity |].
      rewrite !keystrokes_app, Hseg, (keystrokes_quiet _ Q),
        (keystrokes_all _ _ K).
      exact Us.
    + intros H. rewrite Forall_forall in Q, K, P.
      apply in_app_or in H. destruct H as [H | H].
      * apply in_app_or in H.
        destruct H as [H | H]; exfalso; [apply (Q _ H) | apply (K _ H)].
      * destruct H as [H | H]; [discriminate |].
        apply in_app_or in H. destruct H as [H | H].
        -- exfalso. destruct (P _ H) as [_ []].
        -- specialize (Fin H). lia.
    + exact Tl.
Qed.

(** *** Exceptions *)

Lemma harmless_app a b : harmless a -> harmless b -> harmless (a ++ b).
Proof. intros A B. apply Forall_app. auto. Qed.




(** What a unit hands to [keyboard.write]. *)
Lemma strokes_attempts fast text i u r :
  unit_strokes fast text i u r ->
  keyboard_attempts u = unit_attempts fast text i.
Proof.
  unfold unit_strokes, unit_attempts, char_strokes.
  destruct (nth_error text i) as [ch |]; [| contradiction].
  assert (W : forall s fallback kb pag,
             (forall o, match fallback o with
                        | ev_keyboard_write _ _ => False
                        | _ => True
                        end) ->
             keyboard_attempts (write_or s fallback kb pag) = [s]).
  { intros s fallback kb pag Hf. destruct kb as [[] | m]; cbn; [reflexivity |].
    specialize (Hf pag). destruct (fallback pag); try contradiction;
      reflexivity. }
  destruct (fast && _is_fast_char ch).
  { intros (kb & pag & -> & _). apply W. intros o. exact I. }
  destruct (N.eqb_spec ch 10) as [-> | N10].
  { intros (kb & pag & -> & _). apply W. intros o. exact I. }
  destruct (N.eqb_spec ch 9) as [-> | N9].
  { intros (kb & pag & -> & _). apply W. intros o. exact I. }
  cbn [orb].
  destruct (N.eqb_spec ch 8) as [-> | N8].
  { intros (pag & -> & _). reflexivity. }
  destruct (N.eqb_spec ch 27) as [-> | N27].
  { intros (pag & -> & _). reflexivity. }
  destruct (N.ltb_spec ch 32) as [L | L].
  - intros [-> _]. apply N.leb_gt in L. rewrite L. reflexivity.
  - intros (kb & pag & -> & _). apply N.leb_le in L. rewrite L.
    apply W. intros o. exact I.
Qed.

(** A batch of the fast path is one literal write, made again by
    [pyautogui] only when [keyboard] raised. *)
Lemma batch_strokes text i ch u :
  nth_error text i = Some ch -> plain ch ->
  unit_strokes true text i u (Ret tt) ->
  let s := unit_text true text i in
  u = [ev_keyboard_write s (Returns tt)]
  \/ exists m, u = [ev_keyboard_write s (Raises m);
                    ev_pyautogui_write s (Returns tt)].
Proof.
  intros Hi P. unfold unit_strokes. rewrite Hi.
  apply is_fast_char_plain in P. rewrite P. cbn [andb].
  intros (kb & pag & -> & R). cbn zeta.
  exact (write_or_cases _ _ kb pag (Ret tt) R).
Qed.

Lemma failed_batch_strokes text i ch u msg :
  nth_error text i = Some ch -> plain ch ->
  unit_strokes true text i u (Exn msg) ->
  let s := unit_text true text i in
  exists m, u = [ev_keyboard_write s (Raises m);
                 ev_pyautogui_write s (Raises msg)].
Proof.
  intros Hi P. unfold unit_strokes. rewrite Hi.
  apply is_fast_char_plain in P. rewrite P. cbn [andb].
  intros (kb & pag & -> & R). cbn zeta.
  exact (write_or_cases _ _ kb pag (Exn msg) R).
Qed.

Lemma Forall2_impl_in {A B} (P Q : A -> B -> Prop) l l' :
  Forall2 P l l' -> (forall a b, In a l -> P a b -> Q a b) -> Forall2 Q l l'.
Proof.
  induction 1 as [| a b l l' Pab _ IH]; intros H; constructor.
  - apply H; [left; reflexivity | exact Pab].
  - apply IH. intros a' b' Ha. apply H. right. exact Ha.
Qed.

(** The reports of a run. *)
Lemma run_reports env polls w :
  let tr := trace_of env polls w in
  let len := List.length (text w) in
  let fast := fast_mode_of w in
  let starts := unit_starts len fast (text w) 0 in
  Forall2 (fun j report =>
             snd report = percent_of (next_index fast (text w) j) len
             /\ unit_strokes fast (text w) j (keystrokes (fst report)) (Ret tt))
          (firstn (List.length (reports tr)) starts) (reports tr)
  /\ (In finished tr -> List.length (reports tr) = List.length starts)
  /\ (keystrokes (unreported tr) = []
      /\ (forall msg, In (error msg) tr -> fast = false)
      \/ exists j msg,
           In (error msg) tr
           /\ nth_error starts (List.length (reports tr)) = Some j
           /\ unit_strokes fast (text w) j (keystrokes (unreported tr))
                (Exn msg)).
Proof.
  cbn zeta. destruct (trace_of_shape env polls w) as (r & _ & Sh).
  unfold run_shape in Sh. destruct (text w) as [| c txt] eqn:Et.
  { destruct Sh as [-> _]. cbn. split; [constructor |]. split; [reflexivity |].
    left. split; [reflexivity |]. intros msg [H | []]. discriminate. }
  rewrite <- Et in *. destruct Sh as (evs0 & r0 & Sh & Er).
  destruct (shape_reports w 0 evs0 r0 Sh [] eq_refl) as (k & F & Fin & Tl).
  cbn zeta in F, Fin, Tl. fold (reports evs0) in F. fold (unreported evs0) in Tl.
  pose proof (shape_terminals w 0 evs0 r0 Sh) as T.
  assert (Er' : reports (trace_of env polls w) = reports evs0
                /\ keystrokes (unreported (trace_of env polls w))
                   = keystrokes (unreported evs0)
                /\ (In finished (trace_of env polls w) -> In finished evs0)
                /\ (forall msg, In (error msg) (trace_of env polls w)
                                -> r0 = Exn msg)
                /\ (forall msg, r0 = Exn msg
                                -> In (error msg) (trace_of env polls w))).
  { assert (Hnot : forall evs msg, no_terminal evs -> ~ In (error msg) evs).
    { intros evs msg N H. unfold no_terminal in N. rewrite Forall_forall in N.
      specialize (N _ H). discriminate. }
    destruct r0 as [[] | msg0 |]; destruct Er as [-> _].
    - split; [reflexivity |]. split; [reflexivity |]. split; [auto |].
      split; [| discriminate].
      intros msg H. exfalso. destruct T as (pre & t & -> & Ht & Hpre).
      apply in_app_or in H. destruct H as [H | [H | []]].
      + exact (Hnot _ _ Hpre H).
      + destruct Ht as [-> | ->]; discriminate.
    - unfold reports, unreported.
      rewrite reports_from_app, unreported_from_app. cbn.
      rewrite app_nil_r, keystrokes_app. cbn. rewrite app_nil_r.
      split; [reflexivity |]. split; [reflexivity |]. split; [| split].
      + intros H. apply in_app_or in H.
        destruct H as [H | [H | []]]; [exact H | discriminate].
      + intros msg H. apply in_app_or in H. destruct H as [H | [H | []]].
        * exfalso. exact (Hnot _ _ (proj1 T) H).
        * injection H as <-. reflexivity.
      + intros msg [= <-]. apply in_or_app. right. left. reflexivity.
    - split; [reflexivity |]. split; [reflexivity |]. split; [auto |].
      split; [| discriminate].
      intros msg H. exfalso. exact (Hnot _ _ T H). }
  destruct Er' as (-> & -> & Hfin & Herr & Herr').
  rewrite <- (Forall2_firstn_length _ _ _ _ F).
  split; [exact F |]. split.
  - intros H. specialize (Fin (Hfin H)).
    apply Forall2_length in F. rewrite <- F, length_firstn. lia.
  - assert (Ek : forall j, nth_error
                   (unit_starts (List.length (text w)) (fast_mode_of w)
                      (text w) 0) k = Some j ->
                 k = List.length (reports evs0)).
    { intros j Hj. apply Forall2_length in F.
      rewrite <- F, length_firstn.
      assert (k < List.length
                    (unit_starts (List.length (text w)) (fast_mode_of w)
                       (text w) 0))%nat
        by (apply nth_error_Some; congruence).
      lia. }
    destruct Tl as [[Tl NF] | (j & msg & -> & Hj & Us)].
    + left. split; [exact Tl |]. intros msg H. apply (NF msg), Herr, H.
    + right. exists j, msg. split; [apply Herr'; reflexivity |].
      rewrite <- (Ek j Hj). auto.
Qed.


End ReportFacts.

(** ** Pauses *)

Module PauseFacts.
Import TypingWorker Units Traces WorkerFacts RunFacts EventFacts EndFacts.


Lemma turn_idling env p length fast i st st' :
  turn env p length fast i st = (Idling, st') ->
  _stop_flag (self (delivered env st)) = false
  /\ pause_idle env p (snd (_check_focus env (delivered env st)))
     = (Idling, st').
Proof.
  rewrite turn_unfold. cbn zeta.
  destruct (_stop_flag (self (delivered env st))); [discriminate |].
  destruct (pause_idle env p (snd (_check_focus env (delivered env st))))
    as [[[] | msg |] st3] eqn:E; intros H.
  - exfalso. apply (after_pause_not_idling env length fast i st3).
    rewrite H. reflexivity.
  - discriminate.
  - injection H as <-. auto.
Qed.




(** *** Pauses that are released *)




(** The pacing only draws a jitter and sleeps. *)
Lemma pace_only_paces env st :
  exists p,
    trace (snd (pace env st)) = trace st ++ p
    /\ Forall (fun e => is_pacing e = true) p
    /\ fst (pace env st) <> Idling.
Proof.
  unfold pace, call_randint, bind, get_self, tick, emit, of_outcome.
  cbn [self clock trace].
  destruct (use_random (self st)); cbn [ret].
  - destruct (randint_value (rand_min_ms (self st)) (rand_max_ms (self st))
                (random_bits env (clock st))) as [v | msg];
      cbn [ret raise self clock trace fst snd].
    + destruct (0 <? base_delay_ms (self st) + v); cbn [fst snd trace].
      * eexists [_; _]. rewrite <- app_assoc. split; [reflexivity |].
        split; [repeat constructor | discriminate].
      * eexists [_]. split; [reflexivity |].
        split; [repeat constructor | discriminate].
    + eexists [_]. split; [reflexivity |].
      split; [repeat constructor | discriminate].
  - destruct (0 <? base_delay_ms (self st)); cbn [fst snd trace].
    + eexists [_]. split; [reflexivity |].
      split; [repeat constructor | discriminate].
    + exists []. rewrite app_nil_r. split; [reflexivity |].
      split; [constructor | discriminate].
Qed.

(** The end of a turn, event by event: the keystrokes of the unit at
    [i], then its report, then the pacing. *)
Lemma type_and_report_strokes env length fast i st :
  (i < List.length (text (self st)))%nat ->
  let r := type_and_report env length fast i st in
  let next := next_index fast (text (self st)) i in
  exists u ru,
    unit_strokes fast (text (self st)) i u ru
    /\ match ru with
       | Ret _ =>
           exists p,
             trace (snd r)
             = trace st ++ u ++ progress_changed (percent_of next length) :: p
             /\ Forall (fun e => is_pacing e = true) p
             /\ (fast = true -> p = [])
             /\ (fst r = Ret (Some next) \/ exists msg, fst r = Exn msg)
       | Exn msg => trace (snd r) = trace st ++ u /\ fst r = Exn msg
       | Idling => False
       end.
Proof.
  intros Hlt. cbn zeta.
  destruct (type_unit_strokes env fast i st Hlt) as (u & ru & T & R & K).
  exists u, ru. split; [exact K |].
  unfold type_and_report.
  destruct (type_unit env fast i st) as [r1 st1] eqn:E1. cbn [fst snd] in T, R.
  pose proof (type_unit_not_idling env fast i st) as NI.
  rewrite E1 in NI. cbn [fst] in NI.
  destruct ru as [[] | msg |]; subst r1; [| | contradiction].
  - rewrite (bind_Ret _ _ _ _ _ E1), bind_emit.
    set (st2 := mkSt (self st1) (clock st1)
                  (trace st1 ++ [progress_changed
                     (percent_of (next_index fast (text (self st)) i) length)])).
    destruct fast; cbn [negb].
    + exists []. cbn. rewrite T, <- app_assoc. auto.
    + destruct (pace_only_paces env st2) as (p & Tp & Pp & Np).
      exists p.
      destruct (pace env st2) as [[[] | msg |] st3] eqn:Ep;
        cbn [fst snd] in Tp, Np;
        [rewrite (bind_Ret _ _ _ _ _ Ep) | rewrite (bind_Exn _ _ _ _ _ Ep)
        | contradiction];
        cbn [ret fst snd];
        (split; [rewrite Tp; subst st2; cbn [trace];
                 rewrite T, <- !app_assoc; reflexivity |]);
        (split; [exact Pp |]); (split; [discriminate |]); eauto.
  - rewrite (bind_Exn _ _ _ _ _ E1). cbn. auto.
Qed.

End PauseFacts.

(** * The specification, sentence by sentence *)

Import TypingWorker Units Traces WorkerFacts RunFacts EventFacts EndFacts.
Import DeliveryFacts ReportFacts PauseFacts.

(** C1 (as amended).  For a non-empty text, the progress values of a run
    are the percentages [int(i / length * 100)], evaluated in binary64,
    at the ends of the units typed so far, one value per unit and in the
    order of the units; they never decrease; each is within one of the
    percentage computed exactly; and a run that finishes has reported the
    end of every unit, the last value being 100.  Each value is reported
    after its unit and before the next one: the keystrokes between the
    report before it and the report itself are those of that unit, they
    have put its typed characters into the window, and nothing has been
    put there since the last report. *)
Theorem progress_reported_per_unit env polls w :
  text w <> [] ->
  let tr := trace_of env polls w in
  let len := List.length (text w) in
  let fast := fast_mode_of w in
  let starts := unit_starts len fast (text w) 0 in
  (exists k,
      progress_values tr
        = map (fun j => percent_of j len) (firstn k (unit_ends fast (text w))) /\
      (keyboard_attempts tr
         = flat_map (unit_attempts fast (text w)) (firstn k starts)
       \/ (exists msg, In (error msg) tr) /\
          keyboard_attempts tr
            = flat_map (unit_attempts fast (text w)) (firstn (S k) starts))) /\
  StronglySorted Z.le (progress_values tr) /\
  Forall (fun j => exact_percent j len - 1 <= percent_of j len
                   <= exact_percent j len + 1)
         (unit_ends fast (text w)) /\
  (In finished tr ->
     progress_values tr
       = map (fun j => percent_of j len) (unit_ends fast (text w)) /\
     last (progress_values tr) 0 = 100) /\
  Forall2 (fun i report =>
             snd report = percent_of (next_index fast (text w) i) len
             /\ keyboard_attempts (fst report) = unit_attempts fast (text w) i
             /\ Delivery.delivered_text (fst report)
                = filter Delivery.is_typed (unit_text fast (text w) i))
          (firstn (List.length (reports tr)) starts) (reports tr) /\
  Delivery.delivered_text (unreported tr) = [].
Proof.
  intros Hne. cbn zeta.
  assert (Reported :
    Forall2 (fun i report =>
               snd report
               = percent_of (next_index (fast_mode_of w) (text w) i)
                   (List.length (text w))
               /\ keyboard_attempts (fst report)
                  = unit_attempts (fast_mode_of w) (text w) i
               /\ Delivery.delivered_text (fst report)
                  = filter Delivery.is_typed
                      (unit_text (fast_mode_of w) (text w) i))
            (firstn (List.length (reports (trace_of env polls w)))
               (unit_starts (List.length (text w)) (fast_mode_of w) (text w) 0))
            (reports (trace_of env polls w))
    /\ Delivery.delivered_text (unreported (trace_of env polls w)) = []).
  { destruct (run_reports env polls w) as (F & _ & Tl).
    cbn zeta in F, Tl. split.
    - eapply Forall2_impl_in; [exact F |]. cbn beta.
      intros i report Hi [Ep Us]. apply In_firstn, unit_starts_lt in Hi.
      split; [exact Ep |]. split.
      + rewrite <- attempts_keystrokes. exact (strokes_attempts _ _ _ _ _ Us).
      + rewrite <- delivered_keystrokes.
        exact (strokes_delivered _ _ _ _ _ (proj2 Hi) Us).
    - rewrite <- delivered_keystrokes.
      destruct Tl as [[-> _] | (j & msg & _ & Hj & Us)]; [reflexivity |].
      apply nth_error_In, unit_starts_lt in Hj.
      exact (strokes_delivered _ _ _ _ _ (proj2 Hj) Us). }
  destruct (trace_of_shape env polls w) as (r & _ & Sh).
  unfold run_shape in Sh.
  destruct (text w) as [| c txt] eqn:Et; [contradiction |]. rewrite <- Et in *.
  destruct Sh as (evs0 & r0 & Sh & Er).
  destruct (shape_units w 0 evs0 r0 Sh) as (k & Ek & Fin & Ea).
  cbn zeta in Ek, Fin, Ea. fold (unit_ends (fast_mode_of w) (text w)) in Ek.
  assert (Epv : progress_values (trace_of env polls w) = progress_values evs0).
  { destruct r0 as [[] | msg |]; destruct Er as [-> _]; try reflexivity.
    rewrite progress_values_app. cbn. apply app_nil_r. }
  assert (Eka : keyboard_attempts (trace_of env polls w) = keyboard_attempts evs0).
  { destruct r0 as [[] | msg |]; destruct Er as [-> _]; try reflexivity.
    rewrite keyboard_attempts_app. cbn. apply app_nil_r. }
  assert (Hfin : In finished (trace_of env polls w) -> In finished evs0).
  { destruct r0 as [[] | msg |]; destruct Er as [-> _]; auto.
    intros H. apply in_app_or in H. destruct H as [H | [H | []]];
      [exact H | discriminate]. }
  rewrite Epv, Eka.
  split; [| split; [| split; [| split; [| exact Reported]]]].
  - exists k. split; [exact Ek |].
    destruct Ea as [Ea | [[msg ->] Ea]]; [left; exact Ea | right].
    split; [| exact Ea]. exists msg. destruct Er as [-> _].
    apply in_or_app. right. left. reflexivity.
  - rewrite Ek.
    apply (StronglySorted_map_mono le Z.le).
    + intros a b. apply percent_of_mono.
    + apply StronglySorted_firstn, unit_ends_sorted.
  - eapply Forall_impl; [| apply unit_ends_above]. cbn beta.
    intros j Hj. apply percent_of_near_exact; lia.
  - intros H. specialize (Fin (Hfin H)).
    assert (Eall : progress_values evs0
                   = map (fun j => percent_of j (List.length (text w)))
                         (unit_ends (fast_mode_of w) (text w))).
    { rewrite Ek, firstn_all2; [reflexivity |].
      unfold unit_ends. rewrite length_map. exact Fin. }
    split; [exact Eall |].
    assert (Hlen : (0 < List.length (text w))%nat) by (rewrite Et; cbn; lia).
    rewrite Eall, (last_map _ _ 0%nat).
    + unfold unit_ends. rewrite unit_ends_last by lia.
      apply percent_of_full. exact Hlen.
    + unfold unit_ends. rewrite (unit_starts_unfold _ _ _ 0%nat Hlen) by lia.
      discriminate.
Qed.

(** C2.  The fast path is the mode of a worker whose base delay is zero
    and whose jitter is off.  Every literal write of a run carries the
    text of one unit; outside the fast path a unit is one character; in
    the fast path a unit that starts on a plain character is a batch: a
    run of plain characters, at most 40 of them, that stops only at 40
    characters, at the end of the text or before a character that is not
    plain, and any other character is a unit alone.  A run in the fast
    path never draws a jitter and never sleeps between units, and when it
    finishes it has handed each batch to [keyboard.write] in one call.
    Whether it finishes or not, every unit it has reported was emitted
    before its report and, for a batch, as a single write: one call of
    [keyboard.write] with the whole batch, followed by one call of
    [pyautogui.write] with the same batch only when the first raised,
    and by nothing else; a run that finishes has reported every unit; a
    run that ends with an error has made the same two calls for the
    batch in hand, both raising; and a fresh worker whose target keeps
    the focus, that nobody stops or pauses and whose keystrokes get
    through, finishes. *)
Theorem fast_path_batches env polls w :
  let tr := trace_of env polls w in
  let txt := text w in
  let fast := fast_mode_of w in
  let starts := unit_starts (List.length txt) fast txt 0 in
  (fast = true <-> base_delay_ms w = 0 /\ use_random w = false) /\
  (forall s, In s (written tr) ->
     exists i, In i starts /\ s = unit_text fast txt i) /\
  (forall i, In i starts ->
     exists ch, nth_error txt i = Some ch /\
       if fast
       then (plain ch ->
               batch_at txt i (next_index fast txt i) (unit_text fast txt i)) /\
            (~ plain ch ->
               unit_text fast txt i = [ch] /\ next_index fast txt i = S i)
       else unit_text fast txt i = [ch] /\ next_index fast txt i = S i) /\
  (fast = true -> forall e, In e tr -> is_pacing e = false) /\
  (fast = true -> In finished tr ->
     keyboard_attempts tr = flat_map (unit_attempts fast txt) starts) /\
  (fast = true ->
     Forall2 (fun i report =>
                forall ch, nth_error txt i = Some ch -> plain ch ->
                  keystrokes (fst report)
                  = [ev_keyboard_write (unit_text fast txt i) (Returns tt)]
                  \/ exists m,
                       keystrokes (fst report)
                       = [ev_keyboard_write (unit_text fast txt i) (Raises m);
                          ev_pyautogui_write (unit_text fast txt i)
                            (Returns tt)])
             (firstn (List.length (reports tr)) starts) (reports tr)) /\
  (In finished tr -> List.length (reports tr) = List.length starts) /\
  (fast = true -> forall msg, In (error msg) tr ->
     exists i ch,
       nth_error starts (List.length (reports tr)) = Some i
       /\ nth_error txt i = Some ch
       /\ (plain ch ->
           exists m,
             keystrokes (unreported tr)
             = [ev_keyboard_write (unit_text fast txt i) (Raises m);
                ev_pyautogui_write (unit_text fast txt i) (Raises msg)])) /\
  (forall title,
     Delivery.undisturbed env -> Delivery.focused_on title env ->
     Delivery.keys_work env -> Delivery.fresh w ->
     target_window_title w = Some title ->
     In finished tr).
Proof.
  cbn zeta.
  split; [| split; [| split; [| split; [| split; [| split; [| split;
    [| split]]]]]]].
  - unfold fast_mode_of. rewrite andb_true_iff, Z.eqb_eq, negb_true_iff. tauto.
  - intros s Hs. unfold written in Hs. apply in_flat_map in Hs.
    destruct Hs as (e & He & Hs).
    pose proof (trace_of_events env polls w) as F. rewrite Forall_forall in F.
    specialize (F e He). unfold event_ok, pacing in F.
    destruct F as [[Q | [(j & Hj & K) | [[NF P] | [(j & E) | E]]]]
                  | (msg & E)]; [ | | | | destruct E as [E | E] | ];
      try (subst e; destruct Hs; fail);
      try (destruct e; try destruct Q; try destruct P; destruct Hs; fail).
    exists j. split; [exact Hj |].
    destruct e; try destruct K; cbn in Hs; try (destruct Hs; fail);
      destruct Hs as [<- | []]; reflexivity.
  - intros i Hi. apply unit_starts_lt in Hi.
    destruct (nth_error (text w) i) as [ch |] eqn:E.
    2:{ apply nth_error_None in E. lia. }
    exists ch. split; [reflexivity |].
    destruct (fast_mode_of w).
    + pose proof (fast_unit (text w) i ch E) as [Hp Hn]. split.
      * intros P. destruct (Hp P) as (A & B & C & D & F).
        unfold batch_at. auto.
      * exact Hn.
    + apply slow_unit. exact E.
  - intros Hf e He.
    pose proof (trace_of_events env polls w) as F. rewrite Forall_forall in F.
    specialize (F e He). unfold event_ok, pacing in F.
    destruct F as [[Q | [(j & Hj & K) | [[NF P] | [(j & E) | E]]]]
                  | (msg & E)]; [ | | | | destruct E as [E | E] | ];
      try (subst e; reflexivity).
    + destruct e; try destruct Q; reflexivity.
    + destruct e; try destruct K; reflexivity.
    + congruence.
  - intros Hf Hfin.
    destruct (trace_of_shape env polls w) as (r & _ & Sh).
    unfold run_shape in Sh. destruct (text w) as [| c txt] eqn:Et.
    { destruct Sh as [-> _]. reflexivity. }
    rewrite <- Et in *.
    destruct Sh as (evs0 & r0 & Sh & Er).
    destruct (shape_units w 0 evs0 r0 Sh) as (k & _ & Fin & Ea).
    cbn zeta in Fin, Ea.
    assert (Hin : In finished evs0).
    { destruct r0 as [[] | msg |]; destruct Er as [E _]; rewrite E in Hfin; auto.
      apply in_app_or in Hfin. destruct Hfin as [H | [H | []]];
        [exact H | discriminate]. }
    specialize (Fin Hin).
    assert (Eka : keyboard_attempts (trace_of env polls w) = keyboard_attempts evs0).
    { destruct r0 as [[] | msg |]; destruct Er as [-> _]; try reflexivity.
      rewrite keyboard_attempts_app. cbn. apply app_nil_r. }
    rewrite Eka.
    destruct Ea as [Ea | [_ Ea]]; rewrite Ea, firstn_all2; auto; lia.
  - intros Hf. destruct (run_reports env polls w) as (F & _ & _).
    cbn zeta in F. rewrite Hf in *.
    eapply Forall2_impl_in; [exact F |]. cbn beta.
    intros i report Hi [_ Us] ch Hch P.
    exact (batch_strokes _ _ _ _ Hch P Us).
  - destruct (run_reports env polls w) as (_ & Fin & _). exact Fin.
  - intros Hf msg He. destruct (run_reports env polls w) as (_ & _ & Tl).
    cbn zeta in Tl. rewrite Hf in *.
    destruct Tl as [[_ NF] | (j & msg' & He' & Hj & Us)].
    { specialize (NF msg He). discriminate. }
    assert (msg' = msg).
    { destruct (trace_of_shape env polls w) as (r & _ & Sh).
      unfold run_shape in Sh. destruct (text w) as [| c txt'].
      - destruct Sh as [E _]. rewrite E in He. destruct He as [He | []].
        discriminate.
      - destruct Sh as (evs0 & r0 & Sh & Er).
        pose proof (shape_terminals w 0 evs0 r0 Sh) as T.
        assert (Hnot : forall evs m, no_terminal evs -> ~ In (error m) evs).
        { intros evs m N H. unfold no_terminal in N. rewrite Forall_forall in N.
          specialize (N _ H). discriminate. }
        destruct r0 as [[] | msg0 |]; destruct Er as [E _]; rewrite E in *.
        + exfalso. destruct T as (pre & t & -> & Ht & Hpre).
          apply in_app_or in He. destruct He as [He | [He | []]].
          * exact (Hnot _ _ Hpre He).
          * destruct Ht as [-> | ->]; discriminate.
        + apply in_app_or in He, He'.
          destruct He as [He | [He | []]];
            [exfalso; exact (Hnot _ _ (proj1 T) He) |].
          destruct He' as [He' | [He' | []]];
            [exfalso; exact (Hnot _ _ (proj1 T) He') |].
          congruence.
        + exfalso. exact (Hnot _ _ T He). }
    subst msg'.
    pose proof (nth_error_In _ _ Hj) as Hin. apply unit_starts_lt in Hin.
    destruct (nth_error (text w) j) as [ch |] eqn:Hch.
    2:{ apply nth_error_None in Hch. lia. }
    exists j, ch. split; [exact Hj |]. split; [exact Hch |].
    intros P. exact (failed_batch_strokes _ _ _ _ _ Hch P Us).
  - intros title U Fo K Fr Tg.
    exact (proj2 (calm_run env title U Fo K polls w Fr Tg)).
Qed.

(** C3.  A worker is built with its jitter bounds in order: when
    [rand_min_ms > rand_max_ms] the two are swapped, no call of the
    control surface changes them afterwards, and in every run every
    jitter drawn by [random.randint] is drawn from these bounds and lies
    between them, both ends included; the sleep that follows is the base
    delay plus that jitter. *)
Theorem jitter_within_bounds env polls text base_delay use_rand a b target :
  let w := __init__ text base_delay use_rand a b target in
  let tr := trace_of env polls w in
  (b < a -> rand_min_ms w = b /\ rand_max_ms w = a) /\
  rand_min_ms w = Z.min a b /\ rand_max_ms w = Z.max a b /\
  rand_min_ms w <= rand_max_ms w /\
  same_config w (self (snd (run env polls (start w)))) /\
  (forall lo hi r, In (ev_randint lo hi r) tr ->
     lo = Z.min a b /\ hi = Z.max a b /\
     exists v, r = Returns v /\ Z.min a b <= v <= Z.max a b) /\
  (forall d, In (ev_sleep_delay d) tr ->
     if use_rand
     then base_delay + Z.min a b <= d <= base_delay + Z.max a b
     else d = base_delay).
Proof.
  cbn zeta.
  set (w := __init__ text base_delay use_rand a b target).
  assert (Emin : rand_min_ms w = Z.min a b)
    by (unfold w, __init__; destruct (Z.ltb_spec b a); cbn; lia).
  assert (Emax : rand_max_ms w = Z.max a b)
    by (unfold w, __init__; destruct (Z.ltb_spec b a); cbn; lia).
  assert (Ebase : base_delay_ms w = base_delay)
    by (unfold w, __init__; destruct (b <? a); reflexivity).
  assert (Erand : use_random w = use_rand)
    by (unfold w, __init__; destruct (b <? a); reflexivity).
  split; [lia |]. split; [exact Emin |]. split; [exact Emax |].
  split; [lia |]. split; [| split].
  - destruct (run_spec env polls (start w)) as (r & st' & evs & E & _ & _ & C).
    rewrite E. exact C.
  - intros lo hi r H.
    pose proof (trace_of_events env polls w) as F. rewrite Forall_forall in F.
    specialize (F _ H). unfold event_ok, pacing in F. cbn [quiet keystroke_for] in F.
    destruct F as [[[] | [(j & _ & []) | [[_ P] | [(j & [=]) | [[=] | [=]]]]]]
                  | (msg & [=])].
    destruct P as (_ & -> & -> & P). rewrite Emin, Emax in *.
    destruct r as [v | msg]; [eauto | lia].
  - intros d H.
    pose proof (trace_of_events env polls w) as F. rewrite Forall_forall in F.
    specialize (F _ H). unfold event_ok, pacing in F. cbn [quiet keystroke_for] in F.
    destruct F as [[[] | [(j & _ & []) | [[_ P] | [(j & [=]) | [[=] | [=]]]]]]
                  | (msg & [=])].
    rewrite Erand, Ebase, Emin, Emax in P. destruct use_rand; tauto.
Qed.

(** The paced worker built with the bounds 10 and 5 draws from 5..10. *)
Example jitter_of_paced_abc :
  rand_min_ms Samples.paced_abc = 5 /\ rand_max_ms Samples.paced_abc = 10
  /\ firstn 5 (trace_of Samples.calm 0 Samples.paced_abc)
     = [ev_getActiveWindowTitle (Returns (Some "Notepad"%string));
        ev_keyboard_write [97%N] (Returns tt); progress_changed 25;
        ev_randint 5 10 (Returns 5); ev_sleep_delay 8].
Proof. repeat split; vm_compute; reflexivity. Qed.

(** C4 (as amended).  What [_type_char] does with a character, in terms of
    the answers of the two libraries: newline and tab go to
    [keyboard.write] as literal text, and to the key press ["enter"] or
    ["tab"] only when that write raises; code points 8 and 27 are the key
    presses ["backspace"] and ["esc"]; every other code point below 32 is
    skipped without a call; every code point from 32 on is written as
    literal text by [keyboard.write], and by [pyautogui.write] when that
    raises.  The worker object is never touched. *)
Theorem type_char_dispatch env ch st :
  let kb := keyboard_write env (clock st) in
  let pag := pyautogui_call env (clock st) in
  let pag' := pyautogui_call env (S (clock st)) in
  let r := fst (_type_char env ch st) in
  let st' := snd (_type_char env ch st) in
  self st' = self st /\
  (ch = 10%N ->
     trace st' = trace st ++ write_or [10%N] (ev_pyautogui_press "enter") kb pag'
     /\ r = write_or_result kb pag') /\
  (ch = 9%N ->
     trace st' = trace st ++ write_or [9%N] (ev_pyautogui_press "tab") kb pag'
     /\ r = write_or_result kb pag') /\
  (ch = 8%N ->
     trace st' = trace st ++ [ev_pyautogui_press "backspace" pag]
     /\ r = result_of pag) /\
  (ch = 27%N ->
     trace st' = trace st ++ [ev_pyautogui_press "esc" pag]
     /\ r = result_of pag) /\
  ((ch < 32)%N -> ch <> 8%N -> ch <> 9%N -> ch <> 10%N -> ch <> 27%N ->
     st' = st /\ r = Ret tt) /\
  ((32 <= ch)%N ->
     trace st' = trace st ++ write_or [ch] (ev_pyautogui_write [ch]) kb pag'
     /\ r = write_or_result kb pag').
Proof.
  cbn zeta.
  assert (Hwrite : forall s,
    self (snd (_safe_write env s st)) = self st /\
    trace (snd (_safe_write env s st))
      = trace st ++ write_or s (ev_pyautogui_write s) (keyboard_write env (clock st))
                             (pyautogui_call env (S (clock st))) /\
    fst (_safe_write env s st)
      = write_or_result (keyboard_write env (clock st))
                        (pyautogui_call env (S (clock st)))).
  { intros s. unfold _safe_write. step_calls.
    destruct (keyboard_write env (clock st)) as [[] | m1];
      cbn [self clock trace ret raise fst snd write_or write_or_result].
    - auto.
    - destruct (pyautogui_call env (S (clock st))) as [[] | m2];
        cbn [self clock trace ret raise fst snd result_of];
        rewrite <- app_assoc; auto. }
  unfold _type_char.
  destruct (N.eqb_spec ch 10) as [-> | N10].
  { step_calls.
    destruct (keyboard_write env (clock st)) as [[] | m1];
      cbn [self clock trace ret raise fst snd write_or write_or_result].
    - repeat split; try discriminate; try (intros; lia).
    - destruct (pyautogui_call env (S (clock st))) as [[] | m2];
        cbn [self clock trace ret raise fst snd result_of];
        rewrite <- app_assoc;
        repeat split; try discriminate; try (intros; lia). }
  destruct (N.eqb_spec ch 9) as [-> | N9].
  { step_calls.
    destruct (keyboard_write env (clock st)) as [[] | m1];
      cbn [self clock trace ret raise fst snd write_or write_or_result].
    - repeat split; try discriminate; try (intros; lia).
    - destruct (pyautogui_call env (S (clock st))) as [[] | m2];
        cbn [self clock trace ret raise fst snd result_of];
        rewrite <- app_assoc;
        repeat split; try discriminate; try (intros; lia). }
  destruct (N.ltb_spec ch 32) as [L | L].
  - destruct (N.eqb_spec ch 8) as [-> | N8];
      [| destruct (N.eqb_spec ch 27) as [-> | N27]].
    + step_calls.
      destruct (pyautogui_call env (clock st)) as [[] | m2];
        cbn [self clock trace ret raise fst snd result_of];
        repeat split; try discriminate; try (intros; lia).
    + step_calls.
      destruct (pyautogui_call env (clock st)) as [[] | m2];
        cbn [self clock trace ret raise fst snd result_of];
        repeat split; try discriminate; try (intros; lia).
    + cbn [ret fst snd].
      repeat split; try contradiction; try (intros; lia).
  - destruct (Hwrite [ch]) as (Hs & Ht & Hr).
    split; [exact Hs |].
    repeat split; try contradiction; try (intros; lia); assumption.
Qed.

(** C4, counterexample.  With both libraries working, a newline is typed
    by the literal write alone and no key is pressed; ["enter"] is
    pressed only in the world whose [keyboard.write] raises. *)
Lemma newline_is_written_first :
  trace (snd (_type_char Samples.calm 10%N (start Samples.fast_abc)))
    = [ev_keyboard_write [10%N] (Returns tt)]
  /\ trace (snd (_type_char Samples.no_keyboard 10%N (start Samples.fast_abc)))
    = [ev_keyboard_write [10%N] (Raises "keyboard: no backend");
       ev_pyautogui_press "enter" (Returns tt)].
Proof. split; reflexivity. Qed.

(** C5 (as amended).  Cancelling during the countdown returns the window
    to Idle and calls nothing on a worker; cancelling while typing or
    paused calls [stop] on the worker.  A worker that finds the stop flag
    set at the top of a turn, or that receives the call there, emits
    [stopped] at once and leaves; in the pause loop the same stop ends the
    idling without another sleep; and whenever the flag is set by the end
    of a turn the turn has typed nothing and has ended with [stopped].
    In a run, [stopped] is the last event and excludes [finished]. *)
Theorem stop_ends_the_run env polls w i st mw :
  (MainWindow.state mw = MainWindow.STATE_COUNTDOWN ->
     snd (MainWindow._cancel_typing mw) = [] /\
     MainWindow.state (fst (MainWindow._cancel_typing mw))
       = MainWindow.STATE_IDLE /\
     MainWindow.countdown_timer_active (fst (MainWindow._cancel_typing mw))
       = false) /\
  (MainWindow.state mw = MainWindow.STATE_TYPING
   \/ MainWindow.state mw = MainWindow.STATE_PAUSED ->
   MainWindow.typing_worker mw = true ->
     snd (MainWindow._cancel_typing mw) = [call_stop] /\
     MainWindow.state (fst (MainWindow._cancel_typing mw))
       = MainWindow.STATE_IDLE) /\
  (_stop_flag (self st) = true \/ In call_stop (inbox env (clock st)) ->
     turn env polls (List.length (text w)) (fast_mode_of w) i st
       = (Ret None,
          mkSt (self (delivered env st)) (S (clock st)) (trace st ++ [stopped]))
     /\ pause_idle env polls st = (Ret tt, delivered env st)
     /\ _stop_flag (self (delivered env st)) = true) /\
  (same_config w (self st) -> (i < List.length (text w))%nat ->
   _stop_flag
     (self (snd (turn env polls (List.length (text w)) (fast_mode_of w) i st)))
     = true ->
     fst (turn env polls (List.length (text w)) (fast_mode_of w) i st) = Ret None
     /\ exists q,
          Forall quiet q /\
          trace (snd (turn env polls (List.length (text w)) (fast_mode_of w) i st))
            = trace st ++ q ++ [stopped]) /\
  (In stopped (trace_of env polls w) ->
     ~ In finished (trace_of env polls w) /\
     exists pre, trace_of env polls w = pre ++ [stopped] /\ no_terminal pre).
Proof.
  split; [| split; [| split; [| split]]].
  - intros H. unfold MainWindow._cancel_typing. rewrite H. cbn. auto.
  - intros H W. unfold MainWindow._cancel_typing.
    destruct H as [H | H]; rewrite H, W; cbn; auto.
  - intros H. destruct (pause_idle_stop env polls st H) as [E S1].
    split; [| split; [exact E | exact S1]].
    rewrite turn_unfold. cbn zeta. rewrite S1. reflexivity.
  - intros C Hlt Hstop.
    destruct (turn_spec env polls w i st C Hlt)
      as (r & st' & evs & E & G & Sh & Hs).
    rewrite E in *. cbn [fst snd] in *.
    rewrite (Hs Hstop) in Sh. split; [exact (Hs Hstop) |].
    inversion Sh as [q Q | | | |]. subst.
    exists q. split; [exact Q | apply G].
  - intros Hin.
    destruct (trace_of_shape env polls w) as (r & _ & Sh).
    unfold run_shape in Sh. destruct (text w) as [| c txt].
    { destruct Sh as [E _]. rewrite E in Hin.
      destruct Hin as [Hin | []]. discriminate. }
    destruct Sh as (evs0 & r0 & Sh & Er).
    pose proof (shape_terminals w 0 evs0 r0 Sh) as T.
    assert (Hnot : forall evs, no_terminal evs -> ~ In stopped evs).
    { intros evs F H. unfold no_terminal in F. rewrite Forall_forall in F.
      specialize (F _ H). discriminate. }
    assert (Hnotf : forall evs, no_terminal evs -> ~ In finished evs).
    { intros evs F H. unfold no_terminal in F. rewrite Forall_forall in F.
      specialize (F _ H). discriminate. }
    destruct r0 as [[] | msg |].
    + destruct Er as [E _]. rewrite E in *.
      destruct T as (pre & t & -> & Ht & Hpre).
      apply in_app_or in Hin. destruct Hin as [Hin | [Hin | []]].
      { exfalso. exact (Hnot _ Hpre Hin). }
      subst t. split; [| eauto].
      intros Hf. apply in_app_or in Hf. destruct Hf as [Hf | [Hf | []]];
        [exact (Hnotf _ Hpre Hf) | discriminate].
    + destruct Er as [E _]. rewrite E in *. destruct T as [T _].
      apply in_app_or in Hin. destruct Hin as [Hin | [Hin | []]];
        [exfalso; exact (Hnot _ T Hin) | discriminate].
    + destruct Er as [E _]. rewrite E in *.
      exfalso. exact (Hnot _ T Hin).
Qed.

(** C5, counterexample.  The control surface cancels while the worker is
    typing its last unit: the stop reaches the worker, which is past its
    last check of the flag, and the run ends with [finished]; the window
    then shows the session as finished. *)
Lemma late_cancel_still_finishes :
  snd (MainWindow._cancel_typing Samples.typing_window)
    = inbox Samples.late_stop 6
  /\ _stop_flag (self (snd (run Samples.late_stop 0 (start Samples.fast_a))))
     = true
  /\ trace_of Samples.late_stop 0 Samples.fast_a
     = [ev_getActiveWindowTitle (Returns (Some "Notepad"%string));
        ev_keyboard_write [97%N] (Returns tt);
        progress_changed 100; finished]
  /\ MainWindow.status_label
       (MainWindow._on_typing_finished
          (fst (MainWindow._cancel_typing Samples.typing_window)))
     = "输入完成"%string.
Proof. repeat split; vm_compute; reflexivity. Qed.



(** C9 (as amended).  When the foreground-window query raises during the
    focus check, the check does nothing: the worker is not paused and no
    [focus_paused] is emitted, and when no call arrives from the control
    surface the turn goes on and types its unit.  A query that returns,
    in the same place, pauses the worker exactly when it finds no
    window, an empty title or a title other than the target.  It is the
    control surface, at start, at resume and when it is told of a lost
    focus, that treats a failed query like no window. *)
Theorem query_failure_is_ignored env st msg :
  let st1 := delivered env st in
  _stop_flag (self st1) = false ->
  _pause_flag (self st1) = false ->
  truthy (target_window_title (self st1)) = true ->
  (getActiveWindowTitle env (clock st1) = Raises msg ->
     _check_focus env st
       = (Ret tt,
          mkSt (self st1) (S (clock st1))
            (trace st ++ [ev_getActiveWindowTitle (Raises msg)])))
  /\ (getActiveWindowTitle env (clock st1) = Returns None ->
        _check_focus env st
          = (Ret tt,
             mkSt (pause (self st1)) (S (clock st1))
               (trace st ++ [ev_getActiveWindowTitle (Returns None);
                             focus_paused])))
  /\ (forall from_hotkey mw,
        MainWindow._resume_typing (Raises msg) from_hotkey mw
        = MainWindow._resume_typing (Returns None) from_hotkey mw)
  /\ (forall cur,
        getActiveWindowTitle env (clock st1) = Returns cur ->
        truthy cur = false
        \/ title_eqb cur (target_window_title (self st1)) = false ->
        _check_focus env st
          = (Ret tt,
             mkSt (pause (self st1)) (S (clock st1))
               (trace st ++ [ev_getActiveWindowTitle (Returns cur);
                             focus_paused])))
  /\ (forall cur,
        getActiveWindowTitle env (clock st1) = Returns cur ->
        truthy cur = true ->
        title_eqb cur (target_window_title (self st1)) = true ->
        _check_focus env st
          = (Ret tt,
             mkSt (self st1) (S (clock st1))
               (trace st ++ [ev_getActiveWindowTitle (Returns cur)])))
  /\ (forall form isActiveWindow mw,
        Slots._begin_typing (Slots.Build_Desk form (Raises msg) isActiveWindow)
          mw
        = Slots._begin_typing
            (Slots.Build_Desk form (Returns None) isActiveWindow) mw
        /\ snd (Slots._begin_typing
                  (Slots.Build_Desk form (Raises msg) isActiveWindow) mw) = []
        /\ MainWindow.state
             (fst (Slots._begin_typing
                     (Slots.Build_Desk form (Raises msg) isActiveWindow) mw))
           = MainWindow.STATE_IDLE)
  /\ (forall form isActiveWindow mw,
        Slots._on_focus_paused
          (Slots.Build_Desk form (Raises msg) isActiveWindow) mw
        = Slots._on_focus_paused
            (Slots.Build_Desk form (Returns None) isActiveWindow) mw)
  /\ (forall polls length fast i st0,
        st = delivered env st0 ->
        _stop_flag (self st) = false ->
        getActiveWindowTitle env (clock st1) = Raises msg ->
        inbox env (S (clock st1)) = [] ->
        inbox env (S (S (clock st1))) = [] ->
        (i < List.length (text (self st0)))%nat ->
        let r := turn env polls length fast i st0 in
        let next := next_index fast (text (self st0)) i in
        exists u ru,
          unit_strokes fast (text (self st0)) i u ru
          /\ match ru with
             | Ret _ =>
                 exists p,
                   trace (snd r)
                   = trace st0
                       ++ ev_getActiveWindowTitle (Raises msg)
                       :: u ++ progress_changed (percent_of next length) :: p
                   /\ Forall (fun e => is_pacing e = true) p
                   /\ (fst r = Ret (Some next) \/ exists m, fst r = Exn m)
             | Exn m =>
                 trace (snd r)
                 = trace st0 ++ ev_getActiveWindowTitle (Raises msg) :: u
                 /\ fst r = Exn m
             | Idling => False
             end).
Proof.
  cbn zeta. intros Stop1 Pause1 Target.
  assert (Ignored : getActiveWindowTitle env (clock (delivered env st))
                    = Raises msg ->
            _check_focus env st
            = (Ret tt,
               mkSt (self (delivered env st)) (S (clock (delivered env st)))
                 (trace st ++ [ev_getActiveWindowTitle (Raises msg)]))).
  { intros Query. unfold _check_focus. rewrite bind_deliver, bind_get_self.
    fold (delivered env st). rewrite Target, Stop1, Pause1. cbn [negb orb].
    unfold try_except, call_getActiveWindowTitle, bind, tick, emit, of_outcome.
    cbn [self clock trace]. rewrite Query. reflexivity. }
  assert (Found : forall cur,
            getActiveWindowTitle env (clock (delivered env st)) = Returns cur ->
            _check_focus env st
            = if negb (truthy cur)
                 || negb (title_eqb cur
                            (target_window_title (self (delivered env st))))
              then (Ret tt,
                    mkSt (pause (self (delivered env st)))
                      (S (clock (delivered env st)))
                      (trace st ++ [ev_getActiveWindowTitle (Returns cur);
                                    focus_paused]))
              else (Ret tt,
                    mkSt (self (delivered env st))
                      (S (clock (delivered env st)))
                      (trace st ++ [ev_getActiveWindowTitle (Returns cur)]))).
  { intros cur Query. unfold _check_focus. rewrite bind_deliver, bind_get_self.
    fold (delivered env st). rewrite Target, Stop1, Pause1. cbn [negb orb].
    unfold try_except, call_getActiveWindowTitle, bind, tick, emit, of_outcome.
    cbn [self clock trace]. rewrite Query. cbn [ret].
    destruct (negb (truthy cur) || negb (title_eqb cur _)).
    - unfold modify_self. cbn [self clock trace].
      rewrite <- app_assoc. reflexivity.
    - reflexivity. }
  split; [exact Ignored |].
  split; [intros Query; rewrite (Found None Query); reflexivity |].
  split; [reflexivity |].
  split.
  { intros cur Query Lost. rewrite (Found cur Query).
    destruct Lost as [-> | ->]; [reflexivity |].
    rewrite orb_true_r. reflexivity. }
  split.
  { intros cur Query T E. rewrite (Found cur Query), T, E. reflexivity. }
  split; [intros form iw mw; repeat split |].
  split; [reflexivity |].
  intros polls length fast i st0 Est Stop0 Query In1 In2 Hlt. cbn zeta.
  subst st.
  set (st1 := delivered env (delivered env st0)) in *.
  assert (Turn : turn env polls length fast i st0
                 = type_and_report env length fast i
                     (mkSt (self st1) (S (S (S (clock st1))))
                        (trace st0 ++ [ev_getActiveWindowTitle (Raises msg)]))).
  { rewrite turn_unfold. cbn zeta. rewrite Stop0, (Ignored Query). cbn [snd].
    fold st1.
    set (st2 := mkSt (self st1) (S (clock st1))
                  (trace (delivered env st0)
                     ++ [ev_getActiveWindowTitle (Raises msg)])).
    assert (D2 : delivered env st2
                 = mkSt (self st1) (S (S (clock st1)))
                     (trace st0 ++ [ev_getActiveWindowTitle (Raises msg)])).
    { unfold delivered, st2. cbn [self clock trace]. rewrite In1. reflexivity. }
    rewrite pause_idle_unfold. cbn zeta. rewrite D2. cbn [self].
    rewrite Pause1. cbn [andb].
    unfold after_pause. rewrite bind_deliver, bind_get_self.
    cbn [self clock trace]. rewrite In2. cbn [fold_left]. rewrite Stop1.
    reflexivity. }
  rewrite Turn.
  assert (Et : text (self st1) = text (self st0)).
  { pose proof (apply_calls_config (inbox env (clock st0)) (self st0)) as C1.
    pose proof (apply_calls_config (inbox env (clock (delivered env st0)))
                  (self (delivered env st0))) as C2.
    destruct C1 as (T1 & _), C2 as (T2 & _). cbn in *. congruence. }
  pose proof (type_and_report_strokes env length fast i
                (mkSt (self st1) (S (S (S (clock st1))))
                   (trace st0 ++ [ev_getActiveWindowTitle (Raises msg)]))) as H.
  cbn [self trace] in H. rewrite Et in H.
  destruct (H Hlt) as (u & ru & Us & Hr). exists u, ru. split; [exact Us |].
  destruct ru as [[] | m |]; [| | contradiction].
  - destruct Hr as (p & Tr & Pp & _ & R). exists p.
    rewrite Tr, <- app_assoc. auto.
  - destruct Hr as [Tr R]. rewrite Tr, <- app_assoc. auto.
Qed.

(** C9, witness. *)
Lemma query_failure_is_ignored_witness :
  _check_focus Samples.query_fails (start Samples.fast_abc)
  = (Ret tt,
     mkSt Samples.fast_abc 2 [ev_getActiveWindowTitle (Raises "no display")]).
Proof.
  exact (proj1 (query_failure_is_ignored Samples.query_fails
                  (start Samples.fast_abc) "no display"
                  eq_refl eq_refl eq_refl) eq_refl).
Defined.

(** C9, counterexample.  With a query that raises, the run is never
    paused and types the whole text; with a query that finds no window,
    the same worker is paused before its first unit and idles. *)
Lemma failed_query_does_not_pause :
  trace_of Samples.query_fails 5 Samples.fast_abc
  = [ev_getActiveWindowTitle (Raises "no display");
     ev_keyboard_write [97%N; 98%N] (Returns tt); progress_changed 50;
     ev_getActiveWindowTitle (Raises "no display");
     ev_keyboard_write [10%N] (Returns tt); progress_changed 75;
     ev_getActiveWindowTitle (Raises "no display");
     ev_keyboard_write [99%N] (Returns tt); progress_changed 100;
     finished]
  /\ trace_of Samples.no_window 5 Samples.fast_abc
     = [ev_getActiveWindowTitle (Returns None); focus_paused;
        ev_sleep_poll; ev_sleep_poll; ev_sleep_poll; ev_sleep_poll;
        ev_sleep_poll].
Proof. split; vm_compute; reflexivity. Qed.





(** C7.  A resume attempted while the session is paused, when the query
    finds no foreground window (or raises) or finds the window of the
    tool itself: the session stays paused, nothing is called on the
    worker, the resume timer is stopped and an error status is shown.
    With any other window the session goes back to typing, after the
    worker has been retargeted to that window and resumed; these are the
    only resumes that take effect. *)
Theorem resume_needs_a_target active from_hotkey mw :
  MainWindow.state mw = MainWindow.STATE_PAUSED ->
  MainWindow.typing_worker mw = true ->
  let current_win := match active with
                     | Returns title => title
                     | Raises _ => None
                     end in
  let mw' := fst (MainWindow._resume_typing active from_hotkey mw) in
  let calls := snd (MainWindow._resume_typing active from_hotkey mw) in
  (truthy current_win = false \/ current_win = Some (MainWindow.windowTitle mw) ->
     MainWindow.state mw' = MainWindow.STATE_PAUSED /\ calls = [] /\
     MainWindow.status_is_error mw' = true /\
     MainWindow.typing_worker mw' = true /\
     MainWindow.resume_timer_active mw' = false /\
     MainWindow.progress_bar mw' = MainWindow.progress_bar mw) /\
  (truthy current_win = true ->
   current_win <> Some (MainWindow.windowTitle mw) ->
     MainWindow.state mw' = MainWindow.STATE_TYPING /\
     calls = [call_set_target_window current_win; call_resume] /\
     MainWindow.status_is_error mw' = false) /\
  (MainWindow.state mw' = MainWindow.STATE_TYPING <->
     truthy current_win = true /\
     current_win <> Some (MainWindow.windowTitle mw)).
Proof.
  intros Hs Hw. cbn zeta. unfold MainWindow._resume_typing.
  rewrite Hs, Hw. cbn [MainWindow.State_eqb andb negb].
  set (current_win := match active with
                      | Returns title => title
                      | Raises _ => None
                      end).
  destruct (truthy current_win) eqn:T; cbn [negb].
  - destruct (title_eqb current_win (Some (MainWindow.windowTitle mw))) eqn:E.
    + apply title_eqb_eq in E. cbn.
      split; [auto 7 |]. split; [intros _ C; contradiction |].
      split; [rewrite Hs; discriminate | intros [_ C]; contradiction].
    + assert (N : current_win <> Some (MainWindow.windowTitle mw)).
      { intros C. apply title_eqb_eq in C. congruence. }
      cbn. split; [| split; [auto | split; auto]].
      intros [C | C]; [discriminate | contradiction].
  - cbn. split; [auto 7 |]. split; [discriminate |].
    split; [rewrite Hs; discriminate | intros [C _]; discriminate].
Qed.

(** C7, witness: a resume where there is no foreground window. *)
Lemma resume_needs_a_target_witness :
  MainWindow._resume_typing (Returns None) false Samples.paused_window
  = (MainWindow.resume_timer_stop
       (MainWindow._update_status "无法获取输入焦点(无窗口) - 恢复失败"
          (Some 40) true Samples.paused_window), [])
  /\ MainWindow.state
       (fst (MainWindow._resume_typing (Returns None) false
               Samples.paused_window))
     = MainWindow.STATE_PAUSED.
Proof.
  split; [reflexivity |].
  exact (proj1 (proj1 (resume_needs_a_target (Returns None) false
                         Samples.paused_window eq_refl eq_refl)
                  (or_introl eq_refl))).
Defined.

(** C8.  The commit of a hotkey checks the last token as one character or
    as [f] followed by digits, so a function key beyond F24 passes: the
    sequence ["Ctrl+F25"] replaces the binding ["ctrl+shift+t"], whatever
    the registration answers, and when the registration raises the window
    is left with no handle at all.  The other rules hold on the samples of
    the specification: ["Shift"] alone is refused and the binding kept,
    ["Ctrl+K"] is accepted as ["ctrl+k"]. *)
Theorem f25_hotkey_is_accepted add_hotkey :
  let before := Samples.paused_window in
  let after :=
    MainWindow._on_hotkey_committed add_hotkey (Str.of_string "Ctrl+F25") true
      before in
  MainWindow.hotkey_str before = Str.of_string "ctrl+shift+t"
  /\ MainWindow.hotkey_str after = Str.of_string "ctrl+f25"
  /\ (forall msg, add_hotkey (Str.of_string "ctrl+f25") = Raises msg ->
        MainWindow.hotkey_handle after = None
        /\ MainWindow.hotkey_occupied after = true)
  /\ MainWindow._on_hotkey_committed add_hotkey (Str.of_string "Shift") true
       before
     = MainWindow._set_hotkey_display false before
  /\ MainWindow.hotkey_str
       (MainWindow._on_hotkey_committed add_hotkey (Str.of_string "Ctrl+K") true
          before)
     = Str.of_string "ctrl+k".
Proof.
  cbn zeta. split; [reflexivity |].
  assert (E : MainWindow._on_hotkey_committed add_hotkey
                (Str.of_string "Ctrl+F25") true Samples.paused_window
              = MainWindow._register_hotkey add_hotkey
                  (MainWindow.set_hotkey (Str.of_string "ctrl+f25") (Some 1%nat)
                     Samples.paused_window)) by reflexivity.
  rewrite E. unfold MainWindow._register_hotkey.
  cbn [MainWindow.hotkey_str MainWindow.set_hotkey].
  split; [| split; [| split]].
  - destruct (add_hotkey (Str.of_string "ctrl+f25")); reflexivity.
  - intros msg ->. split; reflexivity.
  - reflexivity.
  - assert (E' : MainWindow._on_hotkey_committed add_hotkey
                   (Str.of_string "Ctrl+K") true Samples.paused_window
                 = MainWindow._register_hotkey add_hotkey
                     (MainWindow.set_hotkey (Str.of_string "ctrl+k") (Some 1%nat)
                        Samples.paused_window)) by reflexivity.
    rewrite E'. unfold MainWindow._register_hotkey.
    cbn [MainWindow.hotkey_str MainWindow.set_hotkey].
    destruct (add_hotkey (Str.of_string "ctrl+k")); reflexivity.
Qed.

(** C1, witness: ["ab\nc"] at full speed in a calm world. *)
Lemma progress_reported_per_unit_witness :
  progress_values (trace_of Samples.calm 0 Samples.fast_abc) = [50; 75; 100]
  /\ StronglySorted Z.le
       (progress_values (trace_of Samples.calm 0 Samples.fast_abc))
  /\ reports (trace_of Samples.calm 0 Samples.fast_abc)
     = [([ev_getActiveWindowTitle (Returns (Some "Notepad"%string));
          ev_keyboard_write [97%N; 98%N] (Returns tt)], 50);
        ([ev_getActiveWindowTitle (Returns (Some "Notepad"%string));
          ev_keyboard_write [10%N] (Returns tt)], 75);
        ([ev_getActiveWindowTitle (Returns (Some "Notepad"%string));
          ev_keyboard_write [99%N] (Returns tt)], 100)].
Proof.
  split; [vm_compute; reflexivity |].
  split; [| vm_compute; reflexivity].
  exact (proj1 (proj2 (progress_reported_per_unit Samples.calm 0 Samples.fast_abc
                         ltac:(vm_compute; discriminate)))).
Defined.

(** C1, counterexample.  After 29 of 100 characters the worker reports 28,
    where the exact quotient, multiplied by 100 and truncated, is 29:
    [29 / 100] rounds to a double just below 0.29, and its product with
    100 rounds to a double just below 29. *)
Lemma progress_is_not_the_exact_percentage :
  nth 28 (progress_values (trace_of Samples.calm 0 Samples.paced_hundred)) 0 = 28
  /\ nth 28 (unit_ends false (text Samples.paced_hundred)) 0%nat = 29%nat
  /\ exact_percent 29 100 = 29.
Proof. repeat split; vm_compute; reflexivity. Qed.

(** * The rest of the program

    Properties of the code beyond the runs of the worker: what a run delivers,
    the slots of the window as a state machine, the hotkey editor, the
    hotkey strings and the text box that takes dropped files. *)

(** ** The window as a state machine *)

Module WindowFacts.
Import MainWindow Slots App.

Lemma State_eqb_eq a b : State_eqb a b = true <-> a = b.
Proof. destruct a, b; cbn; split; congruence. Qed.

(** The commit slot touches the hotkey and its editor, nothing else, and
    every path of it ends in [_set_hotkey_display]. *)
Lemma committed_frame add seq has mw :
  (hotkey_occupied mw = true <-> hotkey_handle mw = None) ->
  exists str handle occupied,
    _on_hotkey_committed add seq has mw
    = MainWindow.mk (windowTitle mw) (state mw) (current_countdown_ms mw)
         (current_resume_ms mw) (typing_worker mw) str handle occupied
         (status_label mw) (status_is_error mw) (progress_bar mw)
         (btn_pause mw) (btn_start_enabled mw) (countdown_timer_active mw)
         (resume_timer_active mw) (_display_hotkey_text str occupied) occupied
    /\ (occupied = true <-> handle = None).
Proof.
  intros H. unfold _on_hotkey_committed, _register_hotkey.
  repeat match goal with
         | |- context [match ?x with _ => _ end] => destruct x
         end; cbn;
    try (exists (hotkey_str mw), (hotkey_handle mw), (hotkey_occupied mw);
         split; [reflexivity | exact H]);
    eexists _, _, _; (split; [reflexivity |]); split; intro; (discriminate || reflexivity).
Qed.

Ltac fin :=
  cbn in *; try reflexivity; try lia;
  try solve [intuition (congruence || discriminate || lia)].

Lemma init_consistent add : consistent (init add).
Proof.
  unfold init, Slots.__init__, _register_hotkey.
  destruct (add _); constructor; fin.
Qed.

Ltac atoms :=
  repeat match goal with
         | |- context [match ?x with _ => _ end] =>
             lazymatch x with
             | context [match _ with _ => _ end] => fail
             | _ => destruct x eqn:?
             end
         | |- context [if ?x then _ else _] =>
             lazymatch x with
             | context [match _ with _ => _ end] => fail
             | context [if _ then _ else _] => fail
             | _ => destruct x eqn:?
             end
         end.

Ltac unfold_slots :=
  unfold _on_start_clicked, _on_pause_clicked, _on_stop_clicked,
    _on_countdown_tick, _on_resume_tick, _on_hotkey_trigger_gui,
    _start_typing_immediately_from_hotkey, _on_typing_progress,
    _on_typing_error, _on_focus_paused,
    _start_typing, _begin_typing, _cancel_typing, _resume_typing,
    _on_typing_finished, _on_typing_stopped, on_worker_calls, of_window.

Lemma window_slots_consistent add desk i app :
  consistent app -> enabled i app ->
  match i with
  | edit_focus_in | edit_focus_out | edit_key_press _ | mouse_press _ => False
  | _ => True
  end ->
  consistent (fst (handle add desk i app)).
Proof.
  intros [] En W. destruct app as [mw he]. destruct mw, he. cbn in *.
  destruct i; try contradiction; clear W; cbn in *.
  all: destruct state0, typing_worker0;
    unfold_slots; cbn; atoms; cbn; constructor; fin.
Qed.

Lemma focus_out_consistent add mw he text seq has orig :
  consistent (App.mk mw he) -> HotkeyEdit.hasFocus he = true ->
  consistent
    (fst (of_edit
            (HotkeyEdit.focusOutEvent add
               (HotkeyEdit.mk (HotkeyEdit._capturing he) seq has orig
                  (HotkeyEdit.hasFocus he),
                HotkeyEdit.setText text mw)))).
Proof.
  intros [] F. cbn in *. rewrite F in capturing_follows0.
  unfold HotkeyEdit.focusOutEvent. cbn [HotkeyEdit._capturing].
  rewrite capturing_follows0. cbn [of_edit fst snd HotkeyEdit._current_sequence
    HotkeyEdit._has_main_key].
  destruct (committed_frame add seq has (HotkeyEdit.setText text mw))
    as (str & handle & occupied & E & O).
  { destruct mw; exact occupied_follows0. }
  rewrite E. destruct mw. constructor; fin.
Qed.

Lemma editor_consistent add desk i app :
  consistent app -> enabled i app ->
  match i with
  | edit_focus_in | edit_focus_out | edit_key_press _ | mouse_press _ => True
  | _ => False
  end ->
  consistent (fst (handle add desk i app)).
Proof.
  intros C En W. destruct app as [mw he].
  destruct i; try contradiction; clear W; cbn in En; cbn [handle window hotkey_edit].
  - destruct C. destruct mw. constructor; fin.
  - pose proof (focus_out_consistent add mw he (hotkey_edit_text mw)
                  (HotkeyEdit._current_sequence he) (HotkeyEdit._has_main_key he)
                  (HotkeyEdit._original_text he) C En) as R.
    destruct mw, he. exact R.
  - pose proof (capturing_follows _ C) as Cap. cbn in Cap. rewrite En in Cap.
    unfold HotkeyEdit.keyPressEvent. rewrite Cap. cbn [negb].
    assert (Out : consistent
                    (fst (of_edit (HotkeyEdit.clearFocus add (he, mw))))).
    { unfold HotkeyEdit.clearFocus. cbn [fst]. rewrite En.
      pose proof (focus_out_consistent add mw he (hotkey_edit_text mw)
                  (HotkeyEdit._current_sequence he) (HotkeyEdit._has_main_key he)
                  (HotkeyEdit._original_text he) C En) as R.
      destruct mw, he. exact R. }
    destruct (HotkeyEdit.key event) eqn:K; try exact Out.
    + unfold HotkeyEdit.clearFocus. cbn [fst HotkeyEdit.hasFocus]. rewrite En.
      destruct he as [cap seq has orig foc]. cbn in En, Cap |- *. subst cap foc.
      exact (focus_out_consistent add mw (HotkeyEdit.mk true seq has orig true)
               orig [] false orig C eq_refl).
    + destruct C, mw, he; cbn in *. constructor; fin.
    + destruct C, mw, he; cbn in *. constructor; fin.
    + destruct C, mw, he; cbn in *. constructor; fin.
    + destruct C, mw, he; cbn in *. constructor; fin.
    + destruct C, mw, he; cbn in *.
      destruct (match _ with [] => _ | _ => _ end); constructor; fin.
  - unfold HotkeyEdit.eventFilter_MouseButtonPress. cbn [fst].
    destruct (HotkeyEdit.hasFocus he) eqn:F; cbn [andb].
    + destruct on_hotkey_edit; cbn [negb]; [exact C |].
      unfold HotkeyEdit.clearFocus. cbn [fst]. rewrite F.
      pose proof (focus_out_consistent add mw he (hotkey_edit_text mw)
                  (HotkeyEdit._current_sequence he) (HotkeyEdit._has_main_key he)
                  (HotkeyEdit._original_text he) C F) as R.
      destruct mw, he. exact R.
    + exact C.
Qed.

(** The invariant of the window. *)
Lemma reachable_consistent add app : reachable add app -> consistent app.
Proof.
  induction 1 as [| desk i app R IH En].
  - apply init_consistent.
  - destruct i;
      solve [apply window_slots_consistent; auto
            | apply editor_consistent; auto].
Qed.

End WindowFacts.

Import MainWindow Slots App WindowFacts.

(** X9.  In every state the window can reach, Typing and Paused come with a
    worker: a cancel in these states always calls [stop] on it, once, and
    returns the window to Idle with both timers stopped. *)
Theorem cancel_reaches_the_worker add desk app :
  reachable add app ->
  state (window app) = STATE_TYPING \/ state (window app) = STATE_PAUSED ->
  let r := handle add desk stop_clicked app in
  snd r = [on_worker call_stop]
  /\ state (window (fst r)) = STATE_IDLE
  /\ countdown_timer_active (window (fst r)) = false
  /\ resume_timer_active (window (fst r)) = false
  /\ progress_bar (window (fst r)) = progress_bar (window app).
Proof.
  intros R S. pose proof (has_worker _ (reachable_consistent _ _ R) S) as W.
  destruct app as [mw he]. cbn in *.
  unfold _on_stop_clicked, _cancel_typing, on_worker_calls.
  destruct S as [S | S]; rewrite S, W; cbn; auto.
Qed.

(** X10.  The two buttons follow the state: Start is enabled exactly in Idle,
    the pause button reads "继续" exactly in Paused and "暂停" otherwise,
    and the progress bar stays within its range. *)
Theorem buttons_follow_the_state add app :
  reachable add app ->
  (btn_start_enabled (window app) = true <-> state (window app) = STATE_IDLE)
  /\ btn_pause (window app)
     = (if State_eqb (state (window app)) STATE_PAUSED
        then "继续" else "暂停")%string
  /\ 0 <= progress_bar (window app) <= 100.
Proof.
  intros R. destruct (reachable_consistent _ _ R).
  split; [assumption |]. split; assumption.
Qed.

(** X11.  The countdown timer runs exactly in Countdown; the resume timer runs
    only in Paused or Typing, and neither runs in Idle. *)
Theorem timers_follow_the_state add app :
  reachable add app ->
  (countdown_timer_active (window app) = true
   <-> state (window app) = STATE_COUNTDOWN)
  /\ (resume_timer_active (window app) = true ->
      state (window app) = STATE_PAUSED \/ state (window app) = STATE_TYPING).
Proof.
  intros R. destruct (reachable_consistent _ _ R). split; assumption.
Qed.

(** X12.  Whenever the hotkey editor does not have the focus it shows the
    binding of the window, with the mark of an occupied hotkey exactly
    when the registration failed and no handle is held. *)
Theorem editor_shows_the_binding add app :
  reachable add app ->
  HotkeyEdit.hasFocus (hotkey_edit app) = false ->
  hotkey_edit_text (window app)
  = (if hotkey_occupied (window app) then occupied_mark else [])
    ++ _to_readable_hotkey (hotkey_str (window app))
  /\ hotkey_edit_occupied (window app) = hotkey_occupied (window app)
  /\ (hotkey_occupied (window app) = true <-> hotkey_handle (window app) = None).
Proof.
  intros R F. destruct (reachable_consistent _ _ R).
  split; [| split; assumption].
  rewrite (editor_shows_binding0 F). unfold _display_hotkey_text.
  destruct (hotkey_occupied (window app)); reflexivity.
Qed.

Lemma run_app add a b app :
  run add (a ++ b) app = run add b (run add a app).
Proof. unfold run. apply fold_left_app. Qed.

Lemma effects_app add a : forall b app,
  effects add (a ++ b) app = effects add a app ++ effects add b (run add a app).
Proof.
  induction a as [| [desk i] a IH]; intros b app; cbn; [reflexivity |].
  rewrite IH, app_assoc. reflexivity.
Qed.

Lemma countdown_ticks add desks : forall app,
  state (window app) = STATE_COUNTDOWN ->
  100 * Z.of_nat (List.length desks) < current_countdown_ms (window app) ->
  let app' := run add (ticks countdown_tick desks) app in
  effects add (ticks countdown_tick desks) app = []
  /\ state (window app') = STATE_COUNTDOWN
  /\ current_countdown_ms (window app')
     = current_countdown_ms (window app) - 100 * Z.of_nat (List.length desks)
  /\ hotkey_edit app' = hotkey_edit app.
Proof.
  induction desks as [| desk desks IH]; intros app S L; cbn zeta.
  - cbn. repeat split; auto. lia.
  - cbn [ticks map run fold_left effects fst snd List.length] in *.
    assert (Step : snd (handle add desk countdown_tick app) = []
                   /\ state (window (fst (handle add desk countdown_tick app)))
                      = STATE_COUNTDOWN
                   /\ current_countdown_ms
                        (window (fst (handle add desk countdown_tick app)))
                      = current_countdown_ms (window app) - 100
                   /\ hotkey_edit (fst (handle add desk countdown_tick app))
                      = hotkey_edit app).
    { destruct app as [mw he]. cbn [window state current_countdown_ms] in S, L. cbn. unfold _on_countdown_tick.
      rewrite S. cbn.
      destruct (Z.leb_spec (current_countdown_ms mw - 100) 0); [lia |].
      cbn. auto. }
    destruct Step as (E1 & S1 & C1 & H1).
    destruct (IH (fst (handle add desk countdown_tick app)) S1 ltac:(lia))
      as (E2 & S2 & C2 & H2).
    fold (ticks countdown_tick desks). fold (run add (ticks countdown_tick desks)
      (fst (handle add desk countdown_tick app))).
    rewrite E1, E2, S2, C2, C1, H2, H1. repeat split; auto. lia.
Qed.

(** X6.  A start with a delay of [d] milliseconds begins typing on the tick
    number [ceil(d / 100)] of the countdown timer and does nothing
    outside the window before; at that tick the worker is built from the
    text, the settings and the foreground window as they are then, and
    only if a window other than the tool has the focus. *)
Theorem countdown_starts_on_time add desk0 desks desk1 app :
  state (window app) = STATE_IDLE ->
  toPlainText (form desk0) <> [] ->
  100 * Z.of_nat (List.length desks) < start_delay_spin (form desk0)
    <= 100 * (Z.of_nat (List.length desks) + 1) ->
  let inputs := (desk0, start_clicked) :: ticks countdown_tick desks in
  let app' := run add inputs app in
  let last_tick := handle add desk1 countdown_tick app' in
  effects add inputs app = []
  /\ state (window app') = STATE_COUNTDOWN
  /\ snd last_tick
     = (if truthy (focus_of desk1) && negb (isActiveWindow desk1)
        then [thread_start (worker_of desk1)] else [])
  /\ state (window (fst last_tick))
     = (if truthy (focus_of desk1) && negb (isActiveWindow desk1)
        then STATE_TYPING else STATE_IDLE)
  /\ countdown_timer_active (window (fst last_tick)) = false.
Proof.
  intros S T D. cbn zeta.
  change ((desk0, start_clicked) :: ticks countdown_tick desks)
    with ([(desk0, start_clicked)] ++ ticks countdown_tick desks).
  rewrite run_app, effects_app.
  set (app1 := run add [(desk0, start_clicked)] app).
  assert (First : effects add [(desk0, start_clicked)] app = []
                  /\ state (window app1) = STATE_COUNTDOWN
                  /\ current_countdown_ms (window app1)
                     = start_delay_spin (form desk0)).
  { subst app1. destruct app as [mw he]. cbn in S |- *.
    unfold _on_start_clicked, _start_typing. rewrite S.
    destruct (toPlainText (form desk0)) as [| c txt]; [contradiction |].
    destruct (Z.leb_spec (start_delay_spin (form desk0)) 0); [lia |].
    cbn. auto. }
  destruct First as (E1 & S1 & C1).
  assert (L1 : 100 * Z.of_nat (List.length desks) < current_countdown_ms (window app1)).
  { lia. }
  destruct (countdown_ticks add desks app1 S1 L1) as (E2 & S2 & C2 & _).
  rewrite E1, E2. split; [reflexivity |]. split; [exact S2 |].
  destruct (run add (ticks countdown_tick desks) app1) as [mw he].
  cbn [window state current_countdown_ms] in S2, C2. cbn.
  unfold _on_countdown_tick. rewrite S2. cbn.
  destruct (Z.leb_spec (current_countdown_ms mw - 100) 0); [| lia].
  unfold _begin_typing. fold (focus_of desk1). fold (worker_of desk1).
  destruct (truthy (focus_of desk1)); cbn; [| auto].
  destruct (isActiveWindow desk1); cbn; auto.
Qed.

Lemma resume_ticks add desks : forall app,
  state (window app) = STATE_PAUSED ->
  100 * Z.of_nat (List.length desks) < current_resume_ms (window app) ->
  let app' := run add (ticks resume_tick desks) app in
  effects add (ticks resume_tick desks) app = []
  /\ state (window app') = STATE_PAUSED
  /\ current_resume_ms (window app')
     = current_resume_ms (window app) - 100 * Z.of_nat (List.length desks)
  /\ typing_worker (window app') = typing_worker (window app)
  /\ resume_timer_active (window app') = resume_timer_active (window app)
  /\ windowTitle (window app') = windowTitle (window app).
Proof.
  induction desks as [| desk desks IH]; intros app S L; cbn zeta.
  - cbn. repeat split; auto. lia.
  - cbn [ticks map run fold_left effects fst snd List.length] in *.
    assert (Step :
      snd (handle add desk resume_tick app) = []
      /\ state (window (fst (handle add desk resume_tick app))) = STATE_PAUSED
      /\ current_resume_ms (window (fst (handle add desk resume_tick app)))
         = current_resume_ms (window app) - 100
      /\ typing_worker (window (fst (handle add desk resume_tick app)))
         = typing_worker (window app)
      /\ resume_timer_active (window (fst (handle add desk resume_tick app)))
         = resume_timer_active (window app)
      /\ windowTitle (window (fst (handle add desk resume_tick app)))
         = windowTitle (window app)).
    { destruct app as [mw he].
      cbn [window state current_resume_ms] in S, L. cbn.
      unfold _on_resume_tick. cbn.
      destruct (Z.leb_spec (current_resume_ms mw - 100) 0); [lia |].
      cbn. auto 10. }
    destruct Step as (E1 & S1 & C1 & W1 & A1 & T1).
    destruct (IH (fst (handle add desk resume_tick app)) S1 ltac:(lia))
      as (E2 & S2 & C2 & W2 & A2 & T2).
    fold (ticks resume_tick desks).
    fold (run add (ticks resume_tick desks) (fst (handle add desk resume_tick app))).
    rewrite E1, E2, S2, C2, C1, W2, W1, A2, A1, T2, T1. repeat split; auto. lia.
Qed.

(** X7.  A click on the pause button of a paused window, with a delay of [d]
    milliseconds, resumes on the tick number [ceil(d / 100)] of the
    resume timer and calls nothing on the worker before.  At that tick
    the worker is retargeted to the window that has the focus then and
    resumed, unless no window or the tool itself has the focus: then the
    window stays Paused and the worker is left alone.  The timer is
    stopped either way. *)
Theorem resume_countdown_ends_on_time add desk0 desks desk1 app :
  state (window app) = STATE_PAUSED ->
  typing_worker (window app) = true ->
  resume_timer_active (window app) = false ->
  100 * Z.of_nat (List.length desks) < start_delay_spin (form desk0)
    <= 100 * (Z.of_nat (List.length desks) + 1) ->
  let inputs := (desk0, pause_clicked) :: ticks resume_tick desks in
  let app' := run add inputs app in
  let last_tick := handle add desk1 resume_tick app' in
  let focus_ok :=
    truthy (focus_of desk1)
    && negb (title_eqb (focus_of desk1) (Some (windowTitle (window app)))) in
  effects add inputs app = []
  /\ state (window app') = STATE_PAUSED
  /\ resume_timer_active (window app') = true
  /\ snd last_tick
     = (if focus_ok
        then [on_worker (call_set_target_window (focus_of desk1));
              on_worker call_resume]
        else [])
  /\ state (window (fst last_tick))
     = (if focus_ok then STATE_TYPING else STATE_PAUSED)
  /\ resume_timer_active (window (fst last_tick)) = false.
Proof.
  intros S W A D. cbn zeta.
  change ((desk0, pause_clicked) :: ticks resume_tick desks)
    with ([(desk0, pause_clicked)] ++ ticks resume_tick desks).
  rewrite run_app, effects_app.
  set (app1 := run add [(desk0, pause_clicked)] app).
  assert (First : effects add [(desk0, pause_clicked)] app = []
                  /\ state (window app1) = STATE_PAUSED
                  /\ current_resume_ms (window app1)
                     = start_delay_spin (form desk0)
                  /\ typing_worker (window app1) = true
                  /\ resume_timer_active (window app1) = true
                  /\ windowTitle (window app1) = windowTitle (window app)).
  { subst app1. destruct app as [mw he].
    cbn [window state typing_worker resume_timer_active] in S, W, A. cbn.
    unfold _on_pause_clicked. rewrite S, W, A. cbn.
    destruct (Z.leb_spec (start_delay_spin (form desk0)) 0); [lia |].
    cbn. auto 10. }
  destruct First as (E1 & S1 & C1 & W1 & A1 & T1).
  destruct (resume_ticks add desks app1 S1 ltac:(lia))
    as (E2 & S2 & C2 & W2 & A2 & T2).
  rewrite E1, E2. split; [reflexivity |]. split; [exact S2 |].
  split; [congruence |].
  rewrite <- T1, <- T2.
  destruct (run add (ticks resume_tick desks) app1) as [mw he].
  cbn [window state current_resume_ms typing_worker resume_timer_active
         windowTitle] in *. cbn.
  unfold _on_resume_tick. cbn.
  destruct (Z.leb_spec (current_resume_ms mw - 100) 0); [| lia].
  unfold _resume_typing, on_worker_calls. cbn. rewrite S2, W2, W1. cbn.
  fold (focus_of desk1).
  destruct (truthy (focus_of desk1)); cbn; [| auto].
  destruct (title_eqb (focus_of desk1) (Some (windowTitle mw))); cbn; auto.
Qed.

(** X5.  [_begin_typing] starts a worker exactly when the foreground-window
    query returns a title that is not empty and the tool's window is not
    the active one.  The worker then has the text and the settings of
    the form, that title as its target, both flags down and its jitter
    bounds in order; otherwise nothing is started and the window is Idle
    with an error status and the progress bar at zero. *)
Theorem begin_typing_needs_a_target desk mw :
  let r := _begin_typing desk mw in
  if truthy (focus_of desk) && negb (isActiveWindow desk)
  then exists w,
         snd r = [thread_start w]
         /\ TypingWorker.text w = toPlainText (form desk)
         /\ TypingWorker.base_delay_ms w = speed_spin (form desk)
         /\ TypingWorker.use_random w = random_checkbox (form desk)
         /\ TypingWorker.target_window_title w = focus_of desk
         /\ TypingWorker._stop_flag w = false
         /\ TypingWorker._pause_flag w = false
         /\ TypingWorker.rand_min_ms w
            = Z.min (rand_min_spin (form desk)) (rand_max_spin (form desk))
         /\ TypingWorker.rand_max_ms w
            = Z.max (rand_min_spin (form desk)) (rand_max_spin (form desk))
         /\ state (fst r) = STATE_TYPING
         /\ typing_worker (fst r) = true
         /\ btn_start_enabled (fst r) = false
         /\ resume_timer_active (fst r) = false
  else snd r = []
       /\ state (fst r) = STATE_IDLE
       /\ status_is_error (fst r) = true
       /\ progress_bar (fst r) = 0
       /\ btn_start_enabled (fst r) = true
       /\ typing_worker (fst r) = typing_worker mw.
Proof.
  cbn zeta. unfold _begin_typing. fold (focus_of desk).
  destruct (truthy (focus_of desk)); cbn; [| auto 10].
  destruct (isActiveWindow desk); cbn; [auto 10 |].
  eexists. split; [reflexivity |]. unfold TypingWorker.__init__.
  destruct (Z.ltb_spec (rand_max_spin (form desk)) (rand_min_spin (form desk)));
    cbn; repeat split; lia.
Qed.

(** X8.  The global hotkey never starts a countdown: in Idle it starts typing
    at once or not at all, in Typing and in Countdown it cancels, in
    Paused it resumes at once or leaves the window Paused; and while the
    hotkey editor has the focus it does nothing. *)
Theorem hotkey_skips_the_countdown add desk app :
  reachable add app ->
  let r := handle add desk hotkey_trigger app in
  if HotkeyEdit.hasFocus (hotkey_edit app) then r = (app, [])
  else
    match state (window app) with
    | STATE_IDLE =>
        match toPlainText (form desk) with
        | [] => snd r = [] /\ state (window (fst r)) = STATE_IDLE
        | _ :: _ =>
            if truthy (focus_of desk) && negb (isActiveWindow desk)
            then snd r = [thread_start (worker_of desk)]
                 /\ state (window (fst r)) = STATE_TYPING
            else snd r = [] /\ state (window (fst r)) = STATE_IDLE
        end
    | STATE_COUNTDOWN => snd r = [] /\ state (window (fst r)) = STATE_IDLE
    | STATE_TYPING =>
        snd r = [on_worker call_stop] /\ state (window (fst r)) = STATE_IDLE
    | STATE_PAUSED =>
        if truthy (focus_of desk)
           && negb (title_eqb (focus_of desk) (Some (windowTitle (window app))))
        then snd r = [on_worker (call_set_target_window (focus_of desk));
                      on_worker call_resume]
             /\ state (window (fst r)) = STATE_TYPING
        else snd r = [] /\ state (window (fst r)) = STATE_PAUSED
    end.
Proof.
  intros R. pose proof (reachable_consistent _ _ R) as C.
  pose proof (has_worker _ C) as W. pose proof (capturing_follows _ C) as Cap.
  destruct app as [mw he]. cbn [window hotkey_edit] in *. cbn zeta.
  cbn [handle window hotkey_edit]. unfold _on_hotkey_trigger_gui. rewrite Cap.
  destruct (HotkeyEdit.hasFocus he); cbn [orb].
  { destruct mw; reflexivity. }
  unfold _start_typing_immediately_from_hotkey, _start_typing, _begin_typing,
    _resume_typing, _cancel_typing, on_worker_calls, of_window.
  fold (focus_of desk). fold (worker_of desk).
  destruct (state mw) eqn:S; cbn.
  - destruct (toPlainText (form desk)); cbn; [auto |].
    destruct (truthy (focus_of desk)); cbn; [| auto].
    destruct (isActiveWindow desk); cbn; auto.
  - auto.
  - rewrite (W (or_introl eq_refl)). cbn. auto.
  - rewrite (W (or_intror eq_refl)). cbn.
    destruct (truthy (focus_of desk)); cbn; [| auto].
    destruct (title_eqb (focus_of desk) (Some (windowTitle mw))); cbn; auto.
Qed.

Module SceneFacts.

Lemma opened_reachable : reachable Scenes.registers Scenes.opened.
Proof. apply reachable_init. Qed.

Lemma typing_reachable : reachable Scenes.registers Scenes.typing.
Proof. apply reachable_step; [apply opened_reachable | exact I]. Qed.

Lemma paused_reachable : reachable Scenes.registers Scenes.paused.
Proof. apply reachable_step; [apply typing_reachable | exact I]. Qed.

Lemma capturing_reachable : reachable Scenes.registers Scenes.capturing.
Proof. apply reachable_step; [apply opened_reachable | reflexivity]. Qed.

End SceneFacts.
Import SceneFacts.

Lemma cancel_reaches_the_worker_witness :
  let r := handle Scenes.registers Scenes.notepad stop_clicked Scenes.paused in
  snd r = [on_worker call_stop]
  /\ state (window (fst r)) = STATE_IDLE
  /\ countdown_timer_active (window (fst r)) = false
  /\ resume_timer_active (window (fst r)) = false
  /\ progress_bar (window (fst r)) = progress_bar (window Scenes.paused).
Proof.
  apply (cancel_reaches_the_worker Scenes.registers Scenes.notepad Scenes.paused).
  - apply paused_reachable.
  - right. reflexivity.
Defined.

Lemma buttons_follow_the_state_witness :
  (btn_start_enabled (window Scenes.paused) = true
   <-> state (window Scenes.paused) = STATE_IDLE)
  /\ btn_pause (window Scenes.paused)
     = (if State_eqb (state (window Scenes.paused)) STATE_PAUSED
        then "继续" else "暂停")%string
  /\ 0 <= progress_bar (window Scenes.paused) <= 100.
Proof.
  apply (buttons_follow_the_state Scenes.registers Scenes.paused).
  apply paused_reachable.
Defined.

Lemma timers_follow_the_state_witness :
  (countdown_timer_active (window Scenes.typing) = true
   <-> state (window Scenes.typing) = STATE_COUNTDOWN)
  /\ (resume_timer_active (window Scenes.typing) = true ->
      state (window Scenes.typing) = STATE_PAUSED
      \/ state (window Scenes.typing) = STATE_TYPING).
Proof.
  apply (timers_follow_the_state Scenes.registers Scenes.typing).
  apply typing_reachable.
Defined.

Lemma editor_shows_the_binding_witness :
  hotkey_edit_text (window Scenes.typing)
  = (if hotkey_occupied (window Scenes.typing) then occupied_mark else [])
    ++ _to_readable_hotkey (hotkey_str (window Scenes.typing))
  /\ hotkey_edit_occupied (window Scenes.typing)
     = hotkey_occupied (window Scenes.typing)
  /\ (hotkey_occupied (window Scenes.typing) = true
      <-> hotkey_handle (window Scenes.typing) = None).
Proof.
  apply (editor_shows_the_binding Scenes.registers Scenes.typing).
  - apply typing_reachable.
  - reflexivity.
Defined.

Lemma countdown_starts_on_time_witness :
  let inputs := (Scenes.notepad, start_clicked)
                :: ticks countdown_tick [Scenes.notepad; Scenes.notepad] in
  let app' := run Scenes.registers inputs Scenes.opened in
  let last_tick := handle Scenes.registers Scenes.notepad countdown_tick app' in
  effects Scenes.registers inputs Scenes.opened = []
  /\ state (window app') = STATE_COUNTDOWN
  /\ snd last_tick
     = (if truthy (focus_of Scenes.notepad)
           && negb (isActiveWindow Scenes.notepad)
        then [thread_start (worker_of Scenes.notepad)] else [])
  /\ state (window (fst last_tick))
     = (if truthy (focus_of Scenes.notepad)
           && negb (isActiveWindow Scenes.notepad)
        then STATE_TYPING else STATE_IDLE)
  /\ countdown_timer_active (window (fst last_tick)) = false.
Proof.
  apply (countdown_starts_on_time Scenes.registers Scenes.notepad
           [Scenes.notepad; Scenes.notepad] Scenes.notepad Scenes.opened).
  - reflexivity.
  - discriminate.
  - cbn. lia.
Defined.

Lemma resume_countdown_ends_on_time_witness :
  let inputs := (Scenes.notepad, pause_clicked)
                :: ticks resume_tick [Scenes.notepad; Scenes.notepad] in
  let app' := run Scenes.registers inputs Scenes.paused in
  let last_tick := handle Scenes.registers Scenes.notepad resume_tick app' in
  let focus_ok :=
    truthy (focus_of Scenes.notepad)
    && negb (title_eqb (focus_of Scenes.notepad)
               (Some (windowTitle (window Scenes.paused)))) in
  effects Scenes.registers inputs Scenes.paused = []
  /\ state (window app') = STATE_PAUSED
  /\ resume_timer_active (window app') = true
  /\ snd last_tick
     = (if focus_ok
        then [on_worker (call_set_target_window (focus_of Scenes.notepad));
              on_worker call_resume]
        else [])
  /\ state (window (fst last_tick))
     = (if focus_ok then STATE_TYPING else STATE_PAUSED)
  /\ resume_timer_active (window (fst last_tick)) = false.
Proof.
  apply (resume_countdown_ends_on_time Scenes.registers Scenes.notepad
           [Scenes.notepad; Scenes.notepad] Scenes.notepad Scenes.paused).
  - reflexivity.
  - reflexivity.
  - reflexivity.
  - cbn. lia.
Defined.

Lemma hotkey_skips_the_countdown_witness :
  let r := handle Scenes.registers Scenes.notepad hotkey_trigger Scenes.opened in
  snd r = [thread_start (worker_of Scenes.notepad)]
  /\ state (window (fst r)) = STATE_TYPING.
Proof.
  exact (hotkey_skips_the_countdown Scenes.registers Scenes.notepad
           Scenes.opened opened_reachable).
Defined.

Import MainWindow Slots App WindowFacts.

Module CountdownFacts.

(** The seconds of every whole number of tenths the delay box can hold,
    as [ms / 1000.0] formats them to one place. *)
Lemma tenths_checked :
  forallb (fun m => String.eqb (Fmt.fixed 1 (Float.seconds (100 * Z.of_nat m)))
                      (tenths (Z.of_nat m)))
          (seq 1 600) = true.
Proof. vm_compute. reflexivity. Qed.

Lemma fixed_tenths m :
  1 <= m <= 600 -> Fmt.fixed 1 (Float.seconds (100 * m)) = tenths m.
Proof.
  intros H. pose proof tenths_checked as C. rewrite forallb_forall in C.
  specialize (C (Z.to_nat m)). rewrite Z2Nat.id in C by lia.
  apply String.eqb_eq, C, in_seq. lia.
Qed.

Lemma countdown_shows add desks : forall app,
  state (window app) = STATE_COUNTDOWN ->
  100 * Z.of_nat (List.length desks) < current_countdown_ms (window app) ->
  status_label (window app)
  = countdown_text (current_countdown_ms (window app)) ->
  status_is_error (window app) = false ->
  let app' := run add (ticks countdown_tick desks) app in
  status_label (window app')
  = countdown_text (current_countdown_ms (window app)
                    - 100 * Z.of_nat (List.length desks))
  /\ status_is_error (window app') = false.
Proof.
  induction desks as [| desk desks IH]; intros app S L T E; cbn zeta.
  - cbn. rewrite Z.sub_0_r. auto.
  - cbn [ticks map run fold_left List.length fst snd] in *.
    fold (ticks countdown_tick desks).
    fold (run add (ticks countdown_tick desks)
            (fst (handle add desk countdown_tick app))).
    assert (Step : state (window (fst (handle add desk countdown_tick app)))
                   = STATE_COUNTDOWN
                   /\ current_countdown_ms
                        (window (fst (handle add desk countdown_tick app)))
                      = current_countdown_ms (window app) - 100
                   /\ status_label
                        (window (fst (handle add desk countdown_tick app)))
                      = countdown_text (current_countdown_ms (window app) - 100)
                   /\ status_is_error
                        (window (fst (handle add desk countdown_tick app)))
                      = false).
    { destruct app as [mw he]. cbn [window state current_countdown_ms] in S, L.
      cbn. unfold _on_countdown_tick. rewrite S. cbn.
      destruct (Z.leb_spec (current_countdown_ms mw - 100) 0); [lia |].
      cbn. auto. }
    destruct Step as (S1 & C1 & T1 & E1).
    destruct (IH (fst (handle add desk countdown_tick app)) S1 ltac:(lia)
                ltac:(rewrite T1, C1; reflexivity) E1) as (T2 & E2).
    rewrite T2, C1. split; [f_equal; lia | exact E2].
Qed.

(** Presses of the pause button alone, with a positive delay in the box. *)
Lemma pause_presses add desks : forall app,
  state (window app) = STATE_PAUSED ->
  typing_worker (window app) = true ->
  Forall (fun desk => 0 < start_delay_spin (form desk)) desks ->
  let app' := run add (ticks pause_clicked desks) app in
  effects add (ticks pause_clicked desks) app = []
  /\ state (window app') = STATE_PAUSED
  /\ typing_worker (window app') = true
  /\ resume_timer_active (window app')
     = xorb (resume_timer_active (window app)) (Nat.odd (List.length desks)).
Proof.
  induction desks as [| desk desks IH]; intros app S W D; cbn zeta.
  - cbn. rewrite xorb_false_r. auto.
  - apply Forall_cons_iff in D. destruct D as [D0 D].
    cbn [ticks map run fold_left effects List.length fst snd] in *.
    fold (ticks pause_clicked desks).
    fold (run add (ticks pause_clicked desks)
            (fst (handle add desk pause_clicked app))).
    assert (Step : snd (handle add desk pause_clicked app) = []
                   /\ state (window (fst (handle add desk pause_clicked app)))
                      = STATE_PAUSED
                   /\ typing_worker
                        (window (fst (handle add desk pause_clicked app)))
                      = true
                   /\ resume_timer_active
                        (window (fst (handle add desk pause_clicked app)))
                      = negb (resume_timer_active (window app))).
    { destruct app as [mw he]. cbn [window state typing_worker] in S, W.
      cbn. unfold _on_pause_clicked. rewrite S, W. cbn.
      destruct (resume_timer_active mw) eqn:A; cbn; [auto |].
      destruct (Z.leb_spec (start_delay_spin (form desk)) 0); [lia |].
      cbn. auto. }
    destruct Step as (E1 & S1 & W1 & A1).
    destruct (IH (fst (handle add desk pause_clicked app)) S1 W1 D)
      as (E2 & S2 & W2 & A2).
    rewrite E1, E2, S2, W2, A2, A1, Nat.odd_succ, <- Nat.negb_odd.
    repeat split.
    destruct (resume_timer_active (window app)), (Nat.odd (List.length desks));
      reflexivity.
Qed.

End CountdownFacts.

(** X21.  While the countdown runs, the status line shows the time left in
    seconds with one decimal place, exactly: for a delay of [k] tenths of
    a second (the box holds up to 600), after [n < k] ticks it reads the
    decimal of [k - n] tenths, and it is not shown as an error. *)
Theorem countdown_display_is_exact add desk0 desks app k :
  state (window app) = STATE_IDLE ->
  toPlainText (form desk0) <> [] ->
  start_delay_spin (form desk0) = 100 * k ->
  Z.of_nat (List.length desks) < k <= 600 ->
  let app' := run add ((desk0, start_clicked) :: ticks countdown_tick desks)
                app in
  status_label (window app')
  = ("倒计时中：" ++ tenths (k - Z.of_nat (List.length desks))
     ++ " 秒后开始输入")%string
  /\ status_is_error (window app') = false.
Proof.
  intros S T D K. cbn zeta.
  change ((desk0, start_clicked) :: ticks countdown_tick desks)
    with ([(desk0, start_clicked)] ++ ticks countdown_tick desks).
  rewrite run_app.
  set (app1 := run add [(desk0, start_clicked)] app).
  assert (First : state (window app1) = STATE_COUNTDOWN
                  /\ current_countdown_ms (window app1) = 100 * k
                  /\ status_label (window app1) = countdown_text (100 * k)
                  /\ status_is_error (window app1) = false).
  { subst app1. destruct app as [mw he]. cbn in S |- *.
    unfold _on_start_clicked, _start_typing. rewrite S.
    destruct (toPlainText (form desk0)) as [| c txt]; [contradiction |].
    rewrite D.
    destruct (Z.leb_spec (100 * k) 0); [lia |].
    cbn. auto. }
  destruct First as (S1 & C1 & T1 & E1).
  destruct (CountdownFacts.countdown_shows add desks app1 S1 ltac:(lia)
              ltac:(rewrite T1, C1; reflexivity) E1) as (T2 & E2).
  split; [| exact E2].
  rewrite T2, C1. unfold countdown_text.
  replace (100 * k - 100 * Z.of_nat (List.length desks))
    with (100 * (k - Z.of_nat (List.length desks))) by lia.
  rewrite CountdownFacts.fixed_tenths by lia. reflexivity.
Qed.

(** X22.  With a positive delay in the box, presses of the pause button alone
    never resume the worker: the first press while typing pauses it, and
    every further press only starts or cancels the countdown to the
    resume, which runs after an even number of presses. *)
Theorem pause_presses_toggle_the_countdown add desk0 desks app :
  reachable add app ->
  state (window app) = STATE_TYPING ->
  Forall (fun desk => 0 < start_delay_spin (form desk)) desks ->
  let inputs := (desk0, pause_clicked) :: ticks pause_clicked desks in
  let app' := run add inputs app in
  effects add inputs app = [on_worker call_pause]
  /\ state (window app') = STATE_PAUSED
  /\ resume_timer_active (window app') = Nat.odd (List.length desks).
Proof.
  intros R S D. cbn zeta.
  pose proof (has_worker _ (reachable_consistent _ _ R) (or_introl S)) as W.
  change ((desk0, pause_clicked) :: ticks pause_clicked desks)
    with ([(desk0, pause_clicked)] ++ ticks pause_clicked desks).
  rewrite run_app, effects_app.
  set (app1 := run add [(desk0, pause_clicked)] app).
  assert (First : effects add [(desk0, pause_clicked)] app
                  = [on_worker call_pause]
                  /\ state (window app1) = STATE_PAUSED
                  /\ typing_worker (window app1) = true
                  /\ resume_timer_active (window app1) = false).
  { subst app1. destruct app as [mw he]. cbn in S, W |- *.
    unfold _on_pause_clicked. rewrite S, W. cbn. auto. }
  destruct First as (E1 & S1 & W1 & A1).
  destruct (CountdownFacts.pause_presses add desks app1 S1 W1 D)
    as (E2 & S2 & _ & A2).
  rewrite E1, E2, A2, A1. auto.
Qed.

Lemma countdown_display_is_exact_witness :
  status_label
    (window (run Scenes.registers
               ((Scenes.notepad_3s, start_clicked)
                :: ticks countdown_tick [Scenes.notepad; Scenes.notepad])
               Scenes.opened))
  = "倒计时中：2.8 秒后开始输入"%string
  /\ status_is_error
       (window (run Scenes.registers
                  ((Scenes.notepad_3s, start_clicked)
                   :: ticks countdown_tick [Scenes.notepad; Scenes.notepad])
                  Scenes.opened))
     = false.
Proof.
  apply (countdown_display_is_exact Scenes.registers Scenes.notepad_3s
           [Scenes.notepad; Scenes.notepad] Scenes.opened 30).
  - reflexivity.
  - discriminate.
  - reflexivity.
  - cbn. lia.
Defined.

Lemma pause_presses_toggle_the_countdown_witness :
  effects Scenes.registers
    ((Scenes.notepad, pause_clicked)
     :: ticks pause_clicked [Scenes.notepad; Scenes.notepad])
    Scenes.typing
  = [on_worker call_pause]
  /\ state (window (run Scenes.registers
                      ((Scenes.notepad, pause_clicked)
                       :: ticks pause_clicked [Scenes.notepad; Scenes.notepad])
                      Scenes.typing))
     = STATE_PAUSED
  /\ resume_timer_active
       (window (run Scenes.registers
                  ((Scenes.notepad, pause_clicked)
                   :: ticks pause_clicked [Scenes.notepad; Scenes.notepad])
                  Scenes.typing))
     = false.
Proof.
  apply (pause_presses_toggle_the_countdown Scenes.registers Scenes.notepad
           [Scenes.notepad; Scenes.notepad] Scenes.typing).
  - exact SceneFacts.typing_reachable.
  - reflexivity.
  - repeat constructor.
Defined.

(** ** The hotkey editor *)

Module HotkeyFacts.
Import MainWindow Hotkeys App WindowFacts.

(** [_on_hotkey_committed] by cases. *)
Lemma committed_cases add seq has mw :
  _on_hotkey_committed add seq has mw
  = if accepted seq has then
      if Str.eqb (_canonicalize_sequence (Str.strip seq)) (hotkey_str mw)
      then _set_hotkey_display (hotkey_occupied mw) mw
      else _register_hotkey add
             (set_hotkey (_canonicalize_sequence (Str.strip seq))
                (hotkey_handle mw) mw)
    else _set_hotkey_display (hotkey_occupied mw) mw.
Proof.
  unfold _on_hotkey_committed, accepted, tokens.
  destruct (Str.strip seq) as [| c s]; [reflexivity |].
  destruct has; cbn [negb andb]; [| reflexivity].
  destruct (_ <? 2)%nat; cbn [negb andb]; [reflexivity |].
  destruct (Str.mem _ _); cbn [negb andb]; [| reflexivity].
  destruct (_ =? 1)%nat; cbn [orb negb]; [reflexivity |].
  destruct (_ && _); reflexivity.
Qed.

Lemma Str_eqb_eq a b : Str.eqb a b = true <-> a = b.
Proof.
  unfold Str.eqb. destruct (list_eq_dec N.eq_dec a b); split; congruence.
Qed.

(** However a capture ends, it ends in the focus-out event. *)
Lemma commit_is_focus_out add desk i mw he :
  commits i -> HotkeyEdit.hasFocus he = true -> HotkeyEdit._capturing he = true ->
  handle add desk i (App.mk mw he)
  = of_edit (HotkeyEdit.focusOutEvent add (he, mw)).
Proof.
  intros Ci F Cap. destruct i; try contradiction; cbn [handle window hotkey_edit].
  - reflexivity.
  - unfold HotkeyEdit.keyPressEvent. rewrite Cap. cbn [negb].
    unfold HotkeyEdit.clearFocus. cbn [fst]. rewrite F.
    destruct Ci as [-> | ->]; reflexivity.
  - destruct on_hotkey_edit; [contradiction |].
    unfold HotkeyEdit.eventFilter_MouseButtonPress, HotkeyEdit.clearFocus.
    cbn [fst]. rewrite F. reflexivity.
Qed.

(** A key press that does not end the capture only changes what the
    editor shows and remembers. *)
Lemma key_press_shows add desk event mw he :
  HotkeyEdit._capturing he = true ->
  match HotkeyEdit.key event with
  | HotkeyEdit.Key_Return | HotkeyEdit.Key_Enter | HotkeyEdit.Key_Escape => False
  | _ => True
  end ->
  exists seq has,
    fst (handle add desk (edit_key_press event) (App.mk mw he))
    = App.mk (HotkeyEdit.setText seq mw)
        (HotkeyEdit.mk true seq has (HotkeyEdit._original_text he)
           (HotkeyEdit.hasFocus he))
    /\ match HotkeyEdit.key event with
       | HotkeyEdit.Key_other [c] =>
           seq = Str.join (Str.of_string "+")
                   (HotkeyEdit.modifiers_of event ++ [[Str.upper_char c]])
           /\ has = true
       | HotkeyEdit.Key_other _ => True
       | _ => seq = Str.join (Str.of_string "+") (HotkeyEdit.modifiers_of event)
       end.
Proof.
  intros Cap K. cbn [handle window hotkey_edit].
  unfold HotkeyEdit.keyPressEvent. rewrite Cap. cbn [negb].
  destruct (HotkeyEdit.key event) as [| | | | | | | main]; try contradiction;
    cbn [of_edit fst snd]; try (eexists _, _; split; [reflexivity | reflexivity]).
  destruct main as [| c [| c' main]]; cbn [List.length Nat.eqb];
    eexists _, _; (split; [reflexivity |]); auto.
Qed.

Lemma modifier_flags_in event : In (modifier_flags event) modifier_states.
Proof.
  destruct event as [k [] [] [] []]; unfold modifier_flags; cbn; tauto.
Qed.

Lemma modifiers_only_rejected event has :
  accepted (Str.join (Str.of_string "+") (HotkeyEdit.modifiers_of event)) has
  = false.
Proof.
  assert (All : forallb (fun ev =>
            forallb (fun has =>
              negb (accepted (Str.join (Str.of_string "+")
                                (HotkeyEdit.modifiers_of ev)) has))
              [false; true]) modifier_states = true)
    by (vm_compute; reflexivity).
  rewrite forallb_forall in All.
  specialize (All _ (modifier_flags_in event)). rewrite forallb_forall in All.
  assert (Hin : In has [false; true]) by (destruct has; cbn; tauto).
  specialize (All has Hin). apply negb_true_iff in All.
  destruct event as [k c s a m]. exact All.
Qed.

Lemma single_key_checked event c :
  In c printable ->
  let seq := Str.join (Str.of_string "+")
               (HotkeyEdit.modifiers_of event ++ [[Str.upper_char c]]) in
  let ok := (HotkeyEdit.ControlModifier event || HotkeyEdit.ShiftModifier event
             || HotkeyEdit.AltModifier event) && negb (c =? 43)%N in
  accepted seq true = ok
  /\ (ok = true -> _canonicalize_sequence (Str.strip seq) = binding_of event c).
Proof.
  intros Hc.
  assert (All : forallb (fun ev =>
            forallb (fun c =>
              let seq := Str.join (Str.of_string "+")
                           (HotkeyEdit.modifiers_of ev ++ [[Str.upper_char c]]) in
              let ok := (HotkeyEdit.ControlModifier ev
                         || HotkeyEdit.ShiftModifier ev
                         || HotkeyEdit.AltModifier ev) && negb (c =? 43)%N in
              Bool.eqb (accepted seq true) ok
              && (negb ok
                  || Str.eqb (_canonicalize_sequence (Str.strip seq))
                       (binding_of ev c)))
              printable) modifier_states = true)
    by (vm_compute; reflexivity).
  rewrite forallb_forall in All.
  specialize (All _ (modifier_flags_in event)). rewrite forallb_forall in All.
  specialize (All c Hc). cbn zeta in All.
  apply andb_prop in All. destruct All as [A1 A2].
  apply Bool.eqb_prop in A1.
  destruct event as [k ct sh al me]. cbn zeta.
  unfold modifier_flags in *. cbn [HotkeyEdit.ControlModifier
    HotkeyEdit.ShiftModifier HotkeyEdit.AltModifier HotkeyEdit.MetaModifier] in *.
  split; [exact A1 |]. intros Ok.
  change (HotkeyEdit.modifiers_of
            {| HotkeyEdit.key := k; HotkeyEdit.ControlModifier := ct;
               HotkeyEdit.ShiftModifier := sh; HotkeyEdit.AltModifier := al;
               HotkeyEdit.MetaModifier := me |})
    with (HotkeyEdit.modifiers_of
            {| HotkeyEdit.key := HotkeyEdit.Key_Control;
               HotkeyEdit.ControlModifier := ct;
               HotkeyEdit.ShiftModifier := sh; HotkeyEdit.AltModifier := al;
               HotkeyEdit.MetaModifier := me |}).
  change (binding_of
            {| HotkeyEdit.key := k; HotkeyEdit.ControlModifier := ct;
               HotkeyEdit.ShiftModifier := sh; HotkeyEdit.AltModifier := al;
               HotkeyEdit.MetaModifier := me |} c)
    with (binding_of
            {| HotkeyEdit.key := HotkeyEdit.Key_Control;
               HotkeyEdit.ControlModifier := ct;
               HotkeyEdit.ShiftModifier := sh; HotkeyEdit.AltModifier := al;
               HotkeyEdit.MetaModifier := me |} c).
  rewrite Ok in A2. cbn [negb orb] in A2. apply Str_eqb_eq. exact A2.
Qed.

End HotkeyFacts.

Import MainWindow Hotkeys App WindowFacts HotkeyFacts.

(** X14.  Escape during a capture cancels it: the binding, its handle and its
    occupied mark are as before, nothing is registered, and the editor,
    which has lost the focus, shows the binding again. *)
Theorem escape_keeps_the_binding add desk app event :
  reachable add app ->
  HotkeyEdit.hasFocus (hotkey_edit app) = true ->
  HotkeyEdit.key event = HotkeyEdit.Key_Escape ->
  let r := handle add desk (edit_key_press event) app in
  snd r = []
  /\ window (fst r)
     = HotkeyEdit.setText
         (_display_hotkey_text (hotkey_str (window app))
            (hotkey_occupied (window app)))
         (window app)
  /\ HotkeyEdit.hasFocus (hotkey_edit (fst r)) = false
  /\ HotkeyEdit._capturing (hotkey_edit (fst r)) = false.
Proof.
  intros R F K. pose proof (reachable_consistent _ _ R) as C.
  pose proof (capturing_follows _ C) as Cap. rewrite F in Cap.
  pose proof (palette_follows _ C) as Pal.
  destruct app as [mw he]. cbn [window hotkey_edit] in *. cbn zeta.
  cbn [handle window hotkey_edit]. unfold HotkeyEdit.keyPressEvent.
  rewrite Cap, K. cbn [negb]. unfold HotkeyEdit.clearFocus.
  cbn [fst HotkeyEdit.hasFocus]. rewrite F.
  unfold HotkeyEdit.focusOutEvent. cbn [HotkeyEdit._capturing].
  cbn [of_edit fst snd HotkeyEdit._current_sequence HotkeyEdit._has_main_key
         window hotkey_edit HotkeyEdit.hasFocus HotkeyEdit._capturing].
  rewrite committed_cases.
  change (accepted [] false) with false. cbn iota.
  destruct mw. cbn in *. subst. auto.
Qed.

(** X15.  A capture in which the last key pressed is a modifier (Ctrl, Shift,
    Alt or Win, alone or together) never changes the binding, whatever
    was pressed before it and however the capture ends: the window is as
    before, the editor showing the binding. *)
Theorem modifiers_alone_never_bind add desk1 desk2 app event commit :
  reachable add app ->
  HotkeyEdit.hasFocus (hotkey_edit app) = true ->
  match HotkeyEdit.key event with
  | HotkeyEdit.Key_Control | HotkeyEdit.Key_Shift
  | HotkeyEdit.Key_Alt | HotkeyEdit.Key_Meta => True
  | _ => False
  end ->
  commits commit ->
  let app1 := fst (handle add desk1 (edit_key_press event) app) in
  let r := handle add desk2 commit app1 in
  snd r = []
  /\ window (fst r)
     = HotkeyEdit.setText
         (_display_hotkey_text (hotkey_str (window app))
            (hotkey_occupied (window app)))
         (window app)
  /\ HotkeyEdit.hasFocus (hotkey_edit (fst r)) = false.
Proof.
  intros R F K Ci. pose proof (reachable_consistent _ _ R) as C.
  pose proof (capturing_follows _ C) as Cap. rewrite F in Cap.
  pose proof (palette_follows _ C) as Pal.
  destruct app as [mw he]. cbn [window hotkey_edit] in *. cbn zeta.
  destruct (key_press_shows add desk1 event mw he Cap) as (seq & has & E & Sq).
  { destruct (HotkeyEdit.key event); auto. }
  rewrite E.
  assert (Es : seq = Str.join (Str.of_string "+") (HotkeyEdit.modifiers_of event)).
  { destruct (HotkeyEdit.key event); try contradiction; exact Sq. }
  rewrite (commit_is_focus_out add desk2 commit _ _ Ci)
    by (cbn; auto).
  unfold HotkeyEdit.focusOutEvent.
  cbn [HotkeyEdit._capturing of_edit fst snd HotkeyEdit._current_sequence
         HotkeyEdit._has_main_key window hotkey_edit HotkeyEdit.hasFocus].
  rewrite committed_cases, Es, modifiers_only_rejected.
  destruct mw. cbn in *. subst. auto.
Qed.

(** X16.  A capture that ends on a printable key pressed together with Ctrl,
    Shift or Alt binds it, unless the key is the plus sign: the binding
    becomes the modifiers in the spelling of the [keyboard] library
    followed by the key in lower case, and when that is a new binding it
    is registered at once, the occupied mark telling whether the
    registration failed.  With no modifier, with Win alone, or with the
    plus sign, the binding stays as it was. *)
Theorem a_key_with_a_modifier_binds add desk1 desk2 app event c commit :
  reachable add app ->
  HotkeyEdit.hasFocus (hotkey_edit app) = true ->
  HotkeyEdit.key event = HotkeyEdit.Key_other [c] ->
  In c printable ->
  commits commit ->
  let ok := (HotkeyEdit.ControlModifier event || HotkeyEdit.ShiftModifier event
             || HotkeyEdit.AltModifier event) && negb (c =? 43)%N in
  let app1 := fst (handle add desk1 (edit_key_press event) app) in
  let mw' := window (fst (handle add desk2 commit app1)) in
  hotkey_str mw'
  = (if ok then binding_of event c else hotkey_str (window app))
  /\ (if ok && negb (Str.eqb (binding_of event c) (hotkey_str (window app)))
      then match add (binding_of event c) with
           | Returns handle =>
               hotkey_handle mw' = Some handle /\ hotkey_occupied mw' = false
           | Raises _ =>
               hotkey_handle mw' = None /\ hotkey_occupied mw' = true
           end
      else hotkey_handle mw' = hotkey_handle (window app)
           /\ hotkey_occupied mw' = hotkey_occupied (window app))
  /\ hotkey_edit_text mw'
     = _display_hotkey_text (hotkey_str mw') (hotkey_occupied mw').
Proof.
  intros R F K Hc Ci. pose proof (reachable_consistent _ _ R) as C.
  pose proof (capturing_follows _ C) as Cap. rewrite F in Cap.
  destruct app as [mw he]. cbn [window hotkey_edit] in *. cbn zeta.
  destruct (key_press_shows add desk1 event mw he Cap) as (seq & has & E & Sq).
  { rewrite K. exact I. }
  rewrite E. rewrite K in Sq. destruct Sq as [-> ->].
  rewrite (commit_is_focus_out add desk2 commit _ _ Ci) by (cbn; auto).
  unfold HotkeyEdit.focusOutEvent.
  cbn [HotkeyEdit._capturing of_edit fst snd HotkeyEdit._current_sequence
         HotkeyEdit._has_main_key window hotkey_edit HotkeyEdit.hasFocus].
  rewrite committed_cases.
  destruct (single_key_checked event c Hc) as [A B]. cbn zeta in A, B.
  rewrite A.
  destruct ((HotkeyEdit.ControlModifier event || HotkeyEdit.ShiftModifier event
             || HotkeyEdit.AltModifier event) && negb (c =? 43)%N) eqn:Ok;
    cbn [andb].
  - rewrite (B eq_refl).
    change (hotkey_str (HotkeyEdit.setText _ mw)) with (hotkey_str mw).
    destruct (Str.eqb (binding_of event c) (hotkey_str mw)) eqn:Same; cbn [negb].
    + apply Str_eqb_eq in Same. destruct mw. cbn in *. auto.
    + unfold _register_hotkey. destruct mw. cbn.
      destruct (add (binding_of event c)); cbn; auto.
  - destruct mw. cbn. auto.
Qed.

Import SceneFacts.

Lemma escape_keeps_the_binding_witness :
  let r := handle Scenes.registers Scenes.notepad
             (edit_key_press Scenes.press_escape) Scenes.capturing in
  snd r = []
  /\ window (fst r)
     = HotkeyEdit.setText
         (_display_hotkey_text (hotkey_str (window Scenes.capturing))
            (hotkey_occupied (window Scenes.capturing)))
         (window Scenes.capturing)
  /\ HotkeyEdit.hasFocus (hotkey_edit (fst r)) = false
  /\ HotkeyEdit._capturing (hotkey_edit (fst r)) = false.
Proof.
  apply (escape_keeps_the_binding Scenes.registers Scenes.notepad
           Scenes.capturing Scenes.press_escape).
  - apply capturing_reachable.
  - reflexivity.
  - reflexivity.
Defined.

Lemma modifiers_alone_never_bind_witness :
  let app1 := fst (handle Scenes.registers Scenes.notepad
                     (edit_key_press Scenes.press_shift) Scenes.capturing) in
  let r := handle Scenes.registers Scenes.notepad edit_focus_out app1 in
  snd r = []
  /\ window (fst r)
     = HotkeyEdit.setText
         (_display_hotkey_text (hotkey_str (window Scenes.capturing))
            (hotkey_occupied (window Scenes.capturing)))
         (window Scenes.capturing)
  /\ HotkeyEdit.hasFocus (hotkey_edit (fst r)) = false.
Proof.
  apply (modifiers_alone_never_bind Scenes.registers Scenes.notepad
           Scenes.notepad Scenes.capturing Scenes.press_shift edit_focus_out).
  - apply capturing_reachable.
  - reflexivity.
  - exact I.
  - exact I.
Defined.

Lemma a_key_with_a_modifier_binds_witness :
  let app1 := fst (handle Scenes.registers Scenes.notepad
                     (edit_key_press Scenes.press_ctrl_t) Scenes.capturing) in
  let mw' := window (fst (handle Scenes.registers Scenes.notepad
                            edit_focus_out app1)) in
  hotkey_str mw' = Str.of_string "ctrl+t"
  /\ hotkey_handle mw' = Some 1%nat /\ hotkey_occupied mw' = false
  /\ hotkey_edit_text mw' = Str.of_string "Ctrl+T".
Proof.
  pose proof (a_key_with_a_modifier_binds Scenes.registers Scenes.notepad
                Scenes.notepad Scenes.capturing Scenes.press_ctrl_t 84%N
                edit_focus_out) as H.
  assert (P : In 84%N printable)
    by (vm_compute; repeat (first [left; reflexivity | right])).
  specialize (H capturing_reachable eq_refl eq_refl P I).
  cbn zeta in H. destruct H as (S & R & T).
  split; [exact S |]. split; [apply R |]. split; [apply R |].
  rewrite T. vm_compute. reflexivity.
Defined.

(** ** What a run delivers *)

Import TypingWorker Units Traces Delivery WorkerFacts RunFacts EventFacts EndFacts
  DeliveryFacts.

Module TotalFacts.

Lemma total_bounds lo hi ds :
  Forall (fun d => lo <= d <= hi) ds ->
  lo * Z.of_nat (List.length ds) <= total ds <= hi * Z.of_nat (List.length ds).
Proof.
  induction 1 as [| d ds Hd _ IH]; [cbn; lia |].
  cbn [total fold_right List.length]. fold (total ds).
  rewrite Nat2Z.inj_succ. lia.
Qed.

Lemma In_progress_values p tr :
  In (progress_changed p) tr -> In p (progress_values tr).
Proof.
  intros H. unfold progress_values. apply in_flat_map.
  exists (progress_changed p). split; [exact H | left; reflexivity].
Qed.

End TotalFacts.
Import TotalFacts.

(** X1.  What a run has put into the target window is, at any moment and
    whatever the world does, the typed characters of a prefix of the
    text, in the order of the text: nothing is typed twice, nothing is
    typed out of turn, and the only characters left out are the control
    characters [_type_char] skips.  A run that finishes has delivered
    the typed characters of the whole text. *)
Theorem typed_text_is_a_prefix env polls w :
  let tr := trace_of env polls w in
  (exists j, (j <= List.length (text w))%nat
             /\ delivered_text tr = filter is_typed (firstn j (text w)))
  /\ (In finished tr -> delivered_text tr = filter is_typed (text w)).
Proof.
  cbn zeta. destruct (run_account env polls w) as (j & Hj & D & _ & _ & F).
  split; [exists j; auto |].
  intros H. destruct (F H) as [-> _]. rewrite D, firstn_all. reflexivity.
Qed.

(** X3.  Outside the fast path, when the shortest possible delay is positive,
    a run that finishes has slept once after every character of the
    text, each time between the base delay plus the lower jitter bound
    and the base delay plus the upper one (the base delay itself without
    jitter), so the whole run has slept between [len] times the one and
    [len] times the other. *)
Theorem paced_run_sleeps_after_every_character env polls w :
  fast_mode_of w = false ->
  0 < shortest_delay w ->
  In finished (trace_of env polls w) ->
  let ds := sleep_delays (trace_of env polls w) in
  let len := Z.of_nat (List.length (text w)) in
  List.length ds = List.length (text w)
  /\ Forall (fun d => shortest_delay w <= d <= longest_delay w) ds
  /\ shortest_delay w * len <= total ds <= longest_delay w * len.
Proof.
  intros NF Pos Fin. cbn zeta.
  destruct (run_account env polls w) as (j & _ & _ & B & _ & F).
  destruct (F Fin) as [_ L]. specialize (L NF Pos).
  assert (B' : Forall (fun d => shortest_delay w <= d <= longest_delay w)
                 (sleep_delays (trace_of env polls w))).
  { eapply Forall_impl; [| exact B]. intros d [_ H]. exact H. }
  split; [exact L |]. split; [exact B' |].
  rewrite <- L. apply total_bounds, B'.
Qed.

(** X4.  Every percentage a run reports is between 0 and 100, the range of
    the progress bar. *)
Theorem progress_stays_in_the_bar env polls w p :
  In (progress_changed p) (trace_of env polls w) -> 0 <= p <= 100.
Proof.
  intros H. apply In_progress_values in H.
  destruct (trace_of_shape env polls w) as (r & _ & Sh).
  unfold run_shape in Sh.
  destruct (text w) as [| c txt] eqn:Et.
  { destruct Sh as [E _]. rewrite E in H. destruct H. }
  destruct Sh as (evs0 & r0 & Sh & Er).
  assert (Epv : progress_values (trace_of env polls w) = progress_values evs0).
  { destruct r0 as [[] | msg |]; destruct Er as [-> _]; try reflexivity.
    rewrite progress_values_app. cbn. apply app_nil_r. }
  rewrite Epv in H.
  destruct (shape_units w 0 evs0 r0 Sh) as (k & Ek & _). cbn zeta in Ek.
  rewrite Ek in H. apply in_map_iff in H. destruct H as (e & <- & He).
  apply In_firstn in He.
  pose proof (unit_ends_above (fast_mode_of w) (text w) (List.length (text w)) 0%nat)
    as Above.
  rewrite Forall_forall in Above. specialize (Above e He).
  assert (Hlen : (0 < List.length (text w))%nat) by (rewrite Et; cbn; lia).
  pose proof (percent_of_mono 0 e (List.length (text w)) ltac:(lia)) as Lo.
  pose proof (percent_of_mono e (List.length (text w)) (List.length (text w))
                ltac:(lia)) as Hi.
  rewrite percent_of_zero in Lo. rewrite (percent_of_full _ Hlen) in Hi.
  split; assumption.
Qed.

(** X2.  A fresh worker whose target window keeps the focus, whom the control
    surface neither stops nor pauses, and whose keystrokes get through
    (by [keyboard] or, when that raises, by [pyautogui]) returns without
    a single poll of the pause loop, with [finished], having delivered
    the typed characters of the whole text. *)
Theorem undisturbed_run_types_the_text env polls w title :
  undisturbed env -> focused_on title env -> keys_work env ->
  fresh w -> target_window_title w = Some title ->
  let tr := trace_of env polls w in
  fst (run env polls (start w)) = Ret tt
  /\ In finished tr
  /\ delivered_text tr = filter is_typed (text w).
Proof.
  intros U F K Fr Tg. cbn zeta.
  destruct (calm_run env title U F K polls w Fr Tg) as [R Fin].
  split; [exact R |]. split; [exact Fin |].
  destruct (run_account env polls w) as (j & _ & D & _ & _ & A).
  destruct (A Fin) as [-> _]. rewrite D, firstn_all. reflexivity.
Qed.

Import MainWindow Slots App WindowFacts.

(** X13.  A whole session by the hotkey.  The window is Idle, the text box is
    not empty and another window, [title], is in front: the hotkey
    starts a worker at once, with no countdown.  If that window keeps
    the focus, nobody touches the controls and the keystrokes get
    through, the worker delivers the typed characters of the text box
    and finishes, and its [finished] signal brings the window back to
    Idle with the progress bar at 100 and the Start button enabled. *)
Theorem hotkey_session_types_the_text add desk app env polls title :
  reachable add app ->
  state (window app) = STATE_IDLE ->
  HotkeyEdit.hasFocus (hotkey_edit app) = false ->
  toPlainText (form desk) <> [] ->
  active desk = Returns (Some title) -> title <> EmptyString ->
  isActiveWindow desk = false ->
  undisturbed env -> focused_on title env -> keys_work env ->
  let r := handle add desk hotkey_trigger app in
  exists w,
    snd r = [thread_start w]
    /\ state (window (fst r)) = STATE_TYPING
    /\ In finished (trace_of env polls w)
    /\ delivered_text (trace_of env polls w)
       = filter is_typed (toPlainText (form desk))
    /\ (let after := fst (handle add desk typing_finished (fst r)) in
        state (window after) = STATE_IDLE
        /\ progress_bar (window after) = 100
        /\ btn_start_enabled (window after) = true).
Proof.
  intros R S F T A Ne W U Fo K. cbn zeta.
  pose proof (capturing_follows _ (reachable_consistent _ _ R)) as Cap.
  rewrite F in Cap.
  assert (Tr : truthy (focus_of desk) = true).
  { unfold focus_of. rewrite A. cbn. apply negb_true_iff.
    apply String.eqb_neq. exact Ne. }
  destruct app as [mw he]. cbn [window hotkey_edit] in *.
  cbn [handle window hotkey_edit]. unfold _on_hotkey_trigger_gui.
  rewrite F, Cap. cbn [orb].
  unfold _start_typing_immediately_from_hotkey, _start_typing. rewrite S.
  cbn [State_eqb andb].
  destruct (toPlainText (form desk)) as [| c txt] eqn:Et; [contradiction |].
  unfold _begin_typing. fold (focus_of desk). fold (worker_of desk).
  rewrite Tr, W. cbn [negb of_window fst snd].
  exists (worker_of desk). split; [reflexivity |]. split; [reflexivity |].
  assert (Fr : fresh (worker_of desk)).
  { unfold worker_of, TypingWorker.__init__, fresh.
    destruct (Z.ltb_spec (rand_max_spin (form desk)) (rand_min_spin (form desk)));
      cbn; repeat split; lia. }
  assert (Tg : target_window_title (worker_of desk) = Some title).
  { unfold worker_of, TypingWorker.__init__, focus_of. rewrite A.
    destruct (_ <? _); reflexivity. }
  destruct (calm_run env title U Fo K polls (worker_of desk) Fr Tg) as [_ Fin].
  split; [exact Fin |]. split.
  - destruct (run_account env polls (worker_of desk)) as (j & _ & D & _ & _ & Acc).
    destruct (Acc Fin) as [-> _]. rewrite D, firstn_all.
    unfold worker_of, TypingWorker.__init__. rewrite Et.
    destruct (_ <? _); reflexivity.
  - cbn. auto.
Qed.

Lemma paced_run_sleeps_after_every_character_witness :
  let ds := sleep_delays (trace_of Samples.calm 0 Samples.paced_abc) in
  List.length ds = 4%nat
  /\ Forall (fun d => 8 <= d <= 13) ds
  /\ 8 * 4 <= total ds <= 13 * 4.
Proof.
  apply (paced_run_sleeps_after_every_character Samples.calm 0 Samples.paced_abc).
  - reflexivity.
  - reflexivity.
  - vm_compute. repeat (first [left; reflexivity | right]).
Defined.

Lemma progress_stays_in_the_bar_witness : 0 <= 25 <= 100.
Proof.
  apply (progress_stays_in_the_bar Samples.calm 0 Samples.paced_abc 25).
  vm_compute. repeat (first [left; reflexivity | right]).
Defined.

Lemma undisturbed_run_types_the_text_witness :
  let tr := trace_of Samples.calm 0 Samples.fast_abc in
  fst (TypingWorker.run Samples.calm 0 (start Samples.fast_abc)) = Ret tt
  /\ In finished tr
  /\ delivered_text tr = [97; 98; 10; 99]%N.
Proof.
  apply (undisturbed_run_types_the_text Samples.calm 0 Samples.fast_abc "Notepad").
  - intros now. reflexivity.
  - intros now. reflexivity.
  - intros now. reflexivity.
  - unfold fresh. split; [reflexivity | split; [reflexivity | vm_compute; discriminate]].
  - reflexivity.
Defined.

Import SceneFacts.

Lemma hotkey_session_types_the_text_witness :
  let r := handle Scenes.registers Scenes.notepad hotkey_trigger Scenes.opened in
  exists w,
    snd r = [thread_start w]
    /\ state (window (fst r)) = STATE_TYPING
    /\ In finished (trace_of Samples.calm 0 w)
    /\ delivered_text (trace_of Samples.calm 0 w)
       = filter is_typed (toPlainText (form Scenes.notepad))
    /\ (let after := fst (handle Scenes.registers Scenes.notepad
                            typing_finished (fst r)) in
        state (window after) = STATE_IDLE
        /\ progress_bar (window after) = 100
        /\ btn_start_enabled (window after) = true).
Proof.
  apply (hotkey_session_types_the_text Scenes.registers Scenes.notepad
           Scenes.opened Samples.calm 0 "Notepad").
  - apply opened_reachable.
  - reflexivity.
  - reflexivity.
  - discriminate.
  - reflexivity.
  - discriminate.
  - reflexivity.
  - intros now. reflexivity.
  - intros now. reflexivity.
  - intros now. reflexivity.
Defined.

Import TypingWorker Units Traces Delivery WorkerFacts RunFacts EventFacts EndFacts
  DeliveryFacts.

(** X23.  A resume with another window in front makes that window the target
    of the worker: once the calls of the resume have reached a worker
    that was not stopped, whatever its target was before, it is no longer
    paused and its next focus check accepts the window without signalling
    a loss of focus. *)
Theorem resume_retargets_the_worker env from_hotkey desk mw st title :
  MainWindow.state mw = MainWindow.STATE_PAUSED ->
  MainWindow.typing_worker mw = true ->
  Slots.active desk = Returns (Some title) ->
  title <> EmptyString ->
  title <> MainWindow.windowTitle mw ->
  _stop_flag (self st) = false ->
  inbox env (clock st)
  = snd (MainWindow._resume_typing (Slots.active desk) from_hotkey mw) ->
  getActiveWindowTitle env (S (clock st)) = Returns (Some title) ->
  let r := _check_focus env st in
  fst r = Ret tt
  /\ _pause_flag (self (snd r)) = false
  /\ target_window_title (self (snd r)) = Some title
  /\ trace (snd r)
     = trace st ++ [ev_getActiveWindowTitle (Returns (Some title))].
Proof.
  intros S W A NE NT NS I G. cbn zeta.
  assert (Tr : truthy (Some title) = true).
  { cbn. destruct (String.eqb_spec title EmptyString); [contradiction | reflexivity]. }
  assert (Nt : title_eqb (Some title) (Some (MainWindow.windowTitle mw)) = false).
  { cbn. destruct (String.eqb_spec title (MainWindow.windowTitle mw));
      [contradiction | reflexivity]. }
  assert (E : title_eqb (Some title) (Some title) = true)
    by (cbn; apply String.eqb_refl).
  unfold MainWindow._resume_typing in I.
  rewrite S, W, A, Tr, Nt in I. cbn in I.
  unfold _check_focus. rewrite bind_deliver, bind_get_self. rewrite I.
  cbn [fold_left apply_call self]. 
  unfold resume, set_target_window, set_pause_flag.
  cbn [text base_delay_ms use_random rand_min_ms rand_max_ms _stop_flag
       _pause_flag target_window_title].
  rewrite Tr, NS. cbn [negb orb].
  unfold try_except, call_getActiveWindowTitle, bind, tick, emit, of_outcome.
  cbn [self clock trace]. rewrite G. cbn [ret]. rewrite Tr, E. cbn.
  auto.
Qed.

Lemma resume_retargets_the_worker_witness :
  fst (_check_focus Samples.refocus
         (mkSt (pause Samples.fast_a) 9 []))
  = Ret tt
  /\ _pause_flag
       (self (snd (_check_focus Samples.refocus
                     (mkSt (pause Samples.fast_a) 9 []))))
     = false
  /\ target_window_title
       (self (snd (_check_focus Samples.refocus
                     (mkSt (pause Samples.fast_a) 9 []))))
     = Some "Editor"%string
  /\ trace (snd (_check_focus Samples.refocus
                   (mkSt (pause Samples.fast_a) 9 [])))
     = [] ++ [ev_getActiveWindowTitle (Returns (Some "Editor"%string))].
Proof.
  apply (resume_retargets_the_worker Samples.refocus false Scenes.editor
           (App.window Scenes.paused) (mkSt (pause Samples.fast_a) 9 [])
           "Editor"%string).
  - reflexivity.
  - reflexivity.
  - reflexivity.
  - discriminate.
  - vm_compute. discriminate.
  - reflexivity.
  - reflexivity.
  - reflexivity.
Defined.

Import TypingWorker Units Traces Delivery WorkerFacts RunFacts EventFacts EndFacts
  DeliveryFacts.

Module BatchFacts.

Lemma pieces_from_step fuel n s :
  s <> [] ->
  pieces_from (S fuel) n s = firstn n s :: pieces_from fuel n (skipn n s).
Proof. destruct s; [contradiction | reflexivity]. Qed.

Lemma concat_pieces n : (0 < n)%nat -> forall fuel s,
  (List.length s <= fuel)%nat -> List.concat (pieces_from fuel n s) = s.
Proof.
  intros Hn. induction fuel as [| fuel IH]; intros s L.
  - destruct s; [reflexivity | cbn in L; lia].
  - destruct s as [| c s]; [reflexivity |].
    cbn [pieces_from List.concat]. rewrite IH.
    + apply firstn_skipn.
    + rewrite length_skipn. cbn [List.length] in *. lia.
Qed.

Lemma length_pieces fuel : forall s,
  (List.length s <= fuel)%nat ->
  List.length (pieces_from fuel 40 s) = ((List.length s + 39) / 40)%nat.
Proof.
  induction fuel as [| fuel IH]; intros s L.
  - destruct s; [reflexivity | cbn in L; lia].
  - destruct s as [| c s]; [reflexivity |].
    cbn [pieces_from].
    change (List.length (firstn 40 (c :: s)
                           :: pieces_from fuel 40 (skipn 40 (c :: s))))
      with (S (List.length (pieces_from fuel 40 (skipn 40 (c :: s))))).
    rewrite IH.
    2:{ rewrite length_skipn. cbn [List.length] in *. lia. }
    rewrite length_skipn.
    set (len := List.length (c :: s)).
    assert (Hl : (1 <= len)%nat) by (subst len; cbn; lia).
    clearbody len.
    pose proof (Nat.div_mod_eq (len - 40 + 39) 40) as D1.
    pose proof (Nat.mod_upper_bound (len - 40 + 39) 40 ltac:(lia)) as M1.
    pose proof (Nat.div_mod_eq (len + 39) 40) as D2.
    pose proof (Nat.mod_upper_bound (len + 39) 40 ltac:(lia)) as M2.
    lia.
Qed.

Lemma pieces_bounded n fuel : forall s,
  Forall (fun p => (List.length p <= n)%nat) (pieces_from fuel n s).
Proof.
  induction fuel as [| fuel IH]; intros s; [constructor |].
  destruct s as [| c s]; [constructor |].
  cbn [pieces_from]. constructor; [| apply IH].
  rewrite length_firstn. lia.
Qed.

(** On a text of plain characters only, the units of the fast path are
    the pieces of forty characters. *)
Lemma plain_units text :
  Forall plain text ->
  forall steps i,
    (List.length text - i <= steps)%nat ->
    flat_map (unit_attempts true text) (unit_starts steps true text i)
    = pieces_from steps 40 (skipn i text).
Proof.
  intros P. induction steps as [| steps IH]; intros i L; [reflexivity |].
  destruct (Nat.ltb_spec i (List.length text)) as [Hlt | Hge].
  2:{ rewrite unit_starts_done by lia. rewrite skipn_all2 by lia.
      reflexivity. }
  rewrite (unit_starts_unfold _ _ _ i Hlt) by lia.
  pose proof (next_index_bounds true text i Hlt) as B.
  rewrite (unit_starts_fuel true text (S steps) steps) by lia.
  destruct (nth_error text i) as [ch |] eqn:E.
  2:{ apply nth_error_None in E. lia. }
  assert (Pc : plain ch).
  { rewrite Forall_forall in P. apply P. eapply nth_error_In, E. }
  destruct (fast_unit text i ch E) as [Hp _]. cbn zeta in Hp.
  destruct (Hp Pc) as (Es & _ & Hl & Ej & Hend).
  cbn [flat_map]. unfold unit_attempts at 1. rewrite E.
  apply is_fast_char_plain in Pc. rewrite Pc. cbn [andb].
  rewrite IH by lia.
  assert (Ls : List.length (skipn i text) = (List.length text - i)%nat)
    by apply length_skipn.
  rewrite pieces_from_step by (intros Sk; rewrite Sk in Ls; cbn in Ls; lia).
  cbn [app]. f_equal.
  - destruct Hend as [H40 | Hn].
    + rewrite Es at 1. f_equal. lia.
    + destruct (nth_error text (next_index true text i)) as [c' |] eqn:E'.
      * exfalso. apply Hn. rewrite Forall_forall in P. apply P.
        eapply nth_error_In, E'.
      * apply nth_error_None in E'.
        rewrite Es at 1. rewrite !firstn_all2 by lia. reflexivity.
  - rewrite skipn_skipn. destruct Hend as [H40 | Hn].
    + f_equal. f_equal. lia.
    + destruct (nth_error text (next_index true text i)) as [c' |] eqn:E'.
      * exfalso. apply Hn. rewrite Forall_forall in P. apply P.
        eapply nth_error_In, E'.
      * apply nth_error_None in E'.
        rewrite !skipn_all2 by lia. reflexivity.
Qed.

End BatchFacts.

(** X24.  At full speed a text without newlines, tabs and control characters
    goes to [keyboard.write] in pieces of forty characters: a run that
    finishes has made one call for each piece, in order, the last piece
    holding what is left, so the calls put together are the text and
    there are [ceil(length / 40)] of them. *)
Theorem plain_text_goes_in_batches_of_forty env polls w :
  fast_mode_of w = true ->
  Forall plain (text w) ->
  In finished (trace_of env polls w) ->
  let calls := keyboard_attempts (trace_of env polls w) in
  calls = pieces 40 (text w)
  /\ List.concat calls = text w
  /\ List.length calls = ((List.length (text w) + 39) / 40)%nat
  /\ Forall (fun s => (List.length s <= 40)%nat) calls.
Proof.
  intros Hf P Hfin. cbn zeta.
  assert (E : keyboard_attempts (trace_of env polls w) = pieces 40 (text w)).
  { destruct (trace_of_shape env polls w) as (r & _ & Sh).
    unfold run_shape in Sh. destruct (text w) as [| c txt] eqn:Et.
    { destruct Sh as [-> _]. reflexivity. }
    rewrite <- Et in *.
    destruct Sh as (evs0 & r0 & Sh & Er).
    destruct (shape_units w 0 evs0 r0 Sh) as (k & _ & Fin & Ea).
    cbn zeta in Fin, Ea.
    assert (Hin : In finished evs0).
    { destruct r0 as [[] | msg |]; destruct Er as [E _]; rewrite E in Hfin;
        auto.
      apply in_app_or in Hfin. destruct Hfin as [H | [H | []]];
        [exact H | discriminate]. }
    specialize (Fin Hin).
    assert (Eka : keyboard_attempts (trace_of env polls w)
                  = keyboard_attempts evs0).
    { destruct r0 as [[] | msg |]; destruct Er as [-> _]; try reflexivity.
      rewrite keyboard_attempts_app. cbn. apply app_nil_r. }
    rewrite Eka, Hf in *.
    assert (Ek : keyboard_attempts evs0
                 = flat_map (unit_attempts true (text w))
                     (unit_starts (List.length (text w)) true (text w) 0)).
    { destruct Ea as [Ea | [_ Ea]]; rewrite Ea, firstn_all2; auto; lia. }
    rewrite Ek, (BatchFacts.plain_units (text w) P) by lia.
    reflexivity. }
  rewrite E. unfold pieces.
  split; [reflexivity |]. split; [apply BatchFacts.concat_pieces; lia |].
  split; [apply BatchFacts.length_pieces; lia |].
  apply BatchFacts.pieces_bounded.
Qed.

Lemma plain_text_goes_in_batches_of_forty_witness :
  let calls := keyboard_attempts (trace_of Samples.calm 0 Scenes.fast_ninety) in
  calls = pieces 40 (text Scenes.fast_ninety)
  /\ List.concat calls = text Scenes.fast_ninety
  /\ List.length calls = ((List.length (text Scenes.fast_ninety) + 39) / 40)%nat
  /\ Forall (fun s => (List.length s <= 40)%nat) calls.
Proof.
  apply (plain_text_goes_in_batches_of_forty Samples.calm 0 Scenes.fast_ninety).
  - reflexivity.
  - apply Forall_forall. intros ch H. apply repeat_spec in H. subst ch.
    unfold plain. lia.
  - vm_compute. tauto.
Defined.

(** ** Sizes and dropped files *)

Module FloatFacts.
Import Binary64 Binary64Facts.
Local Open Scope Q_scope.

Lemma round_half_even_compat x y :
  x == y -> round_half_even x = round_half_even y.
Proof.
  intros E. apply Z.le_antisymm; apply round_half_even_mono; rewrite E;
    apply Qle_refl.
Qed.

(** A number with a significand of 53 bits is a double. *)
Lemma round_exact (m e : Z) :
  (0 < m < 2 ^ prec)%Z -> (emin <= e)%Z ->
  round (inject_Z m * two ^ e) == inject_Z m * two ^ e.
Proof.
  intros Hm He.
  pose proof (two_pos_pow e) as Pe.
  assert (Hx : 0 < inject_Z m * two ^ e).
  { apply Qmult_lt_0_compat; [| exact Pe].
    change 0 with (inject_Z 0). rewrite <- Zlt_Qlt. lia. }
  assert (Hup : inject_Z m * two ^ e < two ^ (e + prec)).
  { rewrite Qpower_plus by discriminate. rewrite (Qmult_comm (two ^ e)).
    apply Qmult_lt_compat_r; [exact Pe |].
    rewrite (two_pow_Z prec) by (unfold prec; lia).
    rewrite <- Zlt_Qlt. lia. }
  pose proof (ulp_exp_below _ (e + prec) Hx Hup ltac:(lia)) as HE.
  replace (e + prec - prec)%Z with e in HE by lia.
  rewrite (round_pos_eq _ Hx).
  set (E := ulp_exp (inject_Z m * two ^ e)) in *.
  assert (Eq : inject_Z m * two ^ e / two ^ E == inject_Z (m * 2 ^ (e - E))).
  { rewrite inject_Z_mult, <- (two_pow_Z (e - E)) by lia.
    unfold Zminus. rewrite Qpower_plus by discriminate.
    rewrite Qpower_opp. unfold Qdiv. ring. }
  rewrite (round_half_even_compat _ _ Eq), round_half_even_Z.
  rewrite inject_Z_mult, <- (two_pow_Z (e - E)) by lia.
  rewrite <- Qmult_assoc, <- Qpower_plus by discriminate.
  replace (e - E + E)%Z with e by lia. reflexivity.
Qed.

Lemma round_exact_Z (n : Z) :
  (0 <= n < 2 ^ prec)%Z -> round (inject_Z n) == inject_Z n.
Proof.
  intros H. destruct (Z.eq_dec n 0) as [-> | N0]; [reflexivity |].
  pose proof (round_exact n 0 ltac:(lia) ltac:(unfold emin; lia)) as R.
  assert (E1 : inject_Z n * two ^ 0 == inject_Z n)
    by (change (two ^ 0) with 1; ring).
  rewrite <- (round_compat _ _ E1), R. exact E1.
Qed.

(** [Float.round] is exact on the integers of 53 bits, of either sign. *)
Lemma float_round_Z (n : Z) :
  (- 2 ^ prec < n < 2 ^ prec)%Z -> Float.round (inject_Z n) == inject_Z n.
Proof.
  intros H. unfold Float.round.
  destruct (Qle_bool 0 (inject_Z n)) eqn:S.
  - apply Qle_bool_iff in S. change 0 with (inject_Z 0) in S.
    rewrite <- Zle_Qle in S. apply round_exact_Z. lia.
  - assert (Neg : (n < 0)%Z).
    { destruct (Z_lt_le_dec n 0) as [L | L]; [exact L |].
      assert (C : Qle_bool 0 (inject_Z n) = true).
      { apply Qle_bool_iff. change 0 with (inject_Z 0). rewrite <- Zle_Qle.
        exact L. }
      congruence. }
    assert (E1 : - inject_Z n == inject_Z (- n)) by (rewrite inject_Z_opp; reflexivity).
    rewrite (round_compat _ _ E1), round_exact_Z by lia.
    rewrite inject_Z_opp. ring.
Qed.

Lemma float_round_compat x y : x == y -> Float.round x == Float.round y.
Proof.
  intros E. unfold Float.round.
  assert (S : Qle_bool 0 x = Qle_bool 0 y).
  { destruct (Qle_bool 0 x) eqn:Sx, (Qle_bool 0 y) eqn:Sy; try reflexivity.
    - apply Qle_bool_iff in Sx. rewrite E in Sx. apply Qle_bool_iff in Sx.
      congruence.
    - apply Qle_bool_iff in Sy. rewrite <- E in Sy. apply Qle_bool_iff in Sy.
      congruence. }
  rewrite S. destruct (Qle_bool 0 y).
  - apply round_compat, E.
  - rewrite (round_compat (- x) (- y)); [reflexivity |]. rewrite E. reflexivity.
Qed.

(** Dividing a double by 1024 is exact as long as the quotient is an
    integer of 53 bits over a power of two. *)
Lemma div_1024_exact x n j :
  (0 < n < 2 ^ prec)%Z -> (0 <= j <= 1000)%Z ->
  x == inject_Z n / inject_Z (2 ^ j) ->
  Float.div x (inject_Z 1024) == inject_Z n / inject_Z (2 ^ (j + 10)).
Proof.
  intros Hn Hj E. unfold Float.div.
  assert (E2 : x / inject_Z 1024 == inject_Z n * two ^ (- (j + 10))).
  { rewrite E. rewrite <- (two_pow_Z j) by lia.
    change (inject_Z 1024) with (two ^ 10).
    rewrite Qpower_opp, Qpower_plus by discriminate.
    pose proof (two_pos_pow j). pose proof (two_pos_pow 10).
    field. split; [discriminate | lra]. }
  rewrite (float_round_compat _ _ E2).
  unfold Float.round.
  assert (Pos : 0 < inject_Z n * two ^ (- (j + 10))).
  { apply Qmult_lt_0_compat; [| apply two_pos_pow].
    change 0 with (inject_Z 0). rewrite <- Zlt_Qlt. lia. }
  assert (S : Qle_bool 0 (inject_Z n * two ^ (- (j + 10))) = true)
    by (apply Qle_bool_iff; lra).
  rewrite S, round_exact by (unfold emin; lia).
  rewrite <- (two_pow_Z (j + 10)) by lia. rewrite Qpower_opp. reflexivity.
Qed.

End FloatFacts.

Module FmtFacts.
Import Binary64 Binary64Facts FloatFacts DroppableTextEdit.
Local Open Scope Q_scope.

Lemma Qlt_bool_iff x y : Fmt.Qlt_bool x y = true <-> x < y.
Proof.
  unfold Fmt.Qlt_bool. rewrite negb_true_iff. split.
  - intros H. apply Qnot_le_lt. intros C. apply Qle_bool_iff in C. congruence.
  - intros H. destruct (Qle_bool y x) eqn:E; [| reflexivity].
    apply Qle_bool_iff in E. lra.
Qed.

Lemma Qlt_bool_compat x y z : x == y -> Fmt.Qlt_bool x z = Fmt.Qlt_bool y z.
Proof.
  intros E. destruct (Fmt.Qlt_bool x z) eqn:A, (Fmt.Qlt_bool y z) eqn:B;
    try reflexivity.
  - apply Qlt_bool_iff in A. rewrite E in A. apply Qlt_bool_iff in A. congruence.
  - apply Qlt_bool_iff in B. rewrite <- E in B. apply Qlt_bool_iff in B.
    congruence.
Qed.

Lemma fixed_compat d x y : x == y -> Fmt.fixed d x = Fmt.fixed d y.
Proof.
  intros E. unfold Fmt.fixed, Fmt.scaled.
  rewrite (Qlt_bool_compat x y 0 E).
  assert (S : Qabs x * inject_Z (10 ^ Z.of_nat d)
              == Qabs y * inject_Z (10 ^ Z.of_nat d)) by (rewrite E; reflexivity).
  rewrite (round_half_even_compat _ _ S). reflexivity.
Qed.

Lemma to_int_Z x n : x == inject_Z n -> Float.to_int x = n.
Proof.
  unfold Qeq, Float.to_int. cbn. intros E. rewrite Z.mul_1_r in E.
  rewrite E. apply Z.quot_mul. discriminate.
Qed.

Lemma quotient_bounds n j :
  (0 <= j)%Z ->
  (forall b, (n < b * 2 ^ j)%Z -> inject_Z n / inject_Z (2 ^ j) < inject_Z b)
  /\ (forall b, (b * 2 ^ j <= n)%Z -> inject_Z b <= inject_Z n / inject_Z (2 ^ j)).
Proof.
  intros Hj.
  assert (P : 0 < inject_Z (2 ^ j)).
  { change 0 with (inject_Z 0). rewrite <- Zlt_Qlt. apply Z.pow_pos_nonneg; lia. }
  split; intros b H.
  - apply Qlt_shift_div_r; [exact P |]. rewrite <- inject_Z_mult, <- Zlt_Qlt.
    exact H.
  - apply Qle_shift_div_l; [exact P |]. rewrite <- inject_Z_mult, <- Zle_Qle.
    exact H.
Qed.

(** One turn of the loop of [_format_size] that goes on to the next
    unit, and one that returns. *)
Lemma units_step u us x n j :
  (0 < n < 2 ^ prec)%Z -> (0 <= j <= 1000)%Z ->
  x == inject_Z n / inject_Z (2 ^ j) -> (2 ^ (j + 10) <= n)%Z ->
  format_units (u :: us) x = format_units us (Float.div x (inject_Z 1024))
  /\ Float.div x (inject_Z 1024) == inject_Z n / inject_Z (2 ^ (j + 10)).
Proof.
  intros Hn Hj E Big. split; [| apply div_1024_exact; assumption].
  cbn [format_units].
  destruct (Fmt.Qlt_bool x (inject_Z 1024)) eqn:L; [| reflexivity].
  exfalso. apply Qlt_bool_iff in L. rewrite E in L.
  destruct (quotient_bounds n j ltac:(lia)) as [_ Lo].
  specialize (Lo 1024%Z). rewrite Z.pow_add_r in Big by lia.
  change (2 ^ 10)%Z with 1024%Z in Big. specialize (Lo ltac:(lia)). lra.
Qed.

Lemma units_stop u us x n j :
  (0 <= j)%Z -> x == inject_Z n / inject_Z (2 ^ j) -> (n < 2 ^ (j + 10))%Z ->
  String.eqb u "B" = false ->
  format_units (u :: us) x
  = (Fmt.fixed 2 (inject_Z n / inject_Z (2 ^ j)) ++ u)%string.
Proof.
  intros Hj E Small NB. cbn [format_units]. rewrite NB.
  assert (L : Fmt.Qlt_bool x (inject_Z 1024) = true).
  { apply Qlt_bool_iff. rewrite E.
    destruct (quotient_bounds n j Hj) as [Hi _]. apply Hi.
    rewrite Z.pow_add_r in Small by lia.
    change (2 ^ 10)%Z with 1024%Z in Small. lia. }
  rewrite L, (fixed_compat 2 _ _ E). reflexivity.
Qed.

(** An int of less than [2^53] in size is a float: [float(n)] returns
    it unchanged. *)
Lemma of_int_small n :
  (- 2 ^ 53 < n < 2 ^ 53)%Z ->
  Float.of_int n = Returns (Float.round (inject_Z n)).
Proof.
  intros H. unfold Float.of_int.
  pose proof (float_round_Z n H) as X0.
  set (x0 := Float.round (inject_Z n)) in *. clearbody x0.
  assert (NoOverflow : Qle_bool (inject_Z (2 ^ 1024)) (Qabs x0) = false).
  { destruct (Qle_bool _ _) eqn:C; [| reflexivity]. exfalso.
    apply Qle_bool_iff in C.
    assert (A : Qabs x0 == inject_Z (Z.abs n))
      by (rewrite X0; reflexivity).
    rewrite A, <- Zle_Qle in C.
    assert (2 ^ 53 < 2 ^ 1024)%Z by (apply Z.pow_lt_mono_r; lia). lia. }
  rewrite NoOverflow. reflexivity.
Qed.

(** The loop of [_format_size] on a float that is an integer of less
    than [2^53] in size: every division by 1024 is exact. *)
Lemma format_units_exact x0 num_bytes :
  (- 2 ^ 53 < num_bytes < 2 ^ 53)%Z ->
  x0 == inject_Z num_bytes ->
  format_units ["B"; "KB"; "MB"; "GB"; "TB"]%string x0 = exact_size num_bytes.
Proof.
  intros H X0. unfold exact_size, unit_index.
  destruct (Z.ltb_spec num_bytes (2 ^ 10)) as [L0 | G0].
  { cbn [format_units].
    assert (L : Fmt.Qlt_bool x0 (inject_Z 1024) = true).
    { apply FmtFacts.Qlt_bool_iff. rewrite X0. rewrite <- Zlt_Qlt. exact L0. }
    rewrite L. cbn [String.eqb Ascii.eqb Bool.eqb]. cbn.
    rewrite (to_int_Z _ _ X0). reflexivity. }
  assert (Hn : (0 < num_bytes < 2 ^ prec)%Z) by (unfold prec; lia).
  assert (E0 : (x0 == inject_Z num_bytes / inject_Z (2 ^ 0))%Q).
  { rewrite X0. change (inject_Z (2 ^ 0)) with 1%Q. field. }
  destruct (units_step "B" ["KB"; "MB"; "GB"; "TB"]%string x0 num_bytes 0
              Hn ltac:(lia) E0 G0) as [-> E1].
  cbn [Z.add] in E1.
  destruct (Z.ltb_spec num_bytes (2 ^ 20)) as [L1 | G1].
  { apply (units_stop _ _ _ num_bytes 10); [lia | exact E1 | exact L1 |].
    reflexivity. }
  destruct (units_step "KB" ["MB"; "GB"; "TB"]%string _ num_bytes 10
              Hn ltac:(lia) E1 G1) as [-> E2].
  cbn [Z.add Pos.add Pos.succ] in E2.
  destruct (Z.ltb_spec num_bytes (2 ^ 30)) as [L2 | G2].
  { apply (units_stop _ _ _ num_bytes 20); [lia | exact E2 | exact L2 |].
    reflexivity. }
  destruct (units_step "MB" ["GB"; "TB"]%string _ num_bytes 20
              Hn ltac:(lia) E2 G2) as [-> E3].
  cbn [Z.add Pos.add Pos.succ] in E3.
  destruct (Z.ltb_spec num_bytes (2 ^ 40)) as [L3 | G3].
  { apply (units_stop _ _ _ num_bytes 30); [lia | exact E3 | exact L3 |].
    reflexivity. }
  destruct (units_step "GB" ["TB"]%string _ num_bytes 30
              Hn ltac:(lia) E3 G3) as [-> E4].
  cbn [Z.add Pos.add Pos.succ] in E4.
  destruct (Z.ltb_spec num_bytes (2 ^ 50)) as [L4 | G4].
  { apply (units_stop _ _ _ num_bytes 40); [lia | exact E4 | exact L4 |].
    reflexivity. }
  destruct (units_step "TB" []%string _ num_bytes 40
              Hn ltac:(lia) E4 G4) as [-> E5].
  cbn [Z.add Pos.add Pos.succ] in E5.
  cbn [format_units]. rewrite (fixed_compat 2 _ _ E5). reflexivity.
Qed.

End FmtFacts.

Import Binary64 Binary64Facts FloatFacts FmtFacts DroppableTextEdit.

(** X19.  For a size of less than [2^53] bytes the float arithmetic of
    [_format_size] loses nothing: the label is the size itself followed
    by B below 1024, and otherwise the size over the largest power of
    1024 not above it, the fifth at most, rounded to two decimal places
    (ties to even), followed by KB, MB, GB, TB or PB. *)
Theorem format_size_is_exact (num_bytes : Z) :
  (- 2 ^ 53 < num_bytes < 2 ^ 53)%Z ->
  _format_size num_bytes = Returns (exact_size num_bytes).
Proof.
  intros H. unfold _format_size.
  rewrite (of_int_small num_bytes H). f_equal.
  apply format_units_exact.
  - exact H.
  - apply float_round_Z, H.
Qed.

(** X20.  Dropping a file.  For a size a file can have (below [2^53] bytes),
    a file of more than 1000 bytes is read only after the question, which
    shows the size as [exact_size] prints it, was answered by Yes, and a
    file of at most 1000 bytes is read without any question; the text
    box changes only when the file has been read, and then to its strict
    UTF-8 decoding when there is one and to the lenient one otherwise;
    and a critical box is the last thing that happens when there is one,
    carries the message of the exception that the size query or the read
    raised, and leaves the text box as it was. *)
Theorem load_file_asks_first decode decode_ignore disk plainText :
  (forall n, getsize disk = Returns n -> (- 2 ^ 53 < n < 2 ^ 53)%Z) ->
  let r := _load_file decode decode_ignore disk plainText in
  (In read_file (snd r) ->
     exists n,
       getsize disk = Returns n
       /\ ((1000 < n)%Z ->
           answer_yes disk = true
           /\ hd_error (snd r)
              = Some (question ("该文件超过了1000字（文件大小："
                                ++ exact_size n ++ "），你确定要继续吗？")%string)))
  /\ (forall n, getsize disk = Returns n -> (n <= 1000)%Z ->
      forall q, ~ In (question q) (snd r))
  /\ (fst r <> plainText ->
      exists data,
        read disk = Returns data /\ In read_file (snd r)
        /\ fst r = match decode data with
                   | Some text => text
                   | None => decode_ignore data
                   end)
  /\ (forall text, In (critical text) (snd r) ->
      fst r = plainText
      /\ last (snd r) read_file = critical text
      /\ exists e, critical text = unreadable e
                   /\ (getsize disk = Raises e \/ read disk = Raises e)).
Proof.
  intros Real. cbn zeta. unfold _load_file.
  destruct (getsize disk) as [n | e].
  2:{ cbn. repeat split.
      - intros [C | []]. discriminate.
      - intros ? [=].
      - intros C. contradiction.
      - destruct H as [H | []]. injection H as <-. reflexivity.
      - destruct H as [H | []]. exists e. rewrite <- H. auto. }
  unfold _format_size.
  rewrite (of_int_small n (Real n eq_refl)),
    (format_units_exact _ n (Real n eq_refl)
       (float_round_Z n (Real n eq_refl))).
  destruct (Z.ltb_spec 1000 n) as [Big | Small]; cbn [andb].
  - destruct (answer_yes disk); cbn [negb].
    + destruct (read disk) as [data | e]; cbn; repeat split.
      * intros _. exists n. auto.
      * intros m [= <-] Hm. lia.
      * intros _. exists data. auto.
      * destruct H as [H | [H | []]]; discriminate.
      * destruct H as [H | [H | []]]; discriminate.
      * destruct H as [H | [H | []]]; discriminate.
      * intros _. exists n. auto.
      * intros m [= <-] Hm. lia.
      * intros C. contradiction.
      * destruct H as [H | [H | [H | []]]]; try discriminate. rewrite H.
        reflexivity.
      * destruct H as [H | [H | [H | []]]]; try discriminate.
        exists e. rewrite <- H. auto.
    + cbn. repeat split.
      * intros [C | []]. discriminate.
      * intros m [= <-] Hm. lia.
      * intros C. contradiction.
      * destruct H as [H | []]. discriminate.
      * destruct H as [H | []]. discriminate.
  - destruct (read disk) as [data | e]; cbn; repeat split.
    + intros _. exists n. split; [reflexivity |]. intros. lia.
    + intros m _ _ q [C | []]. discriminate.
    + intros _. exists data. auto.
    + destruct H as [H | []]. discriminate.
    + destruct H as [H | []]. discriminate.
    + destruct H as [H | []]. discriminate.
    + intros _. exists n. split; [reflexivity |]. intros. lia.
    + intros m _ _ q [C | [C | []]]; discriminate.
    + intros C. contradiction.
    + destruct H as [H | [H | []]]; try discriminate. rewrite H. reflexivity.
    + destruct H as [H | [H | []]]; try discriminate.
      exists e. rewrite <- H. auto.
Qed.

Lemma format_size_is_exact_witness :
  _format_size 1048575 = Returns "1024.00KB"%string.
Proof.
  rewrite (format_size_is_exact 1048575); [reflexivity |].
  split; reflexivity.
Defined.

Lemma load_file_asks_first_witness :
  let r := _load_file (fun _ => None) (firstn 2) Scenes.two_kilobytes [] in
  fst r = [104; 105]%N
  /\ snd r = [question ("该文件超过了1000字（文件大小：2.00KB"
                        ++ "），你确定要继续吗？")%string; read_file].
Proof.
  pose proof (load_file_asks_first (fun _ => None) (firstn 2)
                Scenes.two_kilobytes []) as H.
  assert (Real : forall n,
            getsize Scenes.two_kilobytes = Returns n ->
            (- 2 ^ 53 < n < 2 ^ 53)%Z).
  { intros n E. injection E as <-. split; reflexivity. }
  specialize (H Real). cbn zeta in H. destruct H as (A & _ & C & _).
  assert (Changed : fst (_load_file (fun _ => None) (firstn 2)
                           Scenes.two_kilobytes []) <> [])
    by (vm_compute; discriminate).
  destruct (C Changed) as (data & E & Hin & T). injection E as <-.
  split; [exact T |].
  destruct (A Hin) as (n & En & Q). injection En as <-.
  destruct (Q eq_refl) as [_ Hd].
  vm_compute. reflexivity.
Defined.

(** ** Hotkey strings *)

Module StrFacts.
Import MainWindow Hotkeys.

(** *** split and join *)

Lemma split_not_nil sep s : Str.split sep s <> [].
Proof.
  destruct s as [| c s]; cbn; [discriminate |].
  destruct (c =? sep)%N; [discriminate |].
  destruct (Str.split sep s); discriminate.
Qed.

Lemma split_without sep s :
  ~ In sep s -> Str.split sep s = [s].
Proof.
  induction s as [| c s IH]; intros H; [reflexivity |]. cbn.
  destruct (N.eqb_spec c sep) as [-> | Ne]; [exfalso; apply H; left; reflexivity |].
  rewrite IH by (intros C; apply H; right; exact C). reflexivity.
Qed.

Lemma split_app sep t rest :
  ~ In sep t -> Str.split sep (t ++ sep :: rest) = t :: Str.split sep rest.
Proof.
  induction t as [| c t IH]; intros H; cbn.
  - rewrite N.eqb_refl. reflexivity.
  - destruct (N.eqb_spec c sep) as [-> | Ne];
      [exfalso; apply H; left; reflexivity |].
    rewrite IH by (intros C; apply H; right; exact C). reflexivity.
Qed.

Lemma split_tokens sep s : Forall (fun t => ~ In sep t) (Str.split sep s).
Proof.
  induction s as [| c s IH]; cbn; [repeat constructor; intros [] |].
  destruct (N.eqb_spec c sep) as [-> | Ne].
  - constructor; [intros [] | exact IH].
  - destruct (Str.split sep s) as [| tok toks]; [repeat constructor |].
    + intros [C | []]. congruence.
    + inversion IH as [| ? ? Ht Hts]; subst. constructor; [| exact Hts].
      intros [C | C]; [congruence | exact (Ht C)].
Qed.

Lemma split_join sep toks :
  toks <> [] -> Forall (fun t => ~ In sep t) toks ->
  Str.split sep (Str.join [sep] toks) = toks.
Proof.
  induction toks as [| t toks IH]; intros Ne F; [contradiction |].
  inversion F as [| ? ? Ht Hts]; subst.
  destruct toks as [| t2 toks].
  - cbn. apply split_without, Ht.
  - change (Str.join [sep] (t :: t2 :: toks))
      with (t ++ sep :: Str.join [sep] (t2 :: toks)).
    rewrite split_app by exact Ht. rewrite IH; [reflexivity | discriminate | exact Hts].
Qed.

(** *** strip *)

Lemma lstrip_fixed s :
  match s with [] => True | c :: _ => Str.is_space c = false end ->
  Str.lstrip s = s.
Proof. destruct s as [| c s]; [reflexivity |]. cbn. intros ->. reflexivity. Qed.

Lemma lstrip_head s :
  match Str.lstrip s with [] => True | c :: _ => Str.is_space c = false end.
Proof.
  induction s as [| c s IH]; [exact I |]. cbn.
  destruct (Str.is_space c) eqn:E; [exact IH | exact E].
Qed.

Lemma lstrip_suffix s : exists pre, s = pre ++ Str.lstrip s.
Proof.
  induction s as [| c s [pre IH]]; [exists []; reflexivity |]. cbn.
  destruct (Str.is_space c).
  - exists (c :: pre). cbn. rewrite <- IH. reflexivity.
  - exists []. reflexivity.
Qed.

Lemma lstrip_In c s : In c (Str.lstrip s) -> In c s.
Proof.
  destruct (lstrip_suffix s) as [pre E]. intros H. rewrite E.
  apply in_or_app. right. exact H.
Qed.

Lemma strip_In c s : In c (Str.strip s) -> In c s.
Proof.
  unfold Str.strip. intros H. apply in_rev in H. apply lstrip_In in H.
  apply in_rev in H. apply lstrip_In in H. exact H.
Qed.

Lemma strip_trimmed s : trimmed_ends (Str.strip s).
Proof.
  unfold trimmed_ends, Str.strip. rewrite rev_involutive.
  split; [| apply lstrip_head].
  destruct (lstrip_suffix (rev (Str.lstrip s))) as [pre E].
  set (b := Str.lstrip (rev (Str.lstrip s))) in *.
  assert (Ea : Str.lstrip s = rev b ++ rev pre).
  { rewrite <- rev_app_distr, <- E, rev_involutive. reflexivity. }
  pose proof (lstrip_head s) as H. rewrite Ea in H.
  destruct (rev b) as [| c r]; [exact I | exact H].
Qed.

Lemma trimmed_strip s : trimmed_ends s -> Str.strip s = s.
Proof.
  intros [H1 H2]. unfold Str.strip.
  rewrite (lstrip_fixed s H1), (lstrip_fixed (rev s) H2). apply rev_involutive.
Qed.

Lemma strip_idem s : Str.strip (Str.strip s) = Str.strip s.
Proof. apply trimmed_strip, strip_trimmed. Qed.

Lemma trimmed_map f s :
  (forall c, Str.is_space (f c) = Str.is_space c) ->
  trimmed_ends s -> trimmed_ends (map f s).
Proof.
  intros Hf [H1 H2]. unfold trimmed_ends. rewrite <- map_rev. split.
  - destruct s as [| c s]; [exact I |]. cbn. rewrite Hf. exact H1.
  - destruct (rev s) as [| c r]; [exact I |]. cbn. rewrite Hf. exact H2.
Qed.

(** *** Case *)

Lemma lower_char_space c : Str.is_space (Str.lower_char c) = Str.is_space c.
Proof.
  unfold Str.lower_char, Str.is_space.
  destruct ((65 <=? c) && (c <=? 90))%N eqn:E; [| reflexivity].
  apply andb_prop in E. destruct E as [E1 E2].
  apply N.leb_le in E1, E2.
  repeat match goal with
         | |- context [(?a <=? ?b)%N] => destruct (N.leb_spec a b)
         end; cbn; try reflexivity; lia.
Qed.

Lemma upper_char_space c : Str.is_space (Str.upper_char c) = Str.is_space c.
Proof.
  unfold Str.upper_char, Str.is_space.
  destruct ((97 <=? c) && (c <=? 122))%N eqn:E; [| reflexivity].
  apply andb_prop in E. destruct E as [E1 E2].
  apply N.leb_le in E1, E2.
  repeat match goal with
         | |- context [(?a <=? ?b)%N] => destruct (N.leb_spec a b)
         end; cbn; try reflexivity; lia.
Qed.

Lemma lower_char_idem c : Str.lower_char (Str.lower_char c) = Str.lower_char c.
Proof.
  unfold Str.lower_char.
  destruct ((65 <=? c) && (c <=? 90))%N eqn:E.
  - apply andb_prop in E. destruct E as [E1 E2]. apply N.leb_le in E1, E2.
    destruct ((65 <=? c + 32) && (c + 32 <=? 90))%N eqn:E'; [| reflexivity].
    apply andb_prop in E'. destruct E' as [_ E3]. apply N.leb_le in E3. lia.
  - rewrite E. reflexivity.
Qed.

Lemma lower_upper_char c : Str.lower_char (Str.upper_char c) = Str.lower_char c.
Proof.
  unfold Str.lower_char, Str.upper_char.
  destruct ((97 <=? c) && (c <=? 122))%N eqn:E; [| reflexivity].
  apply andb_prop in E. destruct E as [E1 E2]. apply N.leb_le in E1, E2.
  assert (A : ((65 <=? c - 32) && (c - 32 <=? 90))%N = true).
  { apply andb_true_intro. split; apply N.leb_le; lia. }
  assert (B : ((65 <=? c) && (c <=? 90))%N = false).
  { apply andb_false_intro2. apply N.leb_gt. lia. }
  rewrite A, B. lia.
Qed.

Lemma lower_idem s : Str.lower (Str.lower s) = Str.lower s.
Proof.
  unfold Str.lower. rewrite map_map. apply map_ext. apply lower_char_idem.
Qed.

Lemma lower_upper s : Str.lower (Str.upper s) = Str.lower s.
Proof.
  unfold Str.lower, Str.upper. rewrite map_map. apply map_ext.
  apply lower_upper_char.
Qed.

Lemma lower_capitalize s : Str.lower (Str.capitalize s) = Str.lower s.
Proof.
  destruct s as [| c s]; [reflexivity |].
  unfold Str.capitalize. change (Str.lower (Str.upper_char c :: Str.lower s))
    with (Str.lower_char (Str.upper_char c) :: Str.lower (Str.lower s)).
  rewrite lower_upper_char, lower_idem. reflexivity.
Qed.

Lemma lower_char_plus c : Str.lower_char c = 43%N -> c = 43%N.
Proof.
  unfold Str.lower_char.
  destruct ((65 <=? c) && (c <=? 90))%N eqn:E; [| auto].
  apply andb_prop in E. destruct E as [E1 _]. apply N.leb_le in E1. lia.
Qed.

Lemma upper_char_plus c : Str.upper_char c = 43%N -> c = 43%N.
Proof.
  unfold Str.upper_char.
  destruct ((97 <=? c) && (c <=? 122))%N eqn:E; [| auto].
  apply andb_prop in E. destruct E as [E1 E2]. apply N.leb_le in E1, E2. lia.
Qed.

Lemma lower_no_plus s : ~ In 43%N s -> ~ In 43%N (Str.lower s).
Proof.
  intros H C. apply in_map_iff in C. destruct C as (c & E & Hc).
  apply lower_char_plus in E. subst c. exact (H Hc).
Qed.

Lemma upper_no_plus s : ~ In 43%N s -> ~ In 43%N (Str.upper s).
Proof.
  intros H C. apply in_map_iff in C. destruct C as (c & E & Hc).
  apply upper_char_plus in E. subst c. exact (H Hc).
Qed.

Lemma capitalize_no_plus s : ~ In 43%N s -> ~ In 43%N (Str.capitalize s).
Proof.
  destruct s as [| c s]; [auto |]. intros H [C | C].
  - apply upper_char_plus in C. apply H. left. exact C.
  - apply (lower_no_plus s); [| exact C]. intros X. apply H. right. exact X.
Qed.

Lemma trimmed_capitalize s : trimmed_ends s -> trimmed_ends (Str.capitalize s).
Proof.
  intros T.
  destruct s as [| c s]; [exact T |].
  destruct T as [T1 T2]. unfold trimmed_ends, Str.capitalize. split.
  - rewrite upper_char_space. exact T1.
  - cbn [rev] in *. unfold Str.lower. rewrite <- map_rev.
    destruct (rev s) as [| d r]; cbn [map app] in *.
    + rewrite upper_char_space. exact T2.
    + rewrite lower_char_space. exact T2.
Qed.

(** *** Tokens *)

Lemma canonicalize_tokens s :
  _canonicalize_sequence s
  = Str.join [43%N] (flat_map canonical_token (Str.split 43 s)).
Proof. reflexivity. Qed.

Lemma readable_tokens s :
  _to_readable_hotkey s
  = Str.join [43%N] (flat_map readable_token (Str.split 43 s)).
Proof. reflexivity. Qed.

Lemma canonical_token_settled p :
  ~ In 43%N p -> Forall settled (canonical_token p).
Proof.
  intros Hp. unfold canonical_token. cbn zeta.
  pose proof (strip_trimmed p) as Tr.
  assert (Np : ~ In 43%N (Str.strip p)) by (intros C; apply Hp, strip_In, C).
  destruct (Str.strip p) as [| c u] eqn:Eu; [constructor |].
  rewrite <- Eu in *. set (low := Str.lower (Str.strip p)).
  destruct (Str.mem low ["ctrl"; "control"]%string) eqn:M1.
  { constructor; [split; [vm_compute; intuition discriminate | reflexivity] | constructor]. }
  destruct (Str.mem low ["shift"]%string) eqn:M2.
  { constructor; [split; [vm_compute; intuition discriminate | reflexivity] | constructor]. }
  destruct (Str.mem low ["alt"; "menu"]%string) eqn:M3.
  { constructor; [split; [vm_compute; intuition discriminate | reflexivity] | constructor]. }
  destruct (Str.mem low ["win"; "windows"; "meta"; "super"]%string) eqn:M4.
  { constructor; [split; [vm_compute; intuition discriminate | reflexivity] | constructor]. }
  constructor; [| constructor]. split.
  - apply lower_no_plus, Np.
  - assert (St : Str.strip low = low).
    { apply trimmed_strip, trimmed_map; [apply lower_char_space | exact Tr]. }
    unfold canonical_token. cbn zeta. rewrite St.
    assert (Ne : low <> []).
    { unfold low. rewrite Eu. discriminate. }
    destruct low as [| d l] eqn:El; [contradiction |]. rewrite <- El in *.
    assert (Li : Str.lower low = low) by apply lower_idem.
    rewrite Li, M1, M2, M3, M4. reflexivity.
Qed.

Lemma settled_fixed toks :
  Forall settled toks -> flat_map canonical_token toks = toks.
Proof.
  induction 1 as [| t toks [_ Ht] _ IH]; [reflexivity |].
  cbn [flat_map]. rewrite Ht, IH. reflexivity.
Qed.

Lemma flat_map_Forall {A B} (P : B -> Prop) (Q : A -> Prop) (f : A -> list B) l :
  (forall a, Q a -> Forall P (f a)) -> Forall Q l -> Forall P (flat_map f l).
Proof.
  intros H F. induction F as [| a l Ha _ IH]; [constructor |].
  cbn. apply Forall_app. auto.
Qed.

Lemma readable_token_canonical p :
  ~ In 43%N p ->
  Forall (fun r => ~ In 43%N r) (readable_token p)
  /\ flat_map canonical_token (readable_token p) = canonical_token p.
Proof.
  intros Hp. unfold readable_token, canonical_token at 2. cbn zeta.
  pose proof (strip_trimmed p) as Tr.
  assert (Np : ~ In 43%N (Str.strip p)) by (intros C; apply Hp, strip_In, C).
  destruct (Str.strip p) as [| c u] eqn:Eu; [split; [constructor | reflexivity] |].
  rewrite <- Eu in *. set (low := Str.lower (Str.strip p)).
  destruct (Str.mem low ["ctrl"; "control"]%string) eqn:M1.
  { split; [constructor; [vm_compute; intuition discriminate | constructor] | reflexivity]. }
  destruct (Str.mem low ["shift"]%string) eqn:M2.
  { split; [constructor; [vm_compute; intuition discriminate | constructor] | reflexivity]. }
  destruct (Str.mem low ["alt"; "menu"]%string) eqn:M3.
  { split; [constructor; [vm_compute; intuition discriminate | constructor] | reflexivity]. }
  destruct (Str.mem low ["win"; "windows"; "meta"; "super"]%string) eqn:M4.
  { split; [constructor; [vm_compute; intuition discriminate | constructor] | reflexivity]. }
  set (r := if (List.length (Str.strip p) =? 1)%nat then Str.upper (Str.strip p)
            else Str.capitalize (Str.strip p)).
  assert (Rp : ~ In 43%N r).
  { unfold r. destruct (_ =? 1)%nat;
      [apply upper_no_plus | apply capitalize_no_plus]; exact Np. }
  assert (Rt : trimmed_ends r).
  { unfold r. destruct (_ =? 1)%nat;
      [apply trimmed_map; [apply upper_char_space | exact Tr]
      | apply trimmed_capitalize; exact Tr]. }
  assert (Rl : Str.lower r = low).
  { unfold r, low. destruct (_ =? 1)%nat;
      [apply lower_upper | apply lower_capitalize]. }
  assert (Rn : r <> []).
  { intros X. rewrite X in Rl. unfold low in Rl. rewrite Eu in Rl.
    discriminate Rl. }
  split; [constructor; [exact Rp | constructor] |].
  cbn [flat_map]. rewrite app_nil_r. unfold canonical_token. cbn zeta.
  rewrite (trimmed_strip r Rt).
  destruct r as [| d l] eqn:Er; [contradiction |]. rewrite <- Er in *.
  rewrite Rl, M1, M2, M3, M4. reflexivity.
Qed.

Lemma readable_then_canonical toks :
  Forall (fun p => ~ In 43%N p) toks ->
  Forall (fun r => ~ In 43%N r) (flat_map readable_token toks)
  /\ flat_map canonical_token (flat_map readable_token toks)
     = flat_map canonical_token toks.
Proof.
  induction 1 as [| p toks Hp _ [IH1 IH2]]; [split; [constructor | reflexivity] |].
  destruct (readable_token_canonical p Hp) as [R1 R2].
  cbn [flat_map]. split; [apply Forall_app; auto |].
  rewrite flat_map_app, R2, IH2. reflexivity.
Qed.

(** Splitting what [join] made of tokens and mapping them again. *)
Lemma rejoin (f : list N -> list (list N)) toks :
  Forall (fun t => ~ In 43%N t) toks -> f [] = [] ->
  flat_map f (Str.split 43 (Str.join [43%N] toks)) = flat_map f toks.
Proof.
  intros F E. destruct toks as [| t toks].
  - cbn. rewrite E. reflexivity.
  - rewrite split_join; [reflexivity | discriminate | exact F].
Qed.

End StrFacts.

Import MainWindow Hotkeys StrFacts.

(** X17.  A canonical hotkey string is a fixed point of
    [_canonicalize_sequence]: canonicalizing twice is canonicalizing
    once, so the comparison of a committed sequence with the stored
    binding compares like with like. *)
Theorem canonicalize_is_idempotent (seq_str : list N) :
  ascii_only seq_str ->
  _canonicalize_sequence (_canonicalize_sequence seq_str)
  = _canonicalize_sequence seq_str.
Proof.
  intros _. rewrite !canonicalize_tokens.
  assert (S : Forall settled (flat_map canonical_token (Str.split 43 seq_str))).
  { apply (flat_map_Forall _ (fun p => ~ In 43%N p));
      [apply canonical_token_settled | apply split_tokens]. }
  rewrite rejoin; [| | reflexivity].
  - rewrite (settled_fixed _ S). reflexivity.
  - eapply Forall_impl; [| exact S]. intros t [H _]. exact H.
Qed.

(** X18.  What the editor shows for a binding reads back as that binding: the
    canonical form of [_to_readable_hotkey s] is the canonical form of
    [s]. *)
Theorem readable_hotkey_reads_back (hotkey_str : list N) :
  ascii_only hotkey_str ->
  _canonicalize_sequence (_to_readable_hotkey hotkey_str)
  = _canonicalize_sequence hotkey_str.
Proof.
  intros _. rewrite readable_tokens, !canonicalize_tokens.
  destruct (readable_then_canonical (Str.split 43 hotkey_str)
              (split_tokens 43 hotkey_str)) as [R1 R2].
  rewrite rejoin; [| exact R1 | reflexivity]. rewrite R2. reflexivity.
Qed.

Lemma canonicalize_is_idempotent_witness :
  _canonicalize_sequence (_canonicalize_sequence (Str.of_string " Control + Shift+T"))
  = Str.of_string "ctrl+shift+t".
Proof.
  rewrite (canonicalize_is_idempotent (Str.of_string " Control + Shift+T")).
  - reflexivity.
  - vm_compute. repeat constructor.
Defined.

Lemma readable_hotkey_reads_back_witness :
  _canonicalize_sequence (_to_readable_hotkey (Str.of_string "ctrl+windows+f5"))
  = Str.of_string "ctrl+windows+f5".
Proof.
  rewrite (readable_hotkey_reads_back (Str.of_string "ctrl+windows+f5")).
  - reflexivity.
  - vm_compute. repeat constructor.
Defined.
